(* ===== verification/_CoqProject ===== *)
-Q . S2P
Prelude.v
Types.v
Bytes.v
Wire.v
RawSend.v
RawRecv.v
Checksum.v
Server.v
ServerSpec.v
Client.v
Remote.v
World.v
Bulk.v
BulkWorld.v
BulkClient.v
TestBed.v
Links.v
DllList.v
HashTable.v
FreqList.v
Backends.v
RMem.v
Buse.v
BuseSpec.v
DiskSpec.v
DiskTheorems.v
Testing.v
TestingSpec.v
PageTable.v
VMem.v
Policies.v
Flush.v
Paging.v
Startup.v
VMemSpec.v
Programs.v
ConfFile.v
Rpc.v
RpcSpec.v
RpcClient.v
NetTheorems.v
Raid.v
RaidProofs.v
RaidSpec.v
RaidTheorems.v
Bitmap.v
SimLru.v
SimAlgs.v
SimPolicies.v
Sim.v
SimTable.v
SimInv.v
SimPaging.v
SimFault.v
SimSpec.v
Dpdk.v
DpdkSpec.v
Async.v
AsyncSpec.v
AsyncWorld.v
AsyncTheorems.v
PageRank.v
PageRankSpec.v
