(* ===== verification/Prelude.v ===== *)
(** * BlueBridge: a verification development

    BlueBridge gives programs memory that lives on other machines. A client
    sends UDP datagrams whose IPv6 destination address is itself the pointer:
    the 16 bytes hold a server's id, a command, arguments and an address in
    the server's memory. On top of the client library there are a user-level
    virtual memory that pages to remote memory (plain, or striped with
    parity), a network block device, and test programs. An older paging
    simulator is kept beside them. This library models that code, function
    by function, and proves what the parts promise each other and their users.

    ** The parts and their files

    - Shared: [Prelude] (integers, errors, the state monad, the weakest
      precondition [wp], heaps, arrays), [Types] (types.h), [Bytes] (buffers,
      [memcpy], byte order), [Wire] (the 16 bytes of an address and the layout
      of a frame), [Links] (doubly linked lists, shared by the lists below).
    - Raw-socket backend (src/ip6/lib/raw_backend, network.c): [RawSend] has
      the frame assembly and the transmit ring of udp_raw_send.c, [RawRecv]
      the receive ring and the receive loops of the client and the server,
      [Checksum] the checksum functions.
    - DPDK backend (src/ip6/lib/dpdk_backend): [Dpdk], theorems in [DpdkSpec].
    - Server library (server_lib.c): [Server] is [process_request];
      [ServerSpec] has the abstract server [spec] and the refinement.
    - Client library (client_lib.c): [Client]. [Remote] and [Bulk] state the
      contracts [RemoteHosts] and [BulkHosts] between the client and the
      servers, [BulkClient] derives the batched functions from them. [World]
      and [BulkWorld] compose client, frames, rings and servers over a network
      that delivers, and discharge the contracts; [TestBed] is a concrete
      network of one client and two servers, on which the witnesses run.
      Theorems: [NetTheorems], [DiskTheorems].
    - Remote memory block store (vmem/rmem.c): [RMem]. Memory and file stores
      (vmem/mem.c, vmem/disk.c) and the interface [BlockDev]: [Backends].
      RAID (vmem/rrmem.c): [Raid], [RaidProofs], [RaidSpec], [RaidTheorems].
    - Virtual memory (vmem/page_table.c): [DllList], [HashTable], [FreqList]
      (the three pointer structures), [PageTable] (entries, frames, the MMU),
      [VMem] (the five fault handlers and the flush), [Policies] (each handler
      implements the interface [PolicyOk]), [Flush], [Paging] (loads and
      stores with faults and retries), [Startup] (set-up, threads, shut-down),
      theorems in [VMemSpec]. [Programs]: two programs of apps/rmem_test.c
      on that memory.
    - Block device (buse/buse.c, apps/bb_disk.c): [Buse], [BuseSpec],
      [DiskSpec], theorems in [DiskTheorems].
    - Test program (apps/testing.c): [Testing], [TestingSpec].
    - Configuration file (config.c): [ConfFile].
    - Remote procedure calls on arrays (apps/thrift): [Rpc] (handlers by value
      and by shared pointer, client tests), [RpcSpec], [RpcClient].
    - Paging simulator (src/legacy/OldPageTable): [Bitmap] (the swap bitmap),
      [SimLru], [SimAlgs], [SimPolicies] (the five eviction algorithms and the
      contract [EvictionOk]), [Sim] (page table, swap and replay), [SimTable],
      [SimInv], [SimPaging], [SimFault], [SimSpec].
    - Asynchronous request/response benchmark (src/legacy/AsyncTCPLinux):
      [Async] has the client, the server and [rw_exact] on non-blocking
      sockets, [AsyncSpec] the invariant of one connection, [AsyncWorld] any
      number of clients, the server and the network as a step relation,
      [AsyncTheorems] what holds in every reachable world.
    - PageRank (src/legacy/pagerank): [PageRank], [PageRankSpec].

    ** How the code is modelled

    A C function is a function in the monad [M S]: from a state [S] to a
    result and a new state, or to one of the errors of [cerror] (abort, exit,
    a NULL or wild pointer, an index outside an array, division by zero, a
    loop that does not end). Globals and thread-local variables are fields of
    the state; a linked structure lives in a heap, a map from locations to
    nodes, with [malloc] and [free]; arrays are lists with checked indices;
    integers are [Z] with the conversions [u8], [u16], [u32], [u64] and [s32]
    where the types of the source make them. [wp m s Q] says that [m] returns
    from [s], without an error, with [Q]: every theorem of the form [wp] or
    [= Ok] is a statement of total correctness.

    A loop that is not a plain [for] has fuel, and running out of it is the
    error [Hang], so a [wp] theorem also says that the fuel was enough. The
    fuel is part of the definition and is a bound the code has: a step per
    frame or bucket for the scans of the page table, per allocated node for
    the walks of a list, per [epoll_wait] or burst that is still to come for
    the receive loops, per byte for the stream loops of buse.c and the lines
    of the configuration, per answer of the kernel for the loops around
    [rw_exact], one retry per possible fault for a load (1) and a store (2),
    one lap for the clock. [flush_buffer] retries [sendto] as often
    as the class [Kernel] says it may fail.

    What is not in the repository is a class or a parameter: [Kernel] (the
    kernel's end of a transmit ring; the instance [RingKernel] is given),
    [Calloc] and [Malloc] (addresses handed out are fresh), [DpdkTx],
    [Swap] (the client library the simulator was built against), [NbdHeader]
    (the structures of linux/nbd.h), [RaidNet] (which replies arrive when),
    [inet_pton] and [getsockname], the stubs that Thrift generates ([delivers]
    says what a call does), [Double] (the arithmetic of [double], of which only
    the exact conversion of an [int] is used). The MMU is part of the state of [PageTable]: a
    load needs read permission on the page, a store write permission, anything
    else is a fault. A page of the operating system is taken to be
    [BLOCK_SIZE] bytes, as the source does.

    ** What is proved

    - Transparency. Paged memory is a flat array of bytes for every sequence
      of loads and stores, for every policy and every block store
      ([paged_memory_is_flat]); over the network ([remote_paging_is_flat]);
      over RAID 4 with one host down ([raid4_paging_is_flat]). The block
      device is a flat array for every stream of requests
      ([bb_disk_is_flat], [buse_serves_a_flat_device]). The simulator replays
      every trace without losing a page ([simulator_is_transparent]).
    - Refinement. The server implements the abstract server
      ([process_request_refines_spec]); the handlers implement abstract
      queues and lists ([LRU_refines_list], [FFIFO_refines_queue]); the
      victims are the ones the names of the policies say.
    - Round trips. Addresses, frames, single and bulk reads after writes,
      RAID blocks, the configuration file.
    - Equivalence. The checksum is that of RFC 2460; the two backends put the
      same frames on the wire; calls by shared pointer compute what calls by
      value compute.
    - Event loops. In every world that the clients and the server of
      AsyncTCPLinux reach, with any interleaving and any partial reads and
      writes, no handler fails ([async_never_fails]), the counters are ordered
      ([async_counts]), the ring of time stamps is a queue
      ([async_ring_is_queue]) and every open client can still complete
      ([async_can_finish]).
    - Whole programs. testing.c passes and gives its memory back, the tests of
      ddc_client.c succeed; scan and word count compute on paged memory what
      they compute on an array; pagerank.c computes the ranks of a reference
      iteration ([pagerank_is_iteration]).
    - Limits. Places where the code does not do what it means to are theorems
      too: the bulk allocation that asks for too few bytes (the theorems on
      bulk allocation therefore have blocks of one byte, the default of
      types.h), the flush that makes the random policy hang, the RAID 5
      repair, the signed parity check, the DPDK receive loop that overshoots,
      the bitmap sizes that wrap, the default pipeline that makes the
      asynchronous client abort.

    ** What is not modelled

    Timing, printing and statistics; option parsing (but that of
    AsyncTCPLinux); the creation of sockets,
    rings, epoll sets, BPF filters and DPDK ports, which are system and
    library calls only; the [ioctl]s and the child process of buse.c;
    concurrency between threads of one process (the thread-local state of one
    thread is modelled; start-up of threads is in [Startup]); packet loss, except for
    RAID, where hosts may be silent. The delivering network serves a batch
    server by server in order. Of rmem_test.c: sorting (qsort), random
    access, its copy of PageRank on paged memory and the threaded word count.
    Of AsyncTCPLinux: the creation of sockets and the figures printed; a
    handler runs in one step, so bytes that arrive while it runs are found by
    a later one. Of pagerank: the vectors and matrices, which nothing calls,
    and lines that [sscanf] cannot parse. Of the simulator: traces come from a
    file ([-f]), the core map starts zeroed. Of apps/thrift: the set-up of
    GLib and Thrift and the timing loops. apps/server.c calls library
    functions with missing arguments. Vendored (uthash) and unrelated legacy
    programs (ndpproxy, the Python binding) are left out. *)

From Stdlib Require Export ZArith Lia.
From stdpp Require Export base numbers option fin_maps gmap list.

#[export] Set Default Goal Selector "!".
Global Open Scope Z_scope.

(** ** Machine integers

    A C integer is a [Z]; the unsigned conversions are written out where the
    source's type makes them happen. *)

Definition u8 (x : Z) : Z := x mod 2 ^ 8.
Definition u16 (x : Z) : Z := x mod 2 ^ 16.
Definition u32 (x : Z) : Z := x mod 2 ^ 32.
Definition u64 (x : Z) : Z := x mod 2 ^ 64.
(** Conversion to [char], which is signed on the x86 targets of the build. *)
Definition schar (x : Z) : Z := let y := u8 x in if y <? 128 then y else y - 256.
(** Conversion to [int]. *)
Definition s32 (x : Z) : Z := let y := u32 x in if y <? 2 ^ 31 then y else y - 2 ^ 32.

Lemma u8_small x : 0 <= x < 256 → u8 x = x.
Proof. intros. unfold u8. apply Z.mod_small. lia. Qed.
Lemma u16_small x : 0 <= x < 65536 → u16 x = x.
Proof. intros. unfold u16. apply Z.mod_small. lia. Qed.
Lemma u32_small x : 0 <= x < 2 ^ 32 → u32 x = x.
Proof. intros. unfold u32. apply Z.mod_small. lia. Qed.
Lemma u64_small x : 0 <= x < 2 ^ 64 → u64 x = x.
Proof. intros. unfold u64. apply Z.mod_small. lia. Qed.
Lemma u8_range x : 0 <= u8 x < 256.
Proof. unfold u8. apply Z.mod_pos_bound. lia. Qed.
Lemma u16_range x : 0 <= u16 x < 65536.
Proof. unfold u16. apply Z.mod_pos_bound. lia. Qed.
Lemma u64_range x : 0 <= u64 x < 2 ^ 64.
Proof. unfold u64. apply Z.mod_pos_bound. lia. Qed.

(** Bit operations stay inside the word. *)
Lemma lor_u32 x y : 0 <= x < 2 ^ 32 → 0 <= y < 2 ^ 32 → 0 <= Z.lor x y < 2 ^ 32.
Proof.
  intros Hx Hy. split; [apply Z.lor_nonneg; lia|].
  destruct (decide (Z.lor x y = 0)) as [->|Hne]; [done|].
  assert (0 <= Z.lor x y) by (apply Z.lor_nonneg; lia).
  apply Z.log2_lt_pow2; [lia|]. rewrite Z.log2_lor by lia.
  assert (∀ z, 0 <= z < 2 ^ 32 → Z.log2 z < 32) as Hlog.
  { intros z Hz. destruct (decide (z = 0)) as [->|]; [done|]. apply Z.log2_lt_pow2; lia. }
  pose proof (Hlog x Hx). pose proof (Hlog y Hy). lia.
Qed.

Definition byte_ok (x : Z) : Prop := 0 <= x < 256.

(** ** Failures and the state monad

    A C function either returns, with a result and a new state, or stops the
    process. The errors are the ways the modelled code stops. *)

Inductive cerror :=
| Abort          (* abort() *)
| Exit (n : Z)   (* exit(n) *)
| AssertFail     (* a failed assert *)
| NullDeref      (* load or store through NULL *)
| BadPointer     (* load or store through a freed or wild pointer *)
| OutOfBounds    (* array index outside the object *)
| DivByZero
| Overflow       (* signed integer overflow *)
| Hang.          (* the fuel of a loop ran out *)

#[export] Instance cerror_eq_dec : EqDecision cerror.
Proof. solve_decision. Defined.

Inductive res (S A : Type) :=
| Ok (a : A) (s : S)
| Err (e : cerror).
Arguments Ok {S A} _ _.
Arguments Err {S A} _.

Definition M (S A : Type) : Type := S → res S A.

#[export] Instance M_ret S : MRet (M S) := λ A a s, Ok a s.
#[export] Instance M_bind S : MBind (M S) := λ A B k m s,
  match m s with
  | Ok a s' => k a s'
  | Err e => Err e
  end.

Definition err {S A} (e : cerror) : M S A := λ _, Err e.
Definition gets {S A} (f : S → A) : M S A := λ s, Ok (f s) s.
Definition modify {S} (f : S → S) : M S unit := λ s, Ok tt (f s).
Definition guard_or {S} (b : bool) (e : cerror) : M S unit :=
  if b then mret tt else err e.
Definition when {S} (b : bool) (m : M S unit) : M S unit :=
  if b then m else mret tt.
(** Run a computation on a component of the state. *)
Definition zoom {S T A} (get : S → T) (put : T → S → S) (m : M T A) : M S A := λ s,
  match m (get s) with
  | Ok a t => Ok a (put t s)
  | Err e => Err e
  end.

(** The C loop [for (i = lo; i < hi; i++) body(i)]. *)
Fixpoint for_nat {S} (n : nat) (i : Z) (body : Z → M S unit) : M S unit :=
  match n with
  | O => mret tt
  | Datatypes.S n' => body i ;; for_nat n' (i + 1) body
  end.
Definition for_range {S} (lo hi : Z) (body : Z → M S unit) : M S unit :=
  for_nat (Z.to_nat (hi - lo)) lo body.

(** ** Total-correctness predicate transformer *)

Definition wp {S A} (m : M S A) (s : S) (Q : A → S → Prop) : Prop :=
  match m s with
  | Ok a s' => Q a s'
  | Err _ => False
  end.

(** The state a run ends in; [s0] when it stops with an error. *)
Definition state_of {S A} (s0 : S) (r : res S A) : S :=
  match r with Ok _ s => s | Err _ => s0 end.

Section wp_rules.
Context {S A B : Type}.
Implicit Types (m : M S A) (s : S).

Lemma wp_ret (a : A) s Q : wp (mret a) s Q = Q a s.
Proof. reflexivity. Qed.
Lemma wp_bind m (k : A → M S B) s Q :
  wp (m ≫= k) s Q = wp m s (λ a s', wp (k a) s' Q).
Proof. unfold wp, mbind, M_bind. by destruct (m s). Qed.
Lemma wp_gets (f : S → A) s Q : wp (gets f) s Q = Q (f s) s.
Proof. reflexivity. Qed.
Lemma wp_modify (f : S → S) s Q : wp (modify f) s Q = Q tt (f s).
Proof. reflexivity. Qed.
Lemma wp_mono m s (Q Q' : A → S → Prop) :
  wp m s Q → (∀ a s', Q a s' → Q' a s') → wp m s Q'.
Proof. unfold wp. destruct (m s); auto. Qed.
Lemma wp_ok m s Q : wp m s Q ↔ ∃ a s', m s = Ok a s' ∧ Q a s'.
Proof.
  unfold wp. destruct (m s) as [a s'|e].
  - split; [eauto|]. by intros (? & ? & [= <- <-] & ?).
  - split; [done|]. by intros (? & ? & ? & ?).
Qed.
Lemma wp_state_of m s s0 (Q : A → S → Prop) :
  wp m s Q → ∃ a, m s = Ok a (state_of s0 (m s)) ∧ Q a (state_of s0 (m s)).
Proof. intros (a & s' & E & HQ)%wp_ok. exists a. by rewrite E. Qed.
End wp_rules.

Lemma wp_seq_assoc {S A B C} (m1 : M S A) (m2 : M S B) (m3 : M S C) s Q :
  wp (m1;; m2;; m3) s Q = wp (m1;; m2) s (λ _ s', wp m3 s' Q).
Proof. unfold wp, mbind, M_bind. destruct (m1 s) as [? s1|]; [|done]. by destruct (m2 s1). Qed.

Lemma wp_bind_assoc {S A B C} (m1 : M S A) (m2 : M S B) (k : B → M S C) s Q :
  wp (m1;; b ← m2; k b) s Q = wp (m1;; m2) s (λ b s', wp (k b) s' Q).
Proof. unfold wp, mbind, M_bind. destruct (m1 s) as [? s1|]; [|done]. by destruct (m2 s1). Qed.

Lemma wp_zoom {S T A} (get : S → T) (put : T → S → S) (m : M T A) s Q :
  wp (zoom get put m) s Q = wp m (get s) (λ a t, Q a (put t s)).
Proof. unfold wp, zoom. by destruct (m (get s)). Qed.

Lemma wp_when_modify {S} b (f : S → S) s Q :
  wp (when b (modify f)) s Q = Q tt (if b then f s else s).
Proof. by destruct b. Qed.

Lemma wp_guard_or {S} b e (s : S) Q : b = true → Q tt s → wp (guard_or b e) s Q.
Proof. by intros ->. Qed.

Lemma wp_for_nat {S} (I : Z → S → Prop) n i body (s : S) Q :
  I i s →
  (∀ j s', i <= j < i + Z.of_nat n → I j s' → wp (body j) s' (λ _, I (j + 1))) →
  (∀ s', I (i + Z.of_nat n) s' → Q tt s') →
  wp (for_nat n i body) s Q.
Proof.
  revert i s. induction n as [|n IH]; intros i s HI Hb HQ; simpl.
  - rewrite wp_ret. apply HQ. by rewrite Z.add_0_r.
  - rewrite wp_bind. eapply wp_mono; [apply Hb; [lia|done]|].
    intros [] s' HI'. apply IH; [done| |].
    + intros j s'' Hj. apply Hb. lia.
    + intros s'' HI''. apply HQ. by replace (i + Z.of_nat (Datatypes.S n))
        with (i + 1 + Z.of_nat n) by lia.
Qed.

Lemma wp_for_range {S} (I : Z → S → Prop) lo hi body (s : S) Q :
  lo <= hi →
  I lo s →
  (∀ j s', lo <= j < hi → I j s' → wp (body j) s' (λ _, I (j + 1))) →
  (∀ s', I hi s' → Q tt s') →
  wp (for_range lo hi body) s Q.
Proof.
  intros Hle HI Hb HQ. unfold for_range. eapply wp_for_nat; [done| |].
  - intros j s' Hj. apply Hb. lia.
  - intros s' H. apply HQ. by replace hi with (lo + Z.of_nat (Z.to_nat (hi - lo))) by lia.
Qed.

(** Symbolic execution: expose the next primitive of a computation. *)
Ltac wp_pure := repeat (rewrite ?wp_bind, ?wp_ret, ?wp_gets, ?wp_modify, ?wp_zoom; simpl).

(** ** Arrays

    A C array is a list; [idx] is the checked access [a[i]] and [upd] the
    checked store. *)

Definition len {A} (l : list A) : Z := Z.of_nat (length l).
Definition idx {A} (l : list A) (i : Z) : option A :=
  if (0 <=? i) then l !! Z.to_nat i else None.
Definition upd {A} (l : list A) (i : Z) (x : A) : list A := <[Z.to_nat i := x]> l.

Definition aload {S A} (arr : S → list A) (i : Z) : M S A := λ s,
  match idx (arr s) i with
  | Some x => Ok x s
  | None => Err OutOfBounds
  end.
Definition astore {S A} (arr : S → list A) (put : list A → S → S) (i : Z) (x : A) : M S unit := λ s,
  match idx (arr s) i with
  | Some _ => Ok tt (put (upd (arr s) i x) s)
  | None => Err OutOfBounds
  end.

Section arrays.
Context {A : Type}.
Implicit Types (l : list A) (i j : Z).

Lemma len_nonneg l : 0 <= len l.
Proof. unfold len. lia. Qed.
Lemma len_nil : len (@nil A) = 0.
Proof. reflexivity. Qed.
Lemma len_cons x l : len (x :: l) = len l + 1.
Proof. unfold len. simpl. lia. Qed.
Lemma len_app l1 l2 : len (l1 ++ l2) = len l1 + len l2.
Proof. unfold len. rewrite length_app. lia. Qed.
Lemma idx_Some_range l i x : idx l i = Some x → 0 <= i < len l.
Proof.
  unfold idx, len. case (Z.leb_spec 0 i); [|done].
  intros ? ?%lookup_lt_Some. lia.
Qed.
Lemma idx_is_Some l i : 0 <= i < len l → ∃ x, idx l i = Some x.
Proof.
  unfold idx, len. intros ?. rewrite (proj2 (Z.leb_le 0 i)) by lia.
  apply lookup_lt_is_Some. lia.
Qed.
Lemma idx_None l i : ¬ (0 <= i < len l) → idx l i = None.
Proof.
  intros Hn. destruct (idx l i) eqn:E; [|done].
  apply idx_Some_range in E. lia.
Qed.
Lemma idx_of_nat l (n : nat) : idx l (Z.of_nat n) = l !! n.
Proof. unfold idx. by rewrite (proj2 (Z.leb_le _ _)), Nat2Z.id by lia. Qed.
Lemma len_upd l i x : len (upd l i x) = len l.
Proof. unfold len, upd. by rewrite length_insert. Qed.
Lemma idx_upd_eq l i x : 0 <= i < len l → idx (upd l i x) i = Some x.
Proof.
  unfold idx, upd, len. intros ?. rewrite (proj2 (Z.leb_le 0 i)) by lia.
  apply list_lookup_insert_eq. lia.
Qed.
Lemma idx_upd_ne l i j x : 0 <= i → i ≠ j → idx (upd l i x) j = idx l j.
Proof.
  unfold idx, upd. intros ??. case (Z.leb_spec 0 j); [|done].
  intros. apply list_lookup_insert_ne. lia.
Qed.
Lemma idx_upd l i j x :
  0 <= i < len l → idx (upd l i x) j = if decide (i = j) then Some x else idx l j.
Proof.
  intros. case_decide; subst; [by apply idx_upd_eq|]. apply idx_upd_ne; lia.
Qed.
Lemma upd_upd l i x y : upd (upd l i x) i y = upd l i y.
Proof. apply list_insert_insert_eq. Qed.
Lemma len_replicate n (x : A) : 0 <= n → len (replicate (Z.to_nat n) x) = n.
Proof. unfold len. rewrite length_replicate. lia. Qed.
Lemma idx_replicate n (x : A) i :
  0 <= i < n → idx (replicate (Z.to_nat n) x) i = Some x.
Proof.
  intros. unfold idx. rewrite (proj2 (Z.leb_le _ _)) by lia.
  apply lookup_replicate_2. lia.
Qed.
End arrays.

(** Linear arithmetic about the lengths of arrays. *)
Ltac len_lia :=
  do 3 rewrite ?len_app, ?len_cons, ?len_nil, ?len_upd in *; unfold len in *; lia.

Lemma wp_aload {S A} (arr : S → list A) i s x Q :
  idx (arr s) i = Some x → Q x s → wp (aload arr i) s Q.
Proof. intros H ?. unfold wp, aload. by rewrite H. Qed.
Lemma wp_astore {S A} (arr : S → list A) put i x s Q :
  0 <= i < len (arr s) → Q tt (put (upd (arr s) i x) s) → wp (astore arr put i x) s Q.
Proof.
  intros [y H]%idx_is_Some ?. unfold wp, astore. by rewrite H.
Qed.

(** [memcpy(dst, src, n)]: the new content of [dst]. *)
Definition memcpy {S} (dst src : list Z) (n : Z) : M S (list Z) :=
  if (n <=? len src) && (n <=? len dst)
  then mret (take (Z.to_nat n) src ++ drop (Z.to_nat n) dst)
  else err OutOfBounds.

Lemma wp_memcpy_full {S} (dst src : list Z) n (s : S) Q :
  len src = n → len dst = n → Q src s → wp (memcpy dst src n) s Q.
Proof.
  intros Hs Hd HQ. unfold memcpy. rewrite Hs, Hd, Z.leb_refl. simpl. rewrite wp_ret.
  rewrite take_ge, drop_ge by (unfold len in *; lia). by rewrite app_nil_r.
Qed.

(** ** The C heap

    [malloc] returns some location that is not live; which one is left to the
    allocator, so every theorem holds for all of them. [None] is [NULL]. *)

Abbreviation loc := positive.
Abbreviation ptr := (option positive).

Class Malloc := {
  malloc_loc : gset loc → loc;
  malloc_loc_fresh X : malloc_loc X ∉ X;
}.

(** A first-fit allocator above the highest live location, used to evaluate
    the definitions. *)
Definition bump_loc (X : gset loc) : loc := Pos.succ (set_fold Pos.max 1%positive X).

Lemma set_fold_max_ub (X : gset loc) x : x ∈ X → (x <= set_fold Pos.max 1 X)%positive.
Proof.
  revert x. apply (set_fold_ind_L (λ r X, ∀ x, x ∈ X → (x <= r)%positive)).
  - set_solver.
  - intros x X' r _ IH y [->%elem_of_singleton|Hy]%elem_of_union; [lia|].
    specialize (IH y Hy). lia.
Qed.

#[export] Program Instance bump_malloc : Malloc := {| malloc_loc := bump_loc |}.
Next Obligation. intros X H%set_fold_max_ub. unfold bump_loc in H. lia. Qed.

(** A state [S] that holds a heap of nodes of type [N]. *)
Class HasHeap (S N : Type) := {
  heap_of : S → gmap loc N;
  set_heap : gmap loc N → S → S;
  heap_of_set h s : heap_of (set_heap h s) = h;
  set_heap_set h h' s : set_heap h' (set_heap h s) = set_heap h' s;
  set_heap_id s : set_heap (heap_of s) s = s;
}.

Section heap_ops.
Context {S N : Type} `{HasHeap S N}.

Definition load (p : ptr) : M S N := λ s,
  match p with
  | None => Err NullDeref
  | Some l =>
      match heap_of s !! l with
      | Some n => Ok n s
      | None => Err BadPointer
      end
  end.
Definition store (p : ptr) (f : N → N) : M S unit := λ s,
  match p with
  | None => Err NullDeref
  | Some l =>
      match heap_of s !! l with
      | Some n => Ok tt (set_heap (<[l := f n]> (heap_of s)) s)
      | None => Err BadPointer
      end
  end.
Definition free (p : ptr) : M S unit := λ s,
  match p with
  | None => Ok tt s
  | Some l =>
      match heap_of s !! l with
      | Some _ => Ok tt (set_heap (delete l (heap_of s)) s)
      | None => Err BadPointer
      end
  end.
Definition malloc `{Malloc} (n : N) : M S ptr := λ s,
  let l := malloc_loc (dom (heap_of s)) in
  Ok (Some l) (set_heap (<[l := n]> (heap_of s)) s).

Lemma wp_load l n s Q : heap_of s !! l = Some n → Q n s → wp (load (Some l)) s Q.
Proof. intros Hl ?. unfold wp, load. by rewrite Hl. Qed.
Lemma wp_store l n f s Q :
  heap_of s !! l = Some n → Q tt (set_heap (<[l := f n]> (heap_of s)) s) →
  wp (store (Some l) f) s Q.
Proof. intros Hl ?. unfold wp, store. by rewrite Hl. Qed.
Lemma wp_free l n s Q :
  heap_of s !! l = Some n → Q tt (set_heap (delete l (heap_of s)) s) →
  wp (free (Some l)) s Q.
Proof. intros Hl ?. unfold wp, free. by rewrite Hl. Qed.
Lemma wp_malloc `{Malloc} n s Q :
  (∀ l, heap_of s !! l = None → Q (Some l) (set_heap (<[l := n]> (heap_of s)) s)) →
  wp (malloc n) s Q.
Proof.
  intros HQ. unfold wp, malloc. apply HQ.
  apply not_elem_of_dom, malloc_loc_fresh.
Qed.
End heap_ops.

Definition is_null (p : ptr) : bool := match p with None => true | Some _ => false end.
Definition ptr_eqb (p q : ptr) : bool := bool_decide (p = q).

Lemma ptr_eqb_refl p : ptr_eqb p p = true.
Proof. unfold ptr_eqb. by rewrite bool_decide_eq_true. Qed.
Lemma ptr_eqb_ne p q : p ≠ q → ptr_eqb p q = false.
Proof. intros. unfold ptr_eqb. by rewrite bool_decide_eq_false. Qed.

(** ** What a computation leaves alone

    [keeps f m]: running [m] does not change the component [f] of the state.
    The hint database [keeps] proves it from the shape of [m]. *)

Definition keeps {S X A} (f : S → X) (m : M S A) : Prop :=
  ∀ s a s', m s = Ok a s' → f s' = f s.

Create HintDb keeps.

Section keeps.
Context {S X : Type} (f : S → X).

Lemma keeps_ret {A} (a : A) : keeps f (mret a).
Proof. by intros s b s' [= _ ->]. Qed.
Lemma keeps_err {A} e : keeps f (err e : M S A).
Proof. done. Qed.
Lemma keeps_gets {A} (g : S → A) : keeps f (gets g).
Proof. by intros s b s' [= _ ->]. Qed.
Lemma keeps_modify (g : S → S) : (∀ s, f (g s) = f s) → keeps f (modify g).
Proof. by intros Hg s b s' [= _ <-]. Qed.
Lemma keeps_bind {A B} (m : M S A) (k : A → M S B) :
  keeps f m → (∀ a, keeps f (k a)) → keeps f (m ≫= k).
Proof.
  intros Hm Hk s b s'. unfold mbind, M_bind. destruct (m s) as [a s1|] eqn:E; [|done].
  intros Hb. by rewrite (Hk _ _ _ _ Hb), (Hm _ _ _ E).
Qed.
Lemma keeps_zoom {T A} (get : S → T) put (m : M T A) :
  (∀ t s, f (put t s) = f s) → keeps f (zoom get put m).
Proof.
  intros Hp s a s'. unfold zoom. destruct (m (get s)); [|done]. by intros [= _ <-].
Qed.
Lemma keeps_aload {A} (arr : S → list A) i : keeps f (aload arr i).
Proof. intros s a s'. unfold aload. destruct (idx _ _); [|done]. by intros [= _ ->]. Qed.
Lemma keeps_astore {A} (arr : S → list A) put i x :
  (∀ l s, f (put l s) = f s) → keeps f (astore arr put i x).
Proof.
  intros Hp s a s'. unfold astore. destruct (idx _ _); [|done]. by intros [= _ <-].
Qed.
Lemma keeps_if {A} (b : bool) (m m' : M S A) :
  keeps f m → keeps f m' → keeps f (if b then m else m').
Proof. by destruct b. Qed.
Lemma keeps_for_range lo hi (body : Z → M S unit) :
  (∀ i, keeps f (body i)) → keeps f (for_range lo hi body).
Proof.
  intros Hb. unfold for_range. generalize (Z.to_nat (hi - lo)) as n. intros n. revert lo.
  induction n as [|n IH]; intros i; [apply keeps_ret|].
  change (for_nat (Datatypes.S n) i body) with (body i;; for_nat n (i + 1) body).
  by apply keeps_bind.
Qed.
Lemma keeps_wp {A} (m : M S A) s Q :
  keeps f m → wp m s Q → wp m s (λ a s', Q a s' ∧ f s' = f s).
Proof.
  intros Hk. unfold wp. destruct (m s) as [a s'|] eqn:E; [|done]. intros HQ.
  split; [done|]. by apply (Hk _ _ _ E).
Qed.
End keeps.

#[export] Hint Resolve keeps_ret keeps_err keeps_gets keeps_aload : keeps.
#[export] Hint Extern 1 (keeps _ (modify _)) => apply keeps_modify; intros; reflexivity : keeps.
#[export] Hint Extern 1 (keeps _ (zoom _ _ _)) => apply keeps_zoom; intros; reflexivity : keeps.
#[export] Hint Extern 1 (keeps _ (astore _ _ _ _)) =>
  apply keeps_astore; intros; reflexivity : keeps.

(** Follow the structure of the computation; the hints close the leaves. *)
Ltac keeps_tac :=
  repeat (intros; first
    [ solve [auto with keeps]
    | apply keeps_bind | apply keeps_if | apply keeps_for_range
    | match goal with |- keeps _ (match ?x with _ => _ end) => destruct x end ]).
