(* ===== verification/Types.v ===== *)
(** * Constants and wire types of src/ip6/lib/types.h *)

From S2P Require Import Prelude.

(** [BLOCK_SIZE] is a build constant. The definitions are written for any
    positive block size; [default_config] is the one of the header. *)
Class Config := {
  BLOCK_SIZE : Z;
  BLOCK_SIZE_pos : 0 < BLOCK_SIZE;
}.
#[export] Program Instance default_config : Config := {| BLOCK_SIZE := 1 |}.
Next Obligation. done. Qed.

Definition ETH_HDRLEN : Z := 14.
Definition IP6_HDRLEN : Z := 40.
Definition UDP_HDRLEN : Z := 8.
Definition IPV6_SIZE : Z := 16.
Definition POINTER_SIZE : Z := 8.

Definition ALLOC_CMD : Z := 1.
Definition WRITE_CMD : Z := 2.
Definition READ_CMD : Z := 3.
Definition FREE_CMD : Z := 4.
Definition ALLOC_BULK_CMD : Z := 5.
Definition WRITE_BULK_CMD : Z := 6.
Definition READ_BULK_CMD : Z := 7.
Definition TRIM_CMD : Z := 8.

Record ip6_memaddr := Memaddr {
  subid : Z;  (* uint16_t *)
  cmd : Z;    (* uint16_t *)
  args : Z;   (* uint32_t *)
  paddr : Z;  (* uint64_t *)
}.
Record ip6_memaddr_block := MemaddrBlock {
  memaddr : ip6_memaddr;
  length_ : Z;
  offset : Z;
}.
Record pkt_rqst := PktRqst {
  dst_addr : ip6_memaddr;
  dst_port : Z;
  data : list Z;
  datalen : Z;
}.

#[export] Instance ip6_memaddr_eq_dec : EqDecision ip6_memaddr.
Proof. solve_decision. Defined.
#[export] Instance pkt_rqst_eq_dec : EqDecision pkt_rqst.
Proof. solve_decision. Defined.

Definition set_subid (x : Z) (a : ip6_memaddr) := Memaddr x (cmd a) (args a) (paddr a).
Definition set_cmd (x : Z) (a : ip6_memaddr) := Memaddr (subid a) x (args a) (paddr a).
Definition set_args (x : Z) (a : ip6_memaddr) := Memaddr (subid a) (cmd a) x (paddr a).
Definition set_paddr (x : Z) (a : ip6_memaddr) := Memaddr (subid a) (cmd a) (args a) x.
