(* ===== verification/Bytes.v ===== *)
(** * Byte buffers

    Checked accesses to a buffer, [memcpy] between buffers at an offset, and
    the little-endian layout of integers in memory (the targets of the build
    are x86) with [htons]/[ntohs]. *)

From S2P Require Import Prelude.

(** Checked byte access and [memcpy(&dst[d], &src[s], n)]. *)
Definition rd {S} (l : list Z) (i : Z) : M S Z :=
  match idx l i with Some x => mret x | None => err OutOfBounds end.
Definition wr {S} (l : list Z) (i x : Z) : M S (list Z) :=
  match idx l i with Some _ => mret (upd l i x) | None => err OutOfBounds end.
Definition copy {S} (dst : list Z) (d : Z) (src : list Z) (s n : Z) : M S (list Z) :=
  if (0 <=? d) && (0 <=? s) && (0 <=? n) && (d + n <=? len dst) && (s + n <=? len src)
  then mret (take (Z.to_nat d) dst ++ take (Z.to_nat n) (drop (Z.to_nat s) src) ++
             drop (Z.to_nat (d + n)) dst)
  else err OutOfBounds.

Lemma wp_rd {S} l i x (s : S) Q : idx l i = Some x → Q x s → wp (rd l i) s Q.
Proof. intros E ?. unfold rd. by rewrite E. Qed.
Lemma wp_wr {S} l i x (s : S) Q : 0 <= i < len l → Q (upd l i x) s → wp (wr l i x) s Q.
Proof. intros [y E]%idx_is_Some ?. unfold wr. by rewrite E. Qed.
Lemma wp_aload_list {S A} (l : list A) i x (s : S) Q :
  idx l i = Some x → Q x s → wp (aload (λ _, l) i) s Q.
Proof. intros E ?. by eapply wp_aload. Qed.

Lemma idx_ext {A} (l l' : list A) : (∀ i, idx l i = idx l' i) → l = l'.
Proof. intros E. apply list_eq. intros k. by rewrite <-!idx_of_nat. Qed.

Lemma idx_take {A} (l : list A) n i : 0 <= n → idx (take (Z.to_nat n) l) i = if decide (i < n) then idx l i else None.
Proof.
  intros Hn. unfold idx. case (Z.leb_spec 0 i); intros; [|by case_decide].
  case_decide; [by rewrite lookup_take_lt by lia|]. by rewrite lookup_take_ge by lia.
Qed.
Lemma idx_drop {A} (l : list A) n i : 0 <= n → 0 <= i → idx (drop (Z.to_nat n) l) i = idx l (n + i).
Proof.
  intros Hn Hi. unfold idx. rewrite !(proj2 (Z.leb_le 0 _)) by lia. rewrite lookup_drop.
  f_equal. lia.
Qed.
Lemma idx_app {A} (l l' : list A) i :
  0 <= i → idx (l ++ l') i = if decide (i < len l) then idx l i else idx l' (i - len l).
Proof.
  intros Hi. unfold idx, len. rewrite (proj2 (Z.leb_le 0 i)) by lia. case_decide.
  - by rewrite lookup_app_l by lia.
  - rewrite lookup_app_r by lia. rewrite (proj2 (Z.leb_le 0 _)) by lia. f_equal. lia.
Qed.
Lemma len_take {A} (l : list A) n : 0 <= n <= len l → len (take (Z.to_nat n) l) = n.
Proof. unfold len. rewrite length_take. lia. Qed.
Lemma len_drop {A} (l : list A) n : 0 <= n <= len l → len (drop (Z.to_nat n) l) = len l - n.
Proof. unfold len. rewrite length_drop. lia. Qed.

Lemma wp_copy {S} dst d src o n (s : S) Q :
  0 <= d → 0 <= o → 0 <= n → d + n <= len dst → o + n <= len src →
  (∀ l, len l = len dst →
     (∀ x, 0 <= x < len dst →
        idx l x = if decide (d <= x < d + n) then idx src (o + (x - d)) else idx dst x) →
     Q l s) →
  wp (copy dst d src o n) s Q.
Proof.
  intros ????? HQ. unfold copy. rewrite !(proj2 (Z.leb_le _ _)) by lia. simpl. rewrite wp_ret.
  assert (len (take (Z.to_nat n) (drop (Z.to_nat o) src)) = n) as Hm.
  { rewrite len_take; rewrite ?len_drop by lia; lia. }
  apply HQ.
  - rewrite !len_app, Hm, len_take, len_drop by lia. lia.
  - intros x Hx. rewrite idx_app, len_take by lia. case_decide.
    { rewrite idx_take by lia. rewrite decide_True by done. by rewrite decide_False by lia. }
    rewrite idx_app, Hm by lia. case_decide.
    + rewrite idx_take, decide_True, idx_drop by lia. by rewrite decide_True by lia.
    + rewrite idx_drop by lia. rewrite decide_False by lia. f_equal. lia.
Qed.
Lemma wp_copy_all {S} dst src n (s : S) Q :
  len dst = n → len src = n → Q src s → wp (copy dst 0 src 0 n) s Q.
Proof.
  intros Hd Hs HQ. apply wp_copy; try lia; [apply (eq_ind _ _ (len_nonneg dst) _ Hd)|].
  intros l Hl Hidx. replace l with src; [done|]. apply idx_ext. intros i.
  destruct (decide (0 <= i < n)) as [Hi|Hi].
  - rewrite Hidx, decide_True by lia. f_equal. lia.
  - rewrite !idx_None; [done|lia..].
Qed.


(** ** Integers in memory *)

(** The [n] bytes of [x], least significant first. *)
Fixpoint le (n : nat) (x : Z) : list Z :=
  match n with O => [] | S n => x mod 256 :: le n (x / 256) end.
Fixpoint un_le (l : list Z) : Z :=
  match l with [] => 0 | b :: l => b + 256 * un_le l end.

Lemma length_le n x : length (le n x) = n.
Proof. revert x. induction n as [|n IH]; intros x; simpl; [done|]. by rewrite IH. Qed.
Lemma len_le n x : len (le n x) = Z.of_nat n.
Proof. unfold len. by rewrite length_le. Qed.
Lemma le_bytes n x : Forall byte_ok (le n x).
Proof.
  revert x. induction n as [|n IH]; intros x; simpl; constructor; [|done].
  apply Z.mod_pos_bound. lia.
Qed.
Lemma un_le_le n x : 0 <= x < 256 ^ Z.of_nat n → un_le (le n x) = x.
Proof.
  revert x. induction n as [|n IH]; intros x Hx; simpl; [simpl in Hx; lia|].
  rewrite IH.
  - pose proof (Z.div_mod x 256 ltac:(lia)). lia.
  - replace (Z.of_nat (S n)) with (Z.of_nat n + 1) in Hx by lia.
    rewrite Z.pow_add_r, Z.pow_1_r in Hx by lia. split; [apply Z.div_pos; lia|].
    apply Z.div_lt_upper_bound; lia.
Qed.
Lemma un_le_range l : Forall byte_ok l → 0 <= un_le l < 256 ^ len l.
Proof.
  induction 1 as [|b l Hb Hl IH]; [done|]. rewrite len_cons. pose proof (len_nonneg l).
  rewrite Z.pow_add_r, Z.pow_1_r by lia. cbn [un_le]. unfold byte_ok in Hb. lia.
Qed.
Lemma le_un_le l : Forall byte_ok l → le (length l) (un_le l) = l.
Proof.
  induction 1 as [|b l Hb Hl IH]; [done|]. cbn [length le un_le]. unfold byte_ok in Hb. f_equal.
  - rewrite Z.mul_comm, Z_mod_plus_full by lia. apply Z.mod_small. lia.
  - rewrite Z.mul_comm, Z_div_plus_full by lia. rewrite Z.div_small by lia. by rewrite Z.add_0_l.
Qed.

(** [htons] and [ntohs] swap the two bytes. *)
Definition htons (x : Z) : Z :=
  Z.lor (Z.shiftl (Z.land x 255) 8) (Z.land (Z.shiftr x 8) 255).
Abbreviation ntohs := htons.

Lemma htons_arith x : htons x = 256 * (x mod 256) + x / 256 mod 256.
Proof.
  unfold htons. change 255 with (Z.ones 8). rewrite !Z.land_ones by lia.
  rewrite Z.shiftl_mul_pow2, Z.shiftr_div_pow2 by lia. change (2 ^ 8) with 256.
  assert (Z.land (x mod 256 * 256) (x / 256 mod 256) = 0) as E.
  { apply Z.bits_inj'. intros n Hn. rewrite Z.land_spec, Z.bits_0. change 256 with (2 ^ 8).
    destruct (decide (n < 8)).
    - by rewrite Z.mul_pow2_bits_low by lia.
    - rewrite (Z.mod_pow2_bits_high (x / 2 ^ 8)) by lia. by rewrite andb_false_r. }
  pose proof (Z.add_lor_land (x mod 256 * 256) (x / 256 mod 256)). lia.
Qed.
Lemma htons_range x : 0 <= htons x < 65536.
Proof.
  rewrite htons_arith. pose proof (Z.mod_pos_bound x 256). pose proof (Z.mod_pos_bound (x / 256) 256). lia.
Qed.
Lemma htons_htons x : 0 <= x < 65536 → htons (htons x) = x.
Proof.
  intros Hx. pose proof (Z.mod_pos_bound x 256). pose proof (Z.div_mod x 256 ltac:(lia)).
  assert (0 <= x / 256 < 256) by (split; [apply Z.div_pos; lia|apply Z.div_lt_upper_bound; lia]).
  assert (htons x = x / 256 + x mod 256 * 256) as E.
  { rewrite htons_arith, (Z.mod_small (x / 256)) by lia. lia. }
  rewrite (htons_arith (htons x)), E, Z_mod_plus_full, Z_div_plus_full by lia.
  rewrite (Z.mod_small (x / 256)), (Z.div_small (x / 256)) by lia. rewrite Z.add_0_l, Z.mod_mod by lia. lia.
Qed.

(** ** Slices *)

Definition slice (l : list Z) (o n : Z) : list Z := take (Z.to_nat n) (drop (Z.to_nat o) l).

Lemma len_slice l o n : 0 <= o → 0 <= n → o + n <= len l → len (slice l o n) = n.
Proof. intros. unfold slice. rewrite len_take; rewrite ?len_drop by lia; lia. Qed.
Lemma idx_slice l o n i :
  0 <= o → 0 <= n → 0 <= i → idx (slice l o n) i = if decide (i < n) then idx l (o + i) else None.
Proof.
  intros. unfold slice. rewrite idx_take by lia. case_decide; [|done]. by rewrite idx_drop by lia.
Qed.
