(* ===== verification/Wire.v ===== *)
(** * Addresses and frames on the wire

    The 16 bytes of an [ip6_memaddr] (src/ip6/lib/types.h), which are an IPv6
    address on the wire, and the offsets of the fields of a frame as
    src/ip6/lib/raw_backend lays it out: Ethernet, IPv6 and UDP header, then
    the payload. *)

From S2P Require Import Prelude Types Bytes.

(** ** struct ip6_memaddr in memory *)

Definition enc_addr (a : ip6_memaddr) : list Z :=
  le 2 (subid a) ++ le 2 (cmd a) ++ le 4 (args a) ++ le 8 (paddr a).
Definition dec_addr (l : list Z) : ip6_memaddr :=
  Memaddr (un_le (slice l 0 2)) (un_le (slice l 2 2)) (un_le (slice l 4 4)) (un_le (slice l 8 8)).

Record addr_ok (a : ip6_memaddr) : Prop := {
  ao_subid : 0 <= subid a < 2 ^ 16;
  ao_cmd : 0 <= cmd a < 2 ^ 16;
  ao_args : 0 <= args a < 2 ^ 32;
  ao_paddr : 0 <= paddr a < 2 ^ 64;
}.

Lemma len_enc_addr a : len (enc_addr a) = 16.
Proof. unfold enc_addr. by rewrite !len_app, !len_le. Qed.
Lemma enc_addr_bytes a : Forall byte_ok (enc_addr a).
Proof. unfold enc_addr. repeat (apply Forall_app; split); apply le_bytes. Qed.
Lemma dec_enc_addr a : addr_ok a → dec_addr (enc_addr a) = a.
Proof.
  intros [H1 H2 H3 H4]. destruct a as [x1 x2 x3 x4]. simpl in *.
  unfold dec_addr, enc_addr, slice. change (Z.to_nat 0) with 0%nat. change (Z.to_nat 2) with 2%nat.
  change (Z.to_nat 4) with 4%nat. change (Z.to_nat 8) with 8%nat.
  f_equal; cbn [le app drop take]; [apply (un_le_le 2)|apply (un_le_le 2)|apply (un_le_le 4)|apply (un_le_le 8)];
    done.
Qed.
Lemma take_drop_2 {A} (l : list A) : length l = 16%nat →
  take 2 l ++ take 2 (drop 2 l) ++ take 4 (drop 4 l) ++ take 8 (drop 8 l) = l.
Proof. intros Hl. do 16 (destruct l as [|? l]; [done|]). by destruct l. Qed.
Lemma enc_dec_addr l : len l = 16 → Forall byte_ok l → enc_addr (dec_addr l) = l.
Proof.
  intros Hl Hb. assert (length l = 16%nat) as Hn by (unfold len in Hl; lia).
  assert (∀ n k, (k + n <= 16)%nat → le n (un_le (take n (drop k l))) = take n (drop k l)) as Hle.
  { intros n k Hk. assert (length (take n (drop k l)) = n) as E by (rewrite length_take, length_drop; lia).
    rewrite <-E at 1. apply le_un_le. by apply Forall_take, Forall_drop. }
  unfold enc_addr, dec_addr, slice. cbn [subid cmd args paddr].
  change (Z.to_nat 0) with 0%nat. change (Z.to_nat 2) with 2%nat.
  change (Z.to_nat 4) with 4%nat. change (Z.to_nat 8) with 8%nat.
  rewrite !Hle by lia. rewrite drop_0. by apply take_drop_2.
Qed.
Lemma dec_addr_ok l : len l = 16 → Forall byte_ok l → addr_ok (dec_addr l).
Proof.
  intros Hl Hb. assert (∀ o n, 0 <= o → 0 <= n → o + n <= 16 →
    0 <= un_le (slice l o n) < 256 ^ n) as Hr.
  { intros o n Ho Hn Hon. rewrite <-(len_slice l o n) at 3 by lia. apply un_le_range.
    unfold slice. by apply Forall_take, Forall_drop. }
  split; apply Hr; lia.
Qed.
Lemma enc_addr_inj a b : addr_ok a → addr_ok b → enc_addr a = enc_addr b → a = b.
Proof. intros Ha Hb E. by rewrite <-(dec_enc_addr a Ha), <-(dec_enc_addr b Hb), E. Qed.

(** ** The layout of a frame *)

Definition OFF_TYPE : Z := 12.
Definition OFF_PLEN : Z := ETH_HDRLEN + 4.
Definition OFF_SRC : Z := ETH_HDRLEN + 8.
Definition OFF_DST : Z := ETH_HDRLEN + 24.
Definition OFF_SPORT : Z := ETH_HDRLEN + IP6_HDRLEN.
Definition OFF_DPORT : Z := ETH_HDRLEN + IP6_HDRLEN + 2.
Definition OFF_ULEN : Z := ETH_HDRLEN + IP6_HDRLEN + 4.
Definition OFF_CHECK : Z := ETH_HDRLEN + IP6_HDRLEN + 6.
Definition OFF_DATA : Z := ETH_HDRLEN + IP6_HDRLEN + UDP_HDRLEN.

(** ** Writing a field *)

(** The buffer with [src] at offset [o]. *)
Definition splice (f : list Z) (o : Z) (src : list Z) : list Z :=
  take (Z.to_nat o) f ++ src ++ drop (Z.to_nat (o + len src)) f.

Lemma len_splice f o src : 0 <= o → o + len src <= len f → len (splice f o src) = len f.
Proof.
  intros. pose proof (len_nonneg src). unfold splice.
  rewrite !len_app, len_take, len_drop by lia. lia.
Qed.
Lemma wp_copy_splice {S} f o src n (s : S) Q :
  0 <= o → n = len src → o + n <= len f → Q (splice f o src) s → wp (copy f o src 0 n) s Q.
Proof.
  intros Ho -> Hl HQ. pose proof (len_nonneg src). unfold copy.
  rewrite !(proj2 (Z.leb_le _ _)) by lia. simpl. rewrite wp_ret.
  rewrite drop_0, (take_ge src) by (unfold len; lia). done.
Qed.
Lemma splice_splice f o s1 s2 : 0 <= o → o + len s1 + len s2 <= len f →
  splice (splice f o s1) (o + len s1) s2 = splice f o (s1 ++ s2).
Proof.
  intros Ho Hf. pose proof (len_nonneg s1). pose proof (len_nonneg s2). unfold splice at 1 3. rewrite len_app.
  unfold splice.
  assert (len (take (Z.to_nat o) f ++ s1) = o + len s1) as Hl by (rewrite len_app, len_take; lia).
  rewrite !(app_assoc _ s1 (drop (Z.to_nat (o + len s1)) f)). set (A := take _ f ++ s1) in *.
  rewrite (take_app_length' A) by (unfold len in *; lia). rewrite drop_app_ge by (unfold len in *; lia).
  rewrite drop_drop. replace (Z.to_nat (o + len s1) + (Z.to_nat (o + len s1 + len s2) - length A))%nat
    with (Z.to_nat (o + (len s1 + len s2))) by (unfold len in *; lia). unfold A. by rewrite <-!app_assoc.
Qed.
Lemma wp_copy_slice {S} dst d src o n (s : S) Q : 0 <= d → 0 <= o → 0 <= n → d + n <= len dst → o + n <= len src →
  Q (splice dst d (slice src o n)) s → wp (copy dst d src o n) s Q.
Proof.
  intros ????? HQ. unfold copy. rewrite !(proj2 (Z.leb_le _ _)) by lia. simpl. rewrite wp_ret.
  unfold splice in HQ. by rewrite len_slice in HQ by lia.
Qed.
Lemma slice_splice_eq f o src :
  0 <= o → o + len src <= len f → slice (splice f o src) o (len src) = src.
Proof.
  intros. pose proof (len_nonneg src). unfold slice, splice.
  rewrite drop_app_length' by (rewrite length_take; unfold len in *; lia).
  by rewrite take_app_length' by (unfold len; lia).
Qed.
Lemma slice_splice_ne f o src o' n :
  0 <= o → o + len src <= len f → 0 <= o' → 0 <= n → o' + n <= len f →
  o' + n <= o ∨ o + len src <= o' →
  slice (splice f o src) o' n = slice f o' n.
Proof.
  intros. pose proof (len_nonneg src). apply idx_ext. intros i.
  destruct (decide (0 <= i < n)) as [Hi|Hi].
  2: { pose proof (len_splice f o src). rewrite !idx_None; [done|rewrite len_slice; lia..]. }
  rewrite !idx_slice, !decide_True by lia. unfold splice.
  rewrite idx_app, len_take by lia. case_decide.
  - rewrite idx_take, decide_True by lia. done.
  - rewrite idx_app by lia. rewrite decide_False by lia.
    rewrite idx_drop by lia. f_equal. lia.
Qed.
Lemma slice_take f n o k :
  0 <= o → 0 <= k → 0 <= n → o + k <= n → slice (take (Z.to_nat n) f) o k = slice f o k.
Proof.
  intros. apply idx_ext. intros i. destruct (decide (0 <= i)); [|rewrite !idx_None; [done|lia..]].
  rewrite !idx_slice by lia. case_decide; [|done]. rewrite idx_take, decide_True by lia. done.
Qed.
Lemma slice_0 f o : slice f o 0 = [].
Proof. unfold slice. by rewrite take_0. Qed.
Lemma slice_bytes f o n : Forall byte_ok f → Forall byte_ok (slice f o n).
Proof. intros. unfold slice. by apply Forall_take, Forall_drop. Qed.
Lemma splice_bytes f o src :
  Forall byte_ok f → Forall byte_ok src → Forall byte_ok (splice f o src).
Proof.
  intros. unfold splice. repeat (apply Forall_app; split); (done || by apply Forall_take || by apply Forall_drop).
Qed.

Lemma slice_split f o a b : 0 <= o → 0 <= a → 0 <= b → slice f o (a + b) = slice f o a ++ slice f (o + a) b.
Proof.
  intros. unfold slice. rewrite (Z2Nat.inj_add o), (Z2Nat.inj_add a) by lia.
  rewrite <-drop_drop, take_take_drop. done.
Qed.
Lemma slice_slice f o n o' n' :
  0 <= o → 0 <= n → 0 <= o' → 0 <= n' → o' + n' <= n → slice (slice f o n) o' n' = slice f (o + o') n'.
Proof.
  intros. unfold slice at 2. rewrite slice_take by lia. unfold slice.
  rewrite drop_drop, Z2Nat.inj_add by lia. done.
Qed.
Lemma slice_app_mid (a b c : list Z) o n : o = len a → n = len b → slice (a ++ b ++ c) o n = b.
Proof.
  intros -> ->. unfold slice. rewrite drop_app_length' by (unfold len; lia).
  by rewrite take_app_length' by (unfold len; lia).
Qed.

(** ** What a frame says *)

(** [f] is the frame of the request [pkt] from the address [sip] and port
    [sport] (the 16 bits in memory). *)
Record frame_of (f sip : list Z) (sport : Z) (pkt : pkt_rqst) : Prop := {
  fr_len : len f = OFF_DATA + datalen pkt;
  fr_bytes : Forall byte_ok f;
  fr_type : slice f OFF_TYPE 2 = [134; 221];
  fr_plen : slice f OFF_PLEN 2 = le 2 (htons (u16 (UDP_HDRLEN + datalen pkt)));
  fr_src : slice f OFF_SRC 16 = sip;
  fr_dst : slice f OFF_DST 16 = enc_addr (dst_addr pkt);
  fr_sport : slice f OFF_SPORT 2 = le 2 sport;
  fr_dport : slice f OFF_DPORT 2 = le 2 (dst_port pkt);
  fr_ulen : slice f OFF_ULEN 2 = le 2 (htons (u16 (UDP_HDRLEN + datalen pkt)));
  fr_data : slice f OFF_DATA (datalen pkt) = data pkt;
}.
