(* ===== verification/RawSend.v ===== *)
(** * Sending frames: src/ip6/lib/raw_backend/udp_raw_send.c

    The thread's frame buffer [ether_frame], the mapped ring of transmit slots
    and [ring_offset] are the state; the kernel that empties the ring on
    [sendto] is the class [Kernel]. [network.c]'s [send_udp_raw] and
    [send_udp_raw_batched] are at the end. *)

From S2P Require Import Prelude Types Bytes Wire.

Definition IP_MAXPACKET : Z := 65535.
Definition C_RING_FRAMES : Z := 2048.
Definition TX_RING_BLOCKS : Z := 1.
Definition C_FRAMESIZE : Z := 8192.
(** [TPACKET_HDRLEN - sizeof(struct sockaddr_ll)]: where a frame starts in its slot. *)
Definition TX_DATA_OFF : Z := 32.
Definition TP_STATUS_AVAILABLE : Z := 0.
Definition TP_STATUS_SEND_REQUEST : Z := 1.
Definition USHRT_MAX : Z := 65535.

(** A slot of the ring; of the data the [tp_len] bytes that were copied last. *)
Record slot := MkSlot { tp_status : Z; tp_len : Z; tp_data : list Z }.

(** [ring] has its requested slots, from [head] on, hold the frames [fs]. *)
Definition pending (ring : list slot) (head : Z) (fs : list (list Z)) : Prop :=
  len ring = C_RING_FRAMES ∧ 0 <= head < C_RING_FRAMES ∧ len fs <= C_RING_FRAMES ∧
  ∀ i, 0 <= i < C_RING_FRAMES →
    ∃ s, idx ring ((head + i) mod C_RING_FRAMES) = Some s ∧
      match idx fs i with
      | Some f => tp_status s = TP_STATUS_SEND_REQUEST ∧ tp_len s = len f ∧ tp_data s = f
      | None => tp_status s = TP_STATUS_AVAILABLE
      end.

(** The kernel's side of [PACKET_TX_RING]: [sendto] may fail a bounded number
    of times; otherwise it transmits the requested slots in the order of the
    ring, starting where it stopped, and gives them back. *)
Class Kernel := {
  kst : Type;
  k_sendto : kst → list slot → Z * kst * list slot;
  k_head : kst → Z;
  k_wire : kst → list (list Z);
  k_busy : kst → nat;
  k_patience : nat;
  k_busy_bound k : (k_busy k <= k_patience)%nat;
  k_sendto_busy k ring n : k_busy k = S n →
    ∃ r k', k_sendto k ring = (r, k', ring) ∧ r < 0 ∧ k_busy k' = n ∧
      k_head k' = k_head k ∧ k_wire k' = k_wire k;
  k_sendto_ok k ring fs : k_busy k = O → pending ring (k_head k) fs →
    ∃ r k' ring', k_sendto k ring = (r, k', ring') ∧ 0 <= r ∧
      k_wire k' = k_wire k ++ fs ∧
      k_head k' = (k_head k + len fs) mod C_RING_FRAMES ∧
      pending ring' (k_head k') [];
}.

Section Send.
Context `{Kernel}.

Record tx := MkTx {
  ether_frame : list Z;
  ring_tx : list slot;
  ring_offset : Z;
  thread_id_tx : Z;
  kernel : kst;
  send_calls : Z;
}.
Definition put_ether_frame x t :=
  MkTx x (ring_tx t) (ring_offset t) (thread_id_tx t) (kernel t) (send_calls t).
Definition put_ring_tx x t :=
  MkTx (ether_frame t) x (ring_offset t) (thread_id_tx t) (kernel t) (send_calls t).
Definition put_ring_offset x t :=
  MkTx (ether_frame t) (ring_tx t) x (thread_id_tx t) (kernel t) (send_calls t).
Definition put_kernel x t :=
  MkTx (ether_frame t) (ring_tx t) (ring_offset t) (thread_id_tx t) x (send_calls t).
Definition set_thread_id_tx x t :=
  MkTx (ether_frame t) (ring_tx t) (ring_offset t) x (kernel t) (send_calls t).
Definition bump_send_calls t :=
  MkTx (ether_frame t) (ring_tx t) (ring_offset t) (thread_id_tx t) (kernel t)
    (u64 (send_calls t + 1)).

(** [memcpy(ether_frame + o, src, n)]. *)
Definition fput (o : Z) (src : list Z) (n : Z) : M tx unit :=
  f ← gets ether_frame;
  f ← copy f o src 0 n;
  modify (put_ether_frame f).

(** [configure_tx]: the parts of the headers that do not change. The two
    header structs are locals, so the fields that are not set here have
    [garbage]. *)
Definition configure_tx (ifindex : Z) (src_addr : list Z) (src_port : Z) (garbage : list Z)
    : M tx unit :=
  if ifindex =? 0 then err (Exit 1) else
  t ← gets thread_id_tx;
  let source := htons (u16 (htons src_port + t)) in
  let iphdr := [96; 0; 0; 0] ++ slice garbage 0 2 ++ [17; 255] ++ src_addr ++ slice garbage 2 16 in
  let udphdr := le 2 source ++ slice garbage 18 6 in
  fput 0 [255; 255; 255; 255; 255; 255] 6;;
  fput 6 [160; 54; 159; 69; 216; 116] 6;;
  fput 12 [34525 / 256] 1;;
  fput 13 [34525 mod 256] 1;;
  fput ETH_HDRLEN iphdr IP6_HDRLEN;;
  fput (ETH_HDRLEN + IP6_HDRLEN) udphdr UDP_HDRLEN.

Definition send_mmap (pkt : list Z) (pktlen : Z) : M tx unit :=
  o ← gets ring_offset;
  _ ← aload ring_tx o;
  guard_or ((0 <=? pktlen) && (pktlen <=? len pkt) && (pktlen <=? C_FRAMESIZE - TX_DATA_OFF)) OutOfBounds;;
  astore ring_tx put_ring_tx o
    (MkSlot TP_STATUS_SEND_REQUEST pktlen (take (Z.to_nat pktlen) pkt));;
  modify (put_ring_offset (Z.land (o + 1) (C_RING_FRAMES - 1))).

Fixpoint flush_buffer (fuel : nat) : M tx unit :=
  match fuel with
  | O => err Hang
  | S fuel =>
      k ← gets kernel;
      ring ← gets ring_tx;
      let '(r, k, ring) := k_sendto k ring in
      modify (put_kernel k);;
      modify (put_ring_tx ring);;
      if r <? 0 then flush_buffer fuel else mret tt
  end.
Definition flush : M tx unit := flush_buffer (S k_patience).

Definition prepare_packet (pkt : pkt_rqst) : M tx unit :=
  fput OFF_DST (enc_addr (dst_addr pkt)) IPV6_SIZE;;
  fput OFF_PLEN (le 2 (htons (u16 (UDP_HDRLEN + datalen pkt)))) 2;;
  fput OFF_DPORT (le 2 (u16 (dst_port pkt))) 2;;
  fput OFF_ULEN (le 2 (htons (u16 (UDP_HDRLEN + datalen pkt)))) 2;;
  fput OFF_CHECK (le 2 65450) 2;;
  fput OFF_DATA (data pkt) (datalen pkt);;
  let frame_length := ETH_HDRLEN + IP6_HDRLEN + UDP_HDRLEN + datalen pkt in
  f ← gets ether_frame;
  send_mmap f frame_length.

Definition set_dst_args (x : Z) (p : pkt_rqst) : pkt_rqst :=
  PktRqst (set_args x (dst_addr p)) (dst_port p) (data p) (datalen p).
(** [args | sub_ids[subid] << 16] in 32 bits. *)
Definition batch_args (p : pkt_rqst) (n : Z) : Z := Z.lor (args (dst_addr p)) (u32 (Z.shiftl n 16)).

Fixpoint batch_loop (pkts : list pkt_rqst) (i : Z) (sub_ids : list Z) : M tx unit :=
  match pkts with
  | [] => mret tt
  | p :: pkts =>
      n ← aload (λ _, sub_ids) (subid (dst_addr p));
      prepare_packet (set_dst_args (batch_args p n) p);;
      when (TX_RING_BLOCKS * C_RING_FRAMES <=? i) flush;;
      batch_loop pkts (i + 1) sub_ids
  end.
Definition cooked_batched_send (pkts : list pkt_rqst) (sub_ids : list Z) : M tx unit :=
  batch_loop pkts 0 sub_ids;;
  flush.
Definition cooked_send (pkt : pkt_rqst) : M tx unit :=
  prepare_packet pkt;;
  flush.

(** network.c *)
Definition send_udp_raw (tx_buf : list Z) (msg_size : Z) (remote_addr : ip6_memaddr) (port : Z)
    : M tx unit :=
  cooked_send (PktRqst remote_addr port tx_buf msg_size);;
  modify bump_send_calls.
Definition send_udp_raw_batched (pkts : list pkt_rqst) (sub_ids : list Z) : M tx unit :=
  cooked_batched_send pkts sub_ids;;
  modify bump_send_calls.

(** ** The frames that are sent *)

(** The buffer holds the headers of the thread. *)
Record framed (f sip : list Z) (sport : Z) : Prop := {
  fd_len : len f = IP_MAXPACKET;
  fd_bytes : Forall byte_ok f;
  fd_type : slice f OFF_TYPE 2 = [134; 221];
  fd_src : slice f OFF_SRC 16 = sip;
  fd_sport : slice f OFF_SPORT 2 = le 2 sport;
}.

Record pkt_ok (p : pkt_rqst) : Prop := {
  po_addr : addr_ok (dst_addr p);
  po_port : 0 <= dst_port p < 65536;
  po_len : len (data p) = datalen p;
  po_fits : datalen p <= C_FRAMESIZE - TX_DATA_OFF - OFF_DATA;
  po_bytes : Forall byte_ok (data p);
}.

Lemma wp_fput o src n (t : tx) Q :
  0 <= o → n = len src → o + n <= len (ether_frame t) →
  Q tt (put_ether_frame (splice (ether_frame t) o src) t) → wp (fput o src n) t Q.
Proof.
  intros. unfold fput. rewrite wp_bind, wp_gets, wp_bind. by apply wp_copy_splice.
Qed.

Lemma framed_splice f sip sport o src :
  framed f sip sport → Forall byte_ok src → 0 <= o → o + len src <= IP_MAXPACKET →
  (14 + 2 <= o ∧ o + len src <= OFF_SRC) ∨ (OFF_DST <= o ∧ o + len src <= OFF_SPORT) ∨
    OFF_DPORT <= o →
  framed (splice f o src) sip sport.
Proof.
  intros [Hl Hb H1 H2 H3] Hs Ho Hfit Hpos.
  unfold OFF_SRC, OFF_DST, OFF_SPORT, OFF_DPORT, OFF_TYPE, ETH_HDRLEN, IP6_HDRLEN, IP_MAXPACKET in *.
  pose proof (len_nonneg src). split.
  - by rewrite len_splice by lia.
  - by apply splice_bytes.
  - rewrite <-H1. unfold OFF_TYPE. apply slice_splice_ne; lia.
  - rewrite <-H2. unfold OFF_SRC, ETH_HDRLEN. apply slice_splice_ne; lia.
  - rewrite <-H3. unfold OFF_SPORT, ETH_HDRLEN, IP6_HDRLEN. apply slice_splice_ne; lia.
Qed.

(** Writes after each other into the buffer. *)
Fixpoint splices (f : list Z) (ws : list (Z * list Z)) : list Z :=
  match ws with [] => f | (o, src) :: ws => splices (splice f o src) ws end.
Definition in_frame (w : Z * list Z) : Prop := 0 <= w.1 ∧ w.1 + len w.2 <= IP_MAXPACKET.

Lemma len_splices ws : ∀ f, len f = IP_MAXPACKET → Forall in_frame ws → len (splices f ws) = IP_MAXPACKET.
Proof.
  induction ws as [|[o src] ws IH]; intros f Hl Hw; [done|].
  apply Forall_cons in Hw as [[Ho Hs] Hw]. apply IH; [|done]. simpl in *.
  by rewrite len_splice by lia.
Qed.
Lemma slice_splices_ne ws o n : ∀ f,
  len f = IP_MAXPACKET → Forall in_frame ws → 0 <= o → 0 <= n → o + n <= IP_MAXPACKET →
  Forall (λ w, o + n <= w.1 ∨ w.1 + len w.2 <= o) ws →
  slice (splices f ws) o n = slice f o n.
Proof.
  induction ws as [|[o' src] ws IH]; intros f Hl Hw Ho Hn Hon Hd; [done|].
  apply Forall_cons in Hw as [[Ho' Hs] Hw]. apply Forall_cons in Hd as [Hd1 Hd]. simpl in *.
  rewrite IH; try done; [|by rewrite len_splice by lia]. apply slice_splice_ne; lia.
Qed.

(** The frame that [prepare_packet] builds. *)
Definition packet_writes (p : pkt_rqst) : list (Z * list Z) :=
  [(OFF_DST, enc_addr (dst_addr p)); (OFF_PLEN, le 2 (htons (u16 (UDP_HDRLEN + datalen p))));
   (OFF_DPORT, le 2 (u16 (dst_port p))); (OFF_ULEN, le 2 (htons (u16 (UDP_HDRLEN + datalen p))));
   (OFF_CHECK, le 2 65450); (OFF_DATA, data p)].

Lemma offs : OFF_TYPE = 12 ∧ OFF_PLEN = 18 ∧ OFF_SRC = 22 ∧ OFF_DST = 38 ∧ OFF_SPORT = 54 ∧
  OFF_DPORT = 56 ∧ OFF_ULEN = 58 ∧ OFF_CHECK = 60 ∧ OFF_DATA = 62 ∧ IP_MAXPACKET = 65535 ∧
  C_FRAMESIZE - TX_DATA_OFF = 8160 ∧ UDP_HDRLEN = 8.
Proof. done. Qed.

Lemma packet_writes_fit p : pkt_ok p → Forall in_frame (packet_writes p).
Proof.
  intros [_ _ Hl Hf _]. pose proof offs. unfold packet_writes, in_frame. pose proof (len_nonneg (data p)).
  repeat constructor; cbn [fst snd]; rewrite ?len_enc_addr, ?len_le, ?Hl; lia.
Qed.

(** Reading back one of the writes. *)
Lemma splices_field ws1 o src ws2 n : ∀ f,
  len f = IP_MAXPACKET → Forall in_frame (ws1 ++ (o, src) :: ws2) → n = len src →
  Forall (λ w, o + n <= w.1 ∨ w.1 + len w.2 <= o) ws2 →
  slice (splices f (ws1 ++ (o, src) :: ws2)) o n = src.
Proof.
  induction ws1 as [|[o' src'] ws1 IH]; intros f Hl Hw -> Hd; simpl in *.
  - apply Forall_cons in Hw as [[Ho Hs] Hw]. simpl in *. pose proof (len_nonneg src).
    rewrite slice_splices_ne; try done; [|by rewrite len_splice by lia].
    apply slice_splice_eq; lia.
  - apply Forall_cons in Hw as [[Ho Hs] Hw]. simpl in *. apply IH; try done.
    by rewrite len_splice by lia.
Qed.
Lemma packet_field f p ws1 o src ws2 n :
  len f = IP_MAXPACKET → pkt_ok p → packet_writes p = ws1 ++ (o, src) :: ws2 → n = len src →
  Forall (λ w, o + n <= w.1 ∨ w.1 + len w.2 <= o) ws2 →
  slice (splices f (packet_writes p)) o n = src.
Proof.
  intros Hl Hp E. pose proof (packet_writes_fit p Hp) as Hw. rewrite E in *. by apply splices_field.
Qed.

Lemma packet_framed f sip sport p :
  framed f sip sport → pkt_ok p → framed (splices f (packet_writes p)) sip sport.
Proof.
  intros Hf [_ _ Hl Hfit Hb]. pose proof offs. pose proof (len_nonneg (data p)). unfold packet_writes. cbn [splices].
  repeat apply framed_splice; try done; rewrite ?len_enc_addr, ?len_le, ?Hl;
    try apply enc_addr_bytes; try apply le_bytes; try lia.
Qed.

Lemma packet_frame f sip sport p :
  framed f sip sport → pkt_ok p →
  frame_of (take (Z.to_nat (OFF_DATA + datalen p)) (splices f (packet_writes p))) sip sport p.
Proof.
  intros Hf Hp. pose proof offs as Ho. pose proof (packet_framed f sip sport p Hf Hp) as [Hl Hb H1 H2 H3].
  pose proof Hp as [_ Hport Hdl Hfit _]. pose proof (len_nonneg (data p)).
  pose proof (fd_len _ _ _ Hf) as Hlf.
  split; try (rewrite slice_take by lia).
  - apply len_take. lia.
  - by apply Forall_take.
  - done.
  - eapply (packet_field f p [_] _ _ [_; _; _; _]); try done. unfold packet_writes.
    repeat constructor; cbn [fst snd]; rewrite ?len_le; lia.
  - done.
  - eapply (packet_field f p [] _ _ [_; _; _; _; _]); try done.
    repeat constructor; cbn [fst snd]; rewrite ?len_le; lia.
  - done.
  - rewrite <-(u16_small (dst_port p)) by done.
    eapply (packet_field f p [_; _] _ _ [_; _; _]); try done.
    repeat constructor; cbn [fst snd]; rewrite ?len_le; lia.
  - eapply (packet_field f p [_; _; _] _ _ [_; _]); try done.
    repeat constructor; cbn [fst snd]; rewrite ?len_le; lia.
  - eapply (packet_field f p [_; _; _; _; _] _ _ []); try done.
Qed.

(** ** The ring *)

(** [fs] are in the ring and not sent yet. *)
Record tx_inv (sip : list Z) (sport : Z) (fs : list (list Z)) (t : tx) : Prop := {
  ti_framed : framed (ether_frame t) sip sport;
  ti_pending : pending (ring_tx t) (k_head (kernel t)) fs;
  ti_offset : ring_offset t = (k_head (kernel t) + len fs) mod C_RING_FRAMES;
}.

Lemma ring_next x : 0 <= x → Z.land (x mod C_RING_FRAMES + 1) (C_RING_FRAMES - 1) = (x + 1) mod C_RING_FRAMES.
Proof.
  intros. unfold C_RING_FRAMES. change (2048 - 1) with (Z.ones 11). rewrite Z.land_ones by lia.
  change (2 ^ 11) with 2048. by rewrite Zplus_mod_idemp_l.
Qed.

Lemma mod_ring_inj head i j :
  0 <= i < C_RING_FRAMES → 0 <= j < C_RING_FRAMES →
  (head + i) mod C_RING_FRAMES = (head + j) mod C_RING_FRAMES → i = j.
Proof.
  unfold C_RING_FRAMES. intros Hi Hj E.
  pose proof (Z.div_mod (head + i) 2048 ltac:(lia)). pose proof (Z.div_mod (head + j) 2048 ltac:(lia)). lia.
Qed.

Lemma pending_push ring head fs f :
  pending ring head fs → len fs < C_RING_FRAMES →
  pending (upd ring ((head + len fs) mod C_RING_FRAMES) (MkSlot TP_STATUS_SEND_REQUEST (len f) f))
    head (fs ++ [f]).
Proof.
  intros (Hl & Hh & Hc & Hs) Hf. pose proof (len_nonneg fs).
  assert (0 <= (head + len fs) mod C_RING_FRAMES < len ring) as Hr.
  { rewrite Hl. apply Z.mod_pos_bound. done. }
  split_and!; [by rewrite len_upd|lia|lia|rewrite len_app, len_cons, len_nil; lia|].
  intros i Hi. rewrite idx_upd by done. destruct (Hs i Hi) as (s & Hs1 & Hs2).
  rewrite idx_app by lia. case_decide as E.
  - apply mod_ring_inj in E; [|lia|done]. subst i. eexists. split; [done|].
    rewrite decide_False, Z.sub_diag by lia. done.
  - exists s. split; [done|]. assert (i ≠ len fs) by congruence. case_decide; [done|].
    rewrite (idx_None fs) in Hs2 by lia. rewrite idx_None; [done|]. change (len [f]) with 1. lia.
Qed.

(** [prepare_packet] puts the frame of the packet into the ring. *)
Lemma wp_prepare_packet sip sport fs p t Q :
  tx_inv sip sport fs t → pkt_ok p → len fs < C_RING_FRAMES →
  (∀ f t', frame_of f sip sport p → tx_inv sip sport (fs ++ [f]) t' →
     kernel t' = kernel t → send_calls t' = send_calls t → Q tt t') →
  wp (prepare_packet p) t Q.
Proof.
  intros [Hf Hpend Ho] Hp Hc HQ. pose proof offs as Hoffs. pose proof (len_nonneg fs).
  pose proof Hp as [_ _ Hdl Hfit _]. pose proof (len_nonneg (data p)).
  pose proof (packet_writes_fit p Hp) as Hw. pose proof (fd_len _ _ _ Hf) as Hlf.
  unfold prepare_packet.
  assert (∀ o src n (k : M tx unit) (f : list Z) Q', in_frame (o, src) → n = len src →
    len f = IP_MAXPACKET →
    (len (splice f o src) = IP_MAXPACKET → wp k (put_ether_frame (splice f o src) t) Q') →
    wp (fput o src n;; k) (put_ether_frame f t) Q') as Hput.
  { intros o src n k f Q' [Ho' Hfit'] -> Hl Hk. simpl in *. rewrite wp_bind.
    apply wp_fput; [done|done|simpl; lia|]. apply Hk. by rewrite len_splice by lia. }
  replace t with (put_ether_frame (ether_frame t) t) by by destruct t.
  unfold packet_writes in Hw.
  repeat match goal with H : Forall in_frame (_ :: _) |- _ => apply Forall_cons in H as [? H] end.
  repeat (apply Hput; [done|by rewrite ?len_enc_addr, ?len_le, ?Hdl|done|intros ?]).
  rewrite wp_bind, wp_gets. cbn [ether_frame put_ether_frame].
  change (splice _ OFF_DATA _) with (splices (ether_frame t) (packet_writes p)).
  pose proof (packet_frame _ _ _ _ Hf Hp) as Hfr. pose proof (packet_framed _ _ _ _ Hf Hp) as Hf'.
  set (F := splices (ether_frame t) (packet_writes p)) in *.
  replace (ETH_HDRLEN + IP6_HDRLEN + UDP_HDRLEN + datalen p) with (OFF_DATA + datalen p) by done.
  unfold send_mmap. rewrite wp_bind, wp_gets. cbn [ring_offset put_ether_frame].
  pose proof Hpend as (Hl & _). assert (0 <= ring_offset t < len (ring_tx t)) as Hro.
  { rewrite Ho, Hl. by apply Z.mod_pos_bound. }
  pose proof Hro as [x Hx]%idx_is_Some. rewrite wp_bind. eapply wp_aload; [exact Hx|].
  rewrite wp_bind. apply wp_guard_or.
  { pose proof (fd_len _ _ _ Hf'). rewrite !andb_true_iff, !Z.leb_le. lia. }
  rewrite wp_bind. apply wp_astore; [done|]. rewrite wp_modify.
  eapply HQ; [exact Hfr| |done|done]. split; [done| |].
  - cbn [ring_tx kernel put_ring_offset put_ring_tx put_ether_frame]. rewrite Ho.
    set (G := take _ F) in *. rewrite <-(fr_len _ _ _ _ Hfr). by apply pending_push.
  - cbn [ring_offset kernel put_ring_offset put_ring_tx put_ether_frame].
    rewrite Ho, len_app, len_cons, len_nil. destruct Hpend as (_ & Hh & _).
    rewrite ring_next by lia. f_equal. lia.
Qed.

(** [flush_buffer] returns when the kernel has taken all frames. *)
Lemma wp_flush_buffer sip sport fs : ∀ fuel t Q,
  tx_inv sip sport fs t → (k_busy (kernel t) < fuel)%nat →
  (∀ t', tx_inv sip sport [] t' → k_wire (kernel t') = k_wire (kernel t) ++ fs →
     send_calls t' = send_calls t → Q tt t') →
  wp (flush_buffer fuel) t Q.
Proof.
  induction fuel as [|fuel IH]; intros t Q [Hf Hp Ho] Hb HQ; [lia|]. cbn [flush_buffer].
  rewrite wp_bind, wp_gets, wp_bind, wp_gets. destruct (k_busy (kernel t)) as [|n] eqn:Eb.
  - destruct (k_sendto_ok _ _ _ Eb Hp) as (r & k' & ring' & -> & Hr & Hw & Hh & Hp').
    rewrite wp_bind, wp_modify, wp_bind, wp_modify. rewrite (proj2 (Z.ltb_ge r 0)) by lia.
    rewrite wp_ret. apply HQ; [|done|done]. split; [done|done|].
    simpl. rewrite Ho, <-Hh, len_nil, Z.add_0_r. destruct Hp' as (_ & ? & _).
    by rewrite Z.mod_small.
  - destruct (k_sendto_busy _ (ring_tx t) _ Eb) as (r & k' & -> & Hr & Hb' & Hh & Hw).
    rewrite wp_bind, wp_modify, wp_bind, wp_modify. rewrite (proj2 (Z.ltb_lt r 0)) by lia.
    apply IH; [split; simpl; rewrite ?Hh; done|simpl; lia|].
    intros t' Ht Hwt Hs. apply HQ; [done| |done]. rewrite Hwt. simpl. by rewrite Hw.
Qed.
Lemma wp_flush sip sport fs t Q :
  tx_inv sip sport fs t →
  (∀ t', tx_inv sip sport [] t' → k_wire (kernel t') = k_wire (kernel t) ++ fs →
     send_calls t' = send_calls t → Q tt t') →
  wp flush t Q.
Proof.
  intros. unfold flush. eapply wp_flush_buffer; [done| |done]. pose proof (k_busy_bound (kernel t)). lia.
Qed.

Lemma wp_cooked_send sip sport p t Q :
  tx_inv sip sport [] t → pkt_ok p →
  (∀ f t', frame_of f sip sport p → tx_inv sip sport [] t' →
     k_wire (kernel t') = k_wire (kernel t) ++ [f] → send_calls t' = send_calls t → Q tt t') →
  wp (cooked_send p) t Q.
Proof.
  intros Ht Hp HQ. unfold cooked_send. rewrite wp_bind.
  eapply wp_prepare_packet; [done|done|done|]. intros f t' Hf Ht' Hk Hs.
  eapply wp_flush; [done|]. intros t'' Ht'' Hw Hs'. eapply HQ; [done|done|by rewrite Hw, Hk|].
  by rewrite Hs'.
Qed.

Lemma batch_args_ok p n : pkt_ok p → pkt_ok (set_dst_args (batch_args p n) p).
Proof.
  intros [[] ? ? ? ?]. split; try done. split; simpl; try done. apply lor_u32; [done|].
  unfold u32. apply Z.mod_pos_bound. lia.
Qed.

(** What the packet becomes when the batch has [n] packets for its server. *)
Definition in_batch (sub_ids : list Z) (p : pkt_rqst) : pkt_rqst :=
  set_dst_args (batch_args p (default 0 (idx sub_ids (subid (dst_addr p))))) p.

Lemma wp_batch_loop sip sport sub_ids : ∀ pkts i fs t Q,
  tx_inv sip sport fs t → Forall pkt_ok pkts →
  Forall (λ p, 0 <= subid (dst_addr p) < len sub_ids) pkts →
  0 <= i → i + len pkts <= C_RING_FRAMES → len fs = i →
  (∀ fs' t', Forall2 (λ f p, frame_of f sip sport (in_batch sub_ids p)) fs' pkts →
     tx_inv sip sport (fs ++ fs') t' → kernel t' = kernel t → send_calls t' = send_calls t →
     Q tt t') →
  wp (batch_loop pkts i sub_ids) t Q.
Proof.
  induction pkts as [|p pkts IH]; intros i fs t Q Ht Hp Hs Hi Hn Hl HQ; cbn [batch_loop].
  { rewrite wp_ret. apply (HQ []); [done|by rewrite app_nil_r|done|done]. }
  apply Forall_cons in Hp as [Hp Hps]. apply Forall_cons in Hs as [Hs Hss].
  rewrite len_cons in Hn. pose proof (len_nonneg pkts).
  destruct (idx_is_Some _ _ Hs) as [n Hnn]. rewrite wp_bind. eapply wp_aload; [exact Hnn|].
  rewrite wp_bind. eapply wp_prepare_packet; [done|by apply batch_args_ok|lia|].
  intros f t' Hf Ht' Hk Hsc. rewrite wp_bind.
  rewrite (proj2 (Z.leb_gt (TX_RING_BLOCKS * C_RING_FRAMES) i)) by (unfold TX_RING_BLOCKS; lia).
  unfold when. rewrite wp_ret. eapply IH; [exact Ht'|done|done|lia|lia| |].
  { rewrite len_app, len_cons, len_nil. lia. }
  intros fs' t'' Hfs' Ht'' Hk' Hsc'. apply (HQ (f :: fs')).
  - constructor; [|done]. unfold in_batch. by rewrite Hnn.
  - by rewrite <-app_assoc in Ht''.
  - by rewrite Hk'.
  - by rewrite Hsc'.
Qed.

(** A batch that fits into the ring goes out in its order. *)
Lemma wp_cooked_batched_send sip sport sub_ids pkts t Q :
  tx_inv sip sport [] t → Forall pkt_ok pkts →
  Forall (λ p, 0 <= subid (dst_addr p) < len sub_ids) pkts → len pkts <= C_RING_FRAMES →
  (∀ fs t', Forall2 (λ f p, frame_of f sip sport (in_batch sub_ids p)) fs pkts →
     tx_inv sip sport [] t' → k_wire (kernel t') = k_wire (kernel t) ++ fs →
     send_calls t' = send_calls t → Q tt t') →
  wp (cooked_batched_send pkts sub_ids) t Q.
Proof.
  intros Ht Hp Hs Hl HQ. unfold cooked_batched_send. rewrite wp_bind.
  eapply wp_batch_loop; [exact Ht|done|done|lia|lia|done|].
  intros fs t' Hfs Ht' Hk Hsc. eapply wp_flush; [done|]. intros t'' Ht'' Hw Hs'.
  eapply HQ; [done|done| |]; [by rewrite Hw, Hk|by rewrite Hs'].
Qed.

(** [configure_tx] leaves a buffer with the headers of the thread. *)
Lemma wp_configure_tx ifindex src_addr src_port garbage t Q :
  ifindex ≠ 0 → len src_addr = 16 → Forall byte_ok src_addr → len garbage = 24 →
  Forall byte_ok garbage → len (ether_frame t) = IP_MAXPACKET → Forall byte_ok (ether_frame t) →
  (∀ f, framed f src_addr (htons (u16 (htons src_port + thread_id_tx t))) →
     Q tt (put_ether_frame f t)) →
  wp (configure_tx ifindex src_addr src_port garbage) t Q.
Proof.
  intros Hif Hl Hb Hgl Hg Hfl Hfb HQ. pose proof offs as Hoffs. unfold configure_tx.
  rewrite (proj2 (Z.eqb_neq _ _)) by done. rewrite wp_bind, wp_gets.
  set (source := htons _) in *.
  set (iphdr := [96; 0; 0; 0] ++ slice garbage 0 2 ++ [17; 255] ++ src_addr ++ slice garbage 2 16).
  set (udphdr := le 2 source ++ slice garbage 18 6).
  assert (len iphdr = 40) as Hi.
  { unfold iphdr. rewrite !len_app, !len_slice by lia. change (len [96; 0; 0; 0]) with 4.
    change (len [17; 255]) with 2. lia. }
  assert (len udphdr = 8) as Hu by (unfold udphdr; rewrite len_app, len_le, len_slice by lia; done).
  assert (Forall byte_ok iphdr) as Hib.
  { unfold iphdr. repeat (apply Forall_app; split); try by apply slice_bytes; try done.
    all: repeat constructor; done. }
  assert (Forall byte_ok udphdr) as Hub.
  { apply Forall_app. split; [apply le_bytes|by apply slice_bytes]. }
  change (34525 / 256) with 134. change (34525 mod 256) with 221.
  replace t with (put_ether_frame (ether_frame t) t) by by destruct t.
  assert (∀ o src n (k : M tx unit) (f : list Z) Q', in_frame (o, src) → n = len src →
    len f = IP_MAXPACKET →
    (len (splice f o src) = IP_MAXPACKET → wp k (put_ether_frame (splice f o src) t) Q') →
    wp (fput o src n;; k) (put_ether_frame f t) Q') as Hput.
  { intros o src n k f Q' [Ho' Hfit'] -> Hlf Hk. simpl in *. rewrite wp_bind.
    apply wp_fput; [done|done|simpl; lia|]. apply Hk. by rewrite len_splice by lia. }
  do 5 (apply Hput; [split; cbn [fst snd]; rewrite ?Hi; done|by rewrite ?Hi|done|intros ?]).
  apply wp_fput; [done|by rewrite Hu| |].
  { cbn [ether_frame put_ether_frame]. change (62 <= len (splices (ether_frame t) [(0, [255; 255; 255; 255; 255; 255]);
      (6, [160; 54; 159; 69; 216; 116]); (12, [134]); (13, [221]); (ETH_HDRLEN, iphdr)])).
    rewrite len_splices; [done|done|]. repeat constructor; cbn [fst snd]; rewrite ?Hi; done. }
  cbn [ether_frame put_ether_frame].
  match goal with |- Q tt (put_ether_frame ?f _) => assert (framed f src_addr source) as Hf; [|by apply HQ] end.
  set (ws := [(0, [255; 255; 255; 255; 255; 255]); (6, [160; 54; 159; 69; 216; 116]);
    (12, [134]); (13, [221]); (ETH_HDRLEN, iphdr); (ETH_HDRLEN + IP6_HDRLEN, udphdr)]).
  change (framed (splices (ether_frame t) ws) src_addr source).
  assert (Forall in_frame ws) as Hws.
  { unfold ws, in_frame. repeat constructor; cbn [fst snd]; rewrite ?Hi, ?Hu; done. }
  split.
  - by apply len_splices.
  - unfold ws. cbn [splices]. repeat apply splice_bytes; try done; repeat constructor; done.
  - change (slice (splices (ether_frame t) ws) OFF_TYPE (1 + 1) = [134; 221]).
    rewrite slice_split by done.
    assert (slice (splices (ether_frame t) ws) OFF_TYPE 1 = [134]) as ->.
    { apply (splices_field [_; _] OFF_TYPE [134] [_; _; _]); try done.
      repeat (apply Forall_cons; split; [by left|]); by apply Forall_nil. }
    assert (slice (splices (ether_frame t) ws) (OFF_TYPE + 1) 1 = [221]) as ->; [|done].
    apply (splices_field [_; _; _] (OFF_TYPE + 1) [221] [_; _]); try done.
    repeat (apply Forall_cons; split; [by left|]); by apply Forall_nil.
  - assert (slice (splices (ether_frame t) ws) ETH_HDRLEN 40 = iphdr) as E.
    { apply (splices_field [_; _; _; _] ETH_HDRLEN iphdr [_]); try done.
      repeat (apply Forall_cons; split; [by left|]); by apply Forall_nil. }
    change OFF_SRC with (ETH_HDRLEN + 8). rewrite <-(slice_slice _ ETH_HDRLEN 40) by done. rewrite E.
    unfold iphdr. rewrite !app_assoc. rewrite <-(app_assoc _ src_addr). apply slice_app_mid; [|done].
    by rewrite !len_app, len_slice by lia.
  - assert (slice (splices (ether_frame t) ws) OFF_SPORT 8 = udphdr) as E.
    { by apply (splices_field [_; _; _; _; _] OFF_SPORT udphdr []). }
    replace OFF_SPORT with (OFF_SPORT + 0) by lia. rewrite <-(slice_slice _ OFF_SPORT 8) by done.
    rewrite E. unfold udphdr. by apply (slice_app_mid [] (le 2 source)).
Qed.
End Send.

(** ** A kernel, to evaluate the definitions *)

Module RingKernel.
Record state := MkK { head : Z; wire : list (list Z); busy : bool }.

Fixpoint drain (n : nat) (h : Z) (ring : list slot) : Z * list slot * list (list Z) :=
  match n with
  | O => (h, ring, [])
  | S n =>
      match idx ring h with
      | Some s =>
          if tp_status s =? TP_STATUS_SEND_REQUEST then
            let '(h', ring', fs) := drain n ((h + 1) mod C_RING_FRAMES)
              (upd ring h (MkSlot TP_STATUS_AVAILABLE (tp_len s) (tp_data s))) in
            (h', ring', take (Z.to_nat (tp_len s)) (tp_data s) :: fs)
          else (h, ring, [])
      | None => (h, ring, [])
      end
  end.
(** The first call of each two is refused. *)
Definition sendto (k : state) (ring : list slot) : Z * state * list slot :=
  if busy k then (-1, MkK (head k) (wire k) false, ring)
  else let '(h, ring, fs) := drain (Z.to_nat C_RING_FRAMES) (head k) ring in
       (0, MkK h (wire k ++ fs) true, ring).

Lemma pending_nil ring h s : pending ring h [] → idx ring h = Some s → tp_status s = TP_STATUS_AVAILABLE.
Proof.
  intros (_ & Hh & _ & Hs) E. destruct (Hs 0) as (s' & E' & Hst); [done|].
  rewrite Z.add_0_r, Z.mod_small in E' by done. simpl in Hst. congruence.
Qed.
Lemma pending_pop ring h f fs :
  pending ring h (f :: fs) →
  ∃ s, idx ring h = Some s ∧ tp_status s = TP_STATUS_SEND_REQUEST ∧
    take (Z.to_nat (tp_len s)) (tp_data s) = f ∧
    pending (upd ring h (MkSlot TP_STATUS_AVAILABLE (tp_len s) (tp_data s)))
      ((h + 1) mod C_RING_FRAMES) fs.
Proof.
  intros (Hl & Hh & Hc & Hs). rewrite len_cons in Hc. pose proof (len_nonneg fs).
  destruct (Hs 0) as (s & E & Hst & Htl & Htd); [done|].
  rewrite Z.add_0_r, Z.mod_small in E by done. exists s. split_and!; [done|done| |].
  { rewrite Htl, Htd. apply take_ge. unfold len. lia. }
  split_and!; [by rewrite len_upd|by apply Z.mod_pos_bound|by apply Z.mod_pos_bound|lia|].
  intros i Hi. rewrite Zplus_mod_idemp_l. rewrite idx_upd by lia. case_decide as Ei.
  - eexists. split; [done|]. rewrite idx_None; [done|]. intros Hif.
    assert (h = (h + 0) mod C_RING_FRAMES) as Eh by (by rewrite Z.add_0_r, Z.mod_small).
    rewrite Eh in Ei at 1. replace (h + 1 + i) with (h + (1 + i)) in Ei by lia.
    apply mod_ring_inj in Ei; [lia|done|lia].
  - destruct (decide (i + 1 < C_RING_FRAMES)) as [Hi1|Hi1].
    + destruct (Hs (i + 1)) as (s' & E' & Hst'); [lia|]. exists s'.
      replace (h + 1 + i) with (h + (i + 1)) by lia. split; [done|].
      replace (idx fs i) with (idx (f :: fs) (i + 1)); [done|].
      unfold idx. rewrite !(proj2 (Z.leb_le 0 _)) by lia.
      by replace (Z.to_nat (i + 1)) with (S (Z.to_nat i)) by lia.
    + exfalso. apply Ei. replace (h + 1 + i) with (h + 1 * C_RING_FRAMES) by lia.
      rewrite Z_mod_plus_full. by rewrite Z.mod_small.
Qed.
Lemma drain_ok fs : ∀ n h ring, pending ring h fs → len fs <= Z.of_nat n →
  ∃ ring', drain n h ring = ((h + len fs) mod C_RING_FRAMES, ring', fs) ∧
    pending ring' ((h + len fs) mod C_RING_FRAMES) [].
Proof.
  induction fs as [|f fs IH]; intros n h ring Hp Hn.
  - rewrite len_nil, Z.add_0_r. pose proof Hp as (Hl & Hh & _). rewrite Z.mod_small by done.
    exists ring. split; [|done]. destruct n; [done|]. simpl.
    assert (0 <= h < len ring) as [s E]%idx_is_Some by lia. rewrite E.
    by rewrite (pending_nil _ _ _ Hp E).
  - rewrite len_cons in *. destruct n as [|n]; [pose proof (len_nonneg fs); lia|].
    destruct (pending_pop _ _ _ _ Hp) as (s & E & Hst & Hf & Hp').
    destruct (IH n _ _ Hp' ltac:(lia)) as (ring' & Hd & Hr).
    rewrite Zplus_mod_idemp_l in *. replace (h + 1 + len fs) with (h + (len fs + 1)) in * by lia.
    exists ring'. split; [|done]. simpl. rewrite E, Hst, Hd. simpl. by rewrite Hf.
Qed.

#[export] Program Instance ring_kernel : Kernel := {|
  kst := state;
  k_sendto := sendto;
  k_head := head;
  k_wire := wire;
  k_busy k := if busy k then 1%nat else O;
  k_patience := 1;
|}.
Next Obligation. intros k. simpl. destruct (busy k); lia. Qed.
Next Obligation.
  intros [h w b] ring n Hb. simpl in *. destruct b; [|done]. injection Hb as <-.
  eexists _, _. split_and!; [reflexivity|done..].
Qed.
Next Obligation.
  intros [h w b] ring fs Hb Hp. simpl in *. destruct b; [done|]. unfold sendto. cbn [busy head wire].
  destruct (drain_ok fs (Z.to_nat C_RING_FRAMES) h ring Hp) as (ring' & -> & Hp').
  { by destruct Hp as (_ & _ & ? & _). }
  eexists _, _, _. split_and!; [reflexivity|done..].
Qed.
End RingKernel.
