(* ===== verification/RawRecv.v ===== *)
(** * Receiving frames: src/ip6/lib/raw_backend/udp_raw_receive.c and udp_raw_client.c

    The receive ring is shared with the kernel, which fills slots between two
    calls of [epoll_wait]: the state holds what the coming calls will find, a
    list of [poll]s, each with the slots the kernel has filled until then. [get_packet] and [next_packet] walk the ring,
    [simple_epoll_rcv] takes one packet out of it and [write_packets] stores
    the answers of a bulk read through the pointers they carry. *)

From S2P Require Import Prelude Types Bytes Wire RawSend.

Definition RX_RING_BLOCKS : Z := 4.
Definition TP_STATUS_KERNEL : Z := 0.
Definition TP_STATUS_COPY : Z := 2.
Definition TP_STATUS_LOSING : Z := 4.
Definition EPOLLIN : Z := 1.

(** [rs_frame] is the slot from [tp_mac] on. *)
Record rslot := MkRslot { rs_status : Z; rs_frame : list Z }.
(** The event flags that are returned and the slots filled in the meantime. *)
Record poll := MkPoll { p_events : list Z; p_fills : list (Z * rslot) }.
Definition fill (rg : list rslot) (fills : list (Z * rslot)) : list rslot :=
  foldl (λ rg x, upd rg x.1 x.2) rg fills.
Record rx_ring := MkRx {
  ring : list rslot;
  tpacket_i : Z;
  tp_frame_nr : Z;
  polls : list poll;
}.
(** [struct sockaddr_in6]: the address is also an [ip6_memaddr]. *)
Record sockaddr_in6 := MkSock { sin6_addr : ip6_memaddr; sin6_port : Z }.

Definition put_ring x r := MkRx x (tpacket_i r) (tp_frame_nr r) (polls r).
Definition put_tpacket_i x r := MkRx (ring r) x (tp_frame_nr r) (polls r).
Definition put_polls x r := MkRx (ring r) (tpacket_i r) (tp_frame_nr r) x.
Definition set_status (x : Z) (s : rslot) := MkRslot x (rs_frame s).

Definition epoll_wait : M rx_ring (list Z) :=
  ps ← gets polls;
  match ps with
  | [] => err Hang
  | p :: ps => modify (put_polls ps);; rg ← gets ring; modify (put_ring (fill rg (p_fills p)));; mret (p_events p)
  end.

Definition get_packet : M rx_ring rslot :=
  i ← gets tpacket_i;
  aload ring i.
Definition next_packet : M rx_ring unit :=
  i ← gets tpacket_i;
  n ← gets tp_frame_nr;
  if n =? 0 then err DivByZero else modify (put_tpacket_i ((i + 1) mod n)).
Definition release_packet : M rx_ring unit :=
  i ← gets tpacket_i;
  s ← aload ring i;
  astore ring put_ring i (set_status TP_STATUS_KERNEL s).

(** The fields of a frame; loads beyond the slot fail. *)
Definition frame_field (f : list Z) (o n : Z) : M rx_ring (list Z) :=
  if (o + n <=? len f) then mret (slice f o n) else err OutOfBounds.
Definition msg_size_of (f : list Z) : M rx_ring Z :=
  l ← frame_field f OFF_ULEN 2;
  mret (u16 (ntohs (un_le l) - UDP_HDRLEN)).

(** What is in the current slot: nothing, a frame to skip, or a packet. *)
Inductive slot_kind := SlotEmpty | SlotSkip | SlotPacket (f : list Z).
Definition slot_kind_of (s : rslot) : slot_kind :=
  if rs_status s =? TP_STATUS_KERNEL then SlotEmpty
  else if negb (Z.land (rs_status s) TP_STATUS_COPY =? 0) then SlotSkip
  else if negb (Z.land (rs_status s) TP_STATUS_LOSING =? 0) then SlotSkip
  else SlotPacket (rs_frame s).

(** What [simple_epoll_rcv] hands back: [*rcv_buf], [*remote_addr], the
    sender, and the return value. *)
Record received := MkRcvd {
  r_buf : option (list Z);
  r_remote : option ip6_memaddr;
  r_target : sockaddr_in6;
  r_size : Z;
}.

(** The body of the event loop for one packet. *)
Definition take_packet (rcv_buf : option (list Z)) (want_remote : bool) (f : list Z)
    : M rx_ring received :=
  msg_size ← msg_size_of f;
  buf ← match rcv_buf with
        | Some b => b ← copy b 0 f OFF_DATA msg_size; mret (Some b)
        | None => mret None
        end;
  dst ← frame_field f OFF_DST IPV6_SIZE;
  src ← frame_field f OFF_SRC IPV6_SIZE;
  port ← frame_field f OFF_SPORT 2;
  release_packet;;
  next_packet;;
  mret (MkRcvd buf (if want_remote then Some (dec_addr dst) else None)
    (MkSock (dec_addr src) (un_le port)) msg_size).

(** [for (i = 0; i < num_events; i++)]; a packet ends the loop. *)
Fixpoint event_loop (events : list Z) (rcv_buf : option (list Z)) (want_remote : bool)
    : M rx_ring (option received) :=
  match events with
  | [] => mret None
  | e :: events =>
      if negb (Z.land e EPOLLIN =? 0) then
        s ← get_packet;
        match slot_kind_of s with
        | SlotEmpty => event_loop events rcv_buf want_remote
        | SlotSkip => next_packet;; event_loop events rcv_buf want_remote
        | SlotPacket f => r ← take_packet rcv_buf want_remote f; mret (Some r)
        end
      else event_loop events rcv_buf want_remote
  end.
Fixpoint rcv_loop (fuel : nat) (rcv_buf : option (list Z)) (want_remote : bool)
    : M rx_ring received :=
  match fuel with
  | O => err Hang
  | S fuel =>
      events ← epoll_wait;
      r ← event_loop events rcv_buf want_remote;
      match r with
      | Some r => mret r
      | None => rcv_loop fuel rcv_buf want_remote
      end
  end.
(** Every round takes a poll, so their number is fuel enough. *)
Definition simple_epoll_rcv (rcv_buf : option (list Z)) (want_remote : bool) : M rx_ring received :=
  λ r, rcv_loop (S (length (polls r))) rcv_buf want_remote r.

(** The memory the pointers of a bulk read point to: a buffer at address [base]. *)
Record pool := MkPool { base : Z; bytes : list Z }.
Definition pool_write (p : pool) (a : Z) (src : list Z) (o n : Z) : M rx_ring pool :=
  b ← copy (bytes p) (a - base p) src o n;
  mret (MkPool (base p) b).

(** [write_packets]; [event] is not reset, so a wait that reports nothing
    leaves it as it was, [last]. *)
Fixpoint write_loop (fuel : nat) (last packets num_packets : Z) (p : pool) : M rx_ring pool :=
  match fuel with
  | O => err Hang
  | S fuel =>
      if packets =? num_packets then mret p else
      events ← epoll_wait;
      let e := match events with e :: _ => e | [] => last end in
      if negb (Z.land e EPOLLIN =? 0) then
        s ← get_packet;
        match slot_kind_of s with
        | SlotEmpty => write_loop fuel e packets num_packets p
        | SlotSkip => next_packet;; write_loop fuel e packets num_packets p
        | SlotPacket f =>
            dst ← frame_field f OFF_DST IPV6_SIZE;
            msg_size ← msg_size_of f;
            p ← pool_write p (paddr (dec_addr dst)) f OFF_DATA msg_size;
            release_packet;;
            next_packet;;
            write_loop fuel e (packets + 1) num_packets p
        end
      else write_loop fuel e packets num_packets p
  end.
Definition write_packets (garbage num_packets : Z) (p : pool) : M rx_ring pool :=
  λ r, write_loop (S (length (polls r))) garbage 0 num_packets p r.

(** ** What arrives *)

(** From [r] on, the next packet is [f]; [r'] is the ring at that time. *)
Inductive arrival : rx_ring → list Z → rx_ring → Prop :=
| arr_now r e rg ps s f :
    polls r = MkPoll [e] rg :: ps → Z.land e EPOLLIN ≠ 0 →
    idx (fill (ring r) rg) (tpacket_i r) = Some s → slot_kind_of s = SlotPacket f →
    arrival r f (MkRx (fill (ring r) rg) (tpacket_i r) (tp_frame_nr r) ps)
| arr_quiet r rg ps f r' :
    polls r = MkPoll [] rg :: ps → arrival (MkRx (fill (ring r) rg) (tpacket_i r) (tp_frame_nr r) ps) f r' →
    arrival r f r'
| arr_empty r e rg ps s f r' :
    polls r = MkPoll [e] rg :: ps →
    idx (fill (ring r) rg) (tpacket_i r) = Some s → slot_kind_of s = SlotEmpty →
    arrival (MkRx (fill (ring r) rg) (tpacket_i r) (tp_frame_nr r) ps) f r' →
    arrival r f r'
| arr_skip r e rg ps s f r' :
    polls r = MkPoll [e] rg :: ps → Z.land e EPOLLIN ≠ 0 →
    idx (fill (ring r) rg) (tpacket_i r) = Some s → slot_kind_of s = SlotSkip → tp_frame_nr r ≠ 0 →
    arrival (MkRx (fill (ring r) rg) ((tpacket_i r + 1) mod tp_frame_nr r) (tp_frame_nr r) ps) f r' →
    arrival r f r'.

Lemma wp_epoll_wait r p ps Q :
  polls r = p :: ps → Q (p_events p) (MkRx (fill (ring r) (p_fills p)) (tpacket_i r) (tp_frame_nr r) ps) →
  wp epoll_wait r Q.
Proof. intros E HQ. unfold epoll_wait. rewrite wp_bind, wp_gets, E. by wp_pure. Qed.

Lemma slot_in_ring rg i n ps s r :
  idx rg i = Some s → r = MkRx rg i n ps →
  wp get_packet r (λ x r', x = s ∧ r' = r).
Proof.
  intros E ->. unfold get_packet. rewrite wp_bind, wp_gets. by eapply wp_aload.
Qed.

(** The receive loop stops at the first packet, whatever came before. *)
Lemma wp_rcv_loop r f r' buf want Q :
  arrival r f r' → wp (take_packet buf want f) r' Q →
  ∀ fuel, (length (polls r) < fuel)%nat → wp (rcv_loop fuel buf want) r Q.
Proof.
  intros Ha Ht. induction Ha as [r e rg ps s f Hp He Hs Hk|r rg ps f r' Hp Ha IH
    |r e rg ps s f r' Hp Hs Hk Ha IH|r e rg ps s f r' Hp He Hs Hk Hn Ha IH];
    intros fuel Hf; (destruct fuel as [|fuel]; [lia|]); cbn [rcv_loop]; rewrite wp_bind;
    (eapply wp_epoll_wait; [exact Hp|]); cbn [p_events p_fills]; rewrite wp_bind;
    rewrite Hp in Hf; simpl in Hf; cbn [event_loop].
  - rewrite (proj2 (Z.eqb_neq _ 0)) by done. cbn [negb]. rewrite wp_bind.
    eapply wp_mono; [by eapply slot_in_ring|]. intros x rx [-> ->]. rewrite Hk, wp_bind.
    eapply wp_mono; [exact Ht|]. intros a rx Hq. by rewrite !wp_ret.
  - rewrite wp_ret. apply IH; [done|simpl; lia].
  - destruct (negb (Z.land e EPOLLIN =? 0)).
    + rewrite wp_bind. eapply wp_mono; [by eapply slot_in_ring|]. intros x rx [-> ->].
      rewrite Hk. cbn [event_loop]. rewrite wp_ret. apply IH; [done|simpl; lia].
    + cbn [event_loop]. rewrite wp_ret. apply IH; [done|simpl; lia].
  - rewrite (proj2 (Z.eqb_neq _ 0)) by done. cbn [negb]. rewrite wp_bind.
    eapply wp_mono; [by eapply slot_in_ring|]. intros x rx [-> ->]. rewrite Hk.
    unfold next_packet. rewrite !wp_bind, wp_gets, wp_bind, wp_gets. cbn [tp_frame_nr tpacket_i].
    rewrite (proj2 (Z.eqb_neq (tp_frame_nr r) 0)) by done. rewrite wp_modify.
    cbn [event_loop]. rewrite wp_ret. apply IH; [done|simpl; lia].
Qed.

(** *** The packet is what was sent *)

Lemma frame_field_of f rest o n :
  0 <= o → 0 <= n → o + n <= len f →
  frame_field (f ++ rest) o n = mret (slice f o n).
Proof.
  intros. unfold frame_field. rewrite (proj2 (Z.leb_le _ _)); [|rewrite len_app; pose proof (len_nonneg rest); lia].
  f_equal. rewrite <-(slice_take (f ++ rest) (len f) o n) by lia. f_equal.
  rewrite take_app_length' by (unfold len; lia). done.
Qed.

Lemma msg_size_frame f rest sip sport p r Q :
  frame_of f sip sport p → 0 <= datalen p <= 65527 → Q (datalen p) r →
  wp (msg_size_of (f ++ rest)) r Q.
Proof.
  intros Hf Hd HQ. pose proof (fr_len _ _ _ _ Hf) as Hl. unfold msg_size_of.
  rewrite frame_field_of by (rewrite ?Hl; unfold OFF_ULEN, OFF_DATA, ETH_HDRLEN, IP6_HDRLEN, UDP_HDRLEN; lia).
  rewrite wp_bind, wp_ret, wp_ret, (fr_ulen _ _ _ _ Hf).
  unfold UDP_HDRLEN. rewrite (u16_small (8 + datalen p)) by lia.
  rewrite un_le_le by (pose proof (htons_range (8 + datalen p)); simpl; lia).
  rewrite htons_htons by lia. replace (8 + datalen p - 8) with (datalen p) by lia.
  by rewrite u16_small by lia.
Qed.

Lemma wp_take_packet f rest sip sport p r (buf : option (list Z)) (want : bool) s Q :
  frame_of f sip sport p → addr_ok (dst_addr p) → 0 <= sport < 65536 →
  0 <= datalen p <= 65527 → len sip = 16 →
  (match buf with Some b => datalen p <= len b | None => True end) →
  idx (ring r) (tpacket_i r) = Some s → tp_frame_nr r ≠ 0 →
  (∀ b, match buf with
        | Some b0 => ∃ l, b = Some l ∧ len l = len b0 ∧ take (Z.to_nat (datalen p)) l = data p ∧
                     drop (Z.to_nat (datalen p)) l = drop (Z.to_nat (datalen p)) b0
        | None => b = None
        end →
     Q (MkRcvd b (if want then Some (dst_addr p) else None) (MkSock (dec_addr sip) sport) (datalen p))
       (MkRx (upd (ring r) (tpacket_i r) (set_status TP_STATUS_KERNEL s))
          ((tpacket_i r + 1) mod tp_frame_nr r) (tp_frame_nr r) (polls r))) →
  wp (take_packet buf want (f ++ rest)) r Q.
Proof.
  intros Hf Ha Hsp Hd Hsip Hb Hs Hn HQ. pose proof offs as Hoffs.
  pose proof (fr_len _ _ _ _ Hf) as Hl. pose proof (idx_Some_range _ _ _ Hs).
  unfold take_packet. rewrite wp_bind. eapply msg_size_frame; [done|done|].
  rewrite wp_bind. eapply (wp_mono _ _ (λ (b : option (list Z)) r', r' = r ∧ match buf with
        | Some b0 => ∃ l, b = Some l ∧ len l = len b0 ∧ take (Z.to_nat (datalen p)) l = data p ∧
                     drop (Z.to_nat (datalen p)) l = drop (Z.to_nat (datalen p)) b0
        | None => b = None
        end)).
  { destruct buf as [b0|]; [|by rewrite wp_ret]. rewrite wp_bind.
    pose proof (len_nonneg rest). apply wp_copy; [lia|lia|lia|lia|rewrite len_app; lia|].
    intros l Hll Hidx. rewrite wp_ret. split; [done|]. exists l. split_and!; [done|done| |].
    - rewrite <-(fr_data _ _ _ _ Hf). apply idx_ext. intros i.
      destruct (decide (0 <= i)); [|rewrite !idx_None; [done|lia..]].
      rewrite idx_take, idx_slice by lia. case_decide; [|done].
      rewrite Hidx, decide_True by lia. rewrite idx_app, decide_True by lia. f_equal. lia.
    - apply idx_ext. intros i. destruct (decide (0 <= i)); [|rewrite !idx_None; [done|lia..]].
      rewrite !idx_drop by lia. destruct (decide (datalen p + i < len b0)).
      + rewrite Hidx, decide_False by lia. done.
      + rewrite !idx_None; [done|lia..]. }
  intros b r1 [-> Hbb]. unfold IPV6_SIZE.
  rewrite !frame_field_of by lia. rewrite wp_bind, wp_ret, wp_bind, wp_ret, wp_bind, wp_ret.
  unfold release_packet, next_packet. rewrite !wp_bind, wp_gets, wp_bind.
  eapply wp_aload; [exact Hs|]. apply wp_astore; [done|]. rewrite !wp_bind, wp_gets, wp_bind, wp_gets.
  cbn [tp_frame_nr put_ring]. rewrite (proj2 (Z.eqb_neq (tp_frame_nr r) 0)) by done.
  rewrite wp_modify, wp_ret. cbn [tpacket_i put_ring put_tpacket_i ring polls].
  rewrite (fr_dst _ _ _ _ Hf), (fr_src _ _ _ _ Hf), (fr_sport _ _ _ _ Hf).
  rewrite dec_enc_addr by done. rewrite un_le_le by done. by apply HQ.
Qed.
