(* ===== verification/Checksum.v ===== *)
(** * The Internet checksum of src/ip6/lib/raw_backend/udp_raw_send.c

    [checksum] (RFC 1071) and [udp6_checksum], which lays out the
    pseudo-header of RFC 2460 and the datagram in a buffer and sums it. Both
    are unused: [prepare_packet] sends a constant instead. *)

From S2P Require Import Prelude Types Bytes Wire RawSend.

Section Checksum.
Context {S : Type}.

(** The first loop and the left-over byte; [sum] is a [uint32_t]. *)
Fixpoint sum_words (l : list Z) (sum : Z) : Z :=
  match l with
  | a :: b :: l => sum_words l (u32 (sum + (a + 256 * b)))
  | [a] => u32 (sum + a)
  | [] => sum
  end.
(** [while (sum >> 16)]; for 32 bits three rounds are enough. *)
Fixpoint fold_sum (fuel : nat) (sum : Z) : M S Z :=
  if Z.shiftr sum 16 =? 0 then mret sum else
  match fuel with
  | O => err Hang
  | Datatypes.S fuel => fold_sum fuel (u32 (Z.land sum 65535 + Z.shiftr sum 16))
  end.
Definition checksum (addr : list Z) (n : Z) : M S Z :=
  if len addr <? n then err OutOfBounds else
  sum ← fold_sum 3 (sum_words (take (Z.to_nat n) addr) 0);
  let answer := u16 (Z.lnot sum) in
  mret (if answer =? 0 then 65535 else answer).

(** [iphdr] and [udphdr] are the bytes of the two headers; [buf] is a local,
    its initial content is whatever the stack holds. *)
Definition udp6_checksum (buf iphdr udphdr payload : list Z) (payloadlen : Z) : M S Z :=
  buf ← copy buf 0 iphdr 8 16;
  buf ← copy buf 16 iphdr 24 16;
  buf ← copy buf 32 udphdr 4 2;
  buf ← wr buf 34 0;
  buf ← wr buf 35 0;
  buf ← wr buf 36 0;
  buf ← copy buf 37 iphdr 6 1;
  buf ← copy buf 38 udphdr 0 2;
  buf ← copy buf 40 udphdr 2 2;
  buf ← copy buf 42 udphdr 4 2;
  buf ← wr buf 44 0;
  buf ← wr buf 45 0;
  buf ← copy buf 46 payload 0 payloadlen;
  let odd := Z.rem payloadlen 2 in
  buf ← (if 0 <? odd then wr buf (46 + payloadlen) 0 else mret buf);
  checksum buf (46 + payloadlen + Z.max 0 odd).

(** ** The sum of the 16-bit words *)

Fixpoint wsum (l : list Z) : Z :=
  match l with
  | a :: b :: l => a + 256 * b + wsum l
  | [a] => a
  | [] => 0
  end.

#[local] Lemma two_ind (P : list Z → Prop) :
  P [] → (∀ a, P [a]) → (∀ a b l, P l → P (a :: b :: l)) → ∀ l, P l.
Proof.
  intros H0 H1 H2. fix IH 1. intros [|a [|b l]]; [done|apply H1|apply H2, IH].
Qed.

Lemma wsum_range l : Forall byte_ok l → 0 <= wsum l ∧ 2 * wsum l <= 65535 * (len l + 1).
Proof.
  induction l as [|a|a b l IH] using two_ind; cbn [wsum]; rewrite ?Forall_cons; unfold byte_ok.
  - intros _. unfold len. simpl. lia.
  - intros [Ha _]. unfold len. simpl. lia.
  - intros (Ha & Hb & Hl). specialize (IH Hl). rewrite !len_cons. lia.
Qed.
Lemma wsum_app l l' : Z.even (len l) = true → wsum (l ++ l') = wsum l + wsum l'.
Proof.
  induction l as [|a|a b l IH] using two_ind; cbn [wsum app]; [lia|done|].
  rewrite !len_cons. intros He. rewrite IH; [lia|].
  replace (len l) with (len l + 1 + 1 - 2) by lia. by rewrite Z.even_sub, He.
Qed.
Lemma wsum_snoc0 l : wsum (l ++ [0]) = wsum l.
Proof. induction l as [|a|a b l IH] using two_ind; cbn [wsum app]; lia. Qed.

Lemma sum_words_ok l : ∀ s, Forall byte_ok l → 0 <= s → s + wsum l < 2 ^ 32 →
  sum_words l s = s + wsum l.
Proof.
  induction l as [|a|a b l IH] using two_ind; intros s Hb Hs Hlt; cbn [sum_words wsum] in *.
  - lia.
  - apply Forall_cons in Hb as [Ha _]. unfold byte_ok in Ha. apply u32_small. lia.
  - rewrite !Forall_cons in Hb. destruct Hb as (Ha & Hb & Hl). unfold byte_ok in *.
    pose proof (wsum_range l Hl). rewrite u32_small by lia. rewrite IH by (done || lia). lia.
Qed.

(** One round keeps the sum modulo 65535. *)
Lemma fold_step s : 0 <= s < 2 ^ 32 →
  u32 (Z.land s 65535 + Z.shiftr s 16) = s mod 65536 + s / 65536 ∧
  (s mod 65536 + s / 65536) mod 65535 = s mod 65535 ∧
  (s ≠ 0 → 0 < s mod 65536 + s / 65536).
Proof.
  intros Hs. change 65535 with (Z.ones 16) at 1. rewrite Z.land_ones, Z.shiftr_div_pow2 by lia.
  change (2 ^ 16) with 65536. pose proof (Z.mod_pos_bound s 65536 ltac:(lia)).
  pose proof (Z.div_mod s 65536 ltac:(lia)) as E.
  assert (0 <= s / 65536 < 65536) by (split; [apply Z.div_pos; lia|apply Z.div_lt_upper_bound; lia]).
  split_and!; [apply u32_small; lia| |lia].
  rewrite E at 3. replace (65536 * (s / 65536) + s mod 65536)
    with (s mod 65536 + s / 65536 + (s / 65536) * 65535) by lia. by rewrite Z_mod_plus_full.
Qed.
Lemma wp_fold_sum s (st : S) : 0 <= s < 2 ^ 32 →
  wp (fold_sum 3 s) st (λ r st', st' = st ∧ 0 <= r < 65536 ∧ r mod 65535 = s mod 65535 ∧
    (s ≠ 0 → r ≠ 0)).
Proof.
  intros Hs.
  assert (∀ n x, 0 <= x < 2 ^ 32 → x mod 65535 = s mod 65535 → (s ≠ 0 → x ≠ 0) →
    (x < 65536 ∨ (n = 1%nat ∧ x < 131071) ∨ (2 <= n)%nat) →
    wp (fold_sum n x) st (λ r st', st' = st ∧ 0 <= r < 65536 ∧ r mod 65535 = s mod 65535 ∧
      (s ≠ 0 → r ≠ 0))) as Hloop; [|apply Hloop; auto; lia].
  induction n as [|n IH]; intros x Hx Hm Hz Hc; cbn [fold_sum];
    rewrite Z.shiftr_div_pow2 by lia; change (2 ^ 16) with 65536;
    (destruct (Z.eqb_spec (x / 65536) 0) as [E|E];
      [rewrite wp_ret; pose proof (Z.div_mod x 65536 ltac:(lia));
       pose proof (Z.mod_pos_bound x 65536 ltac:(lia)); split_and!; auto; lia|]).
  - exfalso. apply E. apply Z.div_small. lia.
  - destruct (fold_step x Hx) as (Eu & Em & Ez). rewrite Z.shiftr_div_pow2 in Eu by lia.
    change (2 ^ 16) with 65536 in Eu. rewrite Eu.
    pose proof (Z.div_mod x 65536 ltac:(lia)). pose proof (Z.mod_pos_bound x 65536 ltac:(lia)).
    assert (0 < x / 65536 < 65536).
    { split; [|apply Z.div_lt_upper_bound; lia]. pose proof (Z.div_pos x 65536). lia. }
    apply IH; [lia|congruence|lia|]. destruct n as [|[|n]]; lia.
Qed.

Lemma wp_checksum l n (st : S) Q :
  Forall byte_ok (take (Z.to_nat n) l) → 0 <= n <= len l → n <= 65535 →
  (∀ r, 1 <= r <= 65535 → (wsum (take (Z.to_nat n) l) + r) mod 65535 = 0 → Q r st) →
  wp (checksum l n) st Q.
Proof.
  intros Hb Hn Hmax HQ. unfold checksum. rewrite (proj2 (Z.ltb_ge _ _)) by lia.
  remember (take (Z.to_nat n) l) as w eqn:Ew.
  assert (Forall byte_ok w) as Hw by by subst w.
  assert (len w = n) as Hl by (subst w; rewrite len_take; lia).
  pose proof (wsum_range w Hw). rewrite sum_words_ok, Z.add_0_l by (done || lia).
  rewrite wp_bind. eapply wp_mono; [apply wp_fold_sum; lia|]. intros r st' (-> & Hr & Hm & _).
  rewrite wp_ret. unfold u16. change (2 ^ 16) with 65536.
  assert (Z.lnot r mod 65536 = 65535 - r) as ->.
  { unfold Z.lnot. replace (Z.pred (- r)) with (65535 - r + (-1) * 65536) by lia.
    rewrite Z_mod_plus_full. apply Z.mod_small. lia. }
  assert ((wsum w + (65535 - r)) mod 65535 = 0) as Hz.
  { rewrite <-Zplus_mod_idemp_l, <-Hm, Zplus_mod_idemp_l.
    by replace (r + (65535 - r)) with 65535 by lia. }
  destruct (Z.eqb_spec (65535 - r) 0) as [E|E]; apply HQ; [lia| |lia|exact Hz].
  rewrite E, Z.add_0_r in Hz. replace (wsum w + 65535) with (wsum w + 1 * 65535) by lia.
  by rewrite Z_mod_plus_full.
Qed.

(** The first bytes of the buffer after one more piece was written. *)
Lemma wp_copy_next buf pre d src o n (st : S) Q :
  take (Z.to_nat d) buf = pre → 0 <= d → 0 <= o → 0 <= n → d + n <= len buf → o + n <= len src →
  (∀ buf', len buf' = len buf → take (Z.to_nat (d + n)) buf' = pre ++ slice src o n → Q buf' st) →
  wp (copy buf d src o n) st Q.
Proof.
  intros <- Hd Ho Hn Hl Hs HQ. apply wp_copy; try lia. intros l Hll Hidx. apply HQ; [done|].
  apply idx_ext. intros i. destruct (decide (0 <= i)); [|rewrite !idx_None; [done|lia..]].
  rewrite idx_take, idx_app, len_take by lia. destruct (decide (i < d)).
  - rewrite decide_True, Hidx, decide_False, idx_take, decide_True by lia. done.
  - rewrite idx_slice by lia. destruct (decide (i < d + n)).
    + by rewrite Hidx, !decide_True by lia.
    + by rewrite decide_False by lia.
Qed.
Lemma wp_wr_next buf pre d x (st : S) Q :
  take (Z.to_nat d) buf = pre → 0 <= d < len buf →
  (∀ buf', len buf' = len buf → take (Z.to_nat (d + 1)) buf' = pre ++ [x] → Q buf' st) →
  wp (wr buf d x) st Q.
Proof.
  intros <- Hd HQ. apply wp_wr; [done|]. apply HQ; [by rewrite len_upd|].
  apply idx_ext. intros i. destruct (decide (0 <= i)); [|rewrite !idx_None; [done|lia..]].
  rewrite idx_take, idx_app, len_take by lia. rewrite idx_upd by lia. destruct (decide (i < d)).
  - rewrite decide_True, decide_False, idx_take, decide_True by lia. done.
  - destruct (decide (d = i)) as [<-|].
    + rewrite decide_True by lia. by replace (d - d) with 0 by lia.
    + rewrite decide_False, idx_None by (unfold len; simpl; lia). done.
Qed.
End Checksum.

(** ** The theorems *)

(** The datagram as RFC 2460, section 8.1, sums it: the pseudo-header, then
    the UDP header with the checksum [ck], then the payload. *)
Definition rfc2460 (iphdr udphdr payload : list Z) (ck : Z) : list Z :=
  slice iphdr 8 16 ++ slice iphdr 24 16 ++ [0; 0] ++ slice udphdr 4 2 ++ [0; 0; 0] ++ slice iphdr 6 1 ++
  slice udphdr 0 2 ++ slice udphdr 2 2 ++ slice udphdr 4 2 ++ le 2 ck ++ payload.

(** [checksum] of bytes returns, whatever the bytes, the one number
    between 1 and 65535 that makes the ones' complement sum of their 16-bit
    words, an odd last byte padded, a multiple of 65535. *)
Theorem checksum_completes_the_sum (l : list Z) n :
  Forall byte_ok l → 0 <= n <= len l → n <= 65535 →
  ∃ r, checksum l n tt = Ok r tt ∧ 1 <= r <= 65535 ∧
    ∀ r', 1 <= r' <= 65535 → (wsum (take (Z.to_nat n) l) + r') mod 65535 = 0 ↔ r' = r.
Proof.
  intros Hb Hn Hmax.
  assert (wp (checksum l n) tt (λ r _, 1 <= r <= 65535 ∧ (wsum (take (Z.to_nat n) l) + r) mod 65535 = 0))
    as Hw by (apply wp_checksum; auto using Forall_take).
  apply wp_ok in Hw as (r & [] & E & Hr & Hz). exists r. split_and!; [done|lia|lia|].
  intros r' Hr'. split; [|by intros ->]. intros Hz'.
  pose proof (Z.div_mod (wsum (take (Z.to_nat n) l) + r) 65535 ltac:(lia)).
  pose proof (Z.div_mod (wsum (take (Z.to_nat n) l) + r') 65535 ltac:(lia)). lia.
Qed.

(** The sum of one candidate for the checksum pins it down. *)
Lemma checksum_unique w r r' :
  1 <= r <= 65535 → 1 <= r' <= 65535 → (w + r) mod 65535 = 0 → (w + r') mod 65535 = 0 → r' = r.
Proof.
  intros Hr Hr' Hz Hz'. pose proof (Z.div_mod (w + r) 65535 ltac:(lia)).
  pose proof (Z.div_mod (w + r') 65535 ltac:(lia)). lia.
Qed.

Section Udp.
Variables (iphdr udphdr payload : list Z).
Hypothesis Hip : len iphdr = 40.
Hypothesis Hudp : len udphdr = 8.
Hypothesis Hipb : Forall byte_ok iphdr.
Hypothesis Hudpb : Forall byte_ok udphdr.
Hypothesis Hpay : Forall byte_ok payload.
Abbreviation plen := (len payload).

(** What the code writes into its buffer. *)
Definition laid_out : list Z :=
  slice iphdr 8 16 ++ slice iphdr 24 16 ++ slice udphdr 4 2 ++ [0; 0; 0] ++ slice iphdr 6 1 ++
  slice udphdr 0 2 ++ slice udphdr 2 2 ++ slice udphdr 4 2 ++ [0; 0] ++ payload.

Lemma wsum_pieces (ls : list (list Z)) : ∀ rest,
  Forall (λ l, Z.even (len l) = true) ls → wsum (concat ls ++ rest) = foldr (λ l s, wsum l + s) (wsum rest) ls.
Proof.
  induction ls as [|l ls IH]; intros rest Hl; simpl; [done|]. apply Forall_cons in Hl as [He Hl].
  by rewrite <-app_assoc, wsum_app, IH.
Qed.
Lemma wsum_le2 x : 0 <= x < 65536 → wsum (le 2 x) = x.
Proof.
  intros Hx. cbn [le wsum]. pose proof (Z.div_mod x 256 ltac:(lia)).
  assert (x / 256 mod 256 = x / 256) as ->; [|lia].
  apply Z.mod_small. split; [apply Z.div_pos; lia|apply Z.div_lt_upper_bound; lia].
Qed.
Lemma wsum_rfc ck : 0 <= ck < 65536 → wsum (rfc2460 iphdr udphdr payload ck) = wsum laid_out + ck.
Proof.
  intros Hck. unfold rfc2460, laid_out.
  pose proof (wsum_pieces [slice iphdr 8 16; slice iphdr 24 16; [0; 0]; slice udphdr 4 2;
    [0; 0; 0] ++ slice iphdr 6 1; slice udphdr 0 2; slice udphdr 2 2; slice udphdr 4 2; le 2 ck] payload) as E1.
  pose proof (wsum_pieces [slice iphdr 8 16; slice iphdr 24 16; slice udphdr 4 2;
    [0; 0; 0] ++ slice iphdr 6 1; slice udphdr 0 2; slice udphdr 2 2; slice udphdr 4 2; [0; 0]] payload) as E2.
  cbn [concat foldr] in E1, E2. rewrite !app_nil_r in E1, E2.
  repeat rewrite <-app_assoc in E1. repeat rewrite <-app_assoc in E2. rewrite E1, E2.
  - rewrite wsum_le2 by done. change (wsum [0; 0]) with 0. lia.
  - repeat constructor; rewrite ?len_app, ?len_slice by lia; done.
  - repeat constructor; rewrite ?len_app, ?len_slice by lia; done.
Qed.
Lemma laid_out_bytes : Forall byte_ok laid_out.
Proof.
  unfold laid_out. repeat (apply Forall_app; split); try by apply slice_bytes; try done.
  all: repeat constructor; done.
Qed.
Lemma len_laid_out : len laid_out = 46 + plen.
Proof. unfold laid_out. rewrite !len_app, !len_slice by lia. change (len [0; 0; 0]) with 3. change (len [0; 0]) with 2. lia. Qed.

Lemma wp_udp6_checksum {S} buf (st : S) Q :
  47 + plen <= len buf → 47 + plen <= 65535 →
  (∀ r, 1 <= r <= 65535 → (wsum laid_out + r) mod 65535 = 0 → Q r st) →
  wp (udp6_checksum buf iphdr udphdr payload plen) st Q.
Proof.
  intros Hbuf Hmax HQ. pose proof (len_nonneg payload). unfold udp6_checksum.
  rewrite wp_bind. apply (wp_copy_next _ []); try lia; [done|]. intros b1 L1 E1.
  rewrite wp_bind. apply (wp_copy_next _ _ 16 _ _ _ _ _ E1); try lia. intros b2 L2 E2.
  rewrite wp_bind. apply (wp_copy_next _ _ 32 _ _ _ _ _ E2); try lia. intros b3 L3 E3.
  rewrite wp_bind. apply (wp_wr_next _ _ 34 _ _ _ E3); try lia. intros b4 L4 E4.
  rewrite wp_bind. apply (wp_wr_next _ _ 35 _ _ _ E4); try lia. intros b5 L5 E5.
  rewrite wp_bind. apply (wp_wr_next _ _ 36 _ _ _ E5); try lia. intros b6 L6 E6.
  rewrite wp_bind. apply (wp_copy_next _ _ 37 _ _ _ _ _ E6); try lia. intros b7 L7 E7.
  rewrite wp_bind. apply (wp_copy_next _ _ 38 _ _ _ _ _ E7); try lia. intros b8 L8 E8.
  rewrite wp_bind. apply (wp_copy_next _ _ 40 _ _ _ _ _ E8); try lia. intros b9 L9 E9.
  rewrite wp_bind. apply (wp_copy_next _ _ 42 _ _ _ _ _ E9); try lia. intros b10 L10 E10.
  rewrite wp_bind. apply (wp_wr_next _ _ 44 _ _ _ E10); try lia. intros b11 L11 E11.
  rewrite wp_bind. apply (wp_wr_next _ _ 45 _ _ _ E11); try lia. intros b12 L12 E12.
  rewrite wp_bind. apply (wp_copy_next _ _ 46 _ _ _ _ _ E12); try lia. intros b13 L13 E13.
  assert (take (Z.to_nat (46 + plen)) b13 = laid_out) as E.
  { assert (slice payload 0 plen = payload) as Ep.
    { unfold slice. rewrite drop_0. apply take_ge. unfold len. lia. }
    rewrite E13, Ep. unfold laid_out. repeat rewrite <-app_assoc. reflexivity. }
  clear E1 E2 E3 E4 E5 E6 E7 E8 E9 E10 E11 E12 E13.
  pose proof (Z.rem_bound_pos plen 2 ltac:(lia) ltac:(lia)).
  pose proof laid_out_bytes as Hlb. rewrite wp_bind.
  destruct (Z.ltb_spec 0 (Z.rem plen 2)).
  - apply (wp_wr_next _ _ _ _ _ _ E); [lia|]. intros b14 L14 E14.
    replace (46 + plen + Z.max 0 (Z.rem plen 2)) with (46 + plen + 1) by lia.
    apply wp_checksum; rewrite ?E14; try lia; [by apply Forall_app; repeat constructor|].
    intros r Hr Hz. apply HQ; [done|]. by rewrite wsum_snoc0 in Hz.
  - rewrite wp_ret. replace (46 + plen + Z.max 0 (Z.rem plen 2)) with (46 + plen) by lia.
    apply wp_checksum; rewrite ?E; try lia; done.
Qed.

(** C31: [udp6_checksum] computes the checksum RFC 2460 defines, although it
    lays out another pseudo-header (a 16-bit length and three zero bytes, 38
    bytes instead of 40): it is the one number between 1 and 65535 with which
    the datagram and the standard's pseudo-header sum to zero. *)
Theorem udp6_checksum_is_rfc2460 buf :
  47 + plen <= len buf → len buf <= IP_MAXPACKET →
  ∃ r, udp6_checksum buf iphdr udphdr payload plen tt = Ok r tt ∧ 1 <= r <= 65535 ∧
    ∀ ck, 1 <= ck <= 65535 → wsum (rfc2460 iphdr udphdr payload ck) mod 65535 = 0 ↔ ck = r.
Proof.
  intros Hbuf Hmax. unfold IP_MAXPACKET in Hmax.
  assert (wp (udp6_checksum buf iphdr udphdr payload plen) tt
    (λ r _, 1 <= r <= 65535 ∧ (wsum laid_out + r) mod 65535 = 0)) as Hw.
  { apply wp_udp6_checksum; [done|lia|done]. }
  apply wp_ok in Hw as (r & [] & E & Hr & Hz). exists r. split_and!; [done|lia|lia|].
  intros ck Hck. rewrite wsum_rfc by lia. split; [|by intros ->].
  intros Hz'. by eapply checksum_unique.
Qed.
End Udp.

Lemma checksum_completes_the_sum_witness :
  ∃ r, checksum [69; 0; 0; 115; 7] 5 tt = Ok r tt ∧
    ∀ r', 1 <= r' <= 65535 → (wsum [69; 0; 0; 115; 7] + r') mod 65535 = 0 ↔ r' = r.
Proof.
  destruct (checksum_completes_the_sum [69; 0; 0; 115; 7] 5) as (r & E & _ & Hr).
  - repeat constructor; done.
  - split; [lia|by vm_compute].
  - lia.
  - exists r. by split.
Defined.

Lemma udp6_checksum_is_rfc2460_witness :
  ∃ r, udp6_checksum (replicate 64 255) (replicate 40 1) (replicate 8 2) [3; 4; 5] 3 tt = Ok r tt ∧
    wsum (rfc2460 (replicate 40 1) (replicate 8 2) [3; 4; 5] r) mod 65535 = 0.
Proof.
  destruct (udp6_checksum_is_rfc2460 (replicate 40 1) (replicate 8 2) [3; 4; 5]) with
    (buf := replicate 64 255) as (r & E & Hr & Hz).
  - reflexivity.
  - reflexivity.
  - by apply Forall_replicate.
  - by apply Forall_replicate.
  - repeat constructor; done.
  - by vm_compute.
  - by vm_compute.
  - exists r. split; [exact E|]. by apply Hz.
Defined.
