(* ===== verification/Server.v ===== *)
(** * The memory server: src/ip6/lib/server_lib.c

    [process_request] executes a command on the server's memory. The memory
    is a map from addresses to bytes, defined on the blocks that [calloc]
    returned; an access outside them is a [BadPointer]. Replies go out
    through [send_udp_raw]. *)

From S2P Require Import Prelude Types Bytes Wire RawSend RawRecv.

(** [calloc]: NULL or the address of a range that no live block meets. *)
Definition apart (a n b m : Z) : Prop := a + n <= b ∨ b + m <= a.
Class Calloc := {
  calloc_addr : gmap Z Z → Z → Z;
  calloc_addr_ok bl n : 0 < n →
    calloc_addr bl n = 0 ∨
    (0 < calloc_addr bl n ∧ calloc_addr bl n + n <= 2 ^ 64 ∧
     ∀ b m, bl !! b = Some m → apart (calloc_addr bl n) n b m);
}.

(** Ranges of the memory. *)
Fixpoint load_range (mem : gmap Z Z) (a : Z) (n : nat) : option (list Z) :=
  match n with
  | O => Some []
  | S n => x ← mem !! a; l ← load_range mem (a + 1) n; Some (x :: l)
  end.
Fixpoint store_range (mem : gmap Z Z) (a : Z) (l : list Z) : option (gmap Z Z) :=
  match l with
  | [] => Some mem
  | x :: l => _ ← mem !! a; store_range (<[a := x]> mem) (a + 1) l
  end.
Fixpoint fill_range (mem : gmap Z Z) (a : Z) (n : nat) : gmap Z Z :=
  match n with O => mem | S n => fill_range (<[a := 0]> mem) (a + 1) n end.
Fixpoint clear_range (mem : gmap Z Z) (a : Z) (n : nat) : gmap Z Z :=
  match n with O => mem | S n => clear_range (delete a mem) (a + 1) n end.

Section Server.
Context `{Config} `{!Kernel} `{!Calloc}.

(** [blocks] has the size of each live block; [target_ip] is the sender of
    the request, which the handlers turn into the address of the reply. *)
Record server := MkServer {
  memory : gmap Z Z;
  blocks : gmap Z Z;
  target_ip : sockaddr_in6;
  s_tx : tx;
}.
Definition put_memory x s := MkServer x (blocks s) (target_ip s) (s_tx s).
Definition put_blocks x s := MkServer (memory s) x (target_ip s) (s_tx s).
Definition put_target x s := MkServer (memory s) (blocks s) x (s_tx s).
Definition put_tx x s := MkServer (memory s) (blocks s) (target_ip s) x.
Definition upd_returnID (f : ip6_memaddr → ip6_memaddr) (s : server) : server :=
  put_target (MkSock (f (sin6_addr (target_ip s))) (sin6_port (target_ip s))) s.
Abbreviation MS := (M server).

(** [calloc(1, n)] *)
Definition calloc (n : Z) : MS Z :=
  bl ← gets blocks;
  let a := calloc_addr bl n in
  if a =? 0 then mret 0 else
  m ← gets memory;
  modify (put_memory (fill_range m a (Z.to_nat n)));;
  modify (put_blocks (<[a := n]> bl));;
  mret a.
(** [memcpy] out of and into the memory, [memset(a, 0, n)], [free]. *)
Definition mem_load (a n : Z) : MS (list Z) :=
  m ← gets memory;
  match load_range m a (Z.to_nat n) with Some l => mret l | None => err BadPointer end.
Definition mem_store (a : Z) (l : list Z) : MS unit :=
  m ← gets memory;
  match store_range m a l with Some m => modify (put_memory m) | None => err BadPointer end.
Definition mem_free (a : Z) : MS unit :=
  if a =? 0 then mret tt else
  bl ← gets blocks;
  match bl !! a with
  | Some n =>
      m ← gets memory;
      modify (put_memory (clear_range m a (Z.to_nat n)));;
      modify (put_blocks (delete a bl))
  | None => err BadPointer
  end.

Definition reply (data : list Z) (n : Z) : MS unit :=
  t ← gets target_ip;
  zoom s_tx put_tx (send_udp_raw data n (sin6_addr t) (sin6_port t)).

Definition allocate_mem : MS unit :=
  allocated ← calloc BLOCK_SIZE;
  modify (upd_returnID (set_cmd ALLOC_CMD));;
  modify (upd_returnID (set_paddr allocated));;
  reply [] 0.

Definition allocate_mem_bulk (size : Z) : MS unit :=
  let size := if size =? 0 then 1 else size in
  allocated ← calloc size;
  modify (upd_returnID (set_cmd ALLOC_BULK_CMD));;
  modify (upd_returnID (set_paddr allocated));;
  reply [] 0.

Definition read_mem (r_addr : ip6_memaddr) : MS unit :=
  modify (upd_returnID (set_cmd (cmd r_addr)));;
  modify (upd_returnID (set_paddr (paddr r_addr)));;
  let length := u16 (args r_addr) in
  l ← mem_load (paddr r_addr) length;
  reply l length.

(** The reply carries the pointer that the request had as data. *)
Definition read_mem_ptr (rcv_buffer : list Z) (r_addr : ip6_memaddr) : MS unit :=
  modify (upd_returnID (set_cmd (cmd r_addr)));;
  let length := u16 (args r_addr) in
  if len rcv_buffer <? POINTER_SIZE then err OutOfBounds else
  modify (upd_returnID (set_paddr (un_le (slice rcv_buffer 0 POINTER_SIZE))));;
  l ← mem_load (paddr r_addr) length;
  reply l length.

Definition write_mem (rcv_buffer : list Z) (r_addr : ip6_memaddr) (size : Z) : MS unit :=
  if len rcv_buffer <? size then err OutOfBounds else
  mem_store (paddr r_addr) (slice rcv_buffer 0 size);;
  modify (upd_returnID (set_cmd (cmd r_addr)));;
  modify (upd_returnID (set_paddr (paddr r_addr)));;
  reply [] 0.

(** Only the last packet of a batch is acknowledged: [args] has the number
    of the packet in its lower and the number of packets in its upper half. *)
Definition last_of_batch (a : Z) : bool :=
  Z.land a 65535 =? Z.shiftr (Z.land a 4294901760) 16.
Definition write_mem_bulk (rcv_buffer : list Z) (r_addr : ip6_memaddr) (size : Z) : MS unit :=
  if len rcv_buffer <? size then err OutOfBounds else
  mem_store (paddr r_addr) (slice rcv_buffer 0 size);;
  if last_of_batch (args r_addr) then
    modify (upd_returnID (set_cmd (cmd r_addr)));;
    modify (upd_returnID (set_paddr (paddr r_addr)));;
    reply [] 0
  else mret tt.

Definition free_mem (r_addr : ip6_memaddr) : MS unit :=
  mem_free (paddr r_addr);;
  modify (upd_returnID (set_cmd (cmd r_addr)));;
  modify (upd_returnID (set_paddr (paddr r_addr)));;
  reply [] 0.

Definition trim_mem (r_addr : ip6_memaddr) (size : Z) : MS unit :=
  mem_store (paddr r_addr) (replicate (Z.to_nat size) 0);;
  modify (upd_returnID (set_cmd (cmd r_addr)));;
  modify (upd_returnID (set_paddr (paddr r_addr)));;
  reply [] 0.

(** The [uint64_t] at the start of the buffer. *)
Definition load_u64 (rcv_buffer : list Z) : MS Z :=
  if len rcv_buffer <? 8 then err OutOfBounds else mret (un_le (slice rcv_buffer 0 8)).

Definition process_request (remote_addr : ip6_memaddr) (rcv_buffer : list Z) (size : Z) : MS unit :=
  if cmd remote_addr =? WRITE_CMD then write_mem rcv_buffer remote_addr size
  else if cmd remote_addr =? WRITE_BULK_CMD then write_mem_bulk rcv_buffer remote_addr size
  else if cmd remote_addr =? READ_CMD then read_mem remote_addr
  else if cmd remote_addr =? READ_BULK_CMD then read_mem_ptr rcv_buffer remote_addr
  else if cmd remote_addr =? FREE_CMD then free_mem remote_addr
  else if cmd remote_addr =? ALLOC_CMD then allocate_mem
  else if cmd remote_addr =? ALLOC_BULK_CMD then
    alloc_size ← load_u64 rcv_buffer;
    allocate_mem_bulk alloc_size
  else if cmd remote_addr =? TRIM_CMD then
    trim_size ← load_u64 rcv_buffer;
    trim_mem remote_addr trim_size
  else mret tt.

(** [handle_packet] of src/ip6/lib/raw_backend/udp_raw_server.c: the frame
    of a request. The payload is used in place, so what is behind it in the
    slot is in reach. *)
Definition zoom_rx {A} (m : M rx_ring A) : M (rx_ring * server) A :=
  zoom fst (λ r s, (r, s.2)) m.
Definition zoom_srv {A} (m : MS A) : M (rx_ring * server) A :=
  zoom snd (λ x s, (s.1, x)) m.
Definition handle_packet (f : list Z) : M (rx_ring * server) unit :=
  msg_size ← zoom_rx (msg_size_of f);
  src ← zoom_rx (frame_field f OFF_SRC IPV6_SIZE);
  port ← zoom_rx (frame_field f OFF_SPORT 2);
  dst ← zoom_rx (frame_field f OFF_DST IPV6_SIZE);
  zoom_srv (modify (put_target (MkSock (dec_addr src) (un_le port))));;
  zoom_rx release_packet;;
  zoom_rx next_packet;;
  zoom_srv (process_request (dec_addr dst) (drop (Z.to_nat OFF_DATA) f) msg_size).

(** [raw_rcv_loop], for the polls that come. *)
Definition raw_rcv_step : M (rx_ring * server) unit :=
  events ← zoom_rx epoll_wait;
  match events with
  | e :: _ =>
      if negb (Z.land e EPOLLIN =? 0) then
        s ← zoom_rx get_packet;
        match slot_kind_of s with
        | SlotEmpty => mret tt
        | SlotSkip => zoom_rx next_packet
        | SlotPacket f => handle_packet f
        end
      else mret tt
  | [] => mret tt
  end.
Fixpoint raw_rcv_loop (rounds : nat) : M (rx_ring * server) unit :=
  match rounds with
  | O => mret tt
  | S rounds => raw_rcv_step;; raw_rcv_loop rounds
  end.
End Server.
