(* ===== verification/ServerSpec.v ===== *)
(** * What the memory server guarantees

    The invariant of the server's memory, the effect of every command of
    src/ip6/lib/server_lib.c on it and the reply that it sends. *)

From S2P Require Import Prelude Types Bytes Wire RawSend RawRecv Server.

(** ** Ranges *)

Lemma load_range_ok mem n : ∀ a l,
  load_range mem a n = Some l ↔ length l = n ∧ ∀ i, (i < n)%nat → mem !! (a + Z.of_nat i) = l !! i.
Proof.
  induction n as [|n IH]; intros a l; simpl.
  - split; [intros [= <-]; split; [done|lia]|]. intros [Hl _]. by destruct l.
  - split.
    + destruct (mem !! a) as [x|] eqn:Ex; [|done]. simpl.
      destruct (load_range mem (a + 1) n) as [l'|] eqn:El; [|done]. intros [= <-].
      apply IH in El as [Hl Hi]. split; [simpl; lia|]. intros [|i] Hin; [by rewrite Z.add_0_r|].
      simpl. rewrite <-Hi by lia. f_equal. lia.
    + destruct l as [|x l]; intros [Hl Hi]; [done|]. pose proof (Hi 0%nat ltac:(lia)) as H0.
      rewrite Z.add_0_r in H0. rewrite H0. simpl.
      assert (load_range mem (a + 1) n = Some l) as ->; [|done]. apply IH.
      split; [simpl in Hl; lia|]. intros i Hin.
      change (l !! i) with ((x :: l) !! S i). rewrite <-(Hi (S i)) by lia. f_equal. lia.
Qed.
Lemma store_range_ok l : ∀ mem a,
  (∀ i, (i < length l)%nat → is_Some (mem !! (a + Z.of_nat i))) →
  ∃ mem', store_range mem a l = Some mem' ∧
    ∀ x, mem' !! x = if decide (a <= x < a + len l) then idx l (x - a) else mem !! x.
Proof.
  induction l as [|y l IH]; intros mem a Hp.
  - exists mem. split; [done|]. intros x. rewrite len_nil. by rewrite decide_False by lia.
  - simpl. destruct (Hp 0%nat) as [z Hz]; [simpl; lia|]. rewrite Z.add_0_r in Hz. rewrite Hz. simpl.
    destruct (IH (<[a := y]> mem) (a + 1)) as (mem' & Hs & Hx).
    { intros i Hi. rewrite lookup_insert_ne by lia.
      replace (a + 1 + Z.of_nat i) with (a + Z.of_nat (S i)) by lia. apply Hp. simpl. lia. }
    exists mem'. split; [done|]. intros x. rewrite Hx, len_cons.
    destruct (decide (x = a)) as [->|Hne].
    + rewrite decide_False by lia. rewrite decide_True by (pose proof (len_nonneg l); lia).
      rewrite lookup_insert_eq, Z.sub_diag. done.
    + rewrite lookup_insert_ne by done.
      destruct (decide (a + 1 <= x < a + 1 + len l)).
      * rewrite decide_True by lia. unfold idx. rewrite !(proj2 (Z.leb_le 0 _)) by lia.
        replace (Z.to_nat (x - a)) with (S (Z.to_nat (x - (a + 1)))) by lia. done.
      * by rewrite decide_False by lia.
Qed.
Lemma fill_range_lookup n : ∀ mem a x,
  fill_range mem a n !! x = if decide (a <= x < a + Z.of_nat n) then Some 0 else mem !! x.
Proof.
  induction n as [|n IH]; intros mem a x; cbn [fill_range]; [by rewrite decide_False by lia|].
  rewrite IH. destruct (decide (a + 1 <= x < a + 1 + Z.of_nat n)); [by rewrite decide_True by lia|].
  destruct (decide (a = x)) as [->|]; [by rewrite lookup_insert_eq, decide_True by lia|].
  by rewrite lookup_insert_ne, decide_False by lia.
Qed.
Lemma clear_range_lookup n : ∀ mem a x,
  clear_range mem a n !! x = if decide (a <= x < a + Z.of_nat n) then None else mem !! x.
Proof.
  induction n as [|n IH]; intros mem a x; cbn [clear_range]; [by rewrite decide_False by lia|].
  rewrite IH. destruct (decide (a + 1 <= x < a + 1 + Z.of_nat n)); [by rewrite decide_True by lia|].
  destruct (decide (a = x)) as [->|]; [by rewrite lookup_delete_eq, decide_True by lia|].
  by rewrite lookup_delete_ne, decide_False by lia.
Qed.

(** ** The invariant *)

(** [x] is in a live block. *)
Definition owned (bl : gmap Z Z) (x : Z) : Prop := ∃ a n, bl !! a = Some n ∧ a <= x < a + n.
Record mem_wf (mem bl : gmap Z Z) : Prop := {
  mw_dom x : is_Some (mem !! x) ↔ owned bl x;
  mw_block a n : bl !! a = Some n → 0 < a ∧ 0 < n ∧ a + n <= 2 ^ 64;
  mw_apart a n b m : bl !! a = Some n → bl !! b = Some m → a ≠ b → apart a n b m;
  mw_bytes x y : mem !! x = Some y → byte_ok y;
}.
(** A range of live addresses. *)
Definition mapped (mem : gmap Z Z) (a n : Z) : Prop := ∀ x, a <= x < a + n → is_Some (mem !! x).

(** ** The specification of the commands

    On a memory [mem] with the blocks [bl], for a request from [sender]. *)
Section Commands.
Context `{Config} `{!Calloc}.
Implicit Types (mem bl : gmap Z Z) (sender r_addr : ip6_memaddr).

(** The address of a reply: the sender's, with the command and a pointer. *)
Definition ret_addr sender (c p : Z) : ip6_memaddr := set_paddr p (set_cmd c sender).
(** The memory after [l] was stored at [a]. *)
Definition stored_at mem (a : Z) (l : list Z) (x : Z) : option Z :=
  if decide (a <= x < a + len l) then idx l (x - a) else mem !! x.
(** The largest payload of a frame. *)
Definition MAX_PAYLOAD : Z := C_FRAMESIZE - TX_DATA_OFF - OFF_DATA.
Definition rd_bytes mem (a n : Z) : list Z :=
  (λ i, default 0 (mem !! (a + Z.of_nat i))) <$> seq 0 (Z.to_nat n).
Definition u64_of (buf : list Z) : Z := un_le (slice buf 0 8).
Lemma u64_of_le n : 0 <= n < 2 ^ 64 → u64_of (le 8 n) = n.
Proof.
  intros Hn. unfold u64_of, slice. rewrite drop_0. rewrite take_ge by (rewrite length_le; lia).
  apply un_le_le. change (Z.of_nat 8) with 8. change (256 ^ 8) with (2 ^ 64). lia.
Qed.

(** The requests that stay inside live memory and inside their packet. *)
Definition valid_request mem bl r_addr (buf : list Z) (size : Z) : Prop :=
  if (cmd r_addr =? WRITE_CMD) || (cmd r_addr =? WRITE_BULK_CMD) then
    0 <= size <= len buf ∧ mapped (mem) (paddr r_addr) size
  else if cmd r_addr =? READ_CMD then
    u16 (args r_addr) <= MAX_PAYLOAD ∧ mapped (mem) (paddr r_addr) (u16 (args r_addr))
  else if cmd r_addr =? READ_BULK_CMD then
    8 <= len buf ∧ u16 (args r_addr) <= MAX_PAYLOAD ∧
    mapped (mem) (paddr r_addr) (u16 (args r_addr))
  else if cmd r_addr =? FREE_CMD then is_Some (bl !! paddr r_addr)
  else if cmd r_addr =? ALLOC_BULK_CMD then 8 <= len buf
  else if cmd r_addr =? TRIM_CMD then
    8 <= len buf ∧ mapped (mem) (paddr r_addr) (u64_of buf)
  else True.

Definition alloc_size r_addr (buf : list Z) : Z :=
  if cmd r_addr =? ALLOC_CMD then BLOCK_SIZE
  else if u64_of buf =? 0 then 1 else u64_of buf.

(** The number of a packet in its batch is the number of packets. *)
Definition numbered_last (a : Z) : bool := a mod 65536 =? a / 65536.
Lemma last_of_batch_numbered a : 0 <= a < 2 ^ 32 → last_of_batch a = numbered_last a.
Proof.
  intros Ha. unfold last_of_batch, numbered_last. f_equal.
  - change 65535 with (Z.ones 16). by rewrite Z.land_ones by lia.
  - change 4294901760 with (Z.shiftl (Z.ones 16) 16).
    rewrite Z.shiftr_land, Z.shiftr_shiftl_l, Z.sub_diag, Z.shiftl_0_r, Z.land_ones, Z.shiftr_div_pow2 by lia.
    apply Z.mod_small. split; [apply Z.div_pos; lia|apply Z.div_lt_upper_bound; lia].
Qed.

(** The specification of a command: memory, blocks, reply. *)
Definition spec mem bl sender r_addr (buf : list Z) (size : Z)
    : (Z → option Z) * gmap Z Z * option (ip6_memaddr * list Z) :=
  let ret := ret_addr sender (cmd r_addr) (paddr r_addr) in
  if cmd r_addr =? WRITE_CMD then
    (stored_at mem (paddr r_addr) (slice buf 0 size), bl, Some (ret, []))
  else if cmd r_addr =? WRITE_BULK_CMD then
    (stored_at mem (paddr r_addr) (slice buf 0 size), bl,
     if numbered_last (args r_addr) then Some (ret, []) else None)
  else if cmd r_addr =? READ_CMD then
    (λ x, mem !! x, bl, Some (ret, rd_bytes mem (paddr r_addr) (u16 (args r_addr))))
  else if cmd r_addr =? READ_BULK_CMD then
    (λ x, mem !! x, bl,
     Some (ret_addr sender (cmd r_addr) (u64_of buf), rd_bytes mem (paddr r_addr) (u16 (args r_addr))))
  else if cmd r_addr =? FREE_CMD then
    let n := default 0 (bl !! paddr r_addr) in
    (λ x, if decide (paddr r_addr <= x < paddr r_addr + n) then None else mem !! x,
     delete (paddr r_addr) (bl), Some (ret, []))
  else if (cmd r_addr =? ALLOC_CMD) || (cmd r_addr =? ALLOC_BULK_CMD) then
    let n := alloc_size r_addr buf in
    let a := calloc_addr (bl) n in
    (λ x, if decide (a ≠ 0 ∧ a <= x < a + n) then Some 0 else mem !! x,
     if decide (a = 0) then bl else <[a := n]> (bl),
     Some (ret_addr sender (cmd r_addr) a, []))
  else if cmd r_addr =? TRIM_CMD then
    (stored_at mem (paddr r_addr) (replicate (Z.to_nat (u64_of buf)) 0), bl, Some (ret, []))
  else (λ x, mem !! x, bl, None).

Lemma spec_reply_ok mem bl sender r_addr buf size ret rd :
  addr_ok sender → addr_ok r_addr → Forall byte_ok buf → valid_request mem bl r_addr buf size →
  (spec mem bl sender r_addr buf size).2 = Some (ret, rd) →
  addr_ok ret ∧ len rd <= MAX_PAYLOAD.
Proof.
  intros Hs Hr Hb Hv. pose proof BLOCK_SIZE_pos. pose proof (u16_range (args r_addr)).
  assert (∀ p, 0 <= p < 2 ^ 64 → addr_ok (ret_addr sender (cmd r_addr) p)) as Hret.
  { intros p Hp. destruct Hs, Hr. by split. }
  assert (len (@nil Z) <= MAX_PAYLOAD) as Hnil by done.
  assert (len (rd_bytes mem (paddr r_addr) (u16 (args r_addr))) = u16 (args r_addr)) as Hl.
  { unfold rd_bytes, len. rewrite length_fmap, length_seq. lia. }
  assert (0 <= paddr r_addr < 2 ^ 64) as Hp by apply Hr.
  assert (8 <= len buf → 0 <= u64_of buf < 2 ^ 64) as Hu.
  { intros H8. unfold u64_of. assert (len (slice buf 0 8) = 8) as E by (apply len_slice; lia).
    pose proof (un_le_range _ (slice_bytes buf 0 8 Hb)) as Hur. by rewrite E in Hur. }
  assert (∀ n, 0 < n → 0 <= calloc_addr bl n < 2 ^ 64) as Hc.
  { intros n Hn. destruct (calloc_addr_ok bl n Hn) as [->|?]; lia. }
  unfold valid_request, spec in *.
  destruct (Z.eqb_spec (cmd r_addr) WRITE_CMD); cbn [orb snd] in *; [intros [= <- <-]; auto|].
  destruct (Z.eqb_spec (cmd r_addr) WRITE_BULK_CMD); cbn [snd] in *.
  { destruct (numbered_last _); intros [= <- <-]; auto. }
  destruct (Z.eqb_spec (cmd r_addr) READ_CMD); cbn [snd] in *.
  { intros [= <- <-]. destruct Hv. split; [auto|by rewrite Hl]. }
  destruct (Z.eqb_spec (cmd r_addr) READ_BULK_CMD); cbn [snd] in *.
  { intros [= <- <-]. destruct Hv as (? & ? & _). split; [auto|by rewrite Hl]. }
  destruct (Z.eqb_spec (cmd r_addr) FREE_CMD); cbn [snd] in *; [intros [= <- <-]; auto|].
  unfold alloc_size.
  destruct (Z.eqb_spec (cmd r_addr) ALLOC_CMD) as [E|]; cbn [orb snd] in *;
    [intros [= <- <-]; auto|].
  destruct (Z.eqb_spec (cmd r_addr) ALLOC_BULK_CMD); cbn [snd] in *.
  { intros [= <- <-]. split; [|done]. apply Hret, Hc. specialize (Hu Hv).
    destruct (Z.eqb_spec (u64_of buf) 0); lia. }
  destruct (Z.eqb_spec (cmd r_addr) TRIM_CMD); cbn [snd] in *; [intros [= <- <-]; auto|done].
Qed.
End Commands.

Lemma mem_wf_store mem bl mem' a l :
  mem_wf mem bl → mapped mem a (len l) → Forall byte_ok l →
  (∀ x, mem' !! x = if decide (a <= x < a + len l) then idx l (x - a) else mem !! x) →
  mem_wf mem' bl.
Proof.
  intros [Hd Hb Ha Hy] Hm Hl Hx. split; [|done|done|].
  - intros x. rewrite Hx. case_decide as Hr; [|apply Hd]. rewrite <-Hd.
    assert (0 <= x - a < len l) as [y Ey]%idx_is_Some by lia. rewrite Ey.
    split; intros; [by apply Hm|by eexists].
  - intros x y. rewrite Hx. case_decide; [|apply Hy]. unfold idx. case_match; [|done].
    intros Ey%list_elem_of_lookup_2. by eapply Forall_forall in Hl.
Qed.
Lemma mem_wf_alloc mem bl a n :
  mem_wf mem bl → 0 < a → 0 < n → a + n <= 2 ^ 64 →
  (∀ b m, bl !! b = Some m → apart a n b m) →
  mem_wf (fill_range mem a (Z.to_nat n)) (<[a := n]> bl).
Proof.
  intros [Hd Hb Ha Hy] Ha0 Hn Ht Hap.
  assert (bl !! a = None) as Hna.
  { destruct (bl !! a) as [m|] eqn:E; [|done]. pose proof (Hb _ _ E). destruct (Hap _ _ E); lia. }
  split.
  - intros x. rewrite fill_range_lookup. rewrite Z2Nat.id by lia. case_decide as Hr.
    + split; [|by eexists]. intros _. exists a, n. by rewrite lookup_insert_eq.
    + rewrite Hd. split.
      * intros (b & m & E & ?). exists b, m. rewrite lookup_insert_ne by congruence. done.
      * intros (b & m & E & ?). destruct (decide (a = b)) as [<-|].
        { rewrite lookup_insert_eq in E. injection E as <-. lia. }
        rewrite lookup_insert_ne in E by done. by exists b, m.
  - intros b m. destruct (decide (a = b)) as [<-|].
    + rewrite lookup_insert_eq. by intros [= <-].
    + rewrite lookup_insert_ne by done. apply Hb.
  - intros b m c k. destruct (decide (a = b)) as [<-|], (decide (a = c)) as [<-|];
      rewrite ?lookup_insert_eq, ?lookup_insert_ne by done; intros; simplify_eq; auto.
    destruct (Hap _ _ H); [by right|by left].
  - intros x y. rewrite fill_range_lookup. case_decide; [by intros [= <-]|apply Hy].
Qed.
Lemma mem_wf_free mem bl a n :
  mem_wf mem bl → bl !! a = Some n →
  mem_wf (clear_range mem a (Z.to_nat n)) (delete a bl).
Proof.
  intros [Hd Hb Ha Hy] Hn. pose proof (Hb _ _ Hn). split.
  - intros x. rewrite clear_range_lookup, Z2Nat.id by lia. case_decide as Hr.
    + split; [by intros []|]. intros (b & m & E & ?). rewrite lookup_delete_Some in E.
      destruct E as [Hne E]. destruct (Ha _ _ _ _ Hn E Hne); lia.
    + rewrite Hd. split.
      * intros (b & m & E & ?). exists b, m. rewrite lookup_delete_ne; [done|].
        intros <-. simplify_eq. lia.
      * intros (b & m & [? E]%lookup_delete_Some & ?). by exists b, m.
  - intros b m [_ E]%lookup_delete_Some. by apply Hb.
  - intros b m c k [_ ?]%lookup_delete_Some [_ ?]%lookup_delete_Some. by apply Ha.
  - intros x y. rewrite clear_range_lookup. case_decide; [done|apply Hy].
Qed.

(** ** The commands *)

Section Spec.
Context `{Config} `{!Kernel} `{!Calloc}.
Variables (sip : list Z) (sport : Z).
Implicit Types (s : server) (r_addr : ip6_memaddr).

Record srv_inv s : Prop := {
  si_mem : mem_wf (memory s) (blocks s);
  si_tx : tx_inv sip sport [] (s_tx s);
  si_addr : addr_ok (sin6_addr (target_ip s));
  si_port : 0 <= sin6_port (target_ip s) < 65536;
}.
Definition sent s : list (list Z) := k_wire (kernel (s_tx s)).
(** What a command does to the memory and what it answers. *)
Record effect s s' (mem' : Z → option Z) (bl' : gmap Z Z) (r : option (ip6_memaddr * list Z)) : Prop := {
  ef_inv : srv_inv s';
  ef_mem x : memory s' !! x = mem' x;
  ef_blocks : blocks s' = bl';
  ef_reply : match r with
             | Some (a, d) => ∃ f, sent s' = sent s ++ [f] ∧
                 frame_of f sip sport (PktRqst a (sin6_port (target_ip s)) d (len d))
             | None => sent s' = sent s
             end;
}.

Lemma wp_reply s d n Q :
  srv_inv s → n = len d → n <= MAX_PAYLOAD → Forall byte_ok d →
  (∀ f t, frame_of f sip sport (PktRqst (sin6_addr (target_ip s)) (sin6_port (target_ip s)) d n) →
     tx_inv sip sport [] t → k_wire (kernel t) = sent s ++ [f] → Q tt (put_tx t s)) →
  wp (reply d n) s Q.
Proof.
  intros [Hm Ht Ha Hp] -> Hn Hd HQ. unfold reply. rewrite wp_bind, wp_gets, wp_zoom.
  unfold send_udp_raw. rewrite wp_bind. eapply wp_cooked_send; [done|by split|].
  intros f t Hf Ht' Hw _. rewrite wp_modify. eapply HQ; [done| |done].
  destruct Ht'. by split.
Qed.

(** The common end of a handler: the return address, then the reply. *)
Lemma wp_answer s s0 c p d n bl' mem' :
  mem_wf (memory s) (blocks s) → tx_inv sip sport [] (s_tx s) → srv_inv s0 →
  target_ip s = target_ip s0 → sent s = sent s0 → 0 <= c < 2 ^ 16 → 0 <= p < 2 ^ 64 →
  n = len d → n <= MAX_PAYLOAD → Forall byte_ok d →
  blocks s = bl' → (∀ x, memory s !! x = mem' x) →
  wp (reply d n) (upd_returnID (set_paddr p) (upd_returnID (set_cmd c) s))
    (λ _ s', effect s0 s' mem' bl' (Some (ret_addr (sin6_addr (target_ip s0)) c p, d))).
Proof.
  intros Hm Ht [_ _ Ha Hport] Etg Es Hc Hp -> Hn Hd <- Hmem.
  eapply wp_reply; [|done|done|done|].
  - split; simpl; rewrite ?Etg; try done. by destruct Ha.
  - intros f t Hf Ht' Hw. split; simpl; try done.
    + split; simpl; rewrite ?Etg; try done. by destruct Ha.
    + exists f. split; [by rewrite <-Es|]. unfold ret_addr. rewrite <-Etg. exact Hf.
Qed.

Lemma wp_mem_load s a n l Q :
  0 <= n → len l = n → (∀ i, 0 <= i < n → memory s !! (a + i) = idx l i) → Q l s →
  wp (mem_load a n) s Q.
Proof.
  intros Hn Hl Hi HQ. unfold mem_load. rewrite wp_bind, wp_gets.
  assert (load_range (memory s) a (Z.to_nat n) = Some l) as ->; [|by rewrite wp_ret].
  apply load_range_ok. split; [unfold len in Hl; lia|]. intros i Hin. rewrite Hi by lia.
  apply idx_of_nat.
Qed.
Lemma wp_mem_store s a l Q :
  mapped (memory s) a (len l) →
  (∀ mem', (∀ x, mem' !! x = if decide (a <= x < a + len l) then idx l (x - a) else memory s !! x) →
     Q tt (put_memory mem' s)) →
  wp (mem_store a l) s Q.
Proof.
  intros Hm HQ. unfold mem_store. rewrite wp_bind, wp_gets.
  destruct (store_range_ok l (memory s) a) as (mem' & -> & Hx).
  { intros i Hi. apply Hm. unfold len. lia. }
  rewrite wp_modify. by apply HQ.
Qed.

Lemma wp_write_mem s buf r_addr size :
  srv_inv s → addr_ok r_addr → 0 <= size <= len buf → Forall byte_ok buf →
  mapped (memory s) (paddr r_addr) size →
  wp (write_mem buf r_addr size) s (λ _ s', effect s s'
    (stored_at (memory s) (paddr r_addr) (slice buf 0 size)) (blocks s)
    (Some (ret_addr (sin6_addr (target_ip s)) (cmd r_addr) (paddr r_addr), []))).
Proof.
  intros Hi Hr Hsz Hb Hm. pose proof Hi as [Hmem Ht Ha Hp]. unfold write_mem.
  rewrite (proj2 (Z.ltb_ge _ _)) by lia.
  assert (len (slice buf 0 size) = size) as Hl by (apply len_slice; lia).
  rewrite wp_bind. apply wp_mem_store; [by rewrite Hl|]. intros mem' Hx.
  rewrite wp_bind, wp_modify, wp_bind, wp_modify.
  apply wp_answer; simpl; try done; [|apply Hr|apply Hr].
  eapply mem_wf_store; [done| |by apply slice_bytes|exact Hx]. by rewrite Hl.
Qed.

Lemma wp_write_mem_bulk s buf r_addr size :
  srv_inv s → addr_ok r_addr → 0 <= size <= len buf → Forall byte_ok buf →
  mapped (memory s) (paddr r_addr) size →
  wp (write_mem_bulk buf r_addr size) s (λ _ s', effect s s'
    (stored_at (memory s) (paddr r_addr) (slice buf 0 size)) (blocks s)
    (if numbered_last (args r_addr)
     then Some (ret_addr (sin6_addr (target_ip s)) (cmd r_addr) (paddr r_addr), []) else None)).
Proof.
  intros Hi Hr Hsz Hb Hm. pose proof Hi as [Hmem Ht Ha Hp]. unfold write_mem_bulk.
  rewrite (proj2 (Z.ltb_ge _ _)) by lia.
  assert (len (slice buf 0 size) = size) as Hl by (apply len_slice; lia).
  rewrite wp_bind. apply wp_mem_store; [by rewrite Hl|]. intros mem' Hx.
  assert (mem_wf mem' (blocks s)) as Hw.
  { eapply mem_wf_store; [done| |by apply slice_bytes|exact Hx]. by rewrite Hl. }
  rewrite last_of_batch_numbered by apply Hr. destruct (numbered_last (args r_addr)).
  - rewrite wp_bind, wp_modify, wp_bind, wp_modify.
    apply wp_answer; simpl; try done; apply Hr.
  - rewrite wp_ret. by split; [split|..].
Qed.

Lemma wp_read_mem s r_addr l :
  srv_inv s → addr_ok r_addr → u16 (args r_addr) = len l → len l <= MAX_PAYLOAD →
  Forall byte_ok l → (∀ i, 0 <= i < len l → memory s !! (paddr r_addr + i) = idx l i) →
  wp (read_mem r_addr) s (λ _ s', effect s s' (λ x, memory s !! x) (blocks s)
    (Some (ret_addr (sin6_addr (target_ip s)) (cmd r_addr) (paddr r_addr), l))).
Proof.
  intros Hi Hr Hu Hl Hb Hx. pose proof Hi as [Hmem Ht Ha Hp]. unfold read_mem.
  rewrite wp_bind, wp_modify, wp_bind, wp_modify, wp_bind, Hu.
  eapply wp_mem_load; [apply len_nonneg|done|done|].
  by apply wp_answer; try done; apply Hr.
Qed.

Lemma wp_read_mem_ptr s buf r_addr l :
  srv_inv s → addr_ok r_addr → 8 <= len buf → Forall byte_ok buf →
  u16 (args r_addr) = len l → len l <= MAX_PAYLOAD →
  Forall byte_ok l → (∀ i, 0 <= i < len l → memory s !! (paddr r_addr + i) = idx l i) →
  wp (read_mem_ptr buf r_addr) s (λ _ s', effect s s' (λ x, memory s !! x) (blocks s)
    (Some (ret_addr (sin6_addr (target_ip s)) (cmd r_addr) (un_le (slice buf 0 8)), l))).
Proof.
  intros Hi Hr Hbl Hbb Hu Hl Hb Hx. pose proof Hi as [Hmem Ht Ha Hp]. unfold read_mem_ptr, POINTER_SIZE.
  rewrite wp_bind, wp_modify, (proj2 (Z.ltb_ge _ _)) by lia.
  rewrite wp_bind, wp_modify, wp_bind, Hu.
  eapply wp_mem_load; [apply len_nonneg|done|done|].
  apply wp_answer; try done; [apply Hr|].
  assert (len (slice buf 0 8) = 8) as E by (apply len_slice; lia).
  pose proof (un_le_range _ (slice_bytes buf 0 8 Hbb)) as Hur. by rewrite E in Hur.
Qed.

(** [calloc] with its two outcomes. *)
Lemma wp_calloc_reply s n c :
  srv_inv s → 0 < n → 0 <= c < 2 ^ 16 →
  let a := calloc_addr (blocks s) n in
  wp (allocated ← calloc n;
      modify (upd_returnID (set_cmd c));;
      modify (upd_returnID (set_paddr allocated));;
      reply [] 0) s (λ _ s', effect s s'
    (λ x, if decide (a ≠ 0 ∧ a <= x < a + n) then Some 0 else memory s !! x)
    (if decide (a = 0) then blocks s else <[a := n]> (blocks s))
    (Some (ret_addr (sin6_addr (target_ip s)) c a, []))).
Proof.
  intros Hi Hn Hc a. pose proof Hi as [Hmem Ht Ha Hp]. rewrite wp_bind. unfold calloc.
  rewrite wp_bind, wp_gets. fold a. destruct (calloc_addr_ok (blocks s) n Hn) as [Hz|(Ha0 & Htop & Hap)].
  - fold a in Hz. rewrite Hz. cbn [Z.eqb]. rewrite wp_ret, wp_bind, wp_modify, wp_bind, wp_modify.
    rewrite decide_True by done. by apply wp_answer.
  - fold a in Ha0, Htop, Hap. rewrite (proj2 (Z.eqb_neq a 0)) by lia.
    rewrite wp_bind, wp_gets, wp_bind, wp_modify, wp_bind, wp_modify, wp_ret.
    rewrite wp_bind, wp_modify, wp_bind, wp_modify. rewrite decide_False by lia.
    apply wp_answer; simpl; try done; [by apply mem_wf_alloc|lia|].
    intros x. rewrite fill_range_lookup, Z2Nat.id by lia. apply decide_ext. naive_solver lia.
Qed.

Lemma wp_free_mem s r_addr n :
  srv_inv s → addr_ok r_addr → blocks s !! paddr r_addr = Some n →
  wp (free_mem r_addr) s (λ _ s', effect s s'
    (λ x, if decide (paddr r_addr <= x < paddr r_addr + n) then None else memory s !! x)
    (delete (paddr r_addr) (blocks s))
    (Some (ret_addr (sin6_addr (target_ip s)) (cmd r_addr) (paddr r_addr), []))).
Proof.
  intros Hi Hr Hn. pose proof Hi as [Hmem Ht Ha Hp]. unfold free_mem, mem_free.
  pose proof (mw_block _ _ Hmem _ _ Hn). rewrite (proj2 (Z.eqb_neq (paddr r_addr) 0)) by lia.
  rewrite wp_bind, wp_bind, wp_gets, Hn. rewrite wp_bind, wp_gets, wp_bind, wp_modify, wp_modify.
  rewrite wp_bind, wp_modify, wp_bind, wp_modify.
  apply wp_answer; simpl; try done; [by apply mem_wf_free|apply Hr|apply Hr|].
  intros x. rewrite clear_range_lookup, Z2Nat.id by lia. done.
Qed.

Lemma wp_trim_mem s r_addr size :
  srv_inv s → addr_ok r_addr → 0 <= size → mapped (memory s) (paddr r_addr) size →
  wp (trim_mem r_addr size) s (λ _ s', effect s s'
    (stored_at (memory s) (paddr r_addr) (replicate (Z.to_nat size) 0)) (blocks s)
    (Some (ret_addr (sin6_addr (target_ip s)) (cmd r_addr) (paddr r_addr), []))).
Proof.
  intros Hi Hr Hsz Hm. pose proof Hi as [Hmem Ht Ha Hp]. unfold trim_mem.
  assert (len (replicate (Z.to_nat size) 0) = size) as Hl by (by apply len_replicate).
  rewrite wp_bind. apply wp_mem_store; [by rewrite Hl|]. intros mem' Hx.
  rewrite wp_bind, wp_modify, wp_bind, wp_modify.
  apply wp_answer; simpl; try done; [|apply Hr|apply Hr].
  eapply mem_wf_store with (l := replicate (Z.to_nat size) 0); [done|by rewrite Hl|by apply Forall_replicate|exact Hx].
Qed.

(** ** A request as a whole *)

Lemma u64_of_range buf : Forall byte_ok buf → 8 <= len buf → 0 <= u64_of buf < 2 ^ 64.
Proof.
  intros Hb Hl. unfold u64_of. assert (len (slice buf 0 8) = 8) as E by (apply len_slice; lia).
  pose proof (un_le_range _ (slice_bytes buf 0 8 Hb)) as Hur. by rewrite E in Hur.
Qed.
Lemma wp_load_u64 s buf Q : 8 <= len buf → Q (u64_of buf) s → wp (load_u64 buf) s Q.
Proof. intros Hl HQ. unfold load_u64. rewrite (proj2 (Z.ltb_ge _ _)) by lia. by rewrite wp_ret. Qed.
Lemma rd_bytes_ok s a n :
  srv_inv s → 0 <= n → mapped (memory s) a n →
  len (rd_bytes (memory s) a n) = n ∧ Forall byte_ok (rd_bytes (memory s) a n) ∧
  ∀ i, 0 <= i < n → memory s !! (a + i) = idx (rd_bytes (memory s) a n) i.
Proof.
  intros [[_ _ _ Hy] _ _ _] Hn Hm. unfold rd_bytes. split_and!.
  - unfold len. rewrite length_fmap, length_seq. lia.
  - apply Forall_fmap, Forall_forall. intros i [_ Hi]%elem_of_seq. simpl.
    destruct (Hm (a + Z.of_nat i)) as [y E]; [lia|]. rewrite E. by eapply Hy.
  - intros i Hi. destruct (Hm (a + i)) as [y E]; [lia|]. rewrite E. unfold idx.
    rewrite (proj2 (Z.leb_le 0 i)) by lia. rewrite list_lookup_fmap, lookup_seq_lt by lia. simpl.
    rewrite Z2Nat.id by lia. by rewrite E.
Qed.

Lemma wp_process_request s r_addr buf size :
  srv_inv s → addr_ok r_addr → Forall byte_ok buf → valid_request (memory s) (blocks s) r_addr buf size →
  wp (process_request r_addr buf size) s (λ _ s',
    effect s s' (spec (memory s) (blocks s) (sin6_addr (target_ip s)) r_addr buf size).1.1 (spec (memory s) (blocks s) (sin6_addr (target_ip s)) r_addr buf size).1.2 (spec (memory s) (blocks s) (sin6_addr (target_ip s)) r_addr buf size).2).
Proof.
  intros Hi Hr Hb Hv. pose proof (u16_range (args r_addr)). pose proof BLOCK_SIZE_pos.
  unfold valid_request, process_request, spec in *.
  destruct (Z.eqb_spec (cmd r_addr) WRITE_CMD) as [E|_]; cbn [orb] in Hv.
  { destruct Hv. by apply wp_write_mem. }
  destruct (Z.eqb_spec (cmd r_addr) WRITE_BULK_CMD) as [E|_].
  { destruct Hv. by apply wp_write_mem_bulk. }
  destruct (Z.eqb_spec (cmd r_addr) READ_CMD) as [E|_].
  { destruct Hv as [Hl Hm]. destruct (rd_bytes_ok s (paddr r_addr) (u16 (args r_addr)) Hi ltac:(lia) Hm) as (Hlen & Hby & Hx).
    apply wp_read_mem; rewrite ?Hlen; done. }
  destruct (Z.eqb_spec (cmd r_addr) READ_BULK_CMD) as [E|_].
  { destruct Hv as (H8 & Hl & Hm). destruct (rd_bytes_ok s (paddr r_addr) (u16 (args r_addr)) Hi ltac:(lia) Hm) as (Hlen & Hby & Hx).
    apply wp_read_mem_ptr; rewrite ?Hlen; done. }
  destruct (Z.eqb_spec (cmd r_addr) FREE_CMD) as [E|_].
  { destruct Hv as [n Hn]. rewrite Hn. by apply wp_free_mem. }
  unfold alloc_size.
  destruct (Z.eqb_spec (cmd r_addr) ALLOC_CMD) as [E|_]; cbn [orb].
  { rewrite E. by apply wp_calloc_reply. }
  destruct (Z.eqb_spec (cmd r_addr) ALLOC_BULK_CMD) as [E|_].
  { rewrite wp_bind. apply wp_load_u64; [done|]. rewrite E.
    pose proof (u64_of_range buf Hb Hv). apply wp_calloc_reply; [done| |done].
    destruct (Z.eqb_spec (u64_of buf) 0); lia. }
  destruct (Z.eqb_spec (cmd r_addr) TRIM_CMD) as [E|_].
  { destruct Hv as [H8 Hm]. rewrite wp_bind. apply wp_load_u64; [done|].
    pose proof (u64_of_range buf Hb H8). apply wp_trim_mem; [done|done|lia|done]. }
  rewrite wp_ret. by split.
Qed.
End Spec.
