(* ===== verification/Client.v ===== *)
(** * The remote-memory client: src/ip6/lib/client_lib.c

    The functions of the client library over the operations of network.c that
    they call, the class [ClientNet]. [target_ip], the host list and
    [sub_ids] are the state; a parameter [ip6_memaddr *remote_addr] is passed
    by value and its new value returned. *)

From S2P Require Import Prelude Types Bytes Wire RawSend RawRecv.

Definition BATCH_SIZE : Z := 40.

(** network.c, on a network with the state [W]: send a packet, send a batch,
    receive one packet, store the answers of a bulk read through their
    pointers. *)
Class ClientNet (W : Type) := {
  net_send : list Z → Z → ip6_memaddr → Z → M W unit;
  net_send_batched : list pkt_rqst → list Z → M W unit;
  net_rcv : option (list Z) → bool → M W received;
  net_rcv_bulk : Z → pool → M W pool;
}.

Section Client.
Context `{Config} {W : Type} `{!ClientNet W}.

Record client := MkClient {
  c_net : W;
  c_target : sockaddr_in6;
  hostList : list ip6_memaddr;
  nhosts : Z;
  c_sub_ids : list Z;
}.
Definition put_net x c := MkClient x (c_target c) (hostList c) (nhosts c) (c_sub_ids c).
Definition put_ctarget x c := MkClient (c_net c) x (hostList c) (nhosts c) (c_sub_ids c).
Definition put_sub_ids x c := MkClient (c_net c) (c_target c) (hostList c) (nhosts c) x.
Definition set_host_list hosts n c := MkClient (c_net c) (c_target c) hosts n (c_sub_ids c).
Abbreviation MC := (M client).

(** [rcv_udp6_raw(rx_buf, target_ip, remote_addr)] writes the sender to
    [target_ip]. *)
Definition rcv (buf : option (list Z)) (want : bool) : MC received :=
  r ← zoom c_net put_net (net_rcv buf want);
  modify (put_ctarget (r_target r));;
  mret r.
Definition send (data : list Z) (n : Z) (a : ip6_memaddr) : MC unit :=
  t ← gets c_target;
  zoom c_net put_net (net_send data n a (sin6_port t)).
Definition set_target_cmd (c : Z) : MC unit :=
  modify (λ s, put_ctarget (MkSock (set_cmd c (sin6_addr (c_target s))) (sin6_port (c_target s))) s).
(** The address that [rcv] was given, if it was written. *)
Definition remote_or (a : ip6_memaddr) (r : received) : ip6_memaddr := default a (r_remote r).

Definition get_num_hosts : MC Z := gets nhosts.
Definition get_ip6_target (index : Z) : MC ip6_memaddr := aload hostList (u8 index).
(** [rand] is what [rand()] returned. *)
Definition gen_rdm_ip6_target (rand : Z) : MC ip6_memaddr :=
  n ← gets nhosts;
  if n =? 0 then err DivByZero else aload hostList (u8 (Z.rem rand n)).

Definition allocate_rmem : MC ip6_memaddr :=
  set_target_cmd ALLOC_CMD;;
  t ← gets c_target;
  send [] 0 (sin6_addr t);;
  r ← rcv None true;
  t' ← gets c_target;
  mret (set_subid (subid (sin6_addr t')) (remote_or (sin6_addr t) r)).

(** [retAddr] with the pointers of the blocks. *)
Definition block_addrs (a : ip6_memaddr) (n : Z) : list ip6_memaddr :=
  (λ i, set_paddr (u64 (paddr a + Z.of_nat i * BLOCK_SIZE)) a) <$> seq 0 (Z.to_nat n).

Definition allocate_bulk (num_blocks : Z) : MC ip6_memaddr :=
  set_target_cmd ALLOC_BULK_CMD;;
  t ← gets c_target;
  send (le 8 num_blocks) 8 (sin6_addr t);;
  r ← rcv None true;
  t' ← gets c_target;
  mret (set_subid (subid (sin6_addr t')) (remote_or (sin6_addr t) r)).
Definition allocate_bulk_rmem (num_blocks : Z) : MC (list ip6_memaddr) :=
  a ← allocate_bulk num_blocks;
  mret (block_addrs a num_blocks).
Definition allocate_uniform_rmem (num_blocks : Z) : MC ip6_memaddr_block :=
  a ← allocate_bulk num_blocks;
  mret (MemaddrBlock a num_blocks 0).

(** The new [*remote_addr], the buffer and the number of bytes. *)
Definition read_rmem (remote_addr : ip6_memaddr) (rx_buf : list Z) (length : Z)
    : MC (ip6_memaddr * list Z * Z) :=
  let remote_addr := set_args length (set_cmd READ_CMD remote_addr) in
  send [] 0 remote_addr;;
  r ← rcv (Some rx_buf) false;
  mret (remote_addr, default rx_buf (r_buf r), r_size r).

Definition write_rmem (remote_addr : ip6_memaddr) (payload : list Z) (length : Z) : MC ip6_memaddr :=
  let remote_addr := set_cmd WRITE_CMD remote_addr in
  send payload length remote_addr;;
  _ ← rcv None false;
  mret remote_addr.

Definition free_rmem (remote_addr : ip6_memaddr) : MC ip6_memaddr :=
  let remote_addr := set_cmd FREE_CMD remote_addr in
  send [] 0 remote_addr;;
  r ← rcv None true;
  mret (remote_or remote_addr r).

Definition trim_bulk_rmem (remote_addr : ip6_memaddr) (size : Z) : MC ip6_memaddr :=
  let remote_addr := set_cmd TRIM_CMD remote_addr in
  send (le 8 size) 8 remote_addr;;
  r ← rcv None true;
  mret (remote_or remote_addr r).

(** ** Batches *)

Definition clear_sub_ids : MC unit :=
  modify (put_sub_ids (replicate (Z.to_nat USHRT_MAX) 0)).
(** [sub_ids[subid]++]; the value before. *)
Definition count_sub_id (a : ip6_memaddr) : MC Z :=
  n ← aload c_sub_ids (subid a);
  astore c_sub_ids put_sub_ids (subid a) (u32 (n + 1));;
  mret n.

Fixpoint batch_read_pkts (n : nat) (i : Z) (remote_addrs : list ip6_memaddr) (buffer chunk_len : Z)
    : MC (list pkt_rqst) :=
  match n with
  | O => mret []
  | S n =>
      a ← aload (λ _, remote_addrs) i;
      port ← gets (λ c, sin6_port (c_target c));
      _ ← count_sub_id a;
      pkts ← batch_read_pkts n (i + 1) remote_addrs buffer chunk_len;
      mret (PktRqst (set_args chunk_len (set_cmd READ_BULK_CMD a)) port
              (le 8 (u64 (buffer + u32 (i * chunk_len)))) POINTER_SIZE :: pkts)
  end.
(** [buffer] is the address where the answers go, inside the [pool]. *)
Definition batch_read (remote_addrs : list ip6_memaddr) (buffer : Z) (p : pool)
    (chunk_len num_packets : Z) : MC pool :=
  clear_sub_ids;;
  pkts ← batch_read_pkts (Z.to_nat num_packets) 0 remote_addrs buffer chunk_len;
  ids ← gets c_sub_ids;
  zoom c_net put_net (net_send_batched pkts ids);;
  zoom c_net put_net (net_rcv_bulk num_packets p).

Fixpoint batch_write_pkts (n : nat) (i : Z) (remote_addrs : list ip6_memaddr) (payload : list Z)
    (chunk_len : Z) : MC (list pkt_rqst) :=
  match n with
  | O => mret []
  | S n =>
      a ← aload (λ _, remote_addrs) i;
      port ← gets (λ c, sin6_port (c_target c));
      k ← count_sub_id a;
      pkts ← batch_write_pkts n (i + 1) remote_addrs payload chunk_len;
      mret (PktRqst (set_cmd WRITE_BULK_CMD (set_args (u32 (k + 1)) a)) port
              (slice payload (chunk_len * i) chunk_len) chunk_len :: pkts)
  end.
(** One acknowledgement from every server that was written to. *)
Fixpoint await_acks (n : nat) (i : Z) : MC unit :=
  match n with
  | O => mret tt
  | S n =>
      k ← aload c_sub_ids i;
      (if negb (k =? 0) then _ ← rcv None false; mret tt else mret tt);;
      await_acks n (i + 1)
  end.
Definition batch_write (remote_addrs : list ip6_memaddr) (payload : list Z)
    (chunk_len num_packets : Z) : MC unit :=
  clear_sub_ids;;
  pkts ← batch_write_pkts (Z.to_nat num_packets) 0 remote_addrs payload chunk_len;
  ids ← gets c_sub_ids;
  zoom c_net put_net (net_send_batched pkts ids);;
  await_acks (Z.to_nat USHRT_MAX) 0.

(** [for (i = 0; i < batches; i++)] of the bulk functions. *)
Fixpoint read_batches (n : nat) (i : Z) (remote_addrs : list ip6_memaddr) (p : pool) : MC pool :=
  match n with
  | O => mret p
  | S n =>
      p ← batch_read (drop (Z.to_nat (u32 (i * BATCH_SIZE))) remote_addrs)
            (base p + u32 (BLOCK_SIZE * i * BATCH_SIZE)) p (u16 BLOCK_SIZE) BATCH_SIZE;
      read_batches n (i + 1) remote_addrs p
  end.
Fixpoint write_batches (n : nat) (i : Z) (remote_addrs : list ip6_memaddr) (payload : list Z) : MC unit :=
  match n with
  | O => mret tt
  | S n =>
      batch_write (drop (Z.to_nat (i * BATCH_SIZE)) remote_addrs)
        (drop (Z.to_nat (BLOCK_SIZE * i * BATCH_SIZE)) payload) (u16 BLOCK_SIZE) BATCH_SIZE;;
      write_batches n (i + 1) remote_addrs payload
  end.

(** The array of addresses as the call leaves it, and [inl EXIT_FAILURE] or
    the buffer. *)
Definition read_bulk_rmem (remote_addrs : list ip6_memaddr) (num_addrs : Z) (p : pool) (size : Z)
    : MC (list ip6_memaddr * (Z + pool)) :=
  if size <=? BLOCK_SIZE then
    a ← aload (λ _, remote_addrs) 0;
    '(a, buf, _) ← read_rmem a (bytes p) (u16 size);
    mret (upd remote_addrs 0 a, inr (MkPool (base p) buf))
  else
    let num_chunks := size / BLOCK_SIZE in
    let chunk_residual := u16 (size mod BLOCK_SIZE) in
    if num_addrs <? num_chunks then mret (remote_addrs, inl 1) else
    let batches := u32 (num_chunks / BATCH_SIZE) in
    let batch_residual := u32 (num_chunks mod BATCH_SIZE) in
    p ← read_batches (Z.to_nat batches) 0 remote_addrs p;
    let offset := num_chunks - batch_residual in
    p ← batch_read (drop (Z.to_nat offset) remote_addrs) (base p + BLOCK_SIZE * offset) p
          (u16 BLOCK_SIZE) batch_residual;
    if negb (chunk_residual =? 0) then
      a ← aload (λ _, remote_addrs) 0;
      let o := BLOCK_SIZE * (offset + 1) in
      if len (bytes p) <? o then err OutOfBounds else
      '(a, buf, _) ← read_rmem a (drop (Z.to_nat o) (bytes p)) chunk_residual;
      mret (upd remote_addrs 0 a, inr (MkPool (base p) (take (Z.to_nat o) (bytes p) ++ buf)))
    else mret (remote_addrs, inr p).

Definition write_bulk_rmem (remote_addrs : list ip6_memaddr) (num_addrs : Z) (payload : list Z)
    (size : Z) : MC (list ip6_memaddr * Z) :=
  if size <=? BLOCK_SIZE then
    a ← aload (λ _, remote_addrs) 0;
    a ← write_rmem a payload (u16 size);
    mret (upd remote_addrs 0 a, 0)
  else
    let num_chunks := size / BLOCK_SIZE in
    let chunk_residual := u16 (size mod BLOCK_SIZE) in
    if num_addrs <? num_chunks then mret (remote_addrs, 1) else
    let batches := num_chunks / BATCH_SIZE in
    let batch_residual := u16 (num_chunks mod BATCH_SIZE) in
    write_batches (Z.to_nat batches) 0 remote_addrs payload;;
    let offset := num_chunks - batch_residual in
    batch_write (drop (Z.to_nat offset) remote_addrs)
      (drop (Z.to_nat (BLOCK_SIZE * offset)) payload) (u16 BLOCK_SIZE) batch_residual;;
    if negb (chunk_residual =? 0) then
      a ← aload (λ _, remote_addrs) 0;
      let o := BLOCK_SIZE * (offset + 1) in
      if len payload <? o then err OutOfBounds else
      a ← write_rmem a (drop (Z.to_nat o) payload) chunk_residual;
      mret (upd remote_addrs 0 a, 0)
    else mret (remote_addrs, 0).

(** The addresses of a uniform block, from its offset on. *)
Definition uniform_addrs (b : ip6_memaddr_block) : list ip6_memaddr :=
  drop (Z.to_nat (offset b)) (block_addrs (memaddr b) (length_ b)).
Definition read_uniform_rmem (b : ip6_memaddr_block) (p : pool) (size : Z) : MC (Z * pool) :=
  '(_, r) ← read_bulk_rmem (uniform_addrs b) (u64 (length_ b - offset b)) p size;
  mret (0, match r with inl _ => p | inr p => p end).
Definition write_uniform_rmem (b : ip6_memaddr_block) (payload : list Z) (size : Z) : MC Z :=
  write_bulk_rmem (uniform_addrs b) (u64 (length_ b - offset b)) payload size;;
  mret 0.
End Client.
Arguments client : clear implicits.
