(* ===== verification/Remote.v ===== *)
(** * The contract between the client library and the memory servers

    [RemoteHosts] states what a client of src/ip6/lib/client_lib.c relies on:
    a request that is sent to a server is executed by it as [spec] says and
    its reply is what the next receive returns. The specifications of the
    client's functions are proved from this contract; [World] discharges it. *)

From S2P Require Import Prelude Types Bytes Wire RawSend RawRecv Server ServerSpec Client.

Class RemoteHosts `{Config} `{!Calloc} (W : Type) `{!ClientNet W} := {
  rh_inv : W → Prop;
  rh_me : ip6_memaddr;
  rh_me_ok : addr_ok rh_me;
  (* the servers by their subid: the source of their replies *)
  rh_server : Z → option sockaddr_in6;
  rh_mem : W → Z → gmap Z Z;
  rh_blocks : W → Z → gmap Z Z;
  rh_subid i a : rh_server i = Some a → subid (sin6_addr a) = i;
  rh_addr i a : rh_server i = Some a → addr_ok (sin6_addr a);
  rh_wf w i : rh_inv w → is_Some (rh_server i) → mem_wf (rh_mem w i) (rh_blocks w i);
  rh_call w i srv dst d buf want ret rd Q :
    rh_inv w → subid dst = i → rh_server i = Some srv → addr_ok dst →
    len d <= MAX_PAYLOAD → Forall byte_ok d →
    valid_request (rh_mem w i) (rh_blocks w i) dst d (len d) →
    (spec (rh_mem w i) (rh_blocks w i) rh_me dst d (len d)).2 = Some (ret, rd) →
    match buf with Some b => len rd <= len b | None => True end →
    (∀ w' r, rh_inv w' →
       (∀ x, rh_mem w' i !! x = (spec (rh_mem w i) (rh_blocks w i) rh_me dst d (len d)).1.1 x) →
       rh_blocks w' i = (spec (rh_mem w i) (rh_blocks w i) rh_me dst d (len d)).1.2 →
       (∀ j, j ≠ i → rh_mem w' j = rh_mem w j ∧ rh_blocks w' j = rh_blocks w j) →
       r_target r = srv → r_size r = len rd →
       r_remote r = (if want : bool then Some ret else None) →
       (∀ b, buf = Some b → ∃ l, r_buf r = Some l ∧ len l = len b ∧
          take (Z.to_nat (len rd)) l = rd ∧
          drop (Z.to_nat (len rd)) l = drop (Z.to_nat (len rd)) b) →
       Q r w') →
    wp (net_send d (len d) dst (sin6_port srv);; net_rcv buf want) w Q;
}.

(** The commands fit their 16 bits. *)
Ltac cmd_range :=
  unfold ALLOC_CMD, WRITE_CMD, READ_CMD, FREE_CMD, ALLOC_BULK_CMD, WRITE_BULK_CMD,
    READ_BULK_CMD, TRIM_CMD; lia.

Section Remote.
Context `{Config} `{!Calloc} {W : Type} `{!ClientNet W} `{!RemoteHosts W}.
Implicit Types (c : client W).

(** The client knows the port of the servers. *)
Record client_inv c : Prop := {
  ci_net : rh_inv (c_net c);
  ci_port i a : rh_server i = Some a → sin6_port a = sin6_port (c_target c);
}.
Abbreviation mem_of c := (rh_mem (c_net c)).
Abbreviation blocks_of c := (rh_blocks (c_net c)).

(** Everything of another server stays. *)
Definition others_same (i : Z) c c' : Prop :=
  ∀ j, j ≠ i → mem_of c' j = mem_of c j ∧ blocks_of c' j = blocks_of c j.

(** A request and its reply, as the functions of the library make them. *)
Lemma wp_send_rcv c i srv dst d buf want ret rd (Q : received → client W → Prop) :
  client_inv c → subid dst = i → rh_server i = Some srv → addr_ok dst →
  len d <= MAX_PAYLOAD → Forall byte_ok d →
  valid_request (mem_of c i) (blocks_of c i) dst d (len d) →
  (spec (mem_of c i) (blocks_of c i) rh_me dst d (len d)).2 = Some (ret, rd) →
  match buf with Some b => len rd <= len b | None => True end →
  (∀ c' r, client_inv c' →
     (∀ x, mem_of c' i !! x = (spec (mem_of c i) (blocks_of c i) rh_me dst d (len d)).1.1 x) →
     blocks_of c' i = (spec (mem_of c i) (blocks_of c i) rh_me dst d (len d)).1.2 →
     others_same i c c' → c_target c' = srv → hostList c' = hostList c → nhosts c' = nhosts c →
     r_size r = len rd → r_remote r = (if want : bool then Some ret else None) →
     (∀ b, buf = Some b → ∃ l, r_buf r = Some l ∧ len l = len b ∧
        take (Z.to_nat (len rd)) l = rd ∧
        drop (Z.to_nat (len rd)) l = drop (Z.to_nat (len rd)) b) →
     Q r c') →
  wp (send d (len d) dst;; rcv buf want) c Q.
Proof.
  intros [Hi Hport] Hd Hs Ha Hl Hb Hv Hsp Hbuf HQ. unfold send, rcv.
  rewrite wp_bind, wp_bind, wp_gets, wp_zoom. rewrite <-(Hport i srv) by done.
  pose proof (rh_call (c_net c) i srv dst d buf want ret rd
    (λ r w', Q r (put_ctarget (r_target r) (put_net w' c))) Hi Hd Hs Ha Hl Hb Hv Hsp Hbuf) as Hcall.
  rewrite wp_bind in Hcall. eapply wp_mono; [apply Hcall|].
  - intros w' r Hi' Hm Hbl Hoth Ht Hsz Hrem Hbb. apply HQ; simpl; try done.
    split; simpl; [done|]. intros j a Hj. rewrite Ht, (Hport j a), (Hport i srv) by done. done.
  - intros [] w1 Hw1. rewrite wp_bind, wp_zoom. cbn [c_net put_net].
    eapply wp_mono; [exact Hw1|]. intros r w' Hq. by rewrite wp_bind, wp_modify, wp_ret.
Qed.

Definition addr_in (i : Z) (a : ip6_memaddr) : Prop := addr_ok a ∧ subid a = i ∧ is_Some (rh_server i).

Lemma addr_ok_cmd n a : addr_ok a → 0 <= n < 2 ^ 16 → addr_ok (set_cmd n a).
Proof. by intros [] ?. Qed.
Lemma addr_ok_args n a : addr_ok a → 0 <= n < 2 ^ 32 → addr_ok (set_args n a).
Proof. by intros [] ?. Qed.

(** [write_rmem] stores the bytes at the address. *)
Lemma wp_write_rmem c i a d n Q :
  client_inv c → addr_in i a → n = len d → n <= MAX_PAYLOAD → Forall byte_ok d →
  mapped (mem_of c i) (paddr a) n →
  (∀ c', client_inv c' →
     (∀ x, mem_of c' i !! x = stored_at (mem_of c i) (paddr a) d x) →
     blocks_of c' i = blocks_of c i → others_same i c c' →
     hostList c' = hostList c → nhosts c' = nhosts c → Q (set_cmd WRITE_CMD a) c') →
  wp (write_rmem a d n) c Q.
Proof.
  intros Hc (Ha & Hsub & [srv Hs]) -> Hl Hb Hm HQ. unfold write_rmem. rewrite wp_bind_assoc.
  assert (slice d 0 (len d) = d) as Esl.
  { unfold slice. rewrite drop_0. apply take_ge. unfold len. lia. }
  eapply (wp_send_rcv c i srv); try done.
  { apply addr_ok_cmd; [done|cmd_range]. }
  { unfold valid_request. simpl. split; [|done]. pose proof (len_nonneg d). lia. }
  simpl. rewrite Esl. intros c' r Hc' Hm' Hbl' Ho Ht Hh Hnh _ _ _. rewrite wp_ret. by apply HQ.
Qed.

(** [read_rmem] returns the bytes at the address. *)
Lemma wp_read_rmem c i a buf n Q :
  client_inv c → addr_in i a → 0 <= n < 2 ^ 16 → n <= MAX_PAYLOAD → n <= len buf →
  mapped (mem_of c i) (paddr a) n →
  (∀ c' l, client_inv c' → (∀ x, mem_of c' i !! x = mem_of c i !! x) →
     blocks_of c' i = blocks_of c i → others_same i c c' →
     hostList c' = hostList c → nhosts c' = nhosts c → len l = len buf →
     take (Z.to_nat n) l = rd_bytes (mem_of c i) (paddr a) n →
     drop (Z.to_nat n) l = drop (Z.to_nat n) buf →
     Q (set_args n (set_cmd READ_CMD a), l, n) c') →
  wp (read_rmem a buf n) c Q.
Proof.
  intros Hc (Ha & Hsub & [srv Hs]) Hn Hl Hb Hm HQ. unfold read_rmem.
  change (0) with (len (@nil Z)) at 1. rewrite wp_bind_assoc.
  assert (u16 n = n) as Hu by (by apply u16_small).
  assert (len (rd_bytes (mem_of c i) (paddr a) n) = n) as Hlen.
  { unfold rd_bytes, len. rewrite length_fmap, length_seq. lia. }
  eapply (wp_send_rcv c i srv _ _ _ _ _ (rd_bytes (mem_of c i) (paddr a) n)); try done.
  { apply addr_ok_args; [apply addr_ok_cmd; [done|cmd_range]|lia]. }
  { unfold valid_request. simpl. by rewrite Hu. }
  { unfold spec. simpl. by rewrite Hu. }
  { by rewrite Hlen. }
  simpl. rewrite Hlen. intros c' r Hc' Hm' Hbl' Ho Ht Hh Hnh Hsz _ Hbuf.
  destruct (Hbuf buf eq_refl) as (l & El & Hll & Ht' & Hdr). rewrite wp_ret, El, Hsz. simpl.
  by apply HQ.
Qed.

(** What an allocation of [n] bytes at the server [i] does. *)
Definition allocated c i srv n (Q : ip6_memaddr → client W → Prop) : Prop :=
  let a := calloc_addr (blocks_of c i) n in
  ∀ c' ret, client_inv c' →
     (∀ x, mem_of c' i !! x =
        if decide (a ≠ 0 ∧ a <= x < a + n) then Some 0 else mem_of c i !! x) →
     blocks_of c' i = (if decide (a = 0) then blocks_of c i else <[a := n]> (blocks_of c i)) →
     others_same i c c' → c_target c' = srv → hostList c' = hostList c → nhosts c' = nhosts c →
     subid ret = i → paddr ret = a → addr_ok ret → Q ret c'.
Lemma wp_allocate_cmd c i srv k d n Q :
  k = ALLOC_CMD ∧ d = [] ∧ n = BLOCK_SIZE ∨ k = ALLOC_BULK_CMD ∧ d = le 8 n ∧ 0 < n < 2 ^ 64 →
  client_inv c → subid (sin6_addr (c_target c)) = i → rh_server i = Some srv →
  addr_ok (sin6_addr (c_target c)) → allocated c i srv n Q →
  wp (set_target_cmd k;; t ← gets c_target; send d (len d) (sin6_addr t);; r ← rcv None true;
      t' ← gets c_target; mret (set_subid (subid (sin6_addr t')) (remote_or (sin6_addr t) r))) c Q.
Proof.
  intros Hk Hc Hsub Hs Ha HQ. unfold set_target_cmd.
  rewrite wp_bind, wp_modify, wp_bind, wp_gets. cbn [c_target put_ctarget sin6_addr].
  set (c1 := put_ctarget _ c). assert (client_inv c1) as Hc1 by (by destruct Hc).
  rewrite wp_bind_assoc. set (dst := set_cmd k (sin6_addr (c_target c))).
  assert (0 < n ∧ Forall byte_ok d ∧ len d <= MAX_PAYLOAD ∧ 0 <= k < 2 ^ 16 ∧
    valid_request (mem_of c1 i) (blocks_of c1 i) dst d (len d) ∧
    spec (mem_of c1 i) (blocks_of c1 i) rh_me dst d (len d) =
      (λ x, if decide (calloc_addr (blocks_of c i) n ≠ 0 ∧ calloc_addr (blocks_of c i) n <= x < calloc_addr (blocks_of c i) n + n)
            then Some 0 else mem_of c i !! x,
       if decide (calloc_addr (blocks_of c i) n = 0) then blocks_of c i else <[calloc_addr (blocks_of c i) n := n]> (blocks_of c i),
       Some (ret_addr rh_me k (calloc_addr (blocks_of c i) n), []))) as (Hn & Hd & Hl & Hkr & Hv & Hsp).
  { destruct Hk as [(-> & -> & ->)|(-> & -> & Hn)].
    - pose proof BLOCK_SIZE_pos. split_and!; try done; constructor.
    - pose proof (u64_of_le n ltac:(lia)) as Hu. split_and!; try done; [lia|apply le_bytes|].
      unfold spec, alloc_size. cbn [cmd dst set_cmd]. rewrite Hu. simpl. by rewrite (proj2 (Z.eqb_neq n 0)) by lia. }
  eapply (wp_send_rcv c1 i srv dst d); try done; [by apply addr_ok_cmd|by rewrite Hsp|].
  rewrite Hsp. cbn [fst snd].
  intros c' r Hc' Hm' Hbl' Ho Ht Hh Hnh _ Hrem _. rewrite wp_bind, wp_gets, wp_ret.
  unfold remote_or. rewrite Hrem. simpl.
  assert (subid (sin6_addr (c_target c')) = i) as Esub by (rewrite Ht; by eapply rh_subid).
  apply HQ; try done. pose proof rh_me_ok as [_ _ Hargs _]. destruct Ha as [Hsr _ _ _].
  split; simpl; [lia|done|done|]. destruct (calloc_addr_ok (blocks_of c i) n ltac:(lia)); lia.
Qed.
(** [allocate_bulk] gets a zeroed range of [n] bytes, or NULL. *)
Lemma wp_allocate_bulk c i srv n Q :
  client_inv c → subid (sin6_addr (c_target c)) = i → rh_server i = Some srv →
  addr_ok (sin6_addr (c_target c)) → 0 < n < 2 ^ 64 → allocated c i srv n Q → wp (allocate_bulk n) c Q.
Proof. intros Hc Hsub Hs Ha Hn HQ. eapply (wp_allocate_cmd c i srv ALLOC_BULK_CMD (le 8 n) n); try done. by right. Qed.
Lemma wp_allocate_rmem c i srv Q :
  client_inv c → subid (sin6_addr (c_target c)) = i → rh_server i = Some srv →
  addr_ok (sin6_addr (c_target c)) → allocated c i srv BLOCK_SIZE Q → wp allocate_rmem c Q.
Proof. intros Hc Hsub Hs Ha HQ. eapply (wp_allocate_cmd c i srv ALLOC_CMD [] BLOCK_SIZE); try done. by left. Qed.

Lemma wp_free_rmem c i a n Q :
  client_inv c → addr_in i a → blocks_of c i !! paddr a = Some n →
  (∀ c' a', client_inv c' →
     (∀ x, mem_of c' i !! x =
        if decide (paddr a <= x < paddr a + n) then None else mem_of c i !! x) →
     blocks_of c' i = delete (paddr a) (blocks_of c i) → others_same i c c' → Q a' c') →
  wp (free_rmem a) c Q.
Proof.
  intros Hc (Ha & Hsub & [srv Hs]) Hn HQ. unfold free_rmem. change 0 with (len (@nil Z)) at 1.
  rewrite wp_bind_assoc. eapply (wp_send_rcv c i srv); try done.
  { apply addr_ok_cmd; [done|cmd_range]. }
  { by eexists. }
  simpl. rewrite Hn. intros c' r Hc' Hm' Hbl' Ho _ _ _ _ _ _. rewrite wp_ret. by apply HQ.
Qed.

(** [trim_bulk_rmem] zeroes the range. *)
Lemma wp_trim_bulk_rmem c i a n Q :
  client_inv c → addr_in i a → 0 <= n < 2 ^ 64 → mapped (mem_of c i) (paddr a) n →
  (∀ c' a', client_inv c' →
     (∀ x, mem_of c' i !! x = stored_at (mem_of c i) (paddr a) (replicate (Z.to_nat n) 0) x) →
     blocks_of c' i = blocks_of c i → others_same i c c' → Q a' c') →
  wp (trim_bulk_rmem a n) c Q.
Proof.
  intros Hc (Ha & Hsub & [srv Hs]) Hn Hm HQ. unfold trim_bulk_rmem.
  pose proof (u64_of_le n ltac:(lia)) as Hu.
  change 8 with (len (le 8 n)). rewrite wp_bind_assoc. eapply (wp_send_rcv c i srv); try done.
  { apply addr_ok_cmd; [done|cmd_range]. }
  { apply le_bytes. }
  { unfold valid_request. cbn [cmd set_cmd paddr]. by rewrite Hu. }
  unfold spec. cbn [cmd set_cmd]. rewrite Hu. simpl.
  intros c' r Hc' Hm' Hbl' Ho _ _ _ _ _ _. rewrite wp_ret. by apply HQ.
Qed.
End Remote.
