(* ===== verification/World.v ===== *)
(** * A client and its servers over a network that delivers

    The composition of the components: the client's [send_udp_raw] and
    [simple_epoll_rcv], the servers' [raw_rcv_step], and between them a
    network that routes a frame by the subid in its destination address and
    its port, and loses nothing. It discharges the contract [RemoteHosts]. *)

From S2P Require Import Prelude Types Bytes Wire RawSend RawRecv Server ServerSpec Client Remote.

Definition TP_STATUS_USER : Z := 1.

(** The kernel puts a frame into the next free slot of a receive ring. *)
Definition deliver (f : list Z) (r : rx_ring) : rx_ring :=
  put_polls (polls r ++ [MkPoll [EPOLLIN]
    [((tpacket_i r + len (polls r)) mod tp_frame_nr r, MkRslot TP_STATUS_USER f)]]) r.

(** Run a computation on another state, which is the result. *)
Definition run_on {S T A} (m : M T A) (t : T) : M S T := λ s,
  match m t with
  | Ok _ t' => Ok t' s
  | Err e => Err e
  end.
Lemma wp_run_on {S T A} (m : M T A) t (s : S) Q : wp (run_on m t) s Q = wp m t (λ _ t', Q t' s).
Proof. unfold wp, run_on. by destruct (m t). Qed.

Section World.
Context `{Config} `{!Kernel} `{!Calloc}.

Record world := MkWorld {
  w_tx : tx;
  w_rx : rx_ring;
  w_srv : gmap Z (rx_ring * server);
}.
Definition put_wtx x w := MkWorld x (w_rx w) (w_srv w).
Definition put_wrx x w := MkWorld (w_tx w) x (w_srv w).
Definition put_wsrv x w := MkWorld (w_tx w) (w_rx w) x.

Definition wire_of (t : tx) : list (list Z) := k_wire (kernel t).
(** The frames sent since the wire was [old]. *)
Definition new_frames (old : list (list Z)) (t : tx) : list (list Z) := drop (length old) (wire_of t).

(** A frame to the server with its subid and port is put into that server's
    ring and processed; the replies go into the client's ring. *)
Definition route (ports : Z → option Z) (f : list Z) : M world unit :=
  let i := un_le (slice f OFF_DST 2) in
  srv ← gets w_srv;
  match srv !! i with
  | Some (rx, s) =>
      if bool_decide (ports i = Some (un_le (slice f OFF_DPORT 2))) then
        '(rx', s') ← run_on raw_rcv_step (deliver f rx, s);
        modify (put_wsrv (<[i := (rx', s')]> srv));;
        cl ← gets w_rx;
        modify (put_wrx (foldl (λ r g, deliver g r) cl (new_frames (wire_of (s_tx s)) (s_tx s'))))
      else mret tt
  | None => mret tt
  end.
Fixpoint route_all (ports : Z → option Z) (fs : list (list Z)) : M world unit :=
  match fs with
  | [] => mret tt
  | f :: fs => route ports f;; route_all ports fs
  end.

Definition world_net (ports : Z → option Z) : ClientNet world := {|
  net_send d n a port :=
    old ← gets (λ w, wire_of (w_tx w));
    zoom w_tx put_wtx (send_udp_raw d n a port);;
    t ← gets w_tx;
    route_all ports (new_frames old t);
  net_send_batched pkts ids :=
    old ← gets (λ w, wire_of (w_tx w));
    zoom w_tx put_wtx (send_udp_raw_batched pkts ids);;
    t ← gets w_tx;
    route_all ports (new_frames old t);
  net_rcv buf want := zoom w_rx put_wrx (simple_epoll_rcv buf want);
  net_rcv_bulk n p := zoom w_rx put_wrx (write_packets 0 n p);
|}.
End World.

(** ** The contract holds *)

Section Contract.
Context `{Config} `{!Kernel} `{!Calloc}.
(** The client's address and port, the servers' addresses and ports. *)
Variables (me : ip6_memaddr) (me_port : Z) (servers : gmap Z sockaddr_in6).
Hypothesis Hme : addr_ok me.
Hypothesis Hme_port : 0 <= me_port < 65536.
Hypothesis Hservers : ∀ i a, servers !! i = Some a →
  subid (sin6_addr a) = i ∧ addr_ok (sin6_addr a) ∧ 0 <= sin6_port a < 65536.

Definition ports (i : Z) : option Z := sin6_port <$> servers !! i.

(** No packet is under way. *)
Record rx_idle (r : rx_ring) : Prop := {
  rx_polls : polls r = [];
  rx_index : 0 <= tpacket_i r < len (ring r);
  rx_nr : tp_frame_nr r = len (ring r);
}.
Definition servers_ok (w : world) : Prop :=
  ∀ i a, servers !! i = Some a → ∃ rx s, w_srv w !! i = Some (rx, s) ∧ rx_idle rx ∧
    srv_inv (enc_addr (sin6_addr a)) (sin6_port a) s.
Record world_inv (w : world) : Prop := {
  wi_tx : tx_inv (enc_addr me) me_port [] (w_tx w);
  wi_rx : rx_idle (w_rx w);
  wi_srv : servers_ok w;
}.

(** Frames that arrive one after the other: the polls that will report them. *)
Definition deliver_all (gs : list (list Z)) (r : rx_ring) : rx_ring := foldl (λ r g, deliver g r) r gs.
Fixpoint polls_from (i n : Z) (gs : list (list Z)) : list poll :=
  match gs with
  | [] => []
  | g :: gs => MkPoll [EPOLLIN] [(i mod n, MkRslot TP_STATUS_USER g)] :: polls_from (i + 1) n gs
  end.
Lemma deliver_all_polls gs : ∀ r,
  deliver_all gs r = put_polls (polls r ++ polls_from (tpacket_i r + len (polls r)) (tp_frame_nr r) gs) r.
Proof.
  induction gs as [|g gs IH]; intros r; simpl; [destruct r; unfold put_polls; simpl; by rewrite app_nil_r|].
  rewrite IH. unfold put_polls, deliver. simpl. rewrite <-app_assoc, len_app. simpl.
  change (len [_]) with 1. by rewrite Z.add_assoc.
Qed.
Lemma polls_from_mod n gs : ∀ i j, n ≠ 0 → i mod n = j mod n → polls_from i n gs = polls_from j n gs.
Proof.
  induction gs as [|g gs IH]; intros i j Hn E; simpl; [done|]. rewrite E. f_equal. apply IH; [done|].
  rewrite <-(Zplus_mod_idemp_l i), <-(Zplus_mod_idemp_l j). by rewrite E.
Qed.
Lemma deliver_arrival r f gs :
  rx_idle r → ∃ r', arrival (deliver_all (f :: gs) r) f r' ∧
    r' = MkRx (upd (ring r) (tpacket_i r) (MkRslot TP_STATUS_USER f)) (tpacket_i r) (tp_frame_nr r)
      (polls_from (tpacket_i r + 1) (tp_frame_nr r) gs).
Proof.
  intros [Hp Hi Hn]. eexists. split; [|reflexivity]. rewrite deliver_all_polls, Hp. simpl.
  rewrite Z.add_0_r, Z.mod_small by lia.
  eapply (arr_now (MkRx (ring r) (tpacket_i r) (tp_frame_nr r) _)
    EPOLLIN [(tpacket_i r, MkRslot TP_STATUS_USER f)] _ (MkRslot TP_STATUS_USER f)); try done.
  simpl. by apply idx_upd_eq.
Qed.
(** The ring after the packet was taken. *)
Definition taken_ring (r : rx_ring) (s n : rslot) : rx_ring :=
  MkRx (upd (upd (ring r) (tpacket_i r) n) (tpacket_i r) s) ((tpacket_i r + 1) mod tp_frame_nr r) (tp_frame_nr r) [].
Lemma taken_idle r s n : rx_idle r → rx_idle (taken_ring r s n).
Proof.
  intros [Hp Hi Hn]. split; simpl; [done| |by rewrite !len_upd]. rewrite !len_upd, Hn.
  apply Z.mod_pos_bound. lia.
Qed.
Lemma taken_rest r s n gs : rx_idle r →
  deliver_all gs (taken_ring r s n) = put_polls (polls_from (tpacket_i r + 1) (tp_frame_nr r) gs) (taken_ring r s n).
Proof.
  intros [Hp Hi Hn]. rewrite deliver_all_polls. simpl. unfold put_polls. simpl. f_equal.
  apply polls_from_mod; [lia|]. by rewrite Z.add_0_r, Z.mod_mod by lia.
Qed.

Lemma frame_payload f sip sport p :
  frame_of f sip sport p → len (data p) = datalen p → drop (Z.to_nat OFF_DATA) f = data p.
Proof.
  intros Hf Hl. rewrite <-(fr_data _ _ _ _ Hf). unfold slice. symmetry. apply take_ge.
  pose proof (fr_len _ _ _ _ Hf). rewrite length_drop. unfold len in *. lia.
Qed.

(** A server takes the frame of a request out of its ring and executes it. *)
Lemma wp_raw_rcv_step sip sport rx s f p :
  rx_idle rx → srv_inv sip sport s → frame_of f (enc_addr me) me_port p →
  addr_ok (dst_addr p) → len (data p) = datalen p → datalen p <= MAX_PAYLOAD →
  Forall byte_ok (data p) →
  valid_request (memory s) (blocks s) (dst_addr p) (data p) (datalen p) →
  wp raw_rcv_step (deliver f rx, s) (λ _ x, rx_idle x.1 ∧
    effect sip sport (put_target (MkSock me me_port) s) x.2
      (spec (memory s) (blocks s) me (dst_addr p) (data p) (datalen p)).1.1
      (spec (memory s) (blocks s) me (dst_addr p) (data p) (datalen p)).1.2
      (spec (memory s) (blocks s) me (dst_addr p) (data p) (datalen p)).2).
Proof.
  intros Hrx [Hm Ht Ha Hp] Hf Had Hl Hmax Hb Hv. pose proof offs as Hoffs.
  pose proof (len_nonneg (data p)). pose proof (fr_len _ _ _ _ Hf) as Hfl.
  assert (0 <= datalen p <= 65527) as Hdl.
  { unfold MAX_PAYLOAD in Hmax. lia. }
  unfold raw_rcv_step, zoom_rx. rewrite wp_bind, wp_zoom.
  eapply wp_epoll_wait.
  { unfold deliver. cbn [fst polls put_polls]. by rewrite (rx_polls _ Hrx). }
  cbn [p_events p_fills fst snd].
  change (negb (Z.land EPOLLIN EPOLLIN =? 0)) with true. cbn iota.
  rewrite len_nil, Z.add_0_r. pose proof Hrx as [Hpo Hi Hn].
  rewrite (Z.mod_small (tpacket_i rx)) by lia.
  unfold fill. cbn [foldl fst snd deliver put_polls ring tpacket_i tp_frame_nr].
  set (r1 := MkRx _ _ _ _). rewrite wp_bind, wp_zoom.
  eapply wp_mono; [eapply slot_in_ring; [|reflexivity]; by apply idx_upd_eq|].
  intros x rx' [-> ->]. change (slot_kind_of (MkRslot TP_STATUS_USER f)) with (SlotPacket f). cbn iota.
  unfold handle_packet, zoom_rx, zoom_srv. rewrite wp_bind, wp_zoom. cbn [fst snd].
  rewrite <-(app_nil_r f). eapply msg_size_frame; [exact Hf|done|]. unfold IPV6_SIZE.
  rewrite wp_bind, wp_zoom, frame_field_of, wp_ret by lia. cbn [fst snd].
  rewrite wp_bind, wp_zoom, frame_field_of, wp_ret by lia. cbn [fst snd].
  rewrite wp_bind, wp_zoom, frame_field_of, wp_ret by lia. cbn [fst snd].
  rewrite wp_bind, wp_zoom, wp_modify. cbn [fst snd].
  rewrite (fr_src _ _ _ _ Hf), (fr_dst _ _ _ _ Hf), (fr_sport _ _ _ _ Hf).
  rewrite !dec_enc_addr, un_le_le by done. rewrite app_nil_r, (frame_payload _ _ _ _ Hf Hl).
  unfold release_packet, next_packet. rewrite wp_bind, wp_zoom, wp_bind, wp_gets, wp_bind. cbn [fst snd].
  eapply wp_aload; [unfold r1; simpl; by apply idx_upd_eq|].
  apply wp_astore; [unfold r1; simpl; by rewrite len_upd|]. cbn [fst snd].
  rewrite wp_bind, wp_zoom, wp_bind, wp_gets, wp_bind, wp_gets. cbn [fst snd].
  rewrite (proj2 (Z.eqb_neq _ 0)) by (simpl; lia). rewrite wp_modify, wp_zoom. cbn [fst snd].
  eapply wp_mono; [eapply (wp_process_request sip sport)|].
  - by split.
  - done.
  - done.
  - exact Hv.
  - intros [] s' Heff. split; [|exact Heff]. exact (taken_idle rx _ _ Hrx).
Qed.

Definition mem_at (w : world) (i : Z) : gmap Z Z :=
  match w_srv w !! i with Some (_, s) => memory s | None => ∅ end.
Definition blocks_at (w : world) (i : Z) : gmap Z Z :=
  match w_srv w !! i with Some (_, s) => blocks s | None => ∅ end.

Lemma new_frames_app old t fs : wire_of t = old ++ fs → new_frames old t = fs.
Proof. intros E. unfold new_frames. by rewrite E, drop_app_length. Qed.

Lemma frame_dst f p : frame_of f (enc_addr me) me_port p → addr_ok (dst_addr p) →
  un_le (slice f OFF_DST 2) = subid (dst_addr p).
Proof.
  intros Hf Ha. replace (slice f OFF_DST 2) with (slice (slice f OFF_DST 16) 0 2).
  2: { rewrite slice_slice by done. by rewrite Z.add_0_r. }
  rewrite (fr_dst _ _ _ _ Hf). change (subid (dec_addr (enc_addr (dst_addr p))) = subid (dst_addr p)).
  by rewrite dec_enc_addr.
Qed.

(** What the server with the frame [g] answers to [p]. *)
Definition reply_frame (srv : sockaddr_in6) (g : list Z) (ret : ip6_memaddr) (rd : list Z) : Prop :=
  frame_of g (enc_addr (sin6_addr srv)) (sin6_port srv) (PktRqst ret me_port rd (len rd)).

(** A request reaches its server, is executed there, and the reply, if there
    is one, is put into the client's ring behind what waits in it. *)
Lemma wp_route w i srv f p Q :
  servers_ok w → subid (dst_addr p) = i → servers !! i = Some srv →
  frame_of f (enc_addr me) me_port p → dst_port p = sin6_port srv → addr_ok (dst_addr p) →
  len (data p) = datalen p → datalen p <= MAX_PAYLOAD → Forall byte_ok (data p) →
  valid_request (mem_at w i) (blocks_at w i) (dst_addr p) (data p) (datalen p) →
  let sp := spec (mem_at w i) (blocks_at w i) me (dst_addr p) (data p) (datalen p) in
  (∀ w', servers_ok w' → w_tx w' = w_tx w →
     match sp.2 with
     | Some (ret, rd) => ∃ g, w_rx w' = deliver g (w_rx w) ∧ reply_frame srv g ret rd
     | None => w_rx w' = w_rx w
     end →
     (∀ x, mem_at w' i !! x = sp.1.1 x) → blocks_at w' i = sp.1.2 →
     (∀ j, j ≠ i → mem_at w' j = mem_at w j ∧ blocks_at w' j = blocks_at w j) → Q tt w') →
  wp (route ports f) w Q.
Proof.
  intros Hsrv Hd Hs Hf Hdp Ha Hl Hmax Hb Hv sp HQ.
  destruct (Hservers _ _ Hs) as (Hsub & Hsa & Hsport).
  unfold route. rewrite wp_bind, wp_gets, (frame_dst f _ Hf Ha), Hd.
  destruct (Hsrv _ _ Hs) as (rx & s & Ew & Hrxs & Hsi). rewrite Ew.
  assert (mem_at w i = memory s ∧ blocks_at w i = blocks s) as [Em Eb].
  { unfold mem_at, blocks_at. by rewrite Ew. }
  unfold sp in *. rewrite Em, Eb in *. rewrite (fr_dport _ _ _ _ Hf), Hdp.
  rewrite un_le_le by done. rewrite bool_decide_true by (unfold ports; by rewrite Hs).
  rewrite wp_bind, wp_run_on.
  pose proof (wp_raw_rcv_step _ _ rx s f _ Hrxs Hsi Hf Ha Hl Hmax Hb Hv) as Hstep.
  eapply wp_mono; [exact Hstep|]. clear Hstep. intros [] [rx' s'] [Hrx' [Hinv Hmem Hbl Hrep]].
  cbn [fst snd] in *. rewrite wp_bind, wp_modify, wp_bind, wp_gets, wp_modify. cbn [w_rx put_wsrv].
  assert (∀ (X : Type) (h : server → X) (z : X) j, j ≠ i →
    match (<[i:=(rx', s')]> (w_srv w)) !! j with Some (_, y) => h y | None => z end =
    match w_srv w !! j with Some (_, y) => h y | None => z end) as Hother.
  { intros X h z j Hj. by rewrite lookup_insert_ne. }
  apply HQ; simpl.
  - intros j a Hj. simpl. destruct (decide (j = i)) as [->|Hne].
    + rewrite lookup_insert_eq. exists rx', s'. assert (a = srv) as -> by congruence. done.
    + rewrite lookup_insert_ne by done. by apply Hsrv.
  - done.
  - change (sin6_port (target_ip (put_target (MkSock me me_port) s))) with me_port in Hrep.
    change (sent (put_target (MkSock me me_port) s)) with (sent s) in Hrep.
    destruct (spec _ _ _ _ _ _).2 as [[ret rd]|].
    + destruct Hrep as (g & Hsent & Hg). exists g. rewrite (new_frames_app _ _ [g]) by exact Hsent. done.
    + by rewrite (new_frames_app _ _ []) by (rewrite app_nil_r; exact Hrep).
  - intros x. unfold mem_at. simpl. rewrite lookup_insert_eq. apply Hmem.
  - unfold blocks_at. simpl. rewrite lookup_insert_eq. apply Hbl.
  - intros j Hj. unfold mem_at, blocks_at. simpl. by rewrite !Hother.
Qed.

(** A request is executed and its reply waits in the client's ring. *)
Lemma wp_request w i srv dst d ret rd Q :
  world_inv w → subid dst = i → servers !! i = Some srv → addr_ok dst →
  len d <= MAX_PAYLOAD → Forall byte_ok d →
  valid_request (mem_at w i) (blocks_at w i) dst d (len d) →
  (spec (mem_at w i) (blocks_at w i) me dst d (len d)).2 = Some (ret, rd) →
  (∀ w' cl g, world_inv (put_wrx cl w') → rx_idle cl → w_rx w' = deliver g cl →
     reply_frame srv g ret rd →
     (∀ x, mem_at w' i !! x = (spec (mem_at w i) (blocks_at w i) me dst d (len d)).1.1 x) →
     blocks_at w' i = (spec (mem_at w i) (blocks_at w i) me dst d (len d)).1.2 →
     (∀ j, j ≠ i → mem_at w' j = mem_at w j ∧ blocks_at w' j = blocks_at w j) → Q tt w') →
  wp (@net_send _ (world_net ports) d (len d) dst (sin6_port srv)) w Q.
Proof.
  intros [Ht Hrx Hsrv] Hd Hs Ha Hl Hb Hv Hsp HQ.
  destruct (Hservers _ _ Hs) as (_ & _ & Hsport). cbn [net_send world_net].
  rewrite wp_bind, wp_gets, wp_bind, wp_zoom. unfold send_udp_raw. rewrite wp_bind.
  eapply wp_cooked_send; [exact Ht|by split|].
  intros f t Hf Ht' Hw _. rewrite wp_modify, wp_bind, wp_gets. cbn [w_tx put_wtx].
  rewrite (new_frames_app _ _ [f]) by done. cbn [route_all]. rewrite wp_bind.
  eapply (wp_route (put_wtx _ w) i srv f (PktRqst dst (sin6_port srv) d (len d))); try done.
  intros w' Hsrv' Htx. change (mem_at (put_wtx _ w)) with (mem_at w).
  change (blocks_at (put_wtx _ w)) with (blocks_at w). cbn [dst_addr data datalen]. rewrite Hsp.
  intros (g & Hrx' & Hg) Hm Hbl Hoth. rewrite wp_ret. apply (HQ w' (w_rx w) g); try done.
  split; [|done|exact Hsrv']. simpl. rewrite Htx. by destruct Ht'.
Qed.

(** The client takes the oldest reply out of its ring. *)
Lemma wp_reply_rcv w cl gs srv ret rd g buf want (Q : received → world → Prop) :
  rx_idle cl → w_rx w = deliver_all (g :: gs) cl → addr_ok ret →
  addr_ok (sin6_addr srv) → 0 <= sin6_port srv < 65536 → len rd <= MAX_PAYLOAD →
  reply_frame srv g ret rd →
  match buf with Some b => len rd <= len b | None => True end →
  (∀ cl' b, rx_idle cl' →
     (∀ b0, buf = Some b0 → ∃ l, b = Some l ∧ len l = len b0 ∧ take (Z.to_nat (len rd)) l = rd ∧
        drop (Z.to_nat (len rd)) l = drop (Z.to_nat (len rd)) b0) →
     Q (MkRcvd b (if want : bool then Some ret else None) srv (len rd)) (put_wrx (deliver_all gs cl') w)) →
  wp (@net_rcv _ (world_net ports) buf want) w Q.
Proof.
  intros Hcl Hrx Hret Hsa Hsp Hl Hg Hbuf HQ. cbn [net_rcv world_net]. rewrite wp_zoom, Hrx.
  destruct (deliver_arrival cl g gs Hcl) as (r' & Harr & ->). pose proof Hcl as [Hp Hi Hn].
  pose proof offs as Hoffs.
  assert (0 <= len rd <= 65527) as Hdl.
  { pose proof (len_nonneg rd). unfold MAX_PAYLOAD in Hl. lia. }
  set (R := deliver_all (g :: gs) cl) in *. unfold simple_epoll_rcv, wp.
  fold (wp (rcv_loop (S (length (polls R))) buf want) R (λ a t, Q a (put_wrx t w))).
  eapply wp_rcv_loop; [exact Harr| |lia].
  replace (take_packet buf want g) with (take_packet buf want (g ++ [])) by by rewrite app_nil_r.
  eapply (wp_take_packet _ _ _ _ _ _ _ _ (MkRslot TP_STATUS_USER g)); try done; simpl.
  - by apply idx_upd_eq.
  - lia.
  - intros b Hb. rewrite dec_enc_addr by done.
    replace (MkSock (sin6_addr srv) (sin6_port srv)) with srv by by destruct srv.
    specialize (HQ (taken_ring cl (set_status TP_STATUS_KERNEL (MkRslot TP_STATUS_USER g))
      (MkRslot TP_STATUS_USER g)) b). rewrite (taken_rest _ _ _ _ Hcl) in HQ.
    apply HQ; [by apply taken_idle|]. intros b0 ->. destruct Hb as (l & -> & ?). by exists l.
Qed.

Program Definition world_hosts : @RemoteHosts _ _ world (world_net ports) := {|
  rh_inv := world_inv;
  rh_me := me;
  rh_server i := servers !! i;
  rh_mem := mem_at;
  rh_blocks := blocks_at;
|}.
Next Obligation. done. Qed.
Next Obligation. intros i a Hi. by apply Hservers. Qed.
Next Obligation. intros i a Hi. by destruct (Hservers i a Hi) as (_ & ? & _). Qed.
Next Obligation.
  intros w i [_ _ Hs] [a Hi]. destruct (Hs i a Hi) as (rx & s & Ew & _ & Hsi).
  unfold mem_at, blocks_at. rewrite Ew. apply Hsi.
Qed.
Next Obligation.
  intros w i srv dst d buf want ret rd Q Hw Hd Hs Ha Hl Hb Hv Hsp Hbuf HQ. rewrite wp_bind.
  destruct (Hservers _ _ Hs) as (Hsub & Hsa & Hsport).
  destruct (spec_reply_ok _ _ _ _ _ _ _ _ Hme Ha Hb Hv Hsp) as [Hret Hrd].
  eapply wp_request; [done..|]. intros w' cl g Hw' Hcl Hrx Hg Hm Hbl Hoth.
  eapply (wp_reply_rcv w' cl []); [done..|]. intros cl' b Hcl' Hbb. apply HQ; simpl; try done.
  destruct Hw' as [Hw1 _ Hw3]. by split.
Qed.
End Contract.
