(* ===== verification/Bulk.v ===== *)
(** * The contract for batches

    What the batched functions of src/ip6/lib/client_lib.c rely on: a batch is
    served packet by packet as [spec] says, the replies wait in their order,
    a receive takes the oldest and a bulk receive stores all of them.
    [BulkHosts] extends [RemoteHosts]; [BulkWorld] discharges it. *)

From S2P Require Import Prelude Types Bytes Wire RawSend RawRecv Server ServerSpec Client Remote.

(** A reply under way: the server it is from, its address and its data. *)
Record reply_pkt := MkReply { rp_from : sockaddr_in6; rp_addr : ip6_memaddr; rp_data : list Z }.

Section Served.
Context `{Config} `{!Calloc}.
Variables (server : Z → option sockaddr_in6) (me : ip6_memaddr).

(** The memory and the live blocks of every server. *)
Definition view : Type := Z → gmap Z Z * gmap Z Z.
Implicit Types (v : view) (p : pkt_rqst).
Definition req_spec v p :=
  let i := subid (dst_addr p) in spec (v i).1 (v i).2 me (dst_addr p) (data p) (datalen p).
Record steps v p v' : Prop := {
  st_mem x : (v' (subid (dst_addr p))).1 !! x = (req_spec v p).1.1 x;
  st_blocks : (v' (subid (dst_addr p))).2 = (req_spec v p).1.2;
  st_other j : j ≠ subid (dst_addr p) → v' j = v j;
}.
Definition replies v p : list reply_pkt :=
  match server (subid (dst_addr p)), (req_spec v p).2 with
  | Some srv, Some (ret, rd) => [MkReply srv ret rd]
  | _, _ => []
  end.
(** The packets are executed one after the other. *)
Inductive served : view → list pkt_rqst → view → list reply_pkt → Prop :=
| served_nil v : served v [] v []
| served_cons v p v1 ps v2 q :
    steps v p v1 → served v1 ps v2 q → served v (p :: ps) v2 (replies v p ++ q).

Record deliverable p : Prop := {
  dv_server : ∃ srv, server (subid (dst_addr p)) = Some srv ∧ dst_port p = sin6_port srv;
  dv_addr : addr_ok (dst_addr p);
  dv_len : len (data p) = datalen p;
  dv_max : datalen p <= MAX_PAYLOAD;
  dv_bytes : Forall byte_ok (data p);
}.
Definition valid_at v p : Prop :=
  let i := subid (dst_addr p) in valid_request (v i).1 (v i).2 (dst_addr p) (data p) (datalen p).
(** Every packet is valid when its turn comes. *)
Fixpoint admissible v (ps : list pkt_rqst) : Prop :=
  match ps with
  | [] => True
  | p :: ps => deliverable p ∧ valid_at v p ∧ ∀ v1, steps v p v1 → admissible v1 ps
  end.
End Served.

(** What a bulk receive does with a reply. *)
Definition fits_pool (p : pool) (r : reply_pkt) : Prop :=
  base p <= paddr (rp_addr r) ∧ paddr (rp_addr r) + len (rp_data r) <= base p + len (bytes p).
Definition store_reply (p : pool) (r : reply_pkt) : pool :=
  MkPool (base p) (splice (bytes p) (paddr (rp_addr r) - base p) (rp_data r)).

Section Contract.
Context `{Config} `{!Calloc} (W : Type) `{!ClientNet W} `{!RemoteHosts W}.

Definition view_of (w : W) : view := λ i, (rh_mem w i, rh_blocks w i).

Class BulkHosts := {
  (* [rh_queue w q]: the replies [q] wait, the oldest first *)
  rh_queue : W → list reply_pkt → Prop;
  rh_queue_nil w : rh_queue w [] ↔ rh_inv w;
  rh_port i a : rh_server i = Some a → 0 <= sin6_port a < 65536;
  rh_batch w ids pkts Q :
    rh_inv w → len pkts <= C_RING_FRAMES → Forall pkt_ok pkts →
    Forall (λ p, 0 <= subid (dst_addr p) < len ids) pkts →
    admissible rh_server rh_me (view_of w) (in_batch ids <$> pkts) →
    (∀ w' q, rh_queue w' q →
       served rh_server rh_me (view_of w) (in_batch ids <$> pkts) (view_of w') q → Q tt w') →
    wp (net_send_batched pkts ids) w Q;
  rh_next w srv ret rd q buf want Q :
    rh_queue w (MkReply srv ret rd :: q) →
    match buf with Some b => len rd <= len b | None => True end →
    (∀ w' r, rh_queue w' q → view_of w' = view_of w → r_target r = srv → r_size r = len rd →
       r_remote r = (if want : bool then Some ret else None) →
       (∀ b, buf = Some b → ∃ l, r_buf r = Some l ∧ len l = len b ∧
          take (Z.to_nat (len rd)) l = rd ∧
          drop (Z.to_nat (len rd)) l = drop (Z.to_nat (len rd)) b) →
       Q r w') →
    wp (net_rcv buf want) w Q;
  rh_store_all w q p Q :
    rh_queue w q → Forall (fits_pool p) q →
    (∀ w', rh_inv w' → view_of w' = view_of w → Q (foldl store_reply p q) w') →
    wp (net_rcv_bulk (len q) p) w Q;
}.
End Contract.
Arguments view_of {_ _ _ _ _} _.
Arguments rh_queue {_ _ _ _ _ _} _ _.
