(* ===== verification/BulkWorld.v ===== *)
(** * The batch contract holds on the delivering network

    The client, the servers and the network of [World] keep [BulkHosts]:
    [route_all] serves the frames of a batch one after the other, the replies
    wait in the client's ring, [simple_epoll_rcv] takes the oldest of them and
    [write_packets] stores all. *)

From S2P Require Import Prelude Types Bytes Wire RawSend RawRecv Server ServerSpec Client Remote World Bulk.

Section BulkWorld.
Context `{Config} `{!Kernel} `{!Calloc}.
Variables (me : ip6_memaddr) (me_port : Z) (servers : gmap Z sockaddr_in6).
Hypothesis Hme : addr_ok me.
Hypothesis Hme_port : 0 <= me_port < 65536.
Hypothesis Hservers : ∀ i a, servers !! i = Some a →
  subid (sin6_addr a) = i ∧ addr_ok (sin6_addr a) ∧ 0 <= sin6_port a < 65536.

Abbreviation srv_of := (λ i : Z, servers !! i).
#[local] Instance bulk_net : ClientNet world := world_net (ports servers).
#[local] Instance bulk_hosts : RemoteHosts world := world_hosts me me_port servers Hme Hme_port Hservers.

(** The frame [g] of the reply [r]. *)
Record waiting (r : reply_pkt) (g : list Z) : Prop := {
  wt_frame : reply_frame me_port (rp_from r) g (rp_addr r) (rp_data r);
  wt_addr : addr_ok (rp_addr r);
  wt_len : len (rp_data r) <= MAX_PAYLOAD;
  wt_from : ∃ i, servers !! i = Some (rp_from r);
}.
Record world_queue (w : world) (q : list reply_pkt) : Prop := {
  wq_tx : tx_inv (enc_addr me) me_port [] (w_tx w);
  wq_srv : servers_ok servers w;
  wq_rx : ∃ cl gs, rx_idle cl ∧ w_rx w = deliver_all gs cl ∧ Forall2 waiting q gs;
}.
Lemma world_queue_nil w : world_queue w [] ↔ world_inv me me_port servers w.
Proof.
  split.
  - intros [Ht Hs (cl & gs & Hcl & E & Hg)]. apply Forall2_nil_inv_l in Hg as ->.
    split; [done|by rewrite E|done].
  - intros [Ht Hr Hs]. split; [done|done|]. by exists (w_rx w), [].
Qed.

(** The frames of a batch are served in their order. *)
Lemma wp_route_all ps : ∀ fs w q Q,
  world_queue w q →
  Forall2 (λ f p, frame_of f (enc_addr me) me_port p) fs ps →
  admissible srv_of me (view_of w) ps →
  (∀ w' q', world_queue w' (q ++ q') → served srv_of me (view_of w) ps (view_of w') q' → Q tt w') →
  wp (route_all (ports servers) fs) w Q.
Proof.
  induction ps as [|p ps IH]; intros fs w q Q Hw Hfs Had HQ.
  { apply Forall2_nil_inv_r in Hfs as ->. cbn [route_all]. rewrite wp_ret. apply (HQ w []); [by rewrite app_nil_r|constructor]. }
  apply Forall2_cons_inv_r in Hfs as (f & fs' & Hf & Hfs & ->). destruct Had as ([(srv & Hs & Hp) Ha Hl Hmax Hb] & Hv & Had).
  destruct Hw as [Ht Hsrv (cl & gs & Hcl & Hrx & Hg)]. cbn [route_all]. rewrite wp_bind.
  pose proof (spec_reply_ok (mem_at w (subid (dst_addr p))) (blocks_at w (subid (dst_addr p))) me (dst_addr p)
    (data p) (datalen p)) as Hrep.
  eapply (wp_route me me_port servers); [done..|]. intros w1 Hs1 Htx Hr1 Hm1 Hb1 Ho1.
  assert (steps me (view_of w) p (view_of w1)) as Hst.
  { split; [exact Hm1|exact Hb1|]. intros j Hj. unfold view_of. cbn [rh_mem rh_blocks bulk_hosts world_hosts].
    by destruct (Ho1 j Hj) as [-> ->]. }
  apply (IH fs' w1 (q ++ replies srv_of me (view_of w) p)).
  - split; [by rewrite Htx|done|]. unfold replies. rewrite Hs. unfold req_spec.
    change ((view_of w (subid (dst_addr p))).1) with (mem_at w (subid (dst_addr p))).
    change ((view_of w (subid (dst_addr p))).2) with (blocks_at w (subid (dst_addr p))).
    destruct (spec _ _ _ _ _ _).2 as [[ret rd]|] eqn:Esp.
    + destruct Hr1 as (g & Er & Hfr). exists cl, (gs ++ [g]). split; [done|].
      split; [unfold deliver_all; by rewrite Er, Hrx, foldl_app|].
      apply Forall2_app; [done|]. constructor; [|constructor].
      destruct (Hrep ret rd) as [Hra Hrl]; try done. split; [done|done|done|by eexists].
    + rewrite app_nil_r. exists cl, gs. by rewrite Hr1.
  - done.
  - by apply Had.
  - intros w2 q2 Hw2 Hserved. apply (HQ w2 (replies srv_of me (view_of w) p ++ q2)); [by rewrite app_assoc|].
    by econstructor.
Qed.

(** ** A bulk receive *)

(** [write_loop] takes what waits, one packet per round. *)
Lemma wp_write_loop q : ∀ gs fuel e k p cl (Q : pool → rx_ring → Prop),
  Forall2 waiting q gs → rx_idle cl → Forall (fits_pool p) q → (length gs < fuel)%nat →
  (∀ cl', rx_idle cl' → Q (foldl store_reply p q) cl') →
  wp (write_loop fuel e k (k + len q) p) (deliver_all gs cl) Q.
Proof.
  pose proof offs as Ho.
  induction q as [|r q IH]; intros gs fuel e k p cl Q Hg Hcl Hp Hf HQ;
    (destruct fuel as [|fuel]; [lia|]); cbn [write_loop].
  { apply Forall2_nil_inv_l in Hg as ->. rewrite len_nil, Z.add_0_r, Z.eqb_refl, wp_ret. by apply HQ. }
  apply Forall2_cons_inv_l in Hg as (g & gs' & [Hg Ha Hl (i & Hfrom)] & Hgs & ->).
  apply Forall_cons in Hp as [[Hp1 Hp2] Hp]. rewrite len_cons. pose proof (len_nonneg q) as Hq.
  pose proof (len_nonneg (rp_data r)) as Hd. pose proof (fr_len _ _ _ _ Hg) as Hgl. cbn [datalen] in Hgl.
  assert (0 <= len (rp_data r) <= 65527) as Hdl by (unfold MAX_PAYLOAD in Hl; lia).
  rewrite (proj2 (Z.eqb_neq _ _)) by lia. pose proof Hcl as [Hpo Hti Hn].
  rewrite wp_bind. rewrite deliver_all_polls, Hpo. cbn [app polls_from len].
  eapply wp_epoll_wait; [reflexivity|]. cbn [p_events p_fills].
  change (negb (Z.land EPOLLIN EPOLLIN =? 0)) with true. cbn iota.
  change (len []) with 0. rewrite Z.add_0_r, (Z.mod_small (tpacket_i cl)) by lia.
  unfold fill. cbn [foldl fst snd put_polls ring tpacket_i tp_frame_nr].
  set (r1 := MkRx _ _ _ _). rewrite wp_bind.
  eapply wp_mono; [eapply slot_in_ring; [|reflexivity]; by apply idx_upd_eq|].
  intros x rx' [-> ->]. change (slot_kind_of (MkRslot TP_STATUS_USER g)) with (SlotPacket g). cbn iota.
  rewrite <-(app_nil_r g). unfold IPV6_SIZE. rewrite frame_field_of by lia. rewrite wp_bind, wp_ret.
  rewrite wp_bind. eapply msg_size_frame; [exact Hg|done|]. cbn [datalen].
  rewrite (fr_dst _ _ _ _ Hg), dec_enc_addr by done. cbn [dst_addr].
  unfold pool_write. rewrite wp_bind, wp_bind. apply wp_copy_slice; [lia..|rewrite app_nil_r; lia|].
  rewrite app_nil_r. pose proof (fr_data _ _ _ _ Hg) as Hfd. cbn [datalen data] in Hfd. rewrite Hfd, wp_ret.
  fold (store_reply p r).
  unfold release_packet, next_packet. rewrite wp_bind, wp_bind, wp_gets, wp_bind.
  eapply wp_aload; [unfold r1; simpl; by apply idx_upd_eq|].
  apply wp_astore; [unfold r1; simpl; by rewrite len_upd|].
  rewrite wp_bind, wp_bind, wp_gets, wp_bind, wp_gets.
  rewrite (proj2 (Z.eqb_neq _ 0)) by (simpl; lia). rewrite wp_modify.
  replace (k + (len q + 1)) with (k + 1 + len q) by lia.
  match goal with |- wp _ ?R _ => replace R with (deliver_all gs' (taken_ring cl
    (set_status TP_STATUS_KERNEL (MkRslot TP_STATUS_USER g)) (MkRslot TP_STATUS_USER g))) end.
  2: { rewrite (taken_rest _ _ _ _ Hcl). reflexivity. }
  apply IH; [done|by apply taken_idle| |simpl in Hf; lia|done].
  apply (Forall_impl _ _ _ Hp). intros r' [J1 J2]. unfold fits_pool, store_reply. cbn [base bytes].
  rewrite len_splice by lia. done.
Qed.
Lemma deliver_all_len gs cl : rx_idle cl → (length gs <= length (polls (deliver_all gs cl)))%nat.
Proof.
  intros [Hp _ _]. rewrite deliver_all_polls, Hp. simpl. generalize (tpacket_i cl + len (@nil poll)) as i.
  induction gs as [|g gs IH]; intros i; simpl; [lia|]. specialize (IH (i + 1)). lia.
Qed.

#[refine] Definition world_bulk : BulkHosts world := {| rh_queue := world_queue |}.
Proof.
  - apply world_queue_nil.
  - intros i a Hi. by destruct (Hservers i a Hi) as (_ & _ & ?).
  - intros w ids pkts Q [Ht Hrx Hsrv] Hlen Hok Hids Had HQ. cbn [net_send_batched bulk_net world_net].
    rewrite wp_bind, wp_gets, wp_bind, wp_zoom. unfold send_udp_raw_batched. rewrite wp_bind.
    eapply wp_cooked_batched_send; [exact Ht|done|done|done|].
    intros fs t Hfs Ht' Hw _. rewrite wp_modify, wp_bind, wp_gets. cbn [w_tx put_wtx].
    rewrite (new_frames_app _ _ fs) by done.
    apply (wp_route_all (in_batch ids <$> pkts) fs _ []).
    + split; [by destruct Ht'|exact Hsrv|]. exists (w_rx w), []. split_and!; [exact Hrx|done|constructor].
    + by apply Forall2_fmap_r.
    + exact Had.
    + intros w' q Hw' Hserved. by apply (HQ w' q).
  - intros w srv ret rd q buf want Q [Ht Hsrv (cl & gs & Hcl & Hrx & Hg)] Hbuf HQ.
    apply Forall2_cons_inv_l in Hg as (g & gs' & [Hfr Ha Hl (i & Hi)] & Hgs & ->).
    destruct (Hservers _ _ Hi) as (_ & Hsa & Hsp).
    cbn [rp_from rp_addr rp_data] in *.
    change (wp (@net_rcv _ (world_net (ports servers)) buf want) w Q).
    eapply (wp_reply_rcv me_port servers w cl gs' srv ret rd g buf want Q Hcl Hrx Ha Hsa Hsp Hl Hfr Hbuf).
    intros cl' b Hcl' Hb. apply HQ; try done.
    split; [done|done|]. by exists cl', gs'.
  - intros w q p Q [Ht Hsrv (cl & gs & Hcl & Hrx & Hg)] Hp HQ. cbn [net_rcv_bulk bulk_net world_net].
    rewrite wp_zoom, Hrx. unfold write_packets, wp. set (R := deliver_all gs cl).
    fold (wp (write_loop (S (length (polls R))) 0 0 (len q) p) R (λ a t, Q a (put_wrx t w))).
    apply (wp_write_loop q gs _ 0 0 p cl); [done|done|done| |].
    + pose proof (deliver_all_len gs cl Hcl). unfold R. lia.
    + intros cl' Hcl'. by apply HQ.
Defined.
End BulkWorld.
