(* ===== verification/BulkClient.v ===== *)
(** * The batched functions of the client library

    [batch_write] numbers its packets so that every server acknowledges its
    last one, and waits for as many acknowledgements as there are servers;
    [batch_read] gives every packet the place where its answer goes. From the
    contract [BulkHosts]: what the bulk functions do to the servers' memories
    and to the caller's buffer. *)

From S2P Require Import Prelude Types Bytes Wire RawSend RawRecv Server ServerSpec Client Remote Bulk.

(** ** Counting the packets of a server *)

Definition occ (s : Z) (l : list ip6_memaddr) : Z := len (filter (λ a, subid a = s) l).
(** How many servers are in the list. *)
Fixpoint servers_in (l : list ip6_memaddr) : Z :=
  match l with
  | [] => 0
  | a :: l => servers_in l + if occ (subid a) l =? 0 then 1 else 0
  end.
(** [sub_ids] after the addresses were counted. *)
Fixpoint counted (ids : list Z) (l : list ip6_memaddr) : list Z :=
  match l with
  | [] => ids
  | a :: l => counted (upd ids (subid a) (default 0 (idx ids (subid a)) + 1)) l
  end.
Definition in_ids (ids : list Z) (a : ip6_memaddr) : Prop := 0 <= subid a < len ids.
Definition nonzero (l : list Z) : Z := len (filter (λ x, x ≠ 0) l).

Lemma occ_cons s a l : occ s (a :: l) = (if decide (subid a = s) then 1 else 0) + occ s l.
Proof. unfold occ. rewrite filter_cons. case_decide; rewrite ?len_cons; lia. Qed.
Lemma occ_range s l : 0 <= occ s l <= len l.
Proof. unfold occ, len. pose proof (length_filter (λ a, subid a = s) l). lia. Qed.
Lemma len_counted_ids l : ∀ ids, len (counted ids l) = len ids.
Proof. induction l as [|a l IH]; intros ids; simpl; [done|]. by rewrite IH, len_upd. Qed.
Lemma in_ids_upd ids i x l : Forall (in_ids ids) l → Forall (in_ids (upd ids i x)) l.
Proof. intros Hl. apply (Forall_impl _ _ _ Hl). intros a. unfold in_ids. by rewrite len_upd. Qed.
Lemma idx_counted l : ∀ ids s, Forall (in_ids ids) l →
  idx (counted ids l) s = (λ x, x + occ s l) <$> idx ids s.
Proof.
  induction l as [|a l IH]; intros ids s Hl; simpl.
  { unfold occ. simpl. destruct (idx ids s); simpl; f_equal. unfold len. simpl. lia. }
  apply Forall_cons in Hl as [Ha Hl]. rewrite IH by by apply in_ids_upd.
  destruct (idx_is_Some _ _ Ha) as [x Ex]. rewrite Ex. simpl. rewrite occ_cons, idx_upd by done.
  case_decide as E; [|destruct (idx ids s); simpl; f_equal; lia]. subst s. rewrite Ex. simpl. f_equal. lia.
Qed.

Lemma nonzero_upd l i v x : idx l i = Some x → v ≠ 0 →
  nonzero (upd l i v) = nonzero l + if x =? 0 then 1 else 0.
Proof.
  intros E Hv. pose proof (idx_Some_range _ _ _ E) as Hr. unfold idx in E. rewrite (proj2 (Z.leb_le 0 i)) in E by lia.
  assert (∀ y, nonzero (take (Z.to_nat i) l ++ y :: drop (S (Z.to_nat i)) l) =
    nonzero (take (Z.to_nat i) l) + nonzero (drop (S (Z.to_nat i)) l) + if y =? 0 then 1 - 1 else 1) as Hmid.
  { intros y. unfold nonzero. rewrite filter_app, filter_cons, len_app. destruct (Z.eqb_spec y 0).
    - rewrite decide_False by tauto. lia.
    - rewrite decide_True by done. rewrite len_cons. lia. }
  unfold upd. rewrite insert_take_drop by (unfold len in Hr; lia). rewrite Hmid.
  rewrite <-(take_drop_middle l _ _ E) at 3. rewrite Hmid. rewrite (proj2 (Z.eqb_neq v 0)) by done.
  destruct (x =? 0); lia.
Qed.

(** Counting from zero, the entries that are not zero are the servers. *)
Lemma nonzero_counted n l : 0 <= n → Forall (in_ids (replicate (Z.to_nat n) 0)) l →
  nonzero (counted (replicate (Z.to_nat n) 0) l) = servers_in l.
Proof.
  set (ids := replicate (Z.to_nat n) 0). intros Hn.
  assert (∀ s, 0 <= s < len ids → idx ids s = Some 0) as Hz.
  { intros s Hs. apply idx_replicate. unfold ids in Hs. by rewrite len_replicate in Hs. }
  induction l as [|a l IH]; intros Hl; cbn [counted servers_in].
  { unfold nonzero, ids. generalize (Z.to_nat n) as k. induction k as [|k IHk]; simpl; [done|].
    rewrite filter_cons, decide_False by tauto. exact IHk. }
  apply Forall_cons in Hl as [Ha Hl]. pose proof (occ_range (subid a) l).
  assert (counted (upd ids (subid a) (default 0 (idx ids (subid a)) + 1)) l =
    upd (counted ids l) (subid a) (occ (subid a) l + 1)) as ->.
  { apply idx_ext. intros s. rewrite idx_counted by by apply in_ids_upd.
    rewrite !idx_upd, idx_counted by (rewrite ?len_counted_ids; done). rewrite (Hz (subid a)) by done. simpl.
    case_decide as E; [simpl; f_equal; subst; lia|done]. }
  rewrite (nonzero_upd _ _ _ (occ (subid a) l)); [|by rewrite idx_counted, Hz|lia].
  by rewrite IH.
Qed.

(** ** The numbers in the packets *)

Lemma lor_halves k n : 0 <= k < 65536 → 0 <= n < 65536 → Z.lor k (u32 (Z.shiftl n 16)) = k + n * 65536.
Proof.
  intros Hk Hn. rewrite Z.shiftl_mul_pow2 by lia. change (2 ^ 16) with 65536. rewrite u32_small by lia.
  pose proof (Z.add_lor_land k (n * 65536)) as E. enough (Z.land k (n * 65536) = 0) by lia.
  apply Z.bits_inj'. intros b Hb. rewrite Z.land_spec, Z.bits_0. change 65536 with (2 ^ 16).
  destruct (decide (b < 16)).
  - by rewrite Z.mul_pow2_bits_low, andb_false_r by lia.
  - replace k with (k mod 2 ^ 16) by (apply Z.mod_small; lia). by rewrite Z.mod_pow2_bits_high by lia.
Qed.
Lemma numbered_last_halves k n : 0 <= k < 65536 → 0 <= n < 65536 →
  numbered_last (Z.lor k (u32 (Z.shiftl n 16))) = (k =? n).
Proof.
  intros Hk Hn. rewrite lor_halves by done. unfold numbered_last.
  rewrite Z_mod_plus_full, Z_div_plus_full, Z.mod_small, Z.div_small by lia. done.
Qed.
Lemma u16_halves k n : 0 <= k < 65536 → 0 <= n < 65536 → u16 (Z.lor k (u32 (Z.shiftl n 16))) = k.
Proof. intros Hk Hn. rewrite lor_halves by done. unfold u16. change (2 ^ 16) with 65536. rewrite Z_mod_plus_full. by apply Z.mod_small. Qed.

(** The packets of [batch_write] for the addresses from index [i] on, with the
    counts [ids] before them. *)
Fixpoint write_pkts (ids : list Z) (i : Z) (l : list ip6_memaddr) (payload : list Z) (chunk port : Z) : list pkt_rqst :=
  match l with
  | [] => []
  | a :: l =>
      let k := default 0 (idx ids (subid a)) in
      PktRqst (set_cmd WRITE_BULK_CMD (set_args (k + 1) a)) port (slice payload (chunk * i) chunk) chunk ::
      write_pkts (upd ids (subid a) (k + 1)) (i + 1) l payload chunk port
  end.
Fixpoint read_pkts (i : Z) (l : list ip6_memaddr) (buffer chunk port : Z) : list pkt_rqst :=
  match l with
  | [] => []
  | a :: l =>
      PktRqst (set_args chunk (set_cmd READ_BULK_CMD a)) port (le 8 (u64 (buffer + i * chunk))) POINTER_SIZE ::
      read_pkts (i + 1) l buffer chunk port
  end.

Section Batches.
Context `{Config} `{!Calloc} {W : Type} `{!ClientNet W}.
Implicit Types (c : client W).
Abbreviation port_of c := (sin6_port (c_target c)).

(** The [n] addresses of the array from index [i] on. *)
Definition addrs_at (arr : list ip6_memaddr) (i : Z) (l : list ip6_memaddr) : Prop :=
  ∀ j a, l !! j = Some a → idx arr (i + Z.of_nat j) = Some a.
Lemma addrs_at_cons arr i a l : addrs_at arr i (a :: l) → idx arr i = Some a ∧ addrs_at arr (i + 1) l.
Proof.
  intros Ha. split; [specialize (Ha 0%nat a eq_refl); by rewrite Z.add_0_r in Ha|].
  intros j b E. specialize (Ha (S j) b E). by replace (i + 1 + Z.of_nat j) with (i + Z.of_nat (S j)) by lia.
Qed.
(** Room to count [l] in 32 bits. *)
Definition countable (ids : list Z) (l : list ip6_memaddr) : Prop :=
  Forall (in_ids ids) l ∧ ∀ s x, idx ids s = Some x → 0 <= x ∧ x + len l < 65536.
Lemma countable_next ids a l : countable ids (a :: l) → ∃ x, idx ids (subid a) = Some x ∧
  0 <= x ∧ x + 1 + len l < 65536 ∧ countable (upd ids (subid a) (x + 1)) l.
Proof.
  intros [Hl Hx]. apply Forall_cons in Hl as [Ha Hl]. destruct (idx_is_Some _ _ Ha) as [x E].
  rewrite len_cons in Hx. pose proof (Hx _ _ E). exists x. split_and!; [done|lia|lia|].
  split; [by apply in_ids_upd|]. intros s y. rewrite idx_upd by done. case_decide.
  - intros [= <-]. lia.
  - intros Ey. specialize (Hx _ _ Ey). lia.
Qed.

Lemma wp_count_sub_id c a x Q : idx (c_sub_ids c) (subid a) = Some x → 0 <= x < 65535 →
  Q x (put_sub_ids (upd (c_sub_ids c) (subid a) (x + 1)) c) → wp (count_sub_id a) c Q.
Proof.
  intros E Hx HQ. unfold count_sub_id. rewrite wp_bind. eapply wp_aload; [exact E|]. rewrite wp_bind.
  apply wp_astore; [by eapply idx_Some_range|]. rewrite wp_ret. by rewrite u32_small by lia.
Qed.
Lemma wp_batch_write_pkts l : ∀ n i arr payload chunk c Q,
  n = length l → addrs_at arr i l → countable (c_sub_ids c) l →
  Q (write_pkts (c_sub_ids c) i l payload chunk (port_of c)) (put_sub_ids (counted (c_sub_ids c) l) c) →
  wp (batch_write_pkts n i arr payload chunk) c Q.
Proof.
  induction l as [|a l IH]; intros n i arr payload chunk c Q -> Ha Hc HQ; cbn [batch_write_pkts length].
  { rewrite wp_ret. by destruct c. }
  apply addrs_at_cons in Ha as [Ha Har]. apply countable_next in Hc as (x & E & Hx & Hb & Hc). pose proof (len_nonneg l).
  rewrite wp_bind. eapply wp_aload; [exact Ha|]. rewrite wp_bind, wp_gets, wp_bind.
  eapply wp_count_sub_id; [exact E|lia|]. rewrite wp_bind. eapply IH; [done|done|done|].
  rewrite wp_ret. cbn [c_sub_ids c_target put_sub_ids]. rewrite u32_small by lia.
  cbn [write_pkts counted] in HQ. rewrite E in HQ. exact HQ.
Qed.
Lemma wp_batch_read_pkts l : ∀ n i arr buffer chunk c Q,
  n = length l → addrs_at arr i l → countable (c_sub_ids c) l → 0 <= i → 0 <= chunk → (i + len l) * chunk < 2 ^ 32 →
  Q (read_pkts i l buffer chunk (port_of c)) (put_sub_ids (counted (c_sub_ids c) l) c) →
  wp (batch_read_pkts n i arr buffer chunk) c Q.
Proof.
  induction l as [|a l IH]; intros n i arr buffer chunk c Q -> Ha Hc Hi Hch H32 HQ; cbn [batch_read_pkts length].
  { rewrite wp_ret. by destruct c. }
  apply addrs_at_cons in Ha as [Ha Har]. apply countable_next in Hc as (x & E & Hx & Hb & Hc). pose proof (len_nonneg l).
  rewrite wp_bind. eapply wp_aload; [exact Ha|]. rewrite wp_bind, wp_gets, wp_bind.
  eapply wp_count_sub_id; [exact E|lia|]. rewrite wp_bind. rewrite len_cons in H32.
  eapply IH; [done|done|done|lia|done|lia|]. rewrite wp_ret, u32_small by nia. cbn [counted] in HQ. rewrite E in HQ. exact HQ.
Qed.
End Batches.

(** ** What the servers do with the packets *)

Definition put_store (m : Z → Z → option Z) (ad : ip6_memaddr * list Z) : Z → Z → option Z := λ i x,
  if decide (i = subid ad.1 ∧ paddr ad.1 <= x < paddr ad.1 + len ad.2) then idx ad.2 (x - paddr ad.1) else m i x.
Definition stores : (Z → Z → option Z) → list (ip6_memaddr * list Z) → Z → Z → option Z := foldl put_store.
Fixpoint chunked (i : Z) (l : list ip6_memaddr) (payload : list Z) (chunk : Z) : list (ip6_memaddr * list Z) :=
  match l with
  | [] => []
  | a :: l => (a, slice payload (chunk * i) chunk) :: chunked (i + 1) l payload chunk
  end.

Lemma stores_ext l : ∀ m m', (∀ i x, m i x = m' i x) → ∀ i x, foldl put_store m l i x = foldl put_store m' l i x.
Proof.
  induction l as [|ad l IH]; intros m m' Hm; simpl; [done|]. apply IH. intros i x. unfold put_store. by rewrite Hm.
Qed.

Section Effects.
Context `{Config} `{!Calloc}.
Variables (server : Z → option sockaddr_in6) (me : ip6_memaddr) (T : list Z) (chunk port : Z).
Hypothesis HT : ∀ s, 0 <= default 0 (idx T s) < 65536.
Hypothesis Hchunk : 0 <= chunk <= MAX_PAYLOAD.
Implicit Types (v : view) (l : list ip6_memaddr).
Definition mem_fn v : Z → Z → option Z := λ i x, (v i).1 !! x.

(** An address with [chunk] bytes of live memory at a server of this port. *)
Record reachable v (a : ip6_memaddr) : Prop := {
  rc_addr : addr_ok a;
  rc_server : ∃ srv, server (subid a) = Some srv ∧ port = sin6_port srv;
  rc_mapped : mapped (v (subid a)).1 (paddr a) chunk;
}.
Lemma reachable_mono v v' l : (∀ i x, is_Some ((v i).1 !! x) → is_Some ((v' i).1 !! x)) →
  Forall (reachable v) l → Forall (reachable v') l.
Proof.
  intros Hm Hl. apply (Forall_impl _ _ _ Hl). intros a [Ha Hs Hx]. split; [done|done|]. intros x Hr. by apply Hm, Hx.
Qed.

Lemma chunk_u16 : chunk < 65536.
Proof. pose proof offs. unfold MAX_PAYLOAD in Hchunk. lia. Qed.

(** *** Writes *)

Section Writes.
Variables (payload : list Z).
Hypothesis Hbytes : Forall byte_ok payload.
Definition payload_ok (i n : Z) : Prop := 0 <= i ∧ chunk * (i + n) <= len payload.

Lemma chunk_slice i n : payload_ok i (n + 1) → 0 <= n → len (slice payload (chunk * i) chunk) = chunk ∧
  Forall byte_ok (slice payload (chunk * i) chunk) ∧ payload_ok (i + 1) n.
Proof.
  intros [Hi Hn] Hn0. assert (chunk * (i + 1) <= len payload) by nia.
  split_and!; [apply len_slice; nia|by apply slice_bytes|split; [lia|]]. by replace (i + 1 + n) with (i + (n + 1)) by lia.
Qed.

Definition write_pkt (k : Z) (a : ip6_memaddr) (i : Z) : pkt_rqst :=
  PktRqst (set_cmd WRITE_BULK_CMD (set_args (k + 1) a)) port (slice payload (chunk * i) chunk) chunk.
Lemma spec_write v k a i : len (slice payload (chunk * i) chunk) = chunk → 0 <= k < 65535 →
  req_spec me v (in_batch T (write_pkt k a i)) =
    (stored_at (v (subid a)).1 (paddr a) (slice payload (chunk * i) chunk), (v (subid a)).2,
     if k + 1 =? default 0 (idx T (subid a)) then Some (ret_addr me WRITE_BULK_CMD (paddr a), []) else None).
Proof.
  intros Hl Hk. unfold req_spec, spec. cbn [cmd dst_addr in_batch set_dst_args write_pkt set_cmd set_args subid data datalen paddr args].
  change (WRITE_BULK_CMD =? WRITE_CMD) with false. change (WRITE_BULK_CMD =? WRITE_BULK_CMD) with true. cbn iota.
  set (d := slice payload (chunk * i) chunk) in *.
  assert (slice d 0 chunk = d) as ->. { unfold slice. rewrite drop_0. apply take_ge. unfold len in Hl. lia. }
  unfold batch_args, write_pkt. cbn [dst_addr args subid set_cmd set_args]. rewrite numbered_last_halves; [done|lia|apply HT].
Qed.
Lemma write_deliverable v k a i : reachable v a → 0 <= k < 65535 →
  len (slice payload (chunk * i) chunk) = chunk → Forall byte_ok (slice payload (chunk * i) chunk) →
  deliverable server (in_batch T (write_pkt k a i)) ∧ valid_at v (in_batch T (write_pkt k a i)).
Proof.
  intros [Ha (srv & Hs & Hp) Hm] Hk Hl Hb. split; [split|].
  - by exists srv.
  - destruct Ha. split; cbn [in_batch set_dst_args write_pkt dst_addr set_args set_cmd subid cmd args paddr];
      [done|unfold WRITE_BULK_CMD; lia| |done].
    apply lor_u32; [simpl; lia|]. unfold u32. apply Z.mod_pos_bound. lia.
  - exact Hl.
  - cbn. lia.
  - exact Hb.
  - unfold valid_at, valid_request. cbn [cmd dst_addr in_batch set_dst_args write_pkt set_cmd set_args subid data datalen paddr].
    change (WRITE_BULK_CMD =? WRITE_BULK_CMD) with true. rewrite orb_true_r. split; [lia|done].
Qed.
Lemma write_steps v v1 k a i : len (slice payload (chunk * i) chunk) = chunk → 0 <= k < 65535 →
  steps me v (in_batch T (write_pkt k a i)) v1 →
  (∀ j x, mem_fn v1 j x = put_store (mem_fn v) (a, slice payload (chunk * i) chunk) j x) ∧ (∀ j, (v1 j).2 = (v j).2) ∧
  (∀ j x, is_Some ((v j).1 !! x) → is_Some ((v1 j).1 !! x)).
Proof.
  intros Hl Hk [Hm Hb Ho]. rewrite spec_write in Hb by done.
  assert (∀ x, (v1 (subid a)).1 !! x = stored_at (v (subid a)).1 (paddr a) (slice payload (chunk * i) chunk) x) as Hm'.
  { intros x. specialize (Hm x). by rewrite spec_write in Hm. }
  cbn [dst_addr in_batch set_dst_args write_pkt set_cmd set_args subid] in Ho, Hb.
  assert (∀ j x, mem_fn v1 j x = put_store (mem_fn v) (a, slice payload (chunk * i) chunk) j x) as Hall.
  { intros j x. unfold mem_fn, put_store. cbn [fst snd]. destruct (decide (j = subid a)) as [->|Hne].
    - rewrite Hm'. unfold stored_at. repeat case_decide; try done; tauto.
    - rewrite decide_False by tauto. by rewrite Ho. }
  split_and!; [done| |].
  - intros j. destruct (decide (j = subid a)) as [->|Hne]; [done|by rewrite Ho].
  - intros j x Hx. change (is_Some (mem_fn v1 j x)). rewrite Hall. unfold put_store. cbn [fst snd].
    case_decide; [|done]. apply idx_is_Some. lia.
Qed.

Lemma write_admissible l : ∀ ids i v, Forall (reachable v) l → countable ids l → payload_ok i (len l) →
  admissible server me v (in_batch T <$> write_pkts ids i l payload chunk port).
Proof.
  induction l as [|a l IH]; intros ids i v Hl Hc Hp; [done|]. apply Forall_cons in Hl as [Ha Hl].
  apply countable_next in Hc as (k & E & Hk & Hkb & Hc). rewrite len_cons in Hp. pose proof (len_nonneg l).
  apply chunk_slice in Hp as (Hd & Hb & Hp); [|done]. cbn [write_pkts]. rewrite E. change (default 0 (Some k)) with k.
  fold (write_pkt k a i). rewrite fmap_cons.
  destruct (write_deliverable v k a i Ha ltac:(lia) Hd Hb). split_and!; [done|done|]. intros v1 Hst.
  apply write_steps in Hst as (_ & _ & Hmono); [|done|lia]. apply IH; [by eapply reachable_mono|done|done].
Qed.
Lemma write_served l : ∀ ids i v v2 q, Forall (reachable v) l → countable ids l → payload_ok i (len l) →
  (∀ a, a ∈ l → default 0 (idx T (subid a)) = default 0 (idx ids (subid a)) + occ (subid a) l) →
  served server me v (in_batch T <$> write_pkts ids i l payload chunk port) v2 q →
  (∀ j x, mem_fn v2 j x = stores (mem_fn v) (chunked i l payload chunk) j x) ∧ (∀ j, (v2 j).2 = (v j).2) ∧
  len q = servers_in l ∧ Forall (λ r, ∃ i, server i = Some (rp_from r)) q.
Proof.
  induction l as [|a l IH]; intros ids i v v2 q Hl Hc Hp HTl Hserved; cbn [write_pkts] in Hserved.
  { inversion Hserved; subst. done. }
  apply Forall_cons in Hl as [Ha Hl]. pose proof Hc as [Hids _]. apply Forall_cons in Hids as [Hida Hids].
  apply countable_next in Hc as (k & E & Hk & Hkb & Hc). rewrite len_cons in Hp. pose proof (len_nonneg l).
  apply chunk_slice in Hp as (Hd & Hb & Hp); [|done]. rewrite E in Hserved. change (default 0 (Some k)) with k in Hserved.
  fold (write_pkt k a i) in Hserved. rewrite fmap_cons in Hserved. inversion Hserved as [|? ? v1 ? ? q' Hst Hrest]; subst.
  apply write_steps in Hst as (Hm & Hbl & Hmono); [|done|lia].
  destruct (IH _ _ v1 v2 q' (reachable_mono _ _ _ Hmono Hl) Hc Hp) as (Hm2 & Hbl2 & Hq & Hfrom); [|exact Hrest|].
  { intros b Hbl'. rewrite HTl by by right. rewrite occ_cons, idx_upd by done.
    case_decide as Es; [|done]. rewrite <-Es, E. simpl. lia. }
  assert (replies server me v (in_batch T (write_pkt k a i)) =
    if occ (subid a) l =? 0 then [MkReply (default (MkSock a 0) (server (subid a))) (ret_addr me WRITE_BULK_CMD (paddr a)) []] else []) as Hr.
  { unfold replies. rewrite spec_write by (done || lia). cbn [snd dst_addr in_batch set_dst_args write_pkt set_cmd set_args subid].
    destruct (rc_server _ _ Ha) as (srv & -> & _). specialize (HTl a ltac:(left)). rewrite E in HTl. change (default 0 (Some k)) with k in HTl.
    rewrite occ_cons, decide_True in HTl by done. rewrite HTl.
    destruct (Z.eqb_spec (occ (subid a) l) 0), (Z.eqb_spec (k + 1) (k + (1 + occ (subid a) l))); try lia; done. }
  split_and!.
  - intros j x. rewrite Hm2. cbn [chunked]. unfold stores. cbn [foldl]. apply stores_ext. exact Hm.
  - intros j. by rewrite Hbl2.
  - rewrite Hr, len_app, Hq. cbn [servers_in]. destruct (_ =? 0); unfold len; simpl; lia.
  - rewrite Hr. apply Forall_app. split; [|done]. destruct (_ =? 0); [|done]. constructor; [|done].
    destruct (rc_server _ _ Ha) as (srv & Es & _). exists (subid a). by rewrite Es.
Qed.
Lemma write_pkts_ok l : ∀ ids i v, 0 <= port < 65536 → Forall (reachable v) l → countable ids l →
  payload_ok i (len l) →
  Forall pkt_ok (write_pkts ids i l payload chunk port) ∧
  Forall (λ p, in_ids ids (dst_addr p)) (write_pkts ids i l payload chunk port) ∧
  len (write_pkts ids i l payload chunk port) = len l.
Proof.
  induction l as [|a l IH]; intros ids i v Hport Hl Hc Hp; [done|]. apply Forall_cons in Hl as [[Ha _ _] Hl].
  apply countable_next in Hc as (k & E & Hk & Hkb & Hc). rewrite len_cons in *. pose proof (len_nonneg l).
  apply chunk_slice in Hp as (Hd & Hb & Hp); [|done]. cbn [write_pkts]. rewrite E. change (default 0 (Some k)) with k.
  destruct (IH _ _ v Hport Hl Hc Hp) as (J1 & J2 & J3). split_and!.
  - constructor; [|done]. split; cbn [dst_addr dst_port data datalen]; [|done|done|apply Hchunk|done].
    destruct Ha. split; cbn [set_cmd set_args subid cmd args paddr]; [done|done|lia|done].
  - constructor; [by eapply idx_Some_range|]. apply (Forall_impl _ _ _ J2). intros p. unfold in_ids. by rewrite len_upd.
  - by rewrite len_cons, J3.
Qed.
End Writes.

(** *** Reads *)

Section Reads.
Variables (buffer : Z).
Definition read_pkt (a : ip6_memaddr) (i : Z) : pkt_rqst :=
  PktRqst (set_args chunk (set_cmd READ_BULK_CMD a)) port (le 8 (u64 (buffer + i * chunk))) POINTER_SIZE.
Definition read_data v l : list Z := concat ((λ a, rd_bytes (v (subid a)).1 (paddr a) chunk) <$> l).
Fixpoint read_replies v (i : Z) l : list reply_pkt :=
  match l with
  | [] => []
  | a :: l =>
      MkReply (default (MkSock a 0) (server (subid a))) (ret_addr me READ_BULK_CMD (u64 (buffer + i * chunk)))
        (rd_bytes (v (subid a)).1 (paddr a) chunk) :: read_replies v (i + 1) l
  end.

Lemma spec_read v a i :
  req_spec me v (in_batch T (read_pkt a i)) =
    (λ x, (v (subid a)).1 !! x, (v (subid a)).2,
     Some (ret_addr me READ_BULK_CMD (u64 (buffer + i * chunk)), rd_bytes (v (subid a)).1 (paddr a) chunk)).
Proof.
  pose proof chunk_u16. unfold req_spec, spec.
  cbn [cmd dst_addr in_batch set_dst_args read_pkt set_cmd set_args subid data datalen paddr args].
  change (READ_BULK_CMD =? WRITE_CMD) with false. change (READ_BULK_CMD =? WRITE_BULK_CMD) with false.
  change (READ_BULK_CMD =? READ_CMD) with false. change (READ_BULK_CMD =? READ_BULK_CMD) with true. cbn iota.
  unfold batch_args, read_pkt. cbn [dst_addr args subid set_cmd set_args].
  rewrite u16_halves by (lia || apply HT). rewrite u64_of_le by apply u64_range. done.
Qed.
Lemma read_deliverable v a i : reachable v a →
  deliverable server (in_batch T (read_pkt a i)) ∧ valid_at v (in_batch T (read_pkt a i)).
Proof.
  intros [Ha (srv & Hs & Hp) Hm]. pose proof chunk_u16. split; [split|].
  - by exists srv.
  - destruct Ha. split; cbn [in_batch set_dst_args read_pkt dst_addr set_args set_cmd subid cmd args paddr];
      [done|unfold READ_BULK_CMD; lia| |done].
    apply lor_u32; [simpl; lia|]. unfold u32. apply Z.mod_pos_bound. lia.
  - done.
  - done.
  - apply le_bytes.
  - unfold valid_at, valid_request.
    cbn [cmd dst_addr in_batch set_dst_args read_pkt set_cmd set_args subid data datalen paddr args].
    change ((READ_BULK_CMD =? WRITE_CMD) || (READ_BULK_CMD =? WRITE_BULK_CMD)) with false.
    change (READ_BULK_CMD =? READ_CMD) with false. change (READ_BULK_CMD =? READ_BULK_CMD) with true. cbn iota.
    unfold batch_args, read_pkt. cbn [dst_addr args subid set_cmd set_args].
    rewrite u16_halves by (lia || apply HT). split; [done|]. split; [lia|done].
Qed.
Lemma read_steps v v1 a i : steps me v (in_batch T (read_pkt a i)) v1 → ∀ j, v1 j = v j.
Proof.
  intros [Hm Hb Ho] j. destruct (decide (j = subid a)) as [->|Hne]; [|by apply Ho].
  rewrite spec_read in Hb. cbn in Hb. destruct (v1 (subid a)) as [m1 b1] eqn:E1, (v (subid a)) as [m b] eqn:E.
  simpl in Hb. subst b1. f_equal. apply map_eq. intros x. specialize (Hm x). rewrite spec_read in Hm.
  cbn [dst_addr in_batch set_dst_args read_pkt set_cmd set_args subid fst snd] in Hm. by rewrite E, E1 in Hm.
Qed.
Lemma read_admissible l : ∀ i v, Forall (reachable v) l →
  admissible server me v (in_batch T <$> read_pkts i l buffer chunk port).
Proof.
  induction l as [|a l IH]; intros i v Hl; [done|]. apply Forall_cons in Hl as [Ha Hl].
  cbn [read_pkts]. fold (read_pkt a i). rewrite fmap_cons. destruct (read_deliverable v a i Ha).
  split_and!; [done|done|]. intros v1 Hst. pose proof (read_steps _ _ _ _ Hst) as Hv. apply IH.
  eapply reachable_mono; [|done]. intros j x. by rewrite Hv.
Qed.
Lemma read_served l : ∀ i v v0 v2 q, Forall (reachable v) l → (∀ j, v0 j = v j) →
  served server me v0 (in_batch T <$> read_pkts i l buffer chunk port) v2 q →
  (∀ j, v2 j = v j) ∧ q = read_replies v i l.
Proof.
  induction l as [|a l IH]; intros i v v0 v2 q Hl Hv0 Hs; cbn [read_pkts] in Hs.
  { inversion Hs; subst. done. }
  apply Forall_cons in Hl as [Ha Hl]. fold (read_pkt a i) in Hs. rewrite fmap_cons in Hs.
  inversion Hs as [|? ? v1 ? ? q' Hst Hrest]; subst. pose proof (read_steps _ _ _ _ Hst) as Hv.
  destruct (IH (i + 1) v v1 v2 q') as [Hv2 ->]; [done|intros j; by rewrite Hv|done|]. split; [done|].
  cbn [read_replies]. unfold replies. rewrite spec_read. cbn [snd dst_addr in_batch set_dst_args read_pkt set_cmd set_args subid].
  destruct (rc_server _ _ Ha) as (srv & -> & _). by rewrite Hv0.
Qed.

Lemma len_read_data v l : len (read_data v l) = chunk * len l.
Proof.
  induction l as [|a l IH]; [unfold len; simpl; lia|]. unfold read_data in *. rewrite fmap_cons. cbn [concat].
  rewrite len_app, len_cons, IH. unfold rd_bytes, len at 1. rewrite length_fmap, length_seq. lia.
Qed.
(** The answers fill the buffer from [buffer] on. *)
Lemma store_replies v l : ∀ i p, 0 <= base p → base p <= buffer + i * chunk → base p + len (bytes p) < 2 ^ 64 →
  buffer + (i + len l) * chunk <= base p + len (bytes p) →
  Forall (fits_pool p) (read_replies v i l) ∧
  foldl store_reply p (read_replies v i l) =
    MkPool (base p) (splice (bytes p) (buffer + i * chunk - base p) (read_data v l)).
Proof.
  induction l as [|a l IH]; intros i p Hb Hlo Htop Hhi.
  { split; [constructor|]. simpl. unfold read_data. simpl. destruct p as [b bs]. simpl in *. f_equal. unfold splice.
    change (len []) with 0. by rewrite Z.add_0_r, app_nil_l, take_drop. }
  rewrite len_cons in Hhi. pose proof (len_nonneg l). cbn [read_replies foldl].
  assert (0 <= len l * chunk) by nia. assert (u64 (buffer + i * chunk) = buffer + i * chunk) as Hu.
  { apply u64_small. lia. }
  set (d := rd_bytes (v (subid a)).1 (paddr a) chunk). assert (len d = chunk) as Hd.
  { unfold d, rd_bytes, len. rewrite length_fmap, length_seq. lia. }
  set (r := MkReply _ _ d).
  assert (store_reply p r = MkPool (base p) (splice (bytes p) (buffer + i * chunk - base p) d)) as Hst.
  { unfold store_reply, r. cbn [rp_addr rp_data]. unfold ret_addr. cbn [paddr set_paddr]. by rewrite Hu. }
  assert (len (splice (bytes p) (buffer + i * chunk - base p) d) = len (bytes p)) as Hls.
  { apply len_splice; [lia|]. rewrite Hd. lia. }
  rewrite Hst.
  destruct (IH (i + 1) (MkPool (base p) (splice (bytes p) (buffer + i * chunk - base p) d))) as [Hf Hq];
    cbn [base bytes]; rewrite ?Hls; [lia|lia|lia|lia|]. split.
  - constructor.
    + unfold fits_pool, r. cbn [rp_addr rp_data]. unfold ret_addr. cbn [paddr set_paddr]. rewrite Hu, Hd. lia.
    + apply (Forall_impl _ _ _ Hf). intros x [J1 J2]. unfold fits_pool in *. cbn [base bytes] in *. by rewrite Hls in J2.
  - rewrite Hq. cbn [base bytes]. f_equal. unfold read_data. rewrite fmap_cons. cbn [concat]. fold d.
    replace (buffer + (i + 1) * chunk - base p) with (buffer + i * chunk - base p + len d) by lia.
    apply splice_splice; [lia|]. fold (read_data v l). rewrite len_read_data, Hd. lia.
Qed.
Lemma read_pkts_ok l ids : ∀ i v, 0 <= port < 65536 → Forall (reachable v) l → Forall (in_ids ids) l →
  Forall pkt_ok (read_pkts i l buffer chunk port) ∧
  Forall (λ p, in_ids ids (dst_addr p)) (read_pkts i l buffer chunk port) ∧
  len (read_pkts i l buffer chunk port) = len l.
Proof.
  induction l as [|a l IH]; intros i v Hport Hl Hc; [done|]. apply Forall_cons in Hl as [[Ha _ _] Hl].
  apply Forall_cons in Hc as [Hc Hcs]. pose proof chunk_u16. cbn [read_pkts].
  destruct (IH (i + 1) v Hport Hl Hcs) as (J1 & J2 & J3). split_and!.
  - constructor; [|done]. split; cbn [dst_addr dst_port data datalen]; [|done|done|done|apply le_bytes].
    destruct Ha. split; cbn [set_cmd set_args subid cmd args paddr]; [done|done|lia|done].
  - by constructor.
  - by rewrite !len_cons, J3.
Qed.
End Reads.
End Effects.

(** ** The batched functions *)

Section Calls.
Context `{Config} `{!Calloc} {W : Type} `{!ClientNet W} `{!RemoteHosts W} `{!BulkHosts W}.
Implicit Types (c : client W).
Abbreviation port_of c := (sin6_port (c_target c)).
Definition ports_known c : Prop := ∀ i a, rh_server i = Some a → sin6_port a = port_of c.

(** The acknowledgements are as many as the counts that are not zero. *)
Lemma wp_await_acks n : ∀ i c q Q,
  rh_queue (c_net c) q → ports_known c → Forall (λ r, ∃ i, rh_server i = Some (rp_from r)) q →
  0 <= i → i + Z.of_nat n = len (c_sub_ids c) → nonzero (drop (Z.to_nat i) (c_sub_ids c)) = len q →
  (∀ c', client_inv c' → view_of (c_net c') = view_of (c_net c) → hostList c' = hostList c → nhosts c' = nhosts c →
     Q tt c') →
  wp (await_acks n i) c Q.
Proof.
  induction n as [|n IH]; intros i c q Q Hq Hport Hfrom Hi Hn Hnz HQ; cbn [await_acks].
  - rewrite drop_ge in Hnz by (unfold len in Hn; lia). change (nonzero []) with 0 in Hnz.
    destruct q as [|r q]; [|pose proof (len_nonneg q); rewrite len_cons in Hnz; lia].
    rewrite wp_ret. apply HQ; try done. split; [by apply (rh_queue_nil W)|done].
  - destruct (idx_is_Some (c_sub_ids c) i) as [k Ek]; [lia|]. rewrite wp_bind. eapply wp_aload; [exact Ek|].
    assert (drop (Z.to_nat i) (c_sub_ids c) = k :: drop (Z.to_nat (i + 1)) (c_sub_ids c)) as Ed.
    { unfold idx in Ek. rewrite (proj2 (Z.leb_le 0 i)) in Ek by lia. rewrite (drop_S _ _ _ Ek). do 2 f_equal. lia. }
    rewrite Ed in Hnz. unfold nonzero in Hnz. rewrite filter_cons in Hnz. rewrite wp_bind.
    destruct (Z.eqb_spec k 0) as [->|Hk]; cbn [negb].
    + rewrite decide_False in Hnz by tauto. rewrite wp_ret. apply (IH (i + 1) c q); try done; lia.
    + rewrite decide_True, len_cons in Hnz by done.
      destruct q as [|[srv ret rd] q]; [pose proof (len_nonneg (filter (λ x, x ≠ 0) (drop (Z.to_nat (i + 1)) (c_sub_ids c)))); change (len (@nil reply_pkt)) with 0 in Hnz; lia|].
      apply Forall_cons in Hfrom as [[j Hj] Hfrom]. cbn [rp_from] in Hj. rewrite len_cons in Hnz.
      unfold rcv. rewrite wp_bind, wp_bind, wp_zoom. eapply rh_next; [exact Hq|done|].
      intros w' r Hq' Hv Ht _ _ _. rewrite wp_bind, wp_modify, wp_ret, wp_ret. cbn [put_net put_ctarget].
      apply (IH (i + 1) _ q); simpl; try done; [|lia|lia| |].
      * intros j' a' Hj'. simpl. rewrite Ht, (Hport _ _ Hj), (Hport _ _ Hj'). done.
      * unfold nonzero. lia.
      * rewrite Hv. exact HQ.
Qed.

(** An address of the array, with [chunk] bytes of live memory. *)
Definition usable c (chunk : Z) (a : ip6_memaddr) : Prop :=
  addr_in (subid a) a ∧ subid a < USHRT_MAX ∧ mapped (rh_mem (c_net c) (subid a)) (paddr a) chunk.
Definition zero_ids : list Z := replicate (Z.to_nat USHRT_MAX) 0.
Lemma usable_reachable c chunk l : client_inv c → Forall (usable c chunk) l → l ≠ [] →
  0 <= port_of c < 65536 ∧ Forall (reachable rh_server chunk (port_of c) (view_of (c_net c))) l.
Proof.
  intros Hc Hl Hne. split.
  - destruct l as [|a l]; [done|]. apply Forall_cons in Hl as [((_ & _ & srv & Hs) & _) _].
    rewrite <-(ci_port _ Hc _ _ Hs). by eapply (rh_port W).
  - apply (Forall_impl _ _ _ Hl). intros a ((Ha & _ & srv & Hs) & _ & Hm). split; [done| |done].
    exists srv. split; [done|]. symmetry. by eapply (ci_port _ Hc).
Qed.
Lemma usable_countable c chunk l : Forall (usable c chunk) l → len l <= C_RING_FRAMES → countable zero_ids l.
Proof.
  intros Hl Hlen. split.
  - apply (Forall_impl _ _ _ Hl). intros a ((Ha & _) & Hu & _). unfold in_ids, zero_ids. rewrite len_replicate by done.
    destruct Ha. lia.
  - intros s x E. apply idx_Some_range in E as Hr. unfold zero_ids in *. rewrite len_replicate in Hr by done.
    rewrite idx_replicate in E by done. injection E as <-. unfold C_RING_FRAMES in *. lia.
Qed.
(** What the counts are after the addresses. *)
Lemma idx_counted_zero l s : Forall (in_ids zero_ids) l →
  default 0 (idx (counted zero_ids l) s) = if decide (0 <= s < USHRT_MAX) then occ s l else 0.
Proof.
  intros Hl. rewrite idx_counted by done. unfold zero_ids. case_decide.
  - by rewrite idx_replicate.
  - by rewrite idx_None by (by rewrite len_replicate).
Qed.
Lemma counted_zero_range l s : Forall (in_ids zero_ids) l → len l <= C_RING_FRAMES →
  0 <= default 0 (idx (counted zero_ids l) s) < 65536.
Proof.
  intros Hl Hlen. rewrite idx_counted_zero by done. pose proof (occ_range s l). unfold C_RING_FRAMES in *. case_decide; lia.
Qed.

(** [batch_write] stores every chunk at its address, and has all the
    acknowledgements when it returns. *)
Lemma wp_batch_write c arr l payload chunk n Q :
  client_inv c → n = len l → addrs_at arr 0 l → len l <= C_RING_FRAMES → 0 <= chunk <= MAX_PAYLOAD →
  Forall (usable c chunk) l → chunk * len l <= len payload → Forall byte_ok payload →
  (∀ c', client_inv c' →
     (∀ i x, rh_mem (c_net c') i !! x = stores (λ i x, rh_mem (c_net c) i !! x) (chunked 0 l payload chunk) i x) →
     (∀ i, rh_blocks (c_net c') i = rh_blocks (c_net c) i) → hostList c' = hostList c → nhosts c' = nhosts c → Q tt c') →
  wp (batch_write arr payload chunk n) c Q.
Proof.
  intros Hc -> Ha Hlen Hchunk Hl Hpay Hb HQ. pose proof (usable_countable _ _ _ Hl Hlen) as Hcount.
  unfold batch_write, clear_sub_ids. rewrite wp_bind, wp_modify, wp_bind. fold zero_ids.
  eapply (wp_batch_write_pkts l); [unfold len; lia|done|done|]. cbn [c_sub_ids put_sub_ids c_target].
  rewrite wp_bind, wp_gets, wp_bind, wp_zoom. cbn [c_sub_ids put_sub_ids c_net].
  set (T := counted zero_ids l). pose proof Hcount as [Hin _].
  assert (∀ s, 0 <= default 0 (idx T s) < 65536) as HT by (intros s; by apply counted_zero_range).
  assert (payload_ok chunk payload 0 (len l)) as Hp by (split; lia).
  set (pkts := write_pkts zero_ids 0 l payload chunk (port_of c)).
  assert (Forall pkt_ok pkts ∧ Forall (λ p, in_ids zero_ids (dst_addr p)) pkts ∧ len pkts = len l ∧
    admissible rh_server rh_me (view_of (c_net c)) (in_batch T <$> pkts)) as (Hok & Hpin & Hpl & Had).
  { destruct (decide (l = [])) as [->|Hne]; [by split_and!; constructor|].
    destruct (usable_reachable _ _ _ Hc Hl Hne) as [Hport Hr].
    destruct (write_pkts_ok rh_server chunk (port_of c) Hchunk payload Hb l zero_ids 0 _ Hport Hr Hcount Hp) as (J1 & J2 & J3).
    split_and!; [done..|]. by apply write_admissible. }
  eapply (rh_batch W); [apply Hc|by rewrite Hpl|done| |exact Had|].
  { apply (Forall_impl _ _ _ Hpin). intros p. unfold in_ids, T. by rewrite len_counted_ids. }
  intros w' q Hq Hserved.
  assert ((∀ j x, mem_fn (view_of w') j x = stores (mem_fn (view_of (c_net c))) (chunked 0 l payload chunk) j x) ∧
    (∀ j, (view_of w' j).2 = (view_of (c_net c) j).2) ∧ len q = servers_in l ∧
    Forall (λ r, ∃ i, rh_server i = Some (rp_from r)) q) as (Hm & Hbl & Hlq & Hfrom).
  { destruct (decide (l = [])) as [->|Hne].
    { inversion Hserved as [? E1 E2 E3 E4|]. subst q. by split_and!. }
    destruct (usable_reachable _ _ _ Hc Hl Hne) as [_ Hr].
    eapply write_served; [exact HT|done|done|exact Hr|exact Hcount|exact Hp| |exact Hserved].
    intros a Hal. unfold T. rewrite idx_counted_zero by done. pose proof (proj1 (Forall_forall _ _) Hin a Hal) as Hia.
    unfold in_ids, zero_ids in Hia. rewrite len_replicate in Hia by done. rewrite decide_True by done.
    unfold zero_ids. by rewrite idx_replicate. }
  eapply (wp_await_acks _ 0 _ q); [exact Hq| |exact Hfrom|done| | |].
  - intros i a Hi. by eapply (ci_port _ Hc).
  - cbn [c_sub_ids put_net put_sub_ids]. unfold T. rewrite len_counted_ids. unfold zero_ids. by rewrite len_replicate.
  - cbn [c_sub_ids put_net put_sub_ids]. change (Z.to_nat 0) with 0%nat. rewrite drop_0, Hlq.
    unfold T, zero_ids. by apply nonzero_counted.
  - intros c' Hc' Hv Hh Hn. apply HQ; [done| | |done|done].
    + intros i x. change (mem_fn (view_of (c_net c')) i x = stores (mem_fn (view_of (c_net c))) (chunked 0 l payload chunk) i x).
      by rewrite Hv.
    + intros i. change ((view_of (c_net c') i).2 = (view_of (c_net c) i).2). by rewrite Hv.
Qed.

(** [batch_read] fills the buffer with what is at the addresses. *)
Lemma wp_batch_read c arr l buffer p chunk n Q :
  client_inv c → n = len l → addrs_at arr 0 l → len l <= C_RING_FRAMES → 0 <= chunk <= MAX_PAYLOAD →
  Forall (usable c chunk) l → 0 <= base p <= buffer → base p + len (bytes p) < 2 ^ 64 →
  buffer + len l * chunk <= base p + len (bytes p) →
  (∀ c', client_inv c' → (∀ i, view_of (c_net c') i = view_of (c_net c) i) → hostList c' = hostList c → nhosts c' = nhosts c →
     Q (MkPool (base p) (splice (bytes p) (buffer - base p) (read_data chunk (view_of (c_net c)) l))) c') →
  wp (batch_read arr buffer p chunk n) c Q.
Proof.
  intros Hc -> Ha Hlen Hchunk Hl Hbase Htop Hfit HQ. pose proof (usable_countable _ _ _ Hl Hlen) as Hcount.
  unfold batch_read, clear_sub_ids. rewrite wp_bind, wp_modify, wp_bind. fold zero_ids.
  eapply (wp_batch_read_pkts l); [unfold len; lia|done|done|lia|lia| |].
  { pose proof (chunk_u16 chunk Hchunk). unfold C_RING_FRAMES in *. pose proof (len_nonneg l). nia. }
  cbn [c_sub_ids put_sub_ids c_target].
  rewrite wp_bind, wp_gets, wp_bind, wp_zoom. cbn [c_sub_ids put_sub_ids c_net].
  set (T := counted zero_ids l). pose proof Hcount as [Hin _].
  assert (∀ s, 0 <= default 0 (idx T s) < 65536) as HT by (intros s; by apply counted_zero_range).
  set (pkts := read_pkts 0 l buffer chunk (port_of c)).
  assert (Forall pkt_ok pkts ∧ Forall (λ p, in_ids zero_ids (dst_addr p)) pkts ∧ len pkts = len l ∧
    admissible rh_server rh_me (view_of (c_net c)) (in_batch T <$> pkts)) as (Hok & Hpin & Hpl & Had).
  { destruct (decide (l = [])) as [->|Hne]; [by split_and!; constructor|].
    destruct (usable_reachable _ _ _ Hc Hl Hne) as [Hport Hr].
    destruct (read_pkts_ok rh_server chunk (port_of c) Hchunk buffer l zero_ids 0 _ Hport Hr Hin) as (J1 & J2 & J3).
    split_and!; [done..|]. by apply read_admissible. }
  eapply (rh_batch W); [apply Hc|by rewrite Hpl|done| |exact Had|].
  { apply (Forall_impl _ _ _ Hpin). intros q. unfold in_ids, T. by rewrite len_counted_ids. }
  intros w' q Hq Hserved. rewrite wp_zoom. cbn [c_net put_net].
  assert ((∀ j, view_of w' j = view_of (c_net c) j) ∧ q = read_replies rh_server rh_me chunk buffer (view_of (c_net c)) 0 l)
    as [Hv Eq].
  { destruct (decide (l = [])) as [->|Hne]; [by inversion Hserved|].
    destruct (usable_reachable _ _ _ Hc Hl Hne) as [_ Hr].
    eapply (read_served rh_server rh_me T chunk (port_of c) HT Hchunk buffer l 0); [exact Hr|done|exact Hserved]. }
  destruct (store_replies rh_server rh_me chunk Hchunk buffer (view_of (c_net c)) l 0 p) as [Hf Hst]; [lia|lia|lia|lia|].
  rewrite <-Eq in Hf, Hst. assert (len l = len q) as ->.
  { rewrite Eq. clear. generalize 0 as i. induction l as [|a l IH]; intros i; [done|]. cbn [read_replies]. rewrite !len_cons. by rewrite <-(IH (i + 1)). }
  eapply (rh_store_all W); [exact Hq|done|]. intros w2 Hw2 Hv2. rewrite Hst, Z.mul_0_l, Z.add_0_r.
  apply HQ; try done; [by destruct Hc|]. intros i. cbn [c_net put_net]. by rewrite Hv2.
Qed.

(** *** Whole blocks *)

Hypothesis Hbs : BLOCK_SIZE <= MAX_PAYLOAD.
Abbreviation BS := BLOCK_SIZE.
Lemma block_u16 : u16 BS = BS /\ 0 <= BS <= MAX_PAYLOAD.
Proof. pose proof BLOCK_SIZE_pos. pose proof offs. unfold MAX_PAYLOAD in *. split; [apply u16_small|]; lia. Qed.

Lemma addrs_at_drop arr i l : 0 <= i → addrs_at arr i l → addrs_at (drop (Z.to_nat i) arr) 0 l.
Proof. intros Hi Ha j a E. rewrite idx_drop by lia. rewrite Z.add_0_l. by apply Ha. Qed.
Lemma addrs_at_self l : addrs_at l 0 l.
Proof. intros j a E. rewrite Z.add_0_l. unfold idx. rewrite (proj2 (Z.leb_le 0 _)) by lia. by rewrite Nat2Z.id. Qed.
Lemma addrs_at_app arr i l1 l2 : addrs_at arr i (l1 ++ l2) → addrs_at arr i l1 ∧ addrs_at arr (i + len l1) l2.
Proof.
  intros Ha. split.
  - intros j a E. apply Ha. by rewrite lookup_app, E.
  - intros j a E. replace (i + len l1 + Z.of_nat j) with (i + Z.of_nat (length l1 + j)) by (unfold len; lia).
    apply Ha. rewrite lookup_app_r by lia. rewrite <-E. f_equal. lia.
Qed.
Lemma chunked_app l1 : ∀ i l2 payload chunk,
  chunked i (l1 ++ l2) payload chunk = chunked i l1 payload chunk ++ chunked (i + len l1) l2 payload chunk.
Proof.
  induction l1 as [|a l1 IH]; intros i l2 payload chunk; simpl; [by rewrite Z.add_0_r|].
  rewrite IH, len_cons. do 3 f_equal. lia.
Qed.
Lemma chunked_drop l : ∀ i k payload chunk, 0 <= k → 0 <= i → 0 <= chunk →
  chunked i l (drop (Z.to_nat (chunk * k)) payload) chunk = chunked (k + i) l payload chunk.
Proof.
  induction l as [|a l IH]; intros i k payload chunk Hk Hi Hc; simpl; [done|]. rewrite IH by lia.
  f_equal; [|f_equal; lia]. f_equal. unfold slice. rewrite drop_drop. do 2 f_equal. nia.
Qed.
Lemma stores_app m l1 l2 i x : stores m (l1 ++ l2) i x = stores (stores m l1) l2 i x.
Proof. unfold stores. by rewrite foldl_app. Qed.
Lemma stores_mapped l : ∀ m i x, is_Some (m i x) → is_Some (stores m l i x).
Proof.
  induction l as [|ad l IH]; intros m i x Hm; [done|]. apply (IH (put_store m ad)). unfold put_store.
  case_decide; [|done]. apply idx_is_Some. lia.
Qed.
(** The state after the stores of a batch. *)
Record stored c c' (ads : list (ip6_memaddr * list Z)) : Prop := {
  sd_client : client_inv c';
  sd_mem i x : rh_mem (c_net c') i !! x = stores (λ i x, rh_mem (c_net c) i !! x) ads i x;
  sd_blocks i : rh_blocks (c_net c') i = rh_blocks (c_net c) i;
  sd_hosts : hostList c' = hostList c;
  sd_nhosts : nhosts c' = nhosts c;
}.
Lemma stored_usable c c' ads chunk l : stored c c' ads → Forall (usable c chunk) l → Forall (usable c' chunk) l.
Proof.
  intros Hs Hl. apply (Forall_impl _ _ _ Hl). intros a (Ha & Hu & Hm). split_and!; [done|done|].
  intros x Hx. rewrite (sd_mem _ _ _ Hs). apply stores_mapped. by apply Hm.
Qed.
Lemma stored_trans c c1 c2 l1 l2 : stored c c1 l1 → stored c1 c2 l2 → stored c c2 (l1 ++ l2).
Proof.
  intros [C1 M1 B1 H1 N1] [C2 M2 B2 H2 N2]. split; [done| |congruence|congruence|congruence].
  intros i x. rewrite M2, stores_app. apply stores_ext. exact M1.
Qed.
Lemma stored_nil c : client_inv c → stored c c [].
Proof. by split. Qed.

Lemma wp_batch_write_at c arr l k payload n Q :
  client_inv c → n = len l → 0 <= k → addrs_at arr k l → len l <= C_RING_FRAMES → Forall (usable c BS) l →
  BS * (k + len l) <= len payload → Forall byte_ok payload →
  (∀ c', stored c c' (chunked k l payload BS) → Q tt c') →
  wp (batch_write (drop (Z.to_nat k) arr) (drop (Z.to_nat (BS * k)) payload) (u16 BS) n) c Q.
Proof.
  intros Hc Hn Hk Ha Hlen Hl Hpay Hb HQ. destruct block_u16 as [-> HBS]. pose proof (len_nonneg l).
  eapply (wp_batch_write c _ l); [done|done|by apply addrs_at_drop|done|done|done| |by apply Forall_drop|].
  { rewrite len_drop by nia. lia. }
  intros c' Hc' Hm Hbl Hh Hnh. rewrite chunked_drop in Hm by lia. rewrite Z.add_0_r in Hm. apply HQ. by split.
Qed.
Lemma wp_write_batches n : ∀ i c arr l payload Q,
  client_inv c → 0 <= i → len l = Z.of_nat n * BATCH_SIZE → addrs_at arr (i * BATCH_SIZE) l → Forall (usable c BS) l →
  BS * (i * BATCH_SIZE + len l) <= len payload → Forall byte_ok payload →
  (∀ c', stored c c' (chunked (i * BATCH_SIZE) l payload BS) → Q tt c') →
  wp (write_batches n i arr payload) c Q.
Proof.
  induction n as [|n IH]; intros i c arr l payload Q Hc Hi Hlen Ha Hl Hpay Hb HQ; cbn [write_batches].
  { destruct l as [|a l]; [|rewrite len_cons in Hlen; pose proof (len_nonneg l); lia]. rewrite wp_ret. by apply HQ, stored_nil. }
  rewrite <-(take_drop (Z.to_nat BATCH_SIZE) l) in Ha, Hl. set (l1 := take _ l) in *. set (l2 := drop _ l) in *.
  assert (len l1 = BATCH_SIZE ∧ len l2 = Z.of_nat n * BATCH_SIZE ∧ l = l1 ++ l2) as (L1 & L2 & El).
  { unfold l1, l2, BATCH_SIZE in *. rewrite len_take, len_drop, take_drop by lia. split_and!; [done|lia|done]. }
  apply addrs_at_app in Ha as [Ha1 Ha2]. apply Forall_app in Hl as [Hl1 Hl2]. rewrite L1 in Ha2.
  pose proof BLOCK_SIZE_pos. rewrite wp_bind.
  replace (BS * i * BATCH_SIZE) with (BS * (i * BATCH_SIZE)) by lia. unfold BATCH_SIZE in *.
  eapply (wp_batch_write_at c arr l1); [done|done|lia|done|rewrite L1; done|done|nia|done|].
  intros c1 Hs1. eapply (IH (i + 1) c1 arr l2); [apply Hs1|lia|done| |by eapply stored_usable| |done|].
  - by replace ((i + 1) * 40) with (i * 40 + 40) by lia.
  - rewrite El, len_app in Hpay. lia.
  - intros c2 Hs2. apply HQ. rewrite El, chunked_app, L1.
    replace (i * 40 + 40) with ((i + 1) * 40) by lia. by eapply stored_trans.
Qed.

Lemma wp_batch_read_at c arr l k p n Q :
  client_inv c → n = len l → 0 <= k → addrs_at arr k l → len l <= C_RING_FRAMES → Forall (usable c BS) l →
  0 <= base p → base p + len (bytes p) < 2 ^ 64 → BS * (k + len l) <= len (bytes p) →
  (∀ c', client_inv c' → (∀ i, view_of (c_net c') i = view_of (c_net c) i) → hostList c' = hostList c → nhosts c' = nhosts c →
     Q (MkPool (base p) (splice (bytes p) (BS * k) (read_data BS (view_of (c_net c)) l))) c') →
  wp (batch_read (drop (Z.to_nat k) arr) (base p + BS * k) p (u16 BS) n) c Q.
Proof.
  intros Hc Hn Hk Ha Hlen Hl Hb Htop Hfit HQ. destruct block_u16 as [-> HBS]. pose proof (len_nonneg l).
  assert (0 <= BS * k) by nia.
  eapply (wp_batch_read c _ l); [done|done|by apply addrs_at_drop|done|done|done|lia|lia|lia|].
  replace (base p + BS * k - base p) with (BS * k) by lia. exact HQ.
Qed.
Lemma same_view_usable c c' chunk l : (∀ i, view_of (c_net c') i = view_of (c_net c) i) →
  Forall (usable c chunk) l → Forall (usable c' chunk) l.
Proof.
  intros Hv Hl. apply (Forall_impl _ _ _ Hl). intros a (Ha & Hu & Hm). split_and!; [done|done|].
  intros x Hx. specialize (Hv (subid a)). unfold view_of in Hv. injection Hv as -> _. by apply Hm.
Qed.
Lemma read_data_view v v' chunk l : (∀ i, v' i = v i) → read_data chunk v' l = read_data chunk v l.
Proof. intros Hv. unfold read_data. f_equal. apply list_fmap_ext. intros i a _. by rewrite Hv. Qed.
Lemma read_data_app v chunk l1 l2 : read_data chunk v (l1 ++ l2) = read_data chunk v l1 ++ read_data chunk v l2.
Proof. unfold read_data. by rewrite fmap_app, concat_app. Qed.

Lemma wp_read_batches n : ∀ i c arr l p Q,
  client_inv c → 0 <= i → len l = Z.of_nat n * BATCH_SIZE → addrs_at arr (i * BATCH_SIZE) l → Forall (usable c BS) l →
  0 <= base p → base p + len (bytes p) < 2 ^ 64 → BS * (i * BATCH_SIZE + len l) <= len (bytes p) → len (bytes p) < 2 ^ 32 →
  (∀ c', client_inv c' → (∀ j, view_of (c_net c') j = view_of (c_net c) j) → hostList c' = hostList c → nhosts c' = nhosts c →
     Q (MkPool (base p) (splice (bytes p) (BS * (i * BATCH_SIZE)) (read_data BS (view_of (c_net c)) l))) c') →
  wp (read_batches n i arr p) c Q.
Proof.
  induction n as [|n IH]; intros i c arr l p Q Hc Hi Hlen Ha Hl Hb Htop Hfit H32 HQ; cbn [read_batches].
  { destruct l as [|a l]; [|rewrite len_cons in Hlen; pose proof (len_nonneg l); lia]. rewrite wp_ret.
    replace p with (MkPool (base p) (splice (bytes p) (BS * (i * BATCH_SIZE)) (read_data BS (view_of (c_net c)) []))).
    { by apply HQ. }
    destruct p as [b bs]. unfold read_data, splice. cbn [fmap list_fmap concat base bytes]. change (len (@nil Z)) with 0.
    by rewrite Z.add_0_r, app_nil_l, take_drop. }
  rewrite <-(take_drop (Z.to_nat BATCH_SIZE) l) in Ha, Hl. set (l1 := take _ l) in *. set (l2 := drop _ l) in *.
  assert (len l1 = BATCH_SIZE ∧ len l2 = Z.of_nat n * BATCH_SIZE ∧ l = l1 ++ l2) as (L1 & L2 & El).
  { unfold l1, l2, BATCH_SIZE in *. rewrite len_take, len_drop, take_drop by lia. split_and!; [done|lia|done]. }
  apply addrs_at_app in Ha as [Ha1 Ha2]. apply Forall_app in Hl as [Hl1 Hl2]. rewrite L1 in Ha2.
  pose proof BLOCK_SIZE_pos. rewrite wp_bind.
  replace (BS * i * BATCH_SIZE) with (BS * (i * BATCH_SIZE)) by lia. unfold BATCH_SIZE in *.
  assert (0 <= BS * (i * 40) ∧ BS * (i * 40) + BS * 40 <= len (bytes p) ∧ i * 40 <= BS * (i * 40)) as (J1 & J2 & J3) by nia.
  rewrite !u32_small by lia.
  eapply (wp_batch_read_at c arr l1); [done|done|lia|done|rewrite L1; done|done|done|done|nia|].
  intros c1 Hc1 Hv1 Hh1 Hn1. destruct block_u16 as [_ HBS].
  pose proof (len_read_data BS HBS (view_of (c_net c)) l1) as Hd1. rewrite L1 in Hd1.
  assert (len (splice (bytes p) (BS * (i * 40)) (read_data BS (view_of (c_net c)) l1)) = len (bytes p)) as Hls.
  { apply len_splice; lia. }
  eapply (IH (i + 1) c1 arr l2); cbn [base bytes]; rewrite ?Hls;
    [done|lia|done| |by eapply same_view_usable|done|done| |done|].
  - by replace ((i + 1) * 40) with (i * 40 + 40) by lia.
  - rewrite El, len_app in Hfit. lia.
  - intros c2 Hc2 Hv2 Hh2 Hn2. rewrite (read_data_view (view_of (c_net c)) _ BS l2 Hv1).
    replace (BS * ((i + 1) * 40)) with (BS * (i * 40) + len (read_data BS (view_of (c_net c)) l1)) by lia.
    rewrite splice_splice; [|lia|].
    + rewrite <-read_data_app, <-El. apply HQ; [done| |congruence|congruence]. intros j. by rewrite Hv2, Hv1.
    + rewrite !(len_read_data BS HBS), L1, L2. rewrite El, len_app, L1, L2 in Hfit. lia.
Qed.

(** *** The bulk functions, for a number of whole blocks *)

(** The array with other commands and arguments in some addresses. *)
Record alike (arr arr' : list ip6_memaddr) : Prop := {
  al_len : len arr' = len arr;
  al_idx i b : idx arr' i = Some b → ∃ a, idx arr i = Some a ∧ subid b = subid a ∧ paddr b = paddr a ∧ (addr_ok a → addr_ok b);
}.
Lemma alike_refl arr : alike arr arr.
Proof. split; [done|]. intros i b E. by exists b. Qed.
Lemma alike_upd arr i a b : idx arr i = Some a → subid b = subid a → paddr b = paddr a → (addr_ok a → addr_ok b) →
  alike arr (upd arr i b).
Proof.
  intros E Hs Hp Ha. pose proof (idx_Some_range _ _ _ E). split; [apply len_upd|]. intros j x.
  rewrite idx_upd by done. case_decide as Ej; [|intros Ex; by exists x]. intros [= <-]. subst j. by exists a.
Qed.

Lemma alike_rows l l' : alike l l' → Forall2 (λ a b, subid b = subid a ∧ paddr b = paddr a ∧ (addr_ok a → addr_ok b)) l l'.
Proof.
  intros [Al Ai]. apply Forall2_same_length_lookup. split; [unfold len in Al; lia|]. intros i a b Ea Eb.
  destruct (Ai (Z.of_nat i) b) as (a' & Ea' & ?).
  { unfold idx. rewrite (proj2 (Z.leb_le 0 _)) by lia. by rewrite Nat2Z.id. }
  unfold idx in Ea'. rewrite (proj2 (Z.leb_le 0 _)) in Ea' by lia. rewrite Nat2Z.id in Ea'. by simplify_eq.
Qed.
Lemma alike_usable c chunk l l' : alike l l' → Forall (usable c chunk) l → Forall (usable c chunk) l'.
Proof.
  intros Hal Hl. pose proof (alike_rows _ _ Hal) as Hr. rewrite Forall_forall in Hl.
  apply Forall_forall. intros b [j Eb]%list_elem_of_lookup. destruct (Forall2_lookup_r _ _ _ _ _ Hr Eb) as (a & Ea & Es & Ep & Hok).
  destruct (Hl a) as ((Ha & _ & Hsrv) & Hu & Hm); [by apply list_elem_of_lookup_2 in Ea|].
  unfold usable. rewrite Es, Ep. split_and!; [|done|done]. split_and!; [by apply Hok|by rewrite Es|done].
Qed.

Lemma stored_one c c' a payload : len payload = BS → client_inv c' →
  (∀ x, rh_mem (c_net c') (subid a) !! x = stored_at (rh_mem (c_net c) (subid a)) (paddr a) payload x) →
  rh_blocks (c_net c') (subid a) = rh_blocks (c_net c) (subid a) → others_same (subid a) c c' →
  hostList c' = hostList c → nhosts c' = nhosts c → stored c c' (chunked 0 [a] payload BS).
Proof.
  intros Hpay Hc' Hmem Hbl Ho Hh Hnh.
  assert (slice payload (BS * 0) BS = payload) as Esl.
  { rewrite Z.mul_0_r. unfold slice. rewrite drop_0. apply take_ge. unfold len in Hpay. lia. }
  split; [done| | |done|done].
  - intros i x. cbn [chunked]. rewrite Esl. unfold stores, put_store. cbn [foldl fst snd].
    destruct (decide (i = subid a)) as [->|Hne].
    + rewrite Hmem. unfold stored_at. repeat case_decide; try done; tauto.
    + rewrite decide_False by tauto. by destruct (Ho i Hne) as [-> _].
  - intros i. destruct (decide (i = subid a)) as [->|Hne]; [done|by destruct (Ho i Hne)].
Qed.
Lemma whole_blocks n : 0 <= n → BS * n / BS = n ∧ (BS * n) mod BS = 0.
Proof. pose proof BLOCK_SIZE_pos. intros Hn. rewrite Z.mul_comm, Z_div_mult_full, Z_mod_mult by lia. done. Qed.
Lemma split_batches (l : list ip6_memaddr) : ∃ l1 l2, l = l1 ++ l2 ∧ len l1 = len l / BATCH_SIZE * BATCH_SIZE ∧ len l2 = len l mod BATCH_SIZE.
Proof.
  pose proof (len_nonneg l). pose proof (Z.div_mod (len l) BATCH_SIZE ltac:(done)).
  pose proof (Z.mod_pos_bound (len l) BATCH_SIZE ltac:(done)).
  assert (0 <= len l / BATCH_SIZE) by (apply Z.div_pos; [lia|done]). unfold BATCH_SIZE in *.
  exists (take (Z.to_nat (len l / 40 * 40)) l), (drop (Z.to_nat (len l / 40 * 40)) l).
  rewrite take_drop, len_take, len_drop by lia. split_and!; lia || done.
Qed.

Lemma wp_write_bulk_rmem c arr l num payload Q :
  client_inv c → addrs_at arr 0 l → 0 < len l <= num → Forall (usable c BS) l →
  len payload = BS * len l → Forall byte_ok payload →
  (∀ arr' c', alike arr arr' → stored c c' (chunked 0 l payload BS) → Q (arr', 0) c') →
  wp (write_bulk_rmem arr num payload (BS * len l)) c Q.
Proof.
  intros Hc Ha Hl Hus Hpay Hb HQ. destruct block_u16 as [Hu HBS]. destruct (whole_blocks (len l)) as [Hdiv Hmod]; [lia|].
  unfold write_bulk_rmem. destruct (Z.leb_spec (BS * len l) BS) as [Hle|Hgt].
  - pose proof BLOCK_SIZE_pos. assert (len l = 1) as L1 by nia.
    destruct l as [|a [|b l]]; [done| |rewrite !len_cons in L1; pose proof (len_nonneg l); lia].
    apply addrs_at_cons in Ha as [Ea _]. apply Forall_cons in Hus as [(Hin & _ & Hm) _].
    rewrite L1, Z.mul_1_r in *. rewrite Hu, wp_bind. eapply wp_aload; [exact Ea|]. rewrite wp_bind.
    eapply (wp_write_rmem c (subid a)); [done|done|done|lia|done|done|].
    intros c' Hc' Hmem Hbl Ho Hh Hnh. rewrite wp_ret. apply HQ.
    { apply (alike_upd _ _ a); try done. intros []. by split. }
    by apply stored_one.
  - rewrite Hdiv, Hmod. rewrite (proj2 (Z.ltb_ge _ _)) by lia. destruct (split_batches l) as (l1 & l2 & El & L1 & L2).
    pose proof (Z.mod_pos_bound (len l) BATCH_SIZE ltac:(done)) as Hr. unfold BATCH_SIZE in Hr.
    assert (0 <= len l / BATCH_SIZE) as Hq by (apply Z.div_pos; [lia|done]).
    pose proof (Z.div_mod (len l) BATCH_SIZE ltac:(done)) as Hdm.
    rewrite (u16_small (len l mod BATCH_SIZE)) by (unfold BATCH_SIZE; lia).
    rewrite El in Ha, Hus. apply addrs_at_app in Ha as [Ha1 Ha2]. apply Forall_app in Hus as [Hus1 Hus2].
    assert (len l - len l mod BATCH_SIZE = len l1) as -> by lia. rewrite wp_bind.
    assert (len l = len l1 + len l2) as Hsum by (rewrite El; apply len_app). pose proof (len_nonneg l1). pose proof (len_nonneg l2).
    eapply (wp_write_batches _ 0 c arr l1); [done|done|rewrite Z2Nat.id by lia; done|done|done|nia|done|].
    intros c1 Hs1. rewrite wp_bind.
    eapply (wp_batch_write_at c1 arr l2 (len l1)); [apply Hs1|by rewrite L2|lia|done|unfold C_RING_FRAMES, BATCH_SIZE in *; lia|
      by eapply stored_usable|lia|done|].
    intros c2 Hs2. change (u16 0) with 0. cbn. apply HQ; [apply alike_refl|].
    rewrite El, chunked_app. by eapply stored_trans.
Qed.

Lemma wp_read_bulk_rmem c arr l num p Q :
  client_inv c → addrs_at arr 0 l → 0 < len l <= num → Forall (usable c BS) l →
  len (bytes p) = BS * len l → 0 <= base p → base p + len (bytes p) < 2 ^ 64 → len (bytes p) < 2 ^ 32 →
  (∀ arr' c', alike arr arr' → client_inv c' → (∀ i, view_of (c_net c') i = view_of (c_net c) i) →
     hostList c' = hostList c → nhosts c' = nhosts c →
     Q (arr', inr (MkPool (base p) (read_data BS (view_of (c_net c)) l))) c') →
  wp (read_bulk_rmem arr num p (BS * len l)) c Q.
Proof.
  intros Hc Ha Hl Hus Hpay Hb Htop H32 HQ. destruct block_u16 as [Hu HBS]. destruct (whole_blocks (len l)) as [Hdiv Hmod]; [lia|].
  unfold read_bulk_rmem. destruct (Z.leb_spec (BS * len l) BS) as [Hle|Hgt].
  - pose proof BLOCK_SIZE_pos. assert (len l = 1) as L1 by nia.
    destruct l as [|a [|b l]]; [done| |rewrite !len_cons in L1; pose proof (len_nonneg l); lia].
    apply addrs_at_cons in Ha as [Ea _]. apply Forall_cons in Hus as [(Hin & _ & Hm) _].
    rewrite L1, Z.mul_1_r in *. rewrite Hu, wp_bind. eapply wp_aload; [exact Ea|]. rewrite wp_bind.
    pose proof (u16_range BS) as Hur. rewrite Hu in Hur.
    eapply (wp_read_rmem c (subid a)); [done|done|lia|lia|lia|done|].
    intros c' buf Hc' Hmem Hbl Ho Hh Hnh Hll Htk _. rewrite wp_ret.
    assert (buf = read_data BS (view_of (c_net c)) [a]) as ->.
    { unfold read_data. cbn [fmap list_fmap concat]. rewrite app_nil_r. rewrite take_ge in Htk by (unfold len in *; lia). exact Htk. }
    apply HQ; [|done| |done|done].
    { apply (alike_upd _ _ a); try done. intros []. split; cbn [set_args set_cmd subid cmd args paddr]; [done|done|lia|done]. }
    intros i. unfold view_of. destruct (decide (i = subid a)) as [->|Hne]; [|by destruct (Ho i Hne) as [-> ->]].
    rewrite Hbl. f_equal. apply map_eq. exact Hmem.
  - rewrite Hdiv, Hmod. rewrite (proj2 (Z.ltb_ge _ _)) by lia. destruct (split_batches l) as (l1 & l2 & El & L1 & L2).
    pose proof (Z.mod_pos_bound (len l) BATCH_SIZE ltac:(done)) as Hr. unfold BATCH_SIZE in Hr.
    assert (0 <= len l / BATCH_SIZE) as Hq by (apply Z.div_pos; [lia|done]).
    pose proof (Z.div_mod (len l) BATCH_SIZE ltac:(done)) as Hdm. pose proof BLOCK_SIZE_pos.
    rewrite (u32_small (len l mod BATCH_SIZE)) by (unfold BATCH_SIZE; lia).
    rewrite (u32_small (len l / BATCH_SIZE)) by (unfold BATCH_SIZE in *; nia).
    rewrite El in Ha, Hus. apply addrs_at_app in Ha as [Ha1 Ha2]. apply Forall_app in Hus as [Hus1 Hus2].
    assert (len l - len l mod BATCH_SIZE = len l1) as -> by lia. rewrite wp_bind.
    assert (len l = len l1 + len l2) as Hsum by (rewrite El; apply len_app). pose proof (len_nonneg l1). pose proof (len_nonneg l2).
    eapply (wp_read_batches _ 0 c arr l1); [done|done|rewrite Z2Nat.id by lia; done|done|done|done|done|nia|done|].
    intros c1 Hc1 Hv1 Hh1 Hn1. rewrite wp_bind. rewrite Z.mul_0_l, Z.mul_0_r.
    pose proof (len_read_data BS HBS (view_of (c_net c)) l1) as Hd1.
    pose proof (len_read_data BS HBS (view_of (c_net c)) l2) as Hd2.
    set (p1 := MkPool _ _). assert (len (bytes p1) = len (bytes p)) as Hp1 by (apply len_splice; nia).
    change (base p) with (base p1).
    eapply (wp_batch_read_at c1 arr l2 (len l1) p1); rewrite ?Hp1; [done|by rewrite L2|lia|done|unfold C_RING_FRAMES, BATCH_SIZE in *; lia|
      by eapply same_view_usable|done|done|lia|].
    intros c2 Hc2 Hv2 Hh2 Hn2. change (negb (u16 0 =? 0)) with false. cbn iota.
    rewrite (read_data_view (view_of (c_net c)) _ BS l2 Hv1). unfold p1. cbn [base bytes].
    replace (BS * len l1) with (0 + len (read_data BS (view_of (c_net c)) l1)) by lia.
    rewrite splice_splice by nia. rewrite <-read_data_app, <-El.
    assert (splice (bytes p) 0 (read_data BS (view_of (c_net c)) l) = read_data BS (view_of (c_net c)) l) as ->.
    { unfold splice. change (Z.to_nat 0) with 0%nat. cbn [take app]. rewrite drop_ge, app_nil_r; [done|].
      pose proof (len_read_data BS HBS (view_of (c_net c)) l). unfold len in *. lia. }
    rewrite wp_ret. apply HQ; [apply alike_refl|done| |congruence|congruence]. intros i. by rewrite Hv2, Hv1.
Qed.
End Calls.
