(* ===== verification/TestBed.v ===== *)
(** * A concrete network, to evaluate the theorems on

    One client and two servers over [RingKernel]: an allocator that never
    reuses an address, transmit rings as [configure_tx] leaves them, empty
    receive rings. The witnesses of the network theorems run on [world0]. *)

From S2P Require Import Prelude Types Bytes Wire RawSend RawRecv Server ServerSpec Client Remote World.

(** ** An allocator *)

Definition top_of (bl : gmap Z Z) : Z := map_fold (λ a n t, Z.max t (a + n)) 4096 bl.
Lemma top_of_ok bl : 4096 <= top_of bl ∧ ∀ a n, bl !! a = Some n → a + n <= top_of bl.
Proof.
  unfold top_of. induction bl as [|a n bl Ha Hf IH] using map_first_key_ind.
  { rewrite map_fold_empty. split; [lia|]. intros a n E. by rewrite lookup_empty in E. }
  rewrite map_fold_insert_L by (auto; lia). destruct IH as [IH1 IH2]. split; [lia|].
  intros b m. destruct (decide (a = b)) as [<-|Hne].
  - rewrite lookup_insert_eq. intros [= <-]. lia.
  - rewrite lookup_insert_ne by done. intros E. specialize (IH2 b m E). lia.
Qed.
Program Definition bump_calloc : Calloc := {|
  calloc_addr bl n := if top_of bl + n <=? 2 ^ 64 then top_of bl else 0;
|}.
Next Obligation.
  intros bl n Hn. simpl. destruct (top_of_ok bl) as [Ht Hb].
  destruct (Z.leb_spec (top_of bl + n) (2 ^ 64)); [|by left]. right. split_and!; [lia|lia|].
  intros b m E. right. by apply Hb.
Qed.
#[export] Existing Instance bump_calloc.
#[export] Existing Instance RingKernel.ring_kernel.

(** Blocks of one byte, the size of types.h. *)
Program Definition types_h : Config := {| BLOCK_SIZE := 1 |}.
Next Obligation. done. Qed.

(** Blocks of a page. *)
Program Definition pages : Config := {| BLOCK_SIZE := 4096 |}.
Next Obligation. done. Qed.

(** ** Hosts *)

Definition src_port : Z := 34952.
Definition host (i : Z) : ip6_memaddr := Memaddr i 0 0 i.
Lemma host_ok i : 0 <= i < 2 ^ 16 → addr_ok (host i).
Proof. intros. split; simpl; lia. Qed.

Definition blank_tx : tx :=
  MkTx (replicate (Z.to_nat IP_MAXPACKET) 0) (replicate (Z.to_nat C_RING_FRAMES) (MkSlot 0 0 [])) 0 0
    (RingKernel.MkK 0 [] false) 0.
(** A thread that ran [configure_tx]. *)
Definition boot_tx (i : Z) : tx :=
  state_of blank_tx (configure_tx 1 (enc_addr (host i)) src_port (replicate 24 0) blank_tx).
Definition idle_rx : rx_ring := MkRx (replicate 8 (MkRslot TP_STATUS_KERNEL [])) 0 8 [].
Definition boot_server (i : Z) : server := MkServer ∅ ∅ (MkSock (host 0) 0) (boot_tx i).

Lemma blank_pending : pending (replicate (Z.to_nat C_RING_FRAMES) (MkSlot 0 0 [])) 0 [].
Proof.
  split_and!; [by vm_compute|done|done|done|]. intros i Hi. exists (MkSlot 0 0 []). split; [|rewrite idx_None; [done|unfold len; simpl; lia]].
  rewrite Z.add_0_l, Z.mod_small by done. unfold idx. rewrite (proj2 (Z.leb_le 0 i)) by lia.
  apply lookup_replicate. split; [done|]. unfold C_RING_FRAMES in *. lia.
Qed.
Lemma htons_src_port : htons (u16 (htons src_port + 0)) = src_port.
Proof. by vm_compute. Qed.
Lemma boot_tx_ok i : 0 <= i < 2 ^ 16 → tx_inv (enc_addr (host i)) src_port [] (boot_tx i).
Proof.
  intros Hi.
  assert (wp (configure_tx 1 (enc_addr (host i)) src_port (replicate 24 0)) blank_tx
    (λ _ t, tx_inv (enc_addr (host i)) src_port [] t)) as Hw.
  { apply wp_configure_tx; try done; try apply enc_addr_bytes; try by apply Forall_replicate.
    intros f Hf. change (thread_id_tx blank_tx) with 0 in Hf. rewrite htons_src_port in Hf.
    split; [exact Hf|exact blank_pending|done]. }
  by destruct (wp_state_of _ _ blank_tx _ Hw) as (? & _ & ?).
Qed.
Lemma boot_server_ok i : 0 <= i < 2 ^ 16 →
  srv_inv (enc_addr (host i)) src_port (boot_server i).
Proof.
  intros Hi. split; [|by apply boot_tx_ok|by apply host_ok|done]. split; simpl.
  - intros x. rewrite lookup_empty. split; [by intros [? ?]|]. intros (a & n & E & _).
    by rewrite lookup_empty in E.
  - intros a n E. by rewrite lookup_empty in E.
  - intros a n b m E. by rewrite lookup_empty in E.
  - intros x y E. by rewrite lookup_empty in E.
Qed.

(** ** The client, host 0, and the servers 1 and 2 *)

Definition servers0 : gmap Z sockaddr_in6 :=
  {[ 1 := MkSock (host 1) src_port; 2 := MkSock (host 2) src_port ]}.
Definition world0 : world :=
  MkWorld (boot_tx 0) idle_rx
    {[ 1 := (idle_rx, boot_server 1); 2 := (idle_rx, boot_server 2) ]}.

Lemma servers0_inv i a : servers0 !! i = Some a →
  (i = 1 ∨ i = 2) ∧ a = MkSock (host i) src_port.
Proof.
  unfold servers0. intros [[<- <-]|[_ [<- <-]%lookup_singleton_Some]]%lookup_insert_Some; auto.
Qed.
Lemma servers0_ok i a : servers0 !! i = Some a →
  subid (sin6_addr a) = i ∧ addr_ok (sin6_addr a) ∧ 0 <= sin6_port a < 65536.
Proof.
  intros [Hi ->]%servers0_inv. destruct Hi as [->| ->]; (split_and!; [done|by apply host_ok|done|done]).
Qed.
Lemma idle_rx_ok : rx_idle idle_rx.
Proof. split; [done|by vm_compute|done]. Qed.
Lemma world0_ok : world_inv (host 0) src_port servers0 world0.
Proof.
  split; [by apply boot_tx_ok|apply idle_rx_ok|].
  intros i a [Hi ->]%servers0_inv. destruct Hi as [->| ->]; eexists _, _;
    (split_and!; [reflexivity|apply idle_rx_ok|by apply boot_server_ok]).
Qed.

Lemma port0_ok : 0 <= src_port < 65536.
Proof. done. Qed.
Definition net0 `{Config} : ClientNet world := world_net (ports servers0).
Definition hosts0 `{Config} : @RemoteHosts _ _ world net0 :=
  world_hosts (host 0) src_port servers0 (host_ok 0 (conj (Z.le_refl 0) eq_refl)) port0_ok servers0_ok.
#[export] Existing Instance net0.
#[export] Existing Instance hosts0.

(** A client that has the two servers as its hosts and server [i] as its target. *)
Definition client0 (i : Z) : client world :=
  MkClient world0 (MkSock (host i) src_port) [host 1; host 2] 2 [].
Lemma client0_ok `{Config} i : client_inv (client0 i).
Proof. split; [exact world0_ok|]. by intros j a [_ ->]%servers0_inv. Qed.

Lemma two_hosts i a : idx [host 1; host 2] i = Some a → (i = 0 ∧ a = host 1) ∨ (i = 1 ∧ a = host 2).
Proof.
  intros E. pose proof (idx_Some_range _ _ _ E) as Hr. change (len _) with 2 in Hr.
  assert (i = 0 ∨ i = 1) as [->| ->] by lia; injection E as <-; auto.
Qed.

(** ** A server and a client with four bytes allocated at 4096 *)

Definition alloc4 : ip6_memaddr := Memaddr 1 ALLOC_BULK_CMD 0 0.
Definition server4 `{Config} : server :=
  state_of (boot_server 1) (process_request alloc4 (le 8 4) 8 (boot_server 1)).
Lemma server4_ok `{Config} :
  srv_inv (enc_addr (host 1)) src_port server4 ∧ mapped (memory server4) 4096 4.
Proof.
  assert (addr_ok alloc4) as Ha by (split; simpl; cmd_range).
  pose proof (wp_process_request (enc_addr (host 1)) src_port (boot_server 1) alloc4 (le 8 4) 8
    (boot_server_ok 1 (conj Z.le_0_1 eq_refl)) Ha (le_bytes _ _) ltac:(done)) as Hw.
  destruct (wp_state_of _ _ (boot_server 1) _ Hw) as (_ & _ & He). fold server4 in He.
  split; [apply He|]. intros x Hx. rewrite (ef_mem _ _ _ _ _ _ _ He).
  change (spec _ _ _ alloc4 _ _).1.1 with (λ x : Z,
    if decide (4096 ≠ 0 ∧ 4096 <= x < 4096 + 4) then Some 0 else memory (boot_server 1) !! x).
  cbv beta. rewrite decide_True by lia. eexists. reflexivity.
Qed.

Definition client4 `{Config} : client world :=
  state_of (client0 1) (allocate_bulk 4 (client0 1)).
Lemma client4_ok `{Config} : client_inv client4 ∧ mapped (rh_mem (c_net client4) 1) 4096 4.
Proof.
  assert (wp (allocate_bulk 4) (client0 1) (λ _ c, client_inv c ∧ mapped (rh_mem (c_net c) 1) 4096 4)) as Hw.
  { eapply (wp_allocate_bulk (client0 1) 1 (MkSock (host 1) src_port) 4);
      [apply client0_ok|reflexivity|reflexivity|apply host_ok; lia|lia|].
    intros c' ret Hc' Hm _ _ _ _ _ _ _ _. split; [done|]. intros x Hx. rewrite Hm.
    change (calloc_addr _ 4) with 4096. rewrite decide_True by lia. eexists. reflexivity. }
  by destruct (wp_state_of _ _ (client0 1) _ Hw) as (? & _ & ?).
Qed.
Lemma addr_in_1 `{Config} a : addr_ok a → subid a = 1 → addr_in 1 a.
Proof. intros Ha Hs. split_and!; [done|done|eexists; reflexivity]. Qed.
