(* ===== verification/Links.v ===== *)
(** * Doubly linked segments

    The three linked structures of src/ip6/lib/vmem/page_table.c (the recency
    list, the frequency list and the per-frequency lists) link their nodes the
    same way. This file holds what they share: the segment predicate [dseg],
    its lemmas, and the statement sequence that unlinks a node from its
    neighbours, with its specification. *)

From S2P Require Import Prelude.

(** A node type [N] with [next] and [prev] fields; [A] is the rest of the node. *)
Class LinkNode (A N : Type) := {
  mkn : A → ptr → ptr → N;
  nnext : N → ptr;
  nprev : N → ptr;
  set_next : ptr → N → N;
  set_prev : ptr → N → N;
  nnext_mkn a n p : nnext (mkn a n p) = n;
  nprev_mkn a n p : nprev (mkn a n p) = p;
  set_next_mkn a n p q : set_next q (mkn a n p) = mkn a q p;
  set_prev_mkn a n p q : set_prev q (mkn a n p) = mkn a n q;
}.

Section segments.
Context {A N : Type} `{LinkNode A N}.
Abbreviation cells := (list (loc * A)).
Implicit Types (h : gmap loc N) (l : cells) (pp nn : ptr).

Definition hd_ptr (l : cells) (nn : ptr) : ptr :=
  match l with [] => nn | x :: _ => Some x.1 end.
Definition last_ptr (l : cells) (pp : ptr) : ptr := foldl (λ _ x, Some x.1) pp l.

(** The nodes of [l], between the predecessor [pp] and the successor [nn]. *)
Fixpoint dseg (h : gmap loc N) (pp : ptr) (l : cells) (nn : ptr) : Prop :=
  match l with
  | [] => True
  | x :: l' => h !! x.1 = Some (mkn x.2 (hd_ptr l' nn) pp) ∧ dseg h (Some x.1) l' nn
  end.

Lemma hd_ptr_app l1 l2 nn : hd_ptr (l1 ++ l2) nn = hd_ptr l1 (hd_ptr l2 nn).
Proof. by destruct l1. Qed.
Lemma last_ptr_app l1 l2 pp : last_ptr (l1 ++ l2) pp = last_ptr l2 (last_ptr l1 pp).
Proof. apply foldl_app. Qed.

Lemma dseg_app h pp l1 l2 nn :
  dseg h pp (l1 ++ l2) nn ↔ dseg h pp l1 (hd_ptr l2 nn) ∧ dseg h (last_ptr l1 pp) l2 nn.
Proof.
  revert pp. induction l1 as [|x l1 IH]; intros pp; simpl; [tauto|].
  rewrite IH, hd_ptr_app. tauto.
Qed.

Lemma dseg_frame h h' pp l nn :
  (∀ p, p ∈ l.*1 → h' !! p = h !! p) → dseg h pp l nn → dseg h' pp l nn.
Proof.
  revert pp. induction l as [|x l IH]; intros pp Hf; simpl; [done|].
  intros [Hp Hl]. split.
  - rewrite Hf; [done|]. simpl. left.
  - apply IH; [|done]. intros q Hq. apply Hf. by right.
Qed.
Lemma dseg_insert_out h p n pp l nn :
  p ∉ l.*1 → dseg h pp l nn → dseg (<[p := n]> h) pp l nn.
Proof.
  intros Hp. apply dseg_frame. intros q Hq. apply lookup_insert_ne. by intros ->.
Qed.
Lemma dseg_delete_out h p pp l nn :
  p ∉ l.*1 → dseg h pp l nn → dseg (delete p h) pp l nn.
Proof.
  intros Hp. apply dseg_frame. intros q Hq. apply lookup_delete_ne. by intros ->.
Qed.

(** Redirecting the successor of the last node, the predecessor of the first. *)
Lemma dseg_set_next h pp l x nn nn' :
  NoDup (l ++ [x]).*1 →
  dseg h pp (l ++ [x]) nn →
  dseg (<[x.1 := mkn x.2 nn' (last_ptr l pp)]> h) pp (l ++ [x]) nn'.
Proof.
  intros Hnd. rewrite !dseg_app. intros [Hl _].
  rewrite fmap_app, NoDup_app in Hnd. destruct Hnd as (_ & Hd & _). split.
  - apply dseg_insert_out; [|done]. intros Hp. apply (Hd _ Hp). simpl. left.
  - simpl. by rewrite lookup_insert_eq.
Qed.
Lemma dseg_set_prev h pp pp' x l nn :
  x.1 ∉ l.*1 →
  dseg h pp (x :: l) nn →
  dseg (<[x.1 := mkn x.2 (hd_ptr l nn) pp']> h) pp' (x :: l) nn.
Proof.
  intros Hp [_ Hl]. split; [by rewrite lookup_insert_eq|]. by apply dseg_insert_out.
Qed.
Lemma dseg_change_prev h pp x l nn a n p :
  dseg h pp (x :: l) nn → h !! x.1 = Some (mkn a n p) →
  a = x.2 → n = hd_ptr l nn → dseg h p (x :: l) nn.
Proof. intros [_ ?] ? -> ->. done. Qed.

Lemma dseg_mid h pp l1 x l2 nn :
  dseg h pp (l1 ++ x :: l2) nn →
  h !! x.1 = Some (mkn x.2 (hd_ptr l2 nn) (last_ptr l1 pp)).
Proof. rewrite dseg_app. by intros [_ [? _]]. Qed.
Lemma dseg_lookup h pp l nn x :
  dseg h pp l nn → x ∈ l → ∃ n p, h !! x.1 = Some (mkn x.2 n p).
Proof.
  intros Hd (l1 & l2 & ->)%list_elem_of_split. apply dseg_mid in Hd. eauto.
Qed.
Lemma dseg_dom h pp l nn : dseg h pp l nn → list_to_set l.*1 ⊆ dom h.
Proof.
  intros Hd p Hp. rewrite elem_of_list_to_set in Hp.
  apply list_elem_of_fmap in Hp as (x & -> & Hx).
  eapply dseg_lookup in Hx as (? & ? & ?); [|done]. by eapply elem_of_dom_2.
Qed.

(** Changing the content of a node, not its links. *)
Lemma dseg_set_payload h pp l1 p a a' l2 nn :
  NoDup (l1 ++ (p, a) :: l2).*1 →
  dseg h pp (l1 ++ (p, a) :: l2) nn →
  dseg (<[p := mkn a' (hd_ptr l2 nn) (last_ptr l1 pp)]> h) pp (l1 ++ (p, a') :: l2) nn.
Proof.
  rewrite fmap_app, fmap_cons, NoDup_app, NoDup_cons.
  intros (_ & Hdis & Hp & _). rewrite !dseg_app. simpl. intros [Hl1 [_ Hl2]].
  rewrite lookup_insert_eq. split_and!; [|done|].
  - apply dseg_insert_out; [|done]. intros Hin. apply (Hdis _ Hin). left.
  - by apply dseg_insert_out.
Qed.

(** A new node in front of a segment. *)
Lemma dseg_cons_new h pp p a l nn n :
  p ∉ l.*1 → dseg h (Some p) l nn → n = hd_ptr l nn →
  dseg (<[p := mkn a n pp]> h) pp ((p, a) :: l) nn.
Proof.
  intros Hp Hl ->. simpl. rewrite lookup_insert_eq. split; [done|].
  by apply dseg_insert_out.
Qed.

(** The pieces of a heap that holds the nodes of [l1 ++ x :: l2]. *)
Lemma NoDup_mid_out (l1 : cells) x l2 :
  NoDup (l1 ++ x :: l2).*1 →
  (x.1 ∉ l1.*1) ∧ (x.1 ∉ l2.*1) ∧ (∀ p, p ∈ l2.*1 → p ∉ l1.*1) ∧ NoDup l2.*1.
Proof.
  rewrite fmap_app, fmap_cons, NoDup_app, NoDup_cons. intros (_ & Hd & Hx & Hnd).
  split_and!; try done.
  - intros Hin. apply (Hd _ Hin). left.
  - intros p Hp Hin. apply (Hd _ Hin). by right.
Qed.

(** A fresh node [y] linked in after the node [x]. *)
Lemma dseg_insert_after h pp l1 x y l2 h' :
  dseg h pp (l1 ++ x :: l2) None → NoDup (l1 ++ x :: l2).*1 →
  y.1 ∉ (l1 ++ x :: l2).*1 →
  h' !! x.1 = Some (mkn x.2 (Some y.1) (last_ptr l1 pp)) →
  h' !! y.1 = Some (mkn y.2 (hd_ptr l2 None) (Some x.1)) →
  (∀ z l2', l2 = z :: l2' → h' !! z.1 = Some (mkn z.2 (hd_ptr l2' None) (Some y.1))) →
  (∀ q, q ≠ x.1 → q ≠ y.1 → Some q ≠ hd_ptr l2 None → h' !! q = h !! q) →
  dseg h' pp (l1 ++ x :: y :: l2) None.
Proof.
  intros Hd Hnd Hy Hx' Hy' Hz' Hf. apply NoDup_mid_out in Hnd as (Hx1 & Hx2 & Hd12 & Hnd2).
  rewrite fmap_app, fmap_cons, not_elem_of_app, not_elem_of_cons in Hy.
  destruct Hy as (Hy1 & _ & Hy2).
  rewrite dseg_app in Hd. destruct Hd as [Hd1 [_ Hd2]].
  apply dseg_app. split; [|split; [done|split; [done|]]].
  - eapply dseg_frame; [|exact Hd1]. intros q Hq. apply Hf; [by intros ->..|].
    destruct l2 as [|z l2]; [done|]. intros [= ->]. apply (Hd12 z.1); [left|done].
  - destruct l2 as [|z l2]; [done|]. destruct Hd2 as [_ Hd2]. split; [by apply Hz'|].
    eapply dseg_frame; [|exact Hd2]. intros q Hq.
    rewrite fmap_cons, not_elem_of_cons in Hx2, Hy2. rewrite fmap_cons, NoDup_cons in Hnd2.
    apply Hf.
    + by intros ->; apply Hx2.
    + by intros ->; apply Hy2.
    + intros [= ->]. by apply Hnd2.
Qed.

(** ** Unlinking a node *)

Context {St : Type} `{HasHeap St N}.

(** [if (node->prev != NULL) node->prev->next = node->next;
    if (node->next != NULL) node->next->prev = node->prev;] *)
Definition unlink (node : ptr) : M St unit :=
  n ← load node;
  (if is_null (nprev n) then mret tt
   else store (nprev n) (set_next (nnext n)));;
  n ← load node;
  (if is_null (nnext n) then mret tt
   else store (nnext n) (set_prev (nprev n))).

(** The predecessor of the first node is [NULL], or a node outside the list. *)
Definition outside (h : gmap loc N) (pp : ptr) (l : cells) : Prop :=
  match pp with
  | None => True
  | Some q => (q ∉ l.*1) ∧ ∃ a n p, h !! q = Some (mkn a n p)
  end.

Record unlinked h pp l1 x l2 h' : Prop := {
  ul_seg : dseg h' pp (l1 ++ l2) None;
  ul_node : h' !! x.1 = h !! x.1;
  ul_dom : dom h' = dom h;
  ul_frame q : q ∉ (l1 ++ l2).*1 → pp ≠ Some q → h' !! q = h !! q;
  ul_out : outside h' pp (l1 ++ x :: l2);
}.

Lemma unlink_prev_ok h pp l1 x l2 :
  dseg h pp (l1 ++ x :: l2) None → NoDup (l1 ++ x :: l2).*1 →
  outside h pp (l1 ++ x :: l2) →
  ∀ q, last_ptr l1 pp = Some q →
  ∃ a n p, h !! q = Some (mkn a n p) ∧ q ≠ x.1 ∧ (q ∉ l2.*1) ∧
  ∀ n', n' = hd_ptr l2 None →
    let h' := <[q := mkn a n' p]> h in
    dseg h' pp l1 n' ∧ dseg h' (Some q) (x :: l2) None ∧ outside h' pp (l1 ++ x :: l2) ∧
    (∀ r, r ∉ l1.*1 → pp ≠ Some r → h' !! r = h !! r).
Proof.
  intros Hd Hnd Ho q Hq. rewrite dseg_app in Hd. destruct Hd as [Hd1 Hd2].
  destruct l1 as [|y l1 _] using rev_ind; simpl in *.
  - rewrite Hq in *. destruct Ho as [Hq1 (a & n & p & Hh)].
    apply not_elem_of_cons in Hq1 as [? ?].
    exists a, n, p. split_and!; try done. intros n' ->. simpl.
    rewrite lookup_insert_ne by done. destruct Hd2 as [Hx Hd2]. split_and!; try done.
    + by apply dseg_insert_out.
    + by apply not_elem_of_cons.
    + rewrite lookup_insert_eq. eauto.
    + intros r _ Hr. rewrite lookup_insert_ne; congruence.
  - rewrite last_ptr_app in Hq, Hd2. simpl in *. injection Hq as <-.
    pose proof Hd1 as [_ [Hy _]]%dseg_app. simpl in Hy.
    rewrite fmap_app, NoDup_app in Hnd. destruct Hnd as (Hnd1 & Hdis & Hnd2).
    assert (y.1 ∉ (x :: l2).*1) as Hyx.
    { intros Hin. apply (Hdis y.1); [rewrite fmap_app; set_solver|done]. }
    rewrite fmap_cons in Hyx. apply not_elem_of_cons in Hyx as [? ?].
    exists y.2, (Some x.1), (last_ptr l1 pp). split_and!; try done.
    intros n' ->. simpl. split; [|split; [|split]].
    + by apply (dseg_set_next _ _ _ y (Some x.1)).
    + rewrite lookup_insert_ne by done. destruct Hd2. split; [done|].
      by apply dseg_insert_out.
    + destruct pp as [r|]; [|done]. destruct Ho as [Hr (a & n & p & Hh)].
      split; [done|]. rewrite lookup_insert_ne; [eauto|].
      intros <-. apply Hr. rewrite !fmap_app. set_solver.
    + intros r Hr _. rewrite lookup_insert_ne; [done|].
      intros <-. apply Hr. rewrite fmap_app. set_solver.
Qed.

Lemma unlink_next_ok h pp l1 x l2 :
  dseg h pp l1 (hd_ptr l2 None) → dseg h (last_ptr l1 pp) (x :: l2) None →
  NoDup (l1 ++ x :: l2).*1 → outside h pp (l1 ++ x :: l2) →
  match l2 with
  | [] => unlinked h pp l1 x l2 h
  | y :: l2' =>
      unlinked h pp l1 x l2 (<[y.1 := mkn y.2 (hd_ptr l2' None) (last_ptr l1 pp)]> h)
  end.
Proof.
  intros Hd1 Hd2 Hnd Ho. destruct l2 as [|y l2].
  { split; try done. rewrite app_nil_r. done. }
  rewrite fmap_app, NoDup_app in Hnd. destruct Hnd as (Hnd1 & Hdis & Hnd2).
  rewrite !fmap_cons, !NoDup_cons, not_elem_of_cons in Hnd2.
  destruct Hnd2 as [[Hxy Hx] [Hy Hnd2]].
  assert (y.1 ∉ l1.*1) as Hy1. { intros Hin. apply (Hdis _ Hin). set_solver. }
  destruct Hd2 as [Hhx [Hhy Hd2]].
  split.
  - apply dseg_app. split; [by apply dseg_insert_out|].
    apply (dseg_set_prev _ (Some x.1)); [done|]. by split.
  - by rewrite lookup_insert_ne.
  - rewrite dom_insert_L. apply elem_of_dom_2 in Hhy. set_solver.
  - intros q Hq _. apply lookup_insert_ne. intros <-. apply Hq.
    rewrite fmap_app. set_solver.
  - destruct pp as [r|]; [|done]. destruct Ho as [Hr (a & n & p & Hh)].
    split; [done|]. rewrite lookup_insert_ne; [eauto|].
    intros <-. apply Hr. rewrite fmap_app. set_solver.
Qed.

Lemma unlinked_pre h h1 pp l1 x l2 h' :
  dom h1 = dom h → h1 !! x.1 = h !! x.1 →
  (∀ q, q ∉ l1.*1 → pp ≠ Some q → h1 !! q = h !! q) →
  unlinked h1 pp l1 x l2 h' → unlinked h pp l1 x l2 h'.
Proof.
  intros Hdom Hx Hf [? Hn Hd Hf' ?]. split; try congruence.
  intros q Hq Hpp. rewrite Hf' by done. apply Hf; [|done].
  intros Hin. apply Hq. rewrite fmap_app. set_solver.
Qed.

(** Unlinking the node [x] of [l1 ++ x :: l2] leaves the segment
    [l1 ++ l2]; the node itself and the rest of the heap are unchanged. *)
Lemma wp_unlink s pp l1 x l2 Q :
  dseg (heap_of s) pp (l1 ++ x :: l2) None → NoDup (l1 ++ x :: l2).*1 →
  outside (heap_of s) pp (l1 ++ x :: l2) →
  (∀ h', unlinked (heap_of s) pp l1 x l2 h' → Q tt (set_heap h' s)) →
  wp (unlink (Some x.1)) s Q.
Proof.
  intros Hd Hnd Ho HQ. unfold unlink. rewrite wp_bind.
  pose proof (dseg_mid _ _ _ _ _ _ Hd) as Hx.
  eapply wp_load; [exact Hx|]. rewrite nnext_mkn, nprev_mkn, wp_bind.
  assert (∀ h' s1, set_heap (heap_of s1) s = s1 → set_heap h' s1 = set_heap h' s) as Hput.
  { intros h' s1 Hs1. rewrite <-(set_heap_set (heap_of s1) h' s). by rewrite Hs1. }
  (* the state after the first statement *)
  assert (∀ s1, set_heap (heap_of s1) s = s1 →
    dseg (heap_of s1) pp l1 (hd_ptr l2 None) →
    dseg (heap_of s1) (last_ptr l1 pp) (x :: l2) None →
    outside (heap_of s1) pp (l1 ++ x :: l2) → heap_of s1 !! x.1 = heap_of s !! x.1 →
    dom (heap_of s1) = dom (heap_of s) →
    (∀ q, q ∉ l1.*1 → pp ≠ Some q → heap_of s1 !! q = heap_of s !! q) →
    wp (n ← load (Some x.1);
        if is_null (nnext n) then mret tt
        else store (nnext n) (set_prev (nprev n))) s1 Q) as Hsecond.
  { intros s1 Hs1 Hd1 Hd2 Ho1 Hx1 Hdom Hf. rewrite wp_bind.
    eapply wp_load; [rewrite Hx1; exact Hx|]. rewrite nnext_mkn, nprev_mkn.
    pose proof (unlink_next_ok _ _ _ _ _ Hd1 Hd2 Hnd Ho1) as Hul.
    destruct l2 as [|y l2]; simpl.
    - rewrite wp_ret, <-Hs1. apply HQ. eapply unlinked_pre; eauto.
    - destruct Hd2 as [_ [Hy _]]. eapply wp_store; [exact Hy|].
      rewrite set_prev_mkn, (Hput _ _ Hs1). apply HQ.
      eapply unlinked_pre; eauto. }
  destruct (last_ptr l1 pp) as [q|] eqn:Hq; simpl.
  - pose proof (unlink_prev_ok _ _ _ _ _ Hd Hnd Ho q Hq)
      as (a & n & p & Hhq & Hqx & Hql2 & Hok).
    destruct (Hok _ eq_refl) as (Hd1 & Hd2 & Ho1 & Hf).
    eapply wp_store; [exact Hhq|]. rewrite set_next_mkn.
    apply Hsecond; rewrite ?heap_of_set, ?set_heap_set; try done.
    + by rewrite lookup_insert_ne.
    + rewrite dom_insert_L. apply elem_of_dom_2 in Hhq. set_solver.
  - rewrite wp_ret. apply dseg_app in Hd as [Hd1 Hd2]. rewrite Hq in Hd2.
    destruct l1 as [|y l1] using rev_ind; [|by rewrite last_ptr_app in Hq].
    apply Hsecond; try done. apply set_heap_id.
Qed.
End segments.
