(* ===== verification/DllList.v ===== *)
(** * The doubly linked recency list of [page_table.c]

    [createdllListNode], [moveListNodeToFront] and [deletedllListNode] of
    src/ip6/lib/vmem/page_table.c on a heap of [struct dllListNode]. The
    thread-local [dllList] is the record [dllList]; [dll_rep s l] says that
    the pointer structure [s] represents the sequence [l] of (node, key)
    pairs, most recent first, and every operation is shown to implement the
    corresponding operation on sequences, with no leaked or dangling node. *)

From S2P Require Import Prelude Links.

Record dllListNode := DllNode { dn_key : Z; dn_next : ptr; dn_prev : ptr }.
Record dllList := Dll {
  dl_heap : gmap loc dllListNode;
  dl_head : ptr;
  dl_tail : ptr;
  dl_count : Z;
}.

#[export] Program Instance dll_heap : HasHeap dllList dllListNode := {|
  heap_of := dl_heap;
  set_heap h s := Dll h (dl_head s) (dl_tail s) (dl_count s);
|}.
Solve Obligations with (by intros; try match goal with s : dllList |- _ => destruct s end).

#[export] Program Instance dll_node : LinkNode Z dllListNode := {|
  mkn := DllNode;
  nnext := dn_next;
  nprev := dn_prev;
  set_next q n := DllNode (dn_key n) q (dn_prev n);
  set_prev q n := DllNode (dn_key n) (dn_next n) q;
|}.
Solve Obligations with done.

Definition dl_set_head (q : ptr) (s : dllList) := Dll (dl_heap s) q (dl_tail s) (dl_count s).
Definition dl_set_tail (q : ptr) (s : dllList) := Dll (dl_heap s) (dl_head s) q (dl_count s).
Definition dl_set_count (c : Z) (s : dllList) := Dll (dl_heap s) (dl_head s) (dl_tail s) c.

(** The state after [calloc] and [dllList->count = 0]. *)
Definition dll_empty : dllList := Dll ∅ None None 0.

Section operations.
Context `{Malloc}.

Definition createdllListNode (key : Z) : M dllList ptr :=
  head ← gets dl_head;
  newnode ← malloc (DllNode key head None);
  count ← gets dl_count;
  (if 0 <? count then store head (set_prev newnode)
   else modify (dl_set_tail newnode));;
  modify (dl_set_head newnode);;
  modify (λ s, dl_set_count (u64 (dl_count s + 1)) s);;
  mret newnode.

Definition moveListNodeToFront (node : ptr) : M dllList unit :=
  head ← gets dl_head;
  if ptr_eqb head node then mret tt else
  unlink node;;
  store node (set_next head);;
  tail ← gets dl_tail;
  n ← load node;
  when (ptr_eqb tail node) (modify (dl_set_tail (dn_prev n)));;
  store node (set_prev None);;
  count ← gets dl_count;
  (if 1 <? count then store head (set_prev node)
   else modify (dl_set_head node);; modify (dl_set_tail node));;
  modify (dl_set_head node).

Definition deletedllListNode (node : ptr) : M dllList unit :=
  n ← load node;
  head ← gets dl_head;
  when (ptr_eqb node head) (modify (dl_set_head (dn_next n)));;
  tail ← gets dl_tail;
  when (ptr_eqb node tail) (modify (dl_set_tail (dn_prev n)));;
  unlink node;;
  modify (λ s, dl_set_count (u64 (dl_count s - 1)) s);;
  free node.
End operations.

(** ** Representation *)

Record dll_rep (s : dllList) (l : list (loc * Z)) : Prop := {
  dr_seg : dseg (dl_heap s) None l None;
  dr_head : dl_head s = hd_ptr l None;
  dr_tail : dl_tail s = last_ptr l None;
  dr_count : dl_count s = len l;
  dr_nodup : NoDup l.*1;
  dr_dom : dom (dl_heap s) = list_to_set l.*1;
}.

Lemma dll_rep_empty : dll_rep dll_empty [].
Proof. split; try done. constructor. Qed.

Section specs.
Context `{Malloc}.

Lemma wp_createdllListNode s l key Q :
  dll_rep s l → len l + 1 < 2 ^ 64 →
  (∀ p s', p ∉ l.*1 → dll_rep s' ((p, key) :: l) → Q (Some p) s') →
  wp (createdllListNode key) s Q.
Proof.
  intros [Hseg Hh Ht Hc Hnd Hdom] Hlen HQ. destruct s as [h hd tl c]; simpl in *; subst.
  unfold createdllListNode. wp_pure. apply wp_malloc; simpl. intros p Hp.
  assert (p ∉ l.*1) as Hpl.
  { intros Hin. apply not_elem_of_dom in Hp. rewrite Hdom in Hp. set_solver. }
  wp_pure. destruct l as [|[q j] l].
  - wp_pure. apply HQ; [done|]. split; simpl; try done.
    + by rewrite lookup_insert_eq.
    + apply NoDup_singleton.
    + rewrite dom_insert_L, Hdom. set_solver.
  - rewrite (proj2 (Z.ltb_lt 0 _)) by len_lia. destruct Hseg as [Hq Hseg]. simpl in *.
    apply not_elem_of_cons in Hpl as [? ?]. pose proof Hnd as [? ?]%NoDup_cons.
    eapply wp_store; simpl; [by rewrite lookup_insert_ne|].
    wp_pure. apply HQ; [by apply not_elem_of_cons|]. split; simpl; try done.
    + rewrite lookup_insert_ne, !lookup_insert_eq by done.
      split_and!; [done..|]. by apply dseg_insert_out, dseg_insert_out.
    + rewrite u64_small; len_lia.
    + constructor; [by apply not_elem_of_cons|done].
    + rewrite !dom_insert_L, Hdom. set_solver.
Qed.

Lemma last_ptr_mid (l1 : list (loc * Z)) x l2 pp :
  last_ptr (l1 ++ x :: l2) pp = last_ptr l2 (Some x.1).
Proof. by rewrite last_ptr_app. Qed.
Lemma hd_ptr_ne (l1 : list (loc * Z)) x l2 p :
  p ∉ (l1 ++ l2).*1 → hd_ptr (l1 ++ x :: l2) None = Some p → l1 = [] ∧ x.1 = p.
Proof.
  destruct l1 as [|y l1]; simpl; [by intros _ [= <-]|].
  intros Hp [= <-]. set_solver.
Qed.
Lemma last_ptr_eq_mid (l1 : list (loc * Z)) x l2 pp :
  x.1 ∉ l2.*1 →
  last_ptr (l1 ++ x :: l2) pp = Some x.1 → l2 = [].
Proof.
  rewrite last_ptr_mid. destruct l2 as [|y l2 _] using rev_ind; [done|].
  rewrite last_ptr_app, fmap_app. simpl. intros Hx [= Heq]. rewrite Heq in Hx. set_solver.
Qed.

Lemma NoDup_mid (l1 : list (loc * Z)) x l2 :
  NoDup (l1 ++ x :: l2).*1 → (x.1 ∉ (l1 ++ l2).*1) ∧ NoDup (l1 ++ l2).*1.
Proof.
  rewrite !fmap_app, fmap_cons, <-Permutation_middle, NoDup_cons. done.
Qed.

Lemma wp_deletedllListNode s l1 x l2 Q :
  dll_rep s (l1 ++ x :: l2) → len (l1 ++ x :: l2) < 2 ^ 64 →
  (∀ s', dll_rep s' (l1 ++ l2) → Q tt s') →
  wp (deletedllListNode (Some x.1)) s Q.
Proof.
  intros [Hseg Hh Ht Hc Hnd Hdom] Hlen HQ. destruct s as [h hd tl c]; simpl in *; subst.
  pose proof (dseg_mid _ _ _ _ _ _ Hseg) as Hx.
  pose proof (NoDup_mid _ _ _ Hnd) as [Hxl Hnd'].
  unfold deletedllListNode. rewrite wp_bind. eapply wp_load; [exact Hx|]. wp_pure.
  unfold when.
  set (hd' := hd_ptr (l1 ++ l2) None). set (tl' := last_ptr (l1 ++ l2) None).
  assert (wp (unlink (Some x.1);; modify (λ s, dl_set_count (u64 (dl_count s - 1)) s);;
    free (Some x.1)) (Dll h hd' tl' (len (l1 ++ x :: l2))) Q) as Hrest.
  { rewrite wp_bind.
    eapply (wp_unlink _ None l1 x l2); [done..|]. intros h' [? Hn Hd Hf _]. simpl in *.
    wp_pure. eapply wp_free; [simpl; rewrite Hn; exact Hx|]. simpl. apply HQ.
    split; simpl; try done.
    - by apply dseg_delete_out.
    - rewrite u64_small; len_lia.
    - rewrite dom_delete_L, Hd, Hdom, !fmap_app, fmap_cons.
      rewrite fmap_app in Hxl. set_solver. }
  rewrite wp_bind in Hrest.
  destruct (decide (hd_ptr (l1 ++ x :: l2) None = Some x.1)) as [Ehd|Ehd].
  - apply hd_ptr_ne in Ehd as [-> _]; [|done]. simpl.
    rewrite ptr_eqb_refl. wp_pure.
    destruct (decide (last_ptr l2 (Some x.1) = Some x.1)) as [Etl|Etl].
    + rewrite Etl, ptr_eqb_refl. wp_pure.
      apply (last_ptr_eq_mid [] x l2 None) in Etl as ->; [done|]. by simpl in Hxl.
    + rewrite ptr_eqb_ne by done. wp_pure.
      destruct l2 as [|y l2 _] using rev_ind; [done|].
      revert Hrest. subst tl'. simpl. by rewrite !last_ptr_app.
  - rewrite ptr_eqb_ne by done. wp_pure. rewrite last_ptr_mid.
    destruct l1 as [|z l1]; [done|].
    destruct (decide (last_ptr l2 (Some x.1) = Some x.1)) as [Etl|Etl].
    + rewrite Etl, ptr_eqb_refl. wp_pure.
      apply (last_ptr_eq_mid [] x l2 None) in Etl as ->;
        [|rewrite fmap_app in Hxl; set_solver].
      subst tl'. by rewrite app_nil_r in Hrest.
    + rewrite ptr_eqb_ne by done. wp_pure.
      destruct l2 as [|y l2 _] using rev_ind; [done|].
      revert Hrest. subst tl'. by rewrite app_assoc, !last_ptr_app.
Qed.

(** Linking an unlinked node in front of a non-empty segment. *)
Lemma dseg_push_front (h : gmap loc dllListNode) x y l n p :
  dseg h None (y :: l) None → NoDup (y :: l).*1 → x.1 ∉ (y :: l).*1 →
  dseg (<[y.1 := DllNode y.2 (hd_ptr l None) (Some x.1)]>
         (<[x.1 := DllNode x.2 (Some y.1) None]> (<[x.1 := DllNode x.2 n p]> h)))
       None (x :: y :: l) None.
Proof.
  rewrite fmap_cons, NoDup_cons, not_elem_of_cons. intros [Hy Hl] [Hyl _] [Hxy Hxl].
  simpl. rewrite lookup_insert_ne, !lookup_insert_eq by done.
  split_and!; [done..|]. by repeat apply dseg_insert_out.
Qed.

Lemma wp_moveListNodeToFront s l1 x l2 Q :
  dll_rep s (l1 ++ x :: l2) →
  (∀ s', dll_rep s' (x :: l1 ++ l2) → Q tt s') →
  wp (moveListNodeToFront (Some x.1)) s Q.
Proof.
  intros Hrep HQ. destruct l1 as [|y l1].
  { unfold moveListNodeToFront. wp_pure. rewrite (dr_head _ _ Hrep). simpl.
    rewrite ptr_eqb_refl. by apply HQ. }
  destruct Hrep as [Hseg Hh Ht Hc Hnd Hdom]. destruct s as [h hd tl c]; simpl in *; subst.
  pose proof (dseg_mid h None (y :: l1) x l2 None Hseg) as Hx. simpl in Hx.
  pose proof (NoDup_mid (y :: l1) x l2 Hnd) as [Hxl Hnd'].
  assert (x.1 ≠ y.1) as Hxy. { simpl in Hxl. set_solver. }
  unfold moveListNodeToFront. wp_pure. rewrite ptr_eqb_ne by congruence.
  rewrite wp_bind. eapply (wp_unlink _ None (y :: l1) x l2); [done..|].
  intros h' [Hseg' Hn Hd _ _]. simpl in Hseg', Hn, Hd. pose proof Hseg' as [Hy _].
  rewrite Hx in Hn. wp_pure. eapply wp_store; [exact Hn|]. wp_pure.
  eapply wp_load; [simpl; apply lookup_insert_eq|].
  rewrite wp_bind, wp_when_modify. simpl.
  match goal with |- wp _ ?st _ => replace st with
    (Dll (<[x.1 := DllNode x.2 (Some y.1) (last_ptr l1 (Some y.1))]> h')
         (Some y.1) (last_ptr (y :: l1 ++ l2) None) (len (y :: l1 ++ x :: l2))) end.
  - wp_pure. eapply wp_store; [simpl; apply lookup_insert_eq|]. wp_pure.
    rewrite (proj2 (Z.ltb_lt 1 _)) by len_lia.
    eapply wp_store; simpl; [by rewrite !lookup_insert_ne|]. wp_pure. apply HQ.
    split; simpl; try done.
    + by apply (dseg_push_front h' x y (l1 ++ l2)).
    + len_lia.
    + by constructor.
    + rewrite !dom_insert_L, Hd, Hdom. simpl. rewrite !fmap_app. set_solver.
  - assert (x.1 ∉ l2.*1) as Hx2. { simpl in Hxl. rewrite fmap_app in Hxl. set_solver. }
    unfold ptr_eqb. case_bool_decide as E; simpl in *.
    + apply (last_ptr_eq_mid l1) in E as ->; [|done]. by rewrite app_nil_r.
    + destruct l2 as [|z l2 _] using rev_ind; [by rewrite last_ptr_app in E|].
      by rewrite last_ptr_mid, !last_ptr_app.
Qed.
End specs.
