(* ===== verification/HashTable.v ===== *)
(** * The page hash table of [page_table.c]

    [createHashNode], [hashFunction], [insertHashNode], [deleteHashNode] and
    [getHashNode] of src/ip6/lib/vmem/page_table.c: a table of [nframes]
    buckets, each a singly linked list of [struct hashNode], that maps a page
    number to its node in the recency or frequency list. [ht_models n s m]
    says that the pointer structure [s] implements the finite map [m]. *)

From S2P Require Import Prelude.

Record hashNode := HashNode { hn_key : Z; hn_next : ptr; hn_listNode : ptr }.
Record hash := Hash { hb_head : ptr; hb_count : Z }.
Record hashTable := HashTable { ht_heap : gmap loc hashNode; ht_tab : list hash }.

#[export] Program Instance ht_has_heap : HasHeap hashTable hashNode := {|
  heap_of := ht_heap;
  set_heap h s := HashTable h (ht_tab s);
|}.
Solve Obligations with (by intros; try match goal with s : hashTable |- _ => destruct s end).

Definition ht_set_tab (t : list hash) (s : hashTable) := HashTable (ht_heap s) t.
Definition hn_set_next (q : ptr) (n : hashNode) := HashNode (hn_key n) q (hn_listNode n).
Definition hn_set_listNode (q : ptr) (n : hashNode) := HashNode (hn_key n) (hn_next n) q.

(** The table after [calloc(nframes, sizeof(struct hash))]. *)
Definition ht_empty (nframes : Z) : hashTable :=
  HashTable ∅ (replicate (Z.to_nat nframes) (Hash None 0)).

Section operations.
Context `{Malloc}.
(** [the_page_table->nframes] *)
Variable nframes : Z.

Definition hashFunction (key : Z) : M hashTable Z :=
  if nframes =? 0 then err DivByZero else mret (key mod nframes).

Definition createHashNode (key : Z) : M hashTable ptr :=
  malloc (HashNode key None None).

Definition insertHashNode (key : Z) (listnodePointer : ptr) : M hashTable unit :=
  hashIndex ← hashFunction key;
  newnode ← createHashNode key;
  store newnode (hn_set_listNode listnodePointer);;
  b ← aload ht_tab hashIndex;
  if is_null (hb_head b) then
    astore ht_tab ht_set_tab hashIndex (Hash newnode 1)
  else
    store newnode (hn_set_next (hb_head b));;
    astore ht_tab ht_set_tab hashIndex (Hash newnode (hb_count b + 1)).

(** The [while (myNode != NULL)] loop of [deleteHashNode]; the chain is no
    longer than the number of live nodes. *)
Fixpoint deleteHashNode_loop (fuel : nat) (hashIndex key : Z) (temp myNode : ptr)
    : M hashTable unit :=
  match fuel with
  | O => err Hang
  | S fuel =>
      if is_null myNode then mret tt else
      n ← load myNode;
      if hn_key n =? key then
        b ← aload ht_tab hashIndex;
        (if ptr_eqb myNode (hb_head b)
         then astore ht_tab ht_set_tab hashIndex (Hash (hn_next n) (hb_count b))
         else store temp (hn_set_next (hn_next n)));;
        b ← aload ht_tab hashIndex;
        astore ht_tab ht_set_tab hashIndex (Hash (hb_head b) (hb_count b - 1));;
        free myNode
      else deleteHashNode_loop fuel hashIndex key myNode (hn_next n)
  end.

Definition deleteHashNode (key : Z) : M hashTable unit :=
  hashIndex ← hashFunction key;
  b ← aload ht_tab hashIndex;
  if is_null (hb_head b) then mret tt else
  fuel ← gets (λ s, S (size (ht_heap s)));
  deleteHashNode_loop fuel hashIndex key (hb_head b) (hb_head b).

Fixpoint getHashNode_loop (fuel : nat) (key : Z) (myNode : ptr) : M hashTable ptr :=
  match fuel with
  | O => err Hang
  | S fuel =>
      if is_null myNode then mret myNode else
      n ← load myNode;
      if hn_key n =? key then mret myNode
      else getHashNode_loop fuel key (hn_next n)
  end.

Definition getHashNode (key : Z) : M hashTable ptr :=
  hashIndex ← hashFunction key;
  b ← aload ht_tab hashIndex;
  if is_null (hb_head b) then mret None else
  fuel ← gets (λ s, S (size (ht_heap s)));
  myNode ← getHashNode_loop fuel key (hb_head b);
  n ← load myNode;
  mret (hn_listNode n).
End operations.

(** ** Representation *)

Abbreviation bucket := (list (loc * (Z * ptr))).

(** The nodes of [l], from the pointer [p] up to the pointer [q]. *)
Fixpoint cseg (h : gmap loc hashNode) (p : ptr) (l : bucket) (q : ptr) : Prop :=
  match l with
  | [] => p = q
  | x :: l' => p = Some x.1 ∧ ∃ nx, h !! x.1 = Some (HashNode x.2.1 nx x.2.2) ∧ cseg h nx l' q
  end.

Definition bucket_ok (h : gmap loc hashNode) (b : hash) (l : bucket) : Prop :=
  cseg h (hb_head b) l None ∧ hb_count b = len l.

(** [B i] is the content of bucket [i], front first. *)
Record ht_rep (n : Z) (s : hashTable) (B : Z → bucket) : Prop := {
  hr_len : len (ht_tab s) = n;
  hr_pos : 0 < n;
  hr_bucket i b : idx (ht_tab s) i = Some b → bucket_ok (ht_heap s) b (B i);
  hr_nodup i : NoDup (B i).*1;
  hr_disj i j p : p ∈ (B i).*1 → p ∈ (B j).*1 → i = j;
  hr_dom p : p ∈ dom (ht_heap s) ↔ ∃ i, 0 <= i < n ∧ p ∈ (B i).*1;
  hr_keys i : NoDup (B i).*2.*1;
  hr_hashed i x : x ∈ B i → 0 <= i < n ∧ x.2.1 mod n = i;
}.

Definition ht_models (n : Z) (s : hashTable) (m : gmap Z ptr) : Prop :=
  ∃ B, ht_rep n s B ∧ ∀ k v, m !! k = Some v ↔ ∃ p, (p, (k, v)) ∈ B (k mod n).

Lemma cseg_frame h h' p l q :
  (∀ r, r ∈ l.*1 → h' !! r = h !! r) → cseg h p l q → cseg h' p l q.
Proof.
  revert p. induction l as [|x l IH]; intros p Hf; simpl; [done|].
  intros [-> (nx & Hx & Hl)]. split; [done|]. exists nx. split.
  - rewrite Hf; [done|]. simpl. left.
  - apply IH; [|done]. intros r Hr. apply Hf. by right.
Qed.

Lemma cseg_app h p l1 l2 q :
  cseg h p (l1 ++ l2) q ↔ ∃ r, cseg h p l1 r ∧ cseg h r l2 q.
Proof.
  revert p. induction l1 as [|x l1 IH]; intros p; simpl; [naive_solver|].
  setoid_rewrite IH. naive_solver.
Qed.

Lemma cseg_set_last h p l x q q' :
  x.1 ∉ l.*1 → cseg h p (l ++ [x]) q →
  cseg (<[x.1 := HashNode x.2.1 q' x.2.2]> h) p (l ++ [x]) q'.
Proof.
  intros Hx. rewrite !cseg_app. intros (r & Hl & -> & nx & _).
  exists (Some x.1). split.
  - eapply cseg_frame; [|done]. intros r Hr. apply lookup_insert_ne. by intros <-.
  - simpl. split; [done|]. exists q'. by rewrite lookup_insert_eq.
Qed.

Lemma cseg_lookup h p l q x : cseg h p l q → x ∈ l → ∃ nx, h !! x.1 = Some (HashNode x.2.1 nx x.2.2).
Proof.
  revert p. induction l as [|y l IH]; intros p; [by rewrite elem_of_nil|].
  intros [_ (nx & Hy & Hl)] [->|Hin]%elem_of_cons; eauto.
Qed.

Lemma cseg_null h l : cseg h None l None → l = [].
Proof. by destruct l; [|intros [? _]]. Qed.

Lemma cseg_size h p l q : cseg h p l q → NoDup l.*1 → (length l <= size h)%nat.
Proof.
  intros Hc Hnd. rewrite <-(length_fmap fst), <-(size_list_to_set (C:=gset loc)) by done.
  rewrite <-size_dom. apply subseteq_size. intros r Hr.
  rewrite elem_of_list_to_set in Hr. apply list_elem_of_fmap in Hr as (x & -> & Hx).
  eapply cseg_lookup in Hx as [? ?]; [|done]. by eapply elem_of_dom_2.
Qed.

Lemma hash_range n k : 0 < n → 0 <= k mod n < n.
Proof. intros. by apply Z.mod_pos_bound. Qed.

Lemma ht_bucket n s B k :
  ht_rep n s B → ∃ b, idx (ht_tab s) (k mod n) = Some b ∧ bucket_ok (ht_heap s) b (B (k mod n)).
Proof.
  intros Hr. pose proof (hash_range n k (hr_pos _ _ _ Hr)) as Hk.
  rewrite <-(hr_len _ _ _ Hr) in Hk at 3. apply idx_is_Some in Hk as [b Hb].
  exists b. split; [done|]. by apply (hr_bucket _ _ _ Hr).
Qed.

(** ** Changing one bucket *)

Definition fupd (B : Z → bucket) (i : Z) (l : bucket) : Z → bucket :=
  λ j, if decide (j = i) then l else B j.

Lemma fupd_eq B i l : fupd B i l i = l.
Proof. unfold fupd. by rewrite decide_True. Qed.
Lemma fupd_ne B i l j : j ≠ i → fupd B i l j = B j.
Proof. intros. unfold fupd. by rewrite decide_False. Qed.

(** Cases on whether an index is the changed bucket. *)
Ltac fupd_cases :=
  repeat match goal with
  | H : context [fupd _ ?i _ ?j] |- _ =>
      destruct (decide (j = i)) as [->|];
      rewrite ?fupd_eq, ?(fupd_ne _ i _ j) in * by done
  | |- context [fupd _ ?i _ ?j] =>
      destruct (decide (j = i)) as [->|];
      rewrite ?fupd_eq, ?(fupd_ne _ i _ j) in * by done
  end.

Lemma ht_rep_update n s B i b' l' h' :
  ht_rep n s B → 0 <= i < n → bucket_ok h' b' l' →
  (∀ j p, j ≠ i → p ∈ (B j).*1 → h' !! p = ht_heap s !! p) →
  NoDup l'.*1 → NoDup l'.*2.*1 → (∀ x, x ∈ l' → x.2.1 mod n = i) →
  (∀ p j, p ∈ l'.*1 → j ≠ i → p ∉ (B j).*1) →
  (∀ p, p ∈ dom h' ↔ p ∈ l'.*1 ∨ (p ∈ dom (ht_heap s) ∧ p ∉ (B i).*1)) →
  ht_rep n (HashTable h' (upd (ht_tab s) i b')) (fupd B i l').
Proof.
  intros [Hlen Hpos Hb Hnd Hdis Hdom Hkeys Hhash] Hi Hok Hf Hnd' Hkeys' Hh' Hdis' Hdom'.
  split; simpl.
  - by rewrite len_upd.
  - done.
  - intros j b. rewrite idx_upd by lia. case_decide; subst.
    + intros [= <-]. by rewrite fupd_eq.
    + intros Hj. rewrite fupd_ne by done. destruct (Hb _ _ Hj) as [Hc ?]. split; [|done].
      eapply cseg_frame; [|done]. eauto.
  - intros j. fupd_cases; eauto.
  - intros j1 j2 p H1 H2. fupd_cases; eauto; exfalso; by eapply Hdis'.
  - intros p. rewrite Hdom', Hdom. split.
    + intros [?|[(j & ? & ?) ?]]; [exists i; by rewrite fupd_eq|].
      exists j. split; [done|]. fupd_cases; done.
    + intros (j & ? & ?). fupd_cases; [by left|]. right. split; [eauto|].
      intros ?. eauto.
  - intros j. fupd_cases; eauto.
  - intros j x Hx. fupd_cases; eauto.
Qed.

(** ** Lookup *)

Lemma getHashNode_loop_found s p l key q v fuel :
  cseg (ht_heap s) p l None → (q, (key, v)) ∈ l → NoDup l.*2.*1 → (length l < fuel)%nat →
  getHashNode_loop fuel key p s = Ok (Some q) s.
Proof.
  revert fuel p. induction l as [|x l IH]; intros [|fuel] p; simpl; try lia.
  { by rewrite elem_of_nil. }
  intros [-> (nx & Hx & Hl)] Hin Hnd Hlen. simpl.
  unfold mbind, M_bind, load. simpl. rewrite Hx. simpl.
  apply elem_of_cons in Hin as [<-|Hin]; simpl; [by rewrite Z.eqb_refl|].
  apply NoDup_cons in Hnd as [Hk Hnd]. destruct (Z.eqb_spec x.2.1 key) as [<-|].
  - destruct Hk. apply list_elem_of_fmap. exists (x.2.1, v). split; [done|].
    apply list_elem_of_fmap. by exists (q, (x.2.1, v)).
  - apply IH; try done. lia.
Qed.

Lemma getHashNode_loop_missing s p l key fuel :
  cseg (ht_heap s) p l None → key ∉ l.*2.*1 → (length l < fuel)%nat →
  getHashNode_loop fuel key p s = Ok None s.
Proof.
  revert fuel p. induction l as [|x l IH]; intros [|fuel] p; simpl; try lia.
  { by intros ->. }
  intros [-> (nx & Hx & Hl)] [Hne Hk]%not_elem_of_cons Hlen. simpl.
  unfold mbind, M_bind, load. simpl. rewrite Hx. simpl.
  destruct (Z.eqb_spec x.2.1 key); [congruence|]. apply IH; try done. lia.
Qed.

#[local] Opaque getHashNode_loop deleteHashNode_loop.

Section specs.
Context `{Malloc}.
Variable n : Z.

Lemma wp_hashFunction s k Q : 0 < n → Q (k mod n) s → wp (hashFunction n k) s Q.
Proof. intros. unfold hashFunction. by rewrite (proj2 (Z.eqb_neq n 0)) by lia. Qed.

Lemma wp_getHashNode s m k v Q :
  ht_models n s m → m !! k = Some v → Q v s → wp (getHashNode n k) s Q.
Proof.
  intros (B & Hr & HB) [p Hp]%HB HQ. unfold getHashNode. rewrite wp_bind.
  apply wp_hashFunction; [apply Hr|].
  destruct (ht_bucket _ _ _ k Hr) as (b & Hb & Hc & _). rewrite wp_bind.
  eapply wp_aload; [done|].
  destruct (hb_head b) as [q|]; simpl;
    [|apply cseg_null in Hc; rewrite Hc in Hp; by apply elem_of_nil in Hp].
  rewrite wp_bind, wp_gets, wp_bind. unfold wp at 1.
  erewrite getHashNode_loop_found; [|done..|apply Hr|].
  - pose proof (cseg_lookup _ _ _ _ _ Hc Hp) as [nx Hx]. rewrite wp_bind.
    eapply wp_load; [exact Hx|]. done.
  - pose proof (cseg_size _ _ _ _ Hc (hr_nodup _ _ _ Hr _)). lia.
Qed.

(** A key that is not in the table: an empty bucket gives [NULL]; a
    non-empty one runs off the end of the chain and dereferences [NULL]. *)
Lemma getHashNode_missing s m k b :
  ht_models n s m → m !! k = None → idx (ht_tab s) (k mod n) = Some b →
  getHashNode n k s = if is_null (hb_head b) then Ok None s else Err NullDeref.
Proof.
  intros (B & Hr & HB) Hk Hb. unfold getHashNode, hashFunction.
  rewrite (proj2 (Z.eqb_neq n 0)) by (pose proof (hr_pos _ _ _ Hr); lia).
  unfold mbind, M_bind, mret, M_ret, aload. rewrite Hb. simpl.
  destruct (hr_bucket _ _ _ Hr _ _ Hb) as [Hc _].
  destruct (hb_head b) as [q|]; simpl; [|done].
  erewrite getHashNode_loop_missing; [done|done| |].
  - intros ((k' & v) & Hkv & (x & Hx & Hin)%list_elem_of_fmap)%list_elem_of_fmap.
    simpl in Hkv. subst k'. assert (m !! k = Some v); [|congruence].
    apply HB. exists x.1. by destruct x as [? []]; simplify_eq/=.
  - pose proof (cseg_size _ _ _ _ Hc (hr_nodup _ _ _ Hr _)). lia.
Qed.

(** ** Insertion *)

Lemma elem_of_keys (l : bucket) k : k ∈ l.*2.*1 ↔ ∃ p v, (p, (k, v)) ∈ l.
Proof.
  rewrite list_elem_of_fmap. setoid_rewrite list_elem_of_fmap. split.
  - intros ((?, v) & -> & ((p, []) & [= <- <-] & ?)). eauto.
  - intros (p & v & Hin). exists (k, v). split; [done|]. by exists (p, (k, v)).
Qed.

Lemma ht_models_fupd s B (m : gmap Z ptr) i (l' : bucket) s' (m' : gmap Z ptr) :
  ht_rep n s B → (∀ k v, m !! k = Some v ↔ ∃ p, (p, (k, v)) ∈ B (k mod n)) →
  ht_rep n s' (fupd B i l') →
  (∀ k v, k mod n = i → m' !! k = Some v ↔ ∃ p, (p, (k, v)) ∈ l') →
  (∀ k, k mod n ≠ i → m' !! k = m !! k) →
  ht_models n s' m'.
Proof.
  intros Hr HB Hr' Hi Hne. exists (fupd B i l'). split; [done|]. intros k v.
  destruct (decide (k mod n = i)) as [E|E].
  - rewrite E, fupd_eq. by apply Hi.
  - rewrite fupd_ne, Hne, HB by done. done.
Qed.

Lemma ht_rep_fresh s B p : ht_rep n s B → ht_heap s !! p = None → ∀ j, p ∉ (B j).*1.
Proof.
  intros Hr Hp j Hin. apply not_elem_of_dom in Hp. apply Hp, (hr_dom _ _ _ Hr).
  pose proof Hin as (x & _ & Hx)%list_elem_of_fmap.
  apply (hr_hashed _ _ _ Hr) in Hx as [? _]. eauto.
Qed.

(** A fresh node at the front of its bucket. *)
Lemma ht_models_cons s B (m : gmap Z ptr) k v p b h' :
  ht_rep n s B → (∀ k v, m !! k = Some v ↔ ∃ p, (p, (k, v)) ∈ B (k mod n)) →
  m !! k = None → ht_heap s !! p = None → idx (ht_tab s) (k mod n) = Some b →
  (∀ q, q ≠ p → h' !! q = ht_heap s !! q) →
  h' !! p = Some (HashNode k (hb_head b) v) →
  ht_models n (HashTable h' (upd (ht_tab s) (k mod n) (Hash (Some p) (hb_count b + 1))))
    (<[k := v]> m).
Proof.
  intros Hr HB Hk Hp Hb Hf Hhp. pose proof (hr_pos _ _ _ Hr) as Hpos.
  pose proof (hash_range n k Hpos) as Hi. pose proof (ht_rep_fresh _ _ _ Hr Hp) as Hpl.
  destruct (hr_bucket _ _ _ Hr _ _ Hb) as [Hc Hcnt]. set (l := B (k mod n)) in *.
  eapply (ht_models_fupd s B m _ ((p, (k, v)) :: l)); [done|done| | |].
  - apply ht_rep_update; try done.
    + split; [|simpl; rewrite Hcnt; len_lia]. split; [done|]. exists (hb_head b).
      split; [done|]. eapply cseg_frame; [|exact Hc].
      intros r Hr'. apply Hf. intros ->. by eapply Hpl.
    + intros j q _ Hq. apply Hf. intros ->. by eapply Hpl.
    + constructor; [apply Hpl|apply Hr].
    + constructor; [|apply Hr]. intros (q & w & Hin)%elem_of_keys.
      assert (m !! k = Some w) by (apply HB; eauto). congruence.
    + intros x [->|Hx]%elem_of_cons; [done|]. by apply (hr_hashed _ _ _ Hr).
    + intros q j [->|Hq]%elem_of_cons Hj; [apply Hpl|]. intros Hq'.
      apply Hj. by eapply (hr_disj _ _ _ Hr).
    + intros q. rewrite elem_of_dom. destruct (decide (q = p)) as [->|Hne].
      * rewrite Hhp. set_solver.
      * rewrite Hf, <-elem_of_dom by done. fold l. simpl.
        rewrite elem_of_cons. destruct (decide (q ∈ l.*1)) as [Hq|]; [|tauto].
        split; [tauto|]. intros _. apply (hr_dom _ _ _ Hr). eauto.
  - intros k' w Hk'. rewrite lookup_insert. case_decide; subst.
    + split; [intros [= ->]; exists p; left|].
      intros (q & [[= -> ->]|Hin]%elem_of_cons); [done|].
      assert (m !! k' = Some w) by (apply HB; eauto). congruence.
    + rewrite HB, Hk'. fold l. setoid_rewrite elem_of_cons. naive_solver.
  - intros k' Hk'. apply lookup_insert_ne. congruence.
Qed.

Lemma wp_insertHashNode s m k v Q :
  ht_models n s m → m !! k = None →
  (∀ s', ht_models n s' (<[k := v]> m) → Q tt s') →
  wp (insertHashNode n k v) s Q.
Proof.
  intros (B & Hr & HB) Hk HQ. pose proof (hr_pos _ _ _ Hr) as Hpos.
  unfold insertHashNode, createHashNode. rewrite wp_bind. apply wp_hashFunction; [done|].
  rewrite wp_bind. apply wp_malloc. intros p Hp. rewrite wp_bind.
  eapply wp_store; simpl; [apply lookup_insert_eq|].
  destruct (ht_bucket _ _ _ k Hr) as (b & Hb & Hc & Hcnt).
  rewrite wp_bind. eapply wp_aload; [exact Hb|].
  pose proof (idx_Some_range _ _ _ Hb) as Hit.
  pose proof (ht_models_cons s B m k v p b) as Hcons.
  destruct (hb_head b) as [q|] eqn:Eh; simpl.
  - rewrite wp_bind. eapply wp_store; simpl; [apply lookup_insert_eq|].
    apply wp_astore; [done|]. apply HQ, Hcons; simpl; try done.
    + intros r ?. by rewrite !lookup_insert_ne.
    + by rewrite lookup_insert_eq.
  - apply wp_astore; [done|]. simpl. apply cseg_null in Hc.
    replace 1 with (hb_count b + 1) by (rewrite Hcnt, Hc; done).
    apply HQ, Hcons; simpl; try done.
    + intros r ?. by rewrite !lookup_insert_ne.
    + by rewrite lookup_insert_eq.
Qed.

(** ** Deletion *)

(** The state in which the node [x] of the bucket [la ++ x :: lb] is gone. *)
Definition removed (h : gmap loc hashNode) la (x : loc * (Z * ptr)) lb h' (hd' : ptr) : Prop :=
  cseg h' hd' (la ++ lb) None ∧ dom h' = dom h ∖ {[x.1]} ∧
  ∀ q, q ∉ (la ++ x :: lb).*1 → h' !! q = h !! q.

Lemma removed_front h x lb :
  NoDup (x :: lb).*1 → ∀ nx, cseg h nx lb None → removed h [] x lb (delete x.1 h) nx.
Proof.
  rewrite fmap_cons, NoDup_cons. intros [Hx _] nx Hc. split_and!.
  - eapply cseg_frame; [|done]. intros r Hr. apply lookup_delete_ne. by intros <-.
  - apply dom_delete_L.
  - intros q Hq. apply lookup_delete_ne. intros <-. apply Hq. simpl. left.
Qed.

Lemma removed_mid h hd la y x lb nx :
  NoDup ((la ++ [y]) ++ x :: lb).*1 →
  cseg h hd (la ++ [y]) (Some x.1) → cseg h nx lb None →
  removed h (la ++ [y]) x lb (delete x.1 (<[y.1 := HashNode y.2.1 nx y.2.2]> h)) hd.
Proof.
  intros Hnd Hla Hlb. rewrite !fmap_app, fmap_cons in Hnd. simpl in Hnd.
  apply NoDup_app in Hnd as ([Hnd1 [Hy _]]%NoDup_app & Hdis & [Hx _]%NoDup_cons).
  assert (y.1 ≠ x.1 ∧ y.1 ∉ lb.*1) as [Hyx Hylb].
  { apply not_elem_of_cons. apply Hdis. set_solver. }
  assert (x.1 ∉ (la ++ [y]).*1) as Hxla.
  { rewrite fmap_app. intros Hin. apply (Hdis _ Hin). left. }
  split_and!.
  - apply cseg_app. exists nx. split.
    + eapply cseg_frame; [|apply (cseg_set_last h _ _ _ (Some x.1) nx); [|done]].
      * intros r Hr. apply lookup_delete_ne. by intros <-.
      * set_solver.
    + eapply cseg_frame; [|exact Hlb]. intros r Hr.
      rewrite lookup_delete_ne, lookup_insert_ne; [done| |]; by intros <-.
  - rewrite dom_delete_L, dom_insert_L.
    assert (y ∈ la ++ [y]) as Hin by set_solver.
    pose proof (cseg_lookup _ _ _ _ _ Hla Hin) as [? Hh%elem_of_dom_2]. set_solver.
  - intros q Hq. rewrite !fmap_app in Hq. simpl in Hq.
    rewrite lookup_delete_ne, lookup_insert_ne; set_solver.
Qed.

Lemma hb_head_mid h hd (la : bucket) y x lb :
  cseg h hd ((la ++ [y]) ++ x :: lb) None → NoDup ((la ++ [y]) ++ x :: lb).*1 → hd ≠ Some x.1.
Proof.
  intros Hc Hnd ->. rewrite fmap_app in Hnd. apply NoDup_app in Hnd as (_ & Hdis & _).
  apply (Hdis x.1); [|simpl; left]. destruct la as [|z la]; destruct Hc as [[= ->] _];
    simpl; set_solver.
Qed.

#[local] Transparent deleteHashNode_loop.
Lemma wp_deleteHashNode_loop s i b key l2 : ∀ l1 fuel temp p Q,
  idx (ht_tab s) i = Some b →
  cseg (ht_heap s) (hb_head b) (l1 ++ l2) None → NoDup (l1 ++ l2).*1 →
  cseg (ht_heap s) p l2 None →
  (∀ x l1', l1 = l1' ++ [x] → temp = Some x.1 ∧ cseg (ht_heap s) (hb_head b) l1 p) →
  (l1 = [] → hb_head b = p) →
  (length l2 < fuel)%nat →
  (key ∉ l2.*2.*1 → Q tt s) →
  (∀ la x lb h' hd', l1 ++ l2 = la ++ x :: lb → x.2.1 = key →
    removed (ht_heap s) la x lb h' hd' →
    Q tt (HashTable h' (upd (ht_tab s) i (Hash hd' (hb_count b - 1))))) →
  wp (deleteHashNode_loop fuel i key temp p) s Q.
Proof.
  induction l2 as [|x l2 IH]; intros l1 [|fuel] temp p Q Hb Hc Hnd Hp Ht Hh Hf Hmiss Hfound;
    simpl in Hf; try lia.
  { simpl in Hp. subst p. simpl. apply Hmiss. set_solver. }
  destruct Hp as [-> (nx & Hx & Hl2)]. simpl.
  rewrite wp_bind. eapply wp_load; [exact Hx|]. simpl.
  pose proof (idx_Some_range _ _ _ Hb) as Hi.
  destruct (Z.eqb_spec x.2.1 key) as [Hk|Hk].
  - rewrite wp_bind. eapply wp_aload; [exact Hb|]. rewrite wp_bind.
    destruct l1 as [|y l1 _] using rev_ind.
    + rewrite Hh, ptr_eqb_refl by done. apply wp_astore; [done|].
      rewrite wp_bind. eapply wp_aload; [simpl; by apply idx_upd_eq|].
      rewrite wp_bind. apply wp_astore; [simpl; by rewrite len_upd|]. simpl.
      eapply wp_free; [exact Hx|]. simpl. rewrite upd_upd.
      apply (Hfound [] x l2); [done..|]. by apply removed_front.
    + destruct (Ht y l1 eq_refl) as [-> Hl1].
      rewrite ptr_eqb_ne by (intros ?; by eapply hb_head_mid).
      assert (y ∈ l1 ++ [y]) as Hin by set_solver.
      pose proof (cseg_lookup _ _ _ _ _ Hl1 Hin) as [ny Hy].
      eapply wp_store; [exact Hy|]. rewrite wp_bind. eapply wp_aload; [exact Hb|].
      rewrite wp_bind. apply wp_astore; [done|]. simpl. unfold hn_set_next. simpl.
      assert (y.1 ≠ x.1).
      { intros E. rewrite fmap_app, fmap_app in Hnd. apply NoDup_app in Hnd as (_ & Hd & _).
        apply (Hd y.1); set_solver. }
      eapply wp_free; [simpl; by rewrite lookup_insert_ne|]. simpl.
      apply (Hfound (l1 ++ [y]) x l2); [done..|]. by apply (removed_mid _ (hb_head b)).
  - apply (IH (l1 ++ [x])); try done.
    + by rewrite <-app_assoc.
    + by rewrite <-app_assoc.
    + intros z l1' [-> <-]%app_inj_tail. split; [done|].
      apply cseg_app in Hc as (r & Hl1 & -> & ? & Hx' & _). apply cseg_app.
      exists (Some x.1). split; [done|]. simpl. split; [done|]. exists nx. done.
    + by destruct l1.
    + lia.
    + intros Hk'. apply Hmiss. rewrite !fmap_cons. by apply not_elem_of_cons.
    + intros la z lb h' hd' E. apply Hfound. by rewrite <-app_assoc in E.
Qed.
#[local] Opaque deleteHashNode_loop.

Lemma ht_models_removed s B (m : gmap Z ptr) k b la x lb h' hd' :
  ht_rep n s B → (∀ k v, m !! k = Some v ↔ ∃ p, (p, (k, v)) ∈ B (k mod n)) →
  idx (ht_tab s) (k mod n) = Some b →
  B (k mod n) = la ++ x :: lb → x.2.1 = k → removed (ht_heap s) la x lb h' hd' →
  ht_models n (HashTable h' (upd (ht_tab s) (k mod n) (Hash hd' (hb_count b - 1)))) (delete k m).
Proof.
  intros Hr HB Hb HE Hx (Hc & Hdom & Hf). pose proof (hr_pos _ _ _ Hr) as Hpos.
  pose proof (hash_range n k Hpos) as Hi.
  destruct (hr_bucket _ _ _ Hr _ _ Hb) as [_ Hcnt].
  pose proof (hr_nodup _ _ _ Hr (k mod n)) as Hnd.
  pose proof (hr_keys _ _ _ Hr (k mod n)) as Hks.
  assert (∀ y, y ∈ la ++ lb → y ∈ B (k mod n)) as Hsub by (rewrite HE; set_solver).
  rewrite HE, !fmap_app, !fmap_cons, <-Permutation_middle, NoDup_cons in Hks.
  rewrite HE, !fmap_app, !fmap_cons, <-Permutation_middle, NoDup_cons in Hnd.
  rewrite <-!fmap_app in Hks. rewrite <-!fmap_app in Hnd. destruct Hks as [Hxk Hks]. destruct Hnd as [Hxl Hnd].
  eapply (ht_models_fupd s B m _ (la ++ lb)); [done|done| | |].
  - apply ht_rep_update; try done.
    + split; [done|]. simpl. rewrite Hcnt, HE. len_lia.
    + intros j q Hj Hq. apply Hf. rewrite <-HE. intros Hq'. apply Hj.
      by eapply (hr_disj _ _ _ Hr).
    + intros y Hy. by apply (hr_hashed _ _ _ Hr), Hsub.
    + intros q j (y & -> & Hy)%list_elem_of_fmap Hj Hq'. apply Hj.
      eapply (hr_disj _ _ _ Hr); [done|]. apply list_elem_of_fmap. eauto.
    + intros q. rewrite Hdom, elem_of_difference, not_elem_of_singleton, HE.
      rewrite (fmap_app _ la (x :: lb)), fmap_cons, <-Permutation_middle, not_elem_of_cons,
        <-fmap_app.
      destruct (decide (q ∈ (la ++ lb).*1)) as [Hq|]; [|tauto].
      split; [by left|]. intros _. split; [|by intros ->].
      apply list_elem_of_fmap in Hq as (y & -> & Hy). apply (hr_dom _ _ _ Hr).
      exists (k mod n). split; [done|]. apply list_elem_of_fmap. eauto.
  - intros k' v Hk'. rewrite lookup_delete. case_decide; subst.
    + split; [done|]. intros (p & Hin). destruct Hxk. apply elem_of_keys. eauto.
    + rewrite HB, Hk', HE. setoid_rewrite elem_of_app. setoid_rewrite elem_of_cons.
      split; [|naive_solver]. intros (p & [?|[<-|?]]); eauto. done.
  - intros k' Hk'. apply lookup_delete_ne. congruence.
Qed.

Lemma wp_deleteHashNode s m k Q :
  ht_models n s m → (∀ s', ht_models n s' (delete k m) → Q tt s') →
  wp (deleteHashNode n k) s Q.
Proof.
  intros (B & Hr & HB) HQ. unfold deleteHashNode. rewrite wp_bind.
  apply wp_hashFunction; [apply Hr|].
  destruct (ht_bucket _ _ _ k Hr) as (b & Hb & Hc & _). rewrite wp_bind.
  eapply wp_aload; [done|].
  assert (k ∉ (B (k mod n)).*2.*1 → Q tt s) as Hmiss.
  { intros Hk. apply HQ. rewrite delete_id; [by exists B|].
    destruct (m !! k) as [v|] eqn:E; [|done]. apply HB in E as [p E].
    destruct Hk. apply elem_of_keys. eauto. }
  destruct (hb_head b) as [q|] eqn:Eh; simpl.
  - wp_pure. eapply (wp_deleteHashNode_loop _ _ _ _ (B (k mod n)) []); try done.
    + by rewrite Eh.
    + apply Hr.
    + intros x l1 E. by destruct l1.
    + pose proof (cseg_size _ _ _ _ Hc (hr_nodup _ _ _ Hr _)). lia.
    + intros la x lb h' hd' E Hx Hrem. apply HQ. by eapply ht_models_removed.
  - wp_pure. apply Hmiss. apply cseg_null in Hc. rewrite Hc. set_solver.
Qed.

Lemma ht_models_empty : 0 < n → ht_models n (ht_empty n) ∅.
Proof.
  intros Hn. exists (λ _, []). split.
  - split; simpl; try done.
    + apply len_replicate. lia.
    + intros i b Hb. pose proof (idx_Some_range _ _ _ Hb) as Hi.
      rewrite len_replicate in Hi by lia. rewrite idx_replicate in Hb by done.
      by injection Hb as <-.
    + constructor.
    + intros i j p Hp. by apply elem_of_nil in Hp.
    + intros p. rewrite dom_empty_L. set_solver.
    + constructor.
    + intros i x Hx. by apply elem_of_nil in Hx.
  - intros k v. rewrite lookup_empty. split; [done|].
    intros [p Hp]. by apply elem_of_nil in Hp.
Qed.

(** ** The buckets, as the random policy walks them *)

Lemma ht_models_tab s m : ht_models n s m → len (ht_tab s) = n ∧ 0 < n.
Proof. intros (B & Hr & _). split; apply Hr. Qed.

(** The first node of a bucket holds a key of the map. *)
Lemma ht_models_head s m i b q :
  ht_models n s m → idx (ht_tab s) i = Some b → hb_head b = Some q →
  ∃ k nx v, ht_heap s !! q = Some (HashNode k nx v) ∧ m !! k = Some v ∧ k mod n = i.
Proof.
  intros (B & Hr & HB) Hb Hq. destruct (hr_bucket _ _ _ Hr _ _ Hb) as [Hc _].
  rewrite Hq in Hc. destruct (B i) as [|[p [k v]] l] eqn:E; [done|].
  destruct Hc as [[= ->] (nx & Hp & _)]. simpl in *.
  assert ((p, (k, v)) ∈ B i) as Hin by (rewrite E; left).
  pose proof (hr_hashed _ _ _ Hr _ _ Hin) as [_ Hk]. simpl in Hk.
  exists k, nx, v. split_and!; [done| |done]. apply HB. exists p. by rewrite Hk.
Qed.

Lemma ht_models_nonempty s m k v :
  ht_models n s m → m !! k = Some v →
  ∃ b q, idx (ht_tab s) (k mod n) = Some b ∧ hb_head b = Some q.
Proof.
  intros (B & Hr & HB) Hk. destruct (ht_bucket _ _ _ k Hr) as (b & Hb & Hc & _).
  exists b. destruct (hb_head b) as [q|] eqn:E; [eauto|]. apply cseg_null in Hc.
  apply HB in Hk as [p Hp]. rewrite Hc in Hp. by apply elem_of_nil in Hp.
Qed.

Lemma ht_models_count0 s m i b :
  ht_models n s m → idx (ht_tab s) i = Some b → hb_count b = 0 → hb_head b = None.
Proof.
  intros (B & Hr & HB) Hb H0. destruct (hr_bucket _ _ _ Hr _ _ Hb) as [Hc Hcnt].
  destruct (B i) as [|x l]; [done|]. rewrite H0 in Hcnt. len_lia.
Qed.

(** Every key has its own node. *)
Lemma ht_models_size s m K :
  ht_models n s m → NoDup K → (∀ k, k ∈ K → is_Some (m !! k)) →
  (length K <= size (ht_heap s))%nat.
Proof.
  intros (B & Hr & HB) Hnd HK.
  replace (size (ht_heap s)) with (length (hn_key <$> (map_to_list (ht_heap s)).*2))
    by by rewrite !length_fmap, length_map_to_list.
  apply submseteq_length, NoDup_submseteq; [done|]. intros k Hk.
  destruct (HK k Hk) as [v (p & Hp)%HB].
  pose proof (hr_hashed _ _ _ Hr _ _ Hp) as [Hi _].
  rewrite <-(hr_len _ _ _ Hr) in Hi at 3. apply idx_is_Some in Hi as [b Hb].
  destruct (hr_bucket _ _ _ Hr _ _ Hb) as [Hc _].
  pose proof (cseg_lookup _ _ _ _ _ Hc Hp) as [nx Hx]. simpl in Hx.
  apply list_elem_of_fmap. eexists. split; [|apply list_elem_of_fmap; eexists (p, _);
    split; [reflexivity|by apply elem_of_map_to_list]]. done.
Qed.
End specs.
