(* ===== verification/FreqList.v ===== *)
(** * The frequency list of [page_table.c]

    [createlfuListNode], [moveNodeToNextFreq] and [deletelfuListNode] of
    src/ip6/lib/vmem/page_table.c: a doubly linked list of [struct
    freqListNode], one per use count, each with a doubly linked list of
    [struct lfuListNode]. *)

From Stdlib Require Import Sorting.Sorted.
From stdpp Require Import sorting.
From S2P Require Import Prelude Links.

Record freqListNode := FreqNode {
  fn_useCount : Z; fn_next : ptr; fn_prev : ptr; fn_head : ptr; fn_tail : ptr;
}.
Record lfuListNode := LfuNode {
  ln_key : Z; ln_next : ptr; ln_prev : ptr; ln_parent : ptr;
}.
Record freqList := FreqList {
  fl_fheap : gmap loc freqListNode;
  fl_lheap : gmap loc lfuListNode;
  fl_head : ptr;
  fl_count : Z;
}.

#[export] Program Instance fl_has_fheap : HasHeap freqList freqListNode := {|
  heap_of := fl_fheap;
  set_heap h s := FreqList h (fl_lheap s) (fl_head s) (fl_count s);
|}.
Solve Obligations with (by intros; try match goal with s : freqList |- _ => destruct s end).
#[export] Program Instance fl_has_lheap : HasHeap freqList lfuListNode := {|
  heap_of := fl_lheap;
  set_heap h s := FreqList (fl_fheap s) h (fl_head s) (fl_count s);
|}.
Solve Obligations with (by intros; try match goal with s : freqList |- _ => destruct s end).

#[export] Program Instance lfu_link : LinkNode (Z * ptr) lfuListNode := {|
  mkn a n p := LfuNode a.1 n p a.2;
  nnext := ln_next;
  nprev := ln_prev;
  set_next q n := LfuNode (ln_key n) q (ln_prev n) (ln_parent n);
  set_prev q n := LfuNode (ln_key n) (ln_next n) q (ln_parent n);
|}.
Solve Obligations with done.
#[export] Program Instance freq_link : LinkNode (Z * ptr * ptr) freqListNode := {|
  mkn a n p := FreqNode a.1.1 n p a.1.2 a.2;
  nnext := fn_next;
  nprev := fn_prev;
  set_next q n := FreqNode (fn_useCount n) q (fn_prev n) (fn_head n) (fn_tail n);
  set_prev q n := FreqNode (fn_useCount n) (fn_next n) q (fn_head n) (fn_tail n);
|}.
Solve Obligations with done.

Definition ln_set_parent (q : ptr) (n : lfuListNode) :=
  LfuNode (ln_key n) (ln_next n) (ln_prev n) q.
Definition fn_set_head (q : ptr) (n : freqListNode) :=
  FreqNode (fn_useCount n) (fn_next n) (fn_prev n) q (fn_tail n).
Definition fn_set_tail (q : ptr) (n : freqListNode) :=
  FreqNode (fn_useCount n) (fn_next n) (fn_prev n) (fn_head n) q.
Definition fl_set_head (q : ptr) (s : freqList) := FreqList (fl_fheap s) (fl_lheap s) q (fl_count s).
Definition fl_set_count (c : Z) (s : freqList) := FreqList (fl_fheap s) (fl_lheap s) (fl_head s) c.

(** The state after [calloc] and [freqList->count = 0]. *)
Definition freq_empty : freqList := FreqList ∅ ∅ None 0.

Section operations.
Context `{Malloc}.

Definition loadF (p : ptr) : M freqList freqListNode := load p.
Definition loadL (p : ptr) : M freqList lfuListNode := load p.
Definition storeF (p : ptr) (f : freqListNode → freqListNode) : M freqList unit := store p f.
Definition storeL (p : ptr) (f : lfuListNode → lfuListNode) : M freqList unit := store p f.

Definition createlfuListNode (key : Z) : M freqList ptr :=
  newnode ← malloc (LfuNode key None None None);
  head ← gets fl_head;
  first ← (if is_null head then mret false
           else f ← loadF head; mret (fn_useCount f =? 0));
  (if (first : bool) then
     f ← loadF head;
     storeL newnode (set_next (fn_head f));;
     storeL (fn_head f) (set_prev newnode);;
     storeF head (fn_set_head newnode)
   else
     newFreqNode ← malloc (FreqNode 0 None None newnode newnode);
     (if is_null head then mret tt
      else storeF head (set_prev newFreqNode);; storeF newFreqNode (set_next head));;
     modify (fl_set_head newFreqNode));;
  head ← gets fl_head;
  storeL newnode (ln_set_parent head);;
  modify (λ s, fl_set_count (u64 (fl_count s + 1)) s);;
  mret newnode.

(** [moveNodeToNextFreq], first part: the node for the next use count
    exists after [parent]. *)
Definition ensureNextFreq (parent : ptr) : M freqList unit :=
  par ← loadF parent;
  if is_null (fn_next par) then
    newFreqNode ← malloc (FreqNode (u64 (fn_useCount par + 1)) None parent None None);
    storeF parent (set_next newFreqNode)
  else
    nx ← loadF (fn_next par);
    if u64 (fn_useCount par + 1) <? fn_useCount nx then
      newFreqNode ← malloc (FreqNode (u64 (fn_useCount par + 1)) (fn_next par) parent None None);
      storeF (fn_next par) (set_prev newFreqNode);;
      storeF parent (set_next newFreqNode)
    else mret tt.

(** [if (node == parent->head) parent->head = node->next;
    if (node == parent->tail) parent->tail = node->prev;] *)
Definition fixEnds (node : ptr) : M freqList unit :=
  n ← loadL node;
  par ← loadF (ln_parent n);
  when (ptr_eqb (fn_head par) node) (storeF (ln_parent n) (fn_set_head (ln_next n)));;
  par ← loadF (ln_parent n);
  when (ptr_eqb (fn_tail par) node) (storeF (ln_parent n) (fn_set_tail (ln_prev n))).

(** [moveNodeToNextFreq], third part: to the front of the next list. *)
Definition pushNextFreq (node : ptr) : M freqList unit :=
  n ← loadL node;
  par ← loadF (ln_parent n);
  storeL node (ln_set_parent (fn_next par));;
  np ← loadF (fn_next par);
  (if is_null (fn_head np) then mret tt else storeL (fn_head np) (set_prev node));;
  storeL node (set_next (fn_head np));;
  storeL node (set_prev None);;
  storeF (fn_next par) (fn_set_head node);;
  when (is_null (fn_tail np)) (storeF (fn_next par) (fn_set_tail node)).

(** [moveNodeToNextFreq], last part: drop the old frequency node if it is
    now empty. *)
Definition dropFreq (temp : ptr) : M freqList unit :=
  t ← loadF temp;
  if is_null (fn_head t) then
    head ← gets fl_head;
    when (ptr_eqb temp head) (modify (fl_set_head (fn_next t)));;
    unlink (N := freqListNode) temp;;
    free (N := freqListNode) temp
  else mret tt.

Definition moveNodeToNextFreq (node : ptr) : M freqList unit :=
  n ← loadL node;
  let temp := ln_parent n in
  ensureNextFreq temp;;
  unlink (N := lfuListNode) node;;
  fixEnds node;;
  pushNextFreq node;;
  dropFreq temp.

Definition deletelfuListNode (node : ptr) : M freqList unit :=
  fixEnds node;;
  unlink (N := lfuListNode) node;;
  n ← loadL node;
  par ← loadF (ln_parent n);
  (if is_null (fn_head par) then
     head ← gets fl_head;
     when (ptr_eqb (ln_parent n) head) (modify (fl_set_head (fn_next par)));;
     storeF (ln_parent n) (set_prev (fn_next par));;
     par ← loadF (ln_parent n);
     storeF (ln_parent n) (set_next (fn_prev par))
   else mret tt);;
  free (N := lfuListNode) node;;
  modify (λ s, fl_set_count (u64 (fl_count s - 1)) s).
End operations.

(** ** Representation

    A group is a frequency node with its use count and its (node, key) cells,
    most recent first. *)

Abbreviation cells := (list (loc * Z)).
Abbreviation group := (loc * (Z * cells))%type.

Definition fcell (g : group) : loc * (Z * ptr * ptr) :=
  (g.1, (g.2.1, hd_ptr g.2.2 None, last_ptr g.2.2 None)).
Definition fcells (G : list group) : list (loc * (Z * ptr * ptr)) := fcell <$> G.
Definition lcells (f : loc) (cs : cells) : list (loc * (Z * ptr)) :=
  (λ x, (x.1, (x.2, Some f))) <$> cs.
Definition allcells (G : list group) : cells := G ≫= (λ g, g.2.2).

(** [pp] is what the first frequency node has as predecessor; [X] are live
    list nodes outside the structure. *)
Record frep (s : freqList) (pp : ptr) (G : list group) (X : gset loc) : Prop := {
  fr_seg : dseg (fl_fheap s) pp (fcells G) None;
  fr_out : outside (fl_fheap s) pp (fcells G);
  fr_head : fl_head s = hd_ptr (fcells G) None;
  fr_cells g : g ∈ G → dseg (fl_lheap s) None (lcells g.1 g.2.2) None;
  fr_fnodup : NoDup G.*1;
  fr_nodup : NoDup (allcells G).*1;
  fr_dom : dom (fl_lheap s) = list_to_set (allcells G).*1 ∪ X;
}.

(** The full invariant: no empty group, use counts strictly increasing. *)
Record freq_rep (s : freqList) (G : list group) : Prop := {
  fq_rep : ∃ pp, frep s pp G ∅;
  fq_count : fl_count s = len (allcells G);
  fq_nonempty g : g ∈ G → g.2.2 ≠ [];
  fq_sorted : StronglySorted Z.lt (G.*2.*1);
  fq_nonneg g : g ∈ G → 0 <= g.2.1;
}.

Lemma fcells_app G1 G2 : fcells (G1 ++ G2) = fcells G1 ++ fcells G2.
Proof. apply fmap_app. Qed.
Lemma fcells_locs G : (fcells G).*1 = G.*1.
Proof. unfold fcells. rewrite <-list_fmap_compose. done. Qed.
Lemma lcells_locs f cs : (lcells f cs).*1 = cs.*1.
Proof. unfold lcells. rewrite <-list_fmap_compose. done. Qed.
Lemma lcells_app f c1 c2 : lcells f (c1 ++ c2) = lcells f c1 ++ lcells f c2.
Proof. apply fmap_app. Qed.
Lemma hd_ptr_lcells f cs nn : hd_ptr (lcells f cs) nn = hd_ptr cs nn.
Proof. by destruct cs. Qed.
Lemma last_ptr_lcells f cs pp : last_ptr (lcells f cs) pp = last_ptr cs pp.
Proof. revert pp. induction cs as [|x cs IH]; intros pp; [done|]. apply IH. Qed.
Lemma allcells_app G1 G2 : allcells (G1 ++ G2) = allcells G1 ++ allcells G2.
Proof. apply bind_app. Qed.
Lemma allcells_cons g G : allcells (g :: G) = g.2.2 ++ allcells G.
Proof. reflexivity. Qed.
Lemma elem_of_allcells x G : x ∈ allcells G ↔ ∃ g, g ∈ G ∧ x ∈ g.2.2.
Proof. unfold allcells. rewrite list_elem_of_bind. naive_solver. Qed.

Lemma freq_rep_empty : freq_rep freq_empty [].
Proof.
  split; try done.
  - exists None. split; try done; [|constructor..].
    intros g Hg. by apply elem_of_nil in Hg.
  - intros g Hg. by apply elem_of_nil in Hg.
  - constructor.
  - intros g Hg. by apply elem_of_nil in Hg.
Qed.

Section frep_lemmas.
Implicit Types (s : freqList) (G : list group) (X : gset loc).

(** The frequency node of a group. *)
Lemma frep_fnode s pp G1 g G2 X :
  frep s pp (G1 ++ g :: G2) X →
  fl_fheap s !! g.1 = Some (FreqNode g.2.1 (hd_ptr (fcells G2) None)
    (last_ptr (fcells G1) pp) (hd_ptr g.2.2 None) (last_ptr g.2.2 None)).
Proof.
  intros Hr. pose proof (fr_seg _ _ _ _ Hr) as Hs. rewrite fcells_app in Hs.
  by apply (dseg_mid _ _ _ (fcell g)) in Hs.
Qed.

(** The list node of a cell. *)
Lemma frep_lnode s pp G g X c1 x c2 :
  frep s pp G X → g ∈ G → g.2.2 = c1 ++ x :: c2 →
  fl_lheap s !! x.1 = Some (LfuNode x.2 (hd_ptr c2 None) (last_ptr c1 None) (Some g.1)).
Proof.
  intros Hr Hg E. pose proof (fr_cells _ _ _ _ Hr g Hg) as Hs. rewrite E, lcells_app in Hs.
  apply (dseg_mid _ _ _ (x.1, (x.2, Some g.1)) (lcells g.1 c2)) in Hs.
  by rewrite last_ptr_lcells, hd_ptr_lcells in Hs.
Qed.

(** A cell belongs to one group only. *)
Lemma allcells_mid_disj G1 (g : group) G2 p :
  NoDup (allcells (G1 ++ g :: G2)).*1 → p ∈ g.2.2.*1 →
  ∀ g', g' ∈ G1 ++ G2 → p ∉ g'.2.2.*1.
Proof.
  intros Hnd Hp g' Hg' Hp'.
  rewrite allcells_app, allcells_cons, !fmap_app, Permutation_app_comm, <-app_assoc in Hnd.
  apply NoDup_app in Hnd as (_ & Hd & _). apply (Hd p Hp).
  rewrite <-fmap_app, Permutation_app_comm. rewrite <-allcells_app.
  apply list_elem_of_fmap in Hp' as (x & -> & Hx). apply list_elem_of_fmap. exists x.
  split; [done|]. apply elem_of_allcells. eauto.
Qed.

Lemma frep_set_group s pp G1 f u cs G2 X cs' lh' X' :
  frep s pp (G1 ++ (f, (u, cs)) :: G2) X →
  dseg lh' None (lcells f cs') None →
  (∀ g p, g ∈ G1 ++ G2 → p ∈ g.2.2.*1 → lh' !! p = fl_lheap s !! p) →
  NoDup (allcells (G1 ++ (f, (u, cs')) :: G2)).*1 →
  dom lh' = list_to_set (allcells (G1 ++ (f, (u, cs')) :: G2)).*1 ∪ X' →
  frep (FreqList (<[f := FreqNode u (hd_ptr (fcells G2) None) (last_ptr (fcells G1) pp)
                      (hd_ptr cs' None) (last_ptr cs' None)]> (fl_fheap s))
          lh' (fl_head s) (fl_count s))
    pp (G1 ++ (f, (u, cs')) :: G2) X'.
Proof.
  intros [Hseg Hout Hhd Hcs Hfnd Hnd Hdom] Hcs' Hf Hnd' Hdom'. split; simpl; try done.
  - rewrite fcells_app in *. simpl.
    pose proof (dseg_set_payload (fl_fheap s) pp (fcells G1) f
      (u, hd_ptr cs None, last_ptr cs None) (u, hd_ptr cs' None, last_ptr cs' None)
      (fcells G2) None) as Hset. simpl in Hset. apply Hset; [|done].
    rewrite <-(fcells_locs (G1 ++ _)), fcells_app in Hfnd. done.
  - destruct pp as [q|]; [|done]. destruct Hout as [Hq (a & n & p & Hh)].
    rewrite fcells_locs, fmap_app, fmap_cons in Hq.
    split; [by rewrite fcells_locs, fmap_app, fmap_cons|].
    rewrite lookup_insert_ne; [eauto|]. simpl in *. set_solver.
  - by rewrite Hhd, !fcells_app, !hd_ptr_app.
  - intros g Hg. apply elem_of_app in Hg as [Hg|[->|Hg]%elem_of_cons]; [|done|];
      (eapply dseg_frame; [|apply Hcs; set_solver]);
      intros p Hp; rewrite lcells_locs in Hp; apply (Hf g); set_solver.
  - rewrite !fmap_app, !fmap_cons in *. done.
Qed.

Lemma hd_ptr_mid_eq (c1 : cells) x c2 :
  x.1 ∉ (c1 ++ c2).*1 →
  (if ptr_eqb (hd_ptr (c1 ++ x :: c2) None) (Some x.1) then hd_ptr c2 None
   else hd_ptr (c1 ++ x :: c2) None) = hd_ptr (c1 ++ c2) None.
Proof.
  intros Hx. destruct c1 as [|y c1]; simpl; [by rewrite ptr_eqb_refl|].
  rewrite ptr_eqb_ne; [done|]. intros [= E]. simpl in Hx. set_solver.
Qed.
Lemma last_ptr_mid_eq (c1 : cells) x c2 :
  x.1 ∉ (c1 ++ c2).*1 →
  (if ptr_eqb (last_ptr (c1 ++ x :: c2) None) (Some x.1) then last_ptr c1 None
   else last_ptr (c1 ++ x :: c2) None) = last_ptr (c1 ++ c2) None.
Proof.
  intros Hx. rewrite !last_ptr_app. simpl.
  destruct c2 as [|y c2 _] using rev_ind; simpl; [by rewrite ptr_eqb_refl|].
  rewrite !last_ptr_app. simpl. rewrite ptr_eqb_ne; [done|].
  intros [= E]. rewrite !fmap_app in Hx. set_solver.
Qed.

Lemma wp_fixEnds s x c1 c2 f u nx pv Q :
  fl_lheap s !! x.1 = Some (LfuNode x.2 (hd_ptr c2 None) (last_ptr c1 None) (Some f)) →
  fl_fheap s !! f = Some (FreqNode u nx pv (hd_ptr (c1 ++ x :: c2) None)
                            (last_ptr (c1 ++ x :: c2) None)) →
  x.1 ∉ (c1 ++ c2).*1 →
  Q tt (FreqList (<[f := FreqNode u nx pv (hd_ptr (c1 ++ c2) None) (last_ptr (c1 ++ c2) None)]>
                    (fl_fheap s)) (fl_lheap s) (fl_head s) (fl_count s)) →
  wp (fixEnds (Some x.1)) s Q.
Proof.
  intros Hl Hf Hx HQ. unfold fixEnds, loadL, loadF, storeF, when.
  rewrite wp_bind. eapply wp_load; [exact Hl|]. simpl.
  rewrite wp_bind. eapply wp_load; [exact Hf|]. simpl.
  rewrite <-(hd_ptr_mid_eq _ _ _ Hx), <-(last_ptr_mid_eq _ _ _ Hx) in HQ.
  destruct s as [fh lh hd c]; simpl in *. rewrite wp_bind.
  destruct (ptr_eqb (hd_ptr _ None) _).
  - eapply wp_store; [exact Hf|]. simpl. rewrite wp_bind.
    eapply wp_load; [simpl; apply lookup_insert_eq|]. simpl.
    destruct (ptr_eqb (last_ptr _ None) _); [|done].
    eapply wp_store; [simpl; apply lookup_insert_eq|]. simpl.
    by rewrite insert_insert_eq.
  - rewrite wp_ret, wp_bind. eapply wp_load; [exact Hf|]. simpl.
    destruct (ptr_eqb (last_ptr _ None) _).
    + eapply wp_store; [exact Hf|]. done.
    + rewrite wp_ret. by rewrite insert_id in HQ.
Qed.

Lemma wp_unlinkL s f c1 x c2 Q :
  dseg (fl_lheap s) None (lcells f (c1 ++ x :: c2)) None → NoDup (c1 ++ x :: c2).*1 →
  (∀ lh', dseg lh' None (lcells f (c1 ++ c2)) None → lh' !! x.1 = fl_lheap s !! x.1 →
     dom lh' = dom (fl_lheap s) →
     (∀ q, q ∉ (c1 ++ c2).*1 → lh' !! q = fl_lheap s !! q) →
     Q tt (FreqList (fl_fheap s) lh' (fl_head s) (fl_count s))) →
  wp (unlink (N := lfuListNode) (Some x.1)) s Q.
Proof.
  intros Hd Hnd HQ. rewrite lcells_app in Hd.
  eapply (wp_unlink s None (lcells f c1) (x.1, (x.2, Some f)) (lcells f c2)); [done| |done|].
  { rewrite fmap_app, fmap_cons, !lcells_locs. by rewrite fmap_app, fmap_cons in Hnd. }
  intros lh' [Hs Hn Hdm Hfr _]. apply HQ; try done.
  - by rewrite lcells_app.
  - intros q Hq. apply Hfr; [|done]. by rewrite fmap_app, !lcells_locs, <-fmap_app.
Qed.
End frep_lemmas.

Section phases.
Context `{Malloc}.
Implicit Types (s : freqList) (G : list group) (X : gset loc).

Lemma allcells_NoDup_mid G1 f u c1 x c2 G2 :
  NoDup (allcells (G1 ++ (f, (u, c1 ++ x :: c2)) :: G2)).*1 →
  NoDup (c1 ++ x :: c2).*1 ∧ (x.1 ∉ (c1 ++ c2).*1) ∧
  NoDup (allcells (G1 ++ (f, (u, c1 ++ c2)) :: G2)).*1 ∧
  (x.1 ∉ (allcells (G1 ++ (f, (u, c1 ++ c2)) :: G2)).*1) ∧
  (allcells (G1 ++ (f, (u, c1 ++ x :: c2)) :: G2)).*1 ≡ₚ
    x.1 :: (allcells (G1 ++ (f, (u, c1 ++ c2)) :: G2)).*1.
Proof.
  intros Hnd.
  assert ((allcells (G1 ++ (f, (u, c1 ++ x :: c2)) :: G2)).*1 ≡ₚ
    x.1 :: (allcells (G1 ++ (f, (u, c1 ++ c2)) :: G2)).*1) as Hp.
  { rewrite !allcells_app, !allcells_cons. cbn [fst snd]. rewrite !fmap_app, fmap_cons.
    rewrite <-(Permutation_middle c1.*1). cbn [app]. by rewrite <-Permutation_middle. }
  split_and!; try done.
  - rewrite allcells_app, allcells_cons in Hnd. cbn [fst snd] in Hnd.
    rewrite fmap_app, (fmap_app _ (c1 ++ x :: c2)) in Hnd.
    by apply NoDup_app in Hnd as (_ & _ & [Hn _]%NoDup_app).
  - rewrite Hp in Hnd. apply NoDup_cons in Hnd as [Hx _]. intros Hin. apply Hx.
    rewrite allcells_app, allcells_cons, !fmap_app. simpl. set_solver.
  - rewrite Hp in Hnd. by apply NoDup_cons in Hnd as [_ ?].
  - rewrite Hp in Hnd. by apply NoDup_cons in Hnd as [? _].
Qed.

(** The list node of a cell can be taken out of its group. *)
Lemma frep_detach s pp G1 f u c1 x c2 G2 lh' :
  frep s pp (G1 ++ (f, (u, c1 ++ x :: c2)) :: G2) ∅ →
  dseg lh' None (lcells f (c1 ++ c2)) None →
  dom lh' = dom (fl_lheap s) →
  (∀ q, q ∉ (c1 ++ c2).*1 → lh' !! q = fl_lheap s !! q) →
  frep (FreqList (<[f := FreqNode u (hd_ptr (fcells G2) None) (last_ptr (fcells G1) pp)
                      (hd_ptr (c1 ++ c2) None) (last_ptr (c1 ++ c2) None)]> (fl_fheap s))
          lh' (fl_head s) (fl_count s))
    pp (G1 ++ (f, (u, c1 ++ c2)) :: G2) {[x.1]}.
Proof.
  intros Hr Hseg Hdom Hfr. pose proof (fr_nodup _ _ _ _ Hr) as Hnd.
  pose proof (allcells_NoDup_mid _ _ _ _ _ _ _ Hnd) as (_ & _ & Hnd' & _ & Hp).
  eapply frep_set_group; [exact Hr|done| |done|].
  - intros g p Hg Hpg. apply Hfr. intros Hin.
    eapply (allcells_mid_disj G1 (f, (u, c1 ++ x :: c2)) G2); [exact Hnd| |exact Hg|exact Hpg].
    cbn [fst snd]. rewrite fmap_app in Hin. rewrite fmap_app, fmap_cons.
    apply elem_of_app in Hin as [?|?]; apply elem_of_app; [by left|right].
    apply elem_of_cons. by right.
  - rewrite Hdom, (fr_dom _ _ _ _ Hr), Hp, list_to_set_cons.
    by rewrite union_empty_r_L, union_comm_L.
Qed.

Lemma wp_unlink_fixEnds s pp G1 f u c1 x c2 G2 Q :
  frep s pp (G1 ++ (f, (u, c1 ++ x :: c2)) :: G2) ∅ →
  (∀ s', frep s' pp (G1 ++ (f, (u, c1 ++ c2)) :: G2) {[x.1]} →
     fl_lheap s' !! x.1 = fl_lheap s !! x.1 → fl_count s' = fl_count s → Q tt s') →
  wp (unlink (N := lfuListNode) (Some x.1);; fixEnds (Some x.1)) s Q.
Proof.
  intros Hr HQ.
  pose proof (allcells_NoDup_mid _ _ _ _ _ _ _ (fr_nodup _ _ _ _ Hr)) as (Hndc & Hxc & _).
  assert ((f, (u, c1 ++ x :: c2)) ∈ G1 ++ (f, (u, c1 ++ x :: c2)) :: G2) as Hg by set_solver.
  pose proof (frep_lnode _ _ _ _ _ c1 x c2 Hr Hg eq_refl) as Hl.
  pose proof (frep_fnode _ _ _ _ _ _ Hr) as Hf. simpl in Hl, Hf.
  rewrite wp_bind. apply (wp_unlinkL s f c1 x c2); [by apply (fr_cells _ _ _ _ Hr _ Hg)|done|].
  intros lh' Hs' Hx Hdom Hfr.
  eapply wp_fixEnds; [simpl; rewrite Hx; exact Hl|exact Hf|done|].
  apply HQ; [|done|done]. by apply (frep_detach s pp G1 f u c1 x c2 G2 lh').
Qed.

Lemma wp_fixEnds_unlink s pp G1 f u c1 x c2 G2 Q :
  frep s pp (G1 ++ (f, (u, c1 ++ x :: c2)) :: G2) ∅ →
  (∀ s', frep s' pp (G1 ++ (f, (u, c1 ++ c2)) :: G2) {[x.1]} →
     fl_lheap s' !! x.1 = fl_lheap s !! x.1 → fl_count s' = fl_count s → Q tt s') →
  wp (fixEnds (Some x.1);; unlink (N := lfuListNode) (Some x.1)) s Q.
Proof.
  intros Hr HQ.
  pose proof (allcells_NoDup_mid _ _ _ _ _ _ _ (fr_nodup _ _ _ _ Hr)) as (Hndc & Hxc & _).
  assert ((f, (u, c1 ++ x :: c2)) ∈ G1 ++ (f, (u, c1 ++ x :: c2)) :: G2) as Hg by set_solver.
  pose proof (frep_lnode _ _ _ _ _ c1 x c2 Hr Hg eq_refl) as Hl.
  pose proof (frep_fnode _ _ _ _ _ _ Hr) as Hf. simpl in Hl, Hf.
  rewrite wp_bind. eapply wp_fixEnds; [exact Hl|exact Hf|done|].
  eapply (wp_unlinkL _ f c1 x c2); [by apply (fr_cells _ _ _ _ Hr _ Hg)|done|].
  intros lh' Hs' Hx Hdom Hfr. simpl in *.
  apply HQ; [|done|done]. by apply (frep_detach s pp G1 f u c1 x c2 G2 lh').
Qed.

(** A live node outside the structure becomes the front of a group. *)
Lemma frep_push s pp G1 f' u' cs' G2 x lh' :
  frep s pp (G1 ++ (f', (u', cs')) :: G2) {[x.1]} →
  x.1 ∉ (allcells (G1 ++ (f', (u', cs')) :: G2)).*1 →
  dseg lh' None (lcells f' (x :: cs')) None →
  dom lh' = dom (fl_lheap s) →
  (∀ q, q ≠ x.1 → q ∉ cs'.*1 → lh' !! q = fl_lheap s !! q) →
  frep (FreqList (<[f' := FreqNode u' (hd_ptr (fcells G2) None) (last_ptr (fcells G1) pp)
                      (Some x.1) (last_ptr (x :: cs') None)]> (fl_fheap s))
          lh' (fl_head s) (fl_count s))
    pp (G1 ++ (f', (u', x :: cs')) :: G2) ∅.
Proof.
  intros Hr Hx Hseg Hdom Hfr. pose proof (fr_nodup _ _ _ _ Hr) as Hnd.
  assert ((allcells (G1 ++ (f', (u', x :: cs')) :: G2)).*1 ≡ₚ
    x.1 :: (allcells (G1 ++ (f', (u', cs')) :: G2)).*1) as Hp.
  { rewrite !allcells_app, !allcells_cons. cbn [fst snd]. rewrite !fmap_app, fmap_cons.
    cbn [app]. by rewrite <-Permutation_middle. }
  apply (frep_set_group s pp G1 f' u' cs' G2 {[x.1]} (x :: cs') lh' ∅); [done|done|..].
  - intros g p Hg Hpg. apply Hfr.
    + intros ->. apply Hx. apply list_elem_of_fmap in Hpg as (y & E & Hy).
      rewrite E. apply list_elem_of_fmap. exists y. split; [done|].
      apply elem_of_allcells. exists g. set_solver.
    + intros Hin. by eapply (allcells_mid_disj G1 (f', (u', cs')) G2).
  - rewrite Hp. by constructor.
  - rewrite Hdom, (fr_dom _ _ _ _ Hr), Hp, list_to_set_cons.
    by rewrite union_empty_r_L, union_comm_L.
Qed.
(** A fresh, empty frequency node linked in after the group [g]. *)
Lemma frep_insert_freq s pp G1 (g : group) f' u' G2 X fh' :
  frep s pp (G1 ++ g :: G2) X → fl_fheap s !! f' = None →
  fh' !! g.1 = Some (FreqNode g.2.1 (Some f') (last_ptr (fcells G1) pp)
                       (hd_ptr g.2.2 None) (last_ptr g.2.2 None)) →
  fh' !! f' = Some (FreqNode u' (hd_ptr (fcells G2) None) (Some g.1) None None) →
  (∀ k G2', G2 = k :: G2' → fh' !! k.1 = Some (FreqNode k.2.1 (hd_ptr (fcells G2') None) (Some f')
                       (hd_ptr k.2.2 None) (last_ptr k.2.2 None))) →
  (∀ q, q ≠ g.1 → q ≠ f' → Some q ≠ hd_ptr (fcells G2) None → fh' !! q = fl_fheap s !! q) →
  frep (FreqList fh' (fl_lheap s) (fl_head s) (fl_count s)) pp
    (G1 ++ g :: (f', (u', [])) :: G2) X.
Proof.
  intros [Hseg Hout Hhd Hcs Hfnd Hnd Hdom] Hf' Hg' Hn' Hk' Hq'.
  assert (f' ∉ (G1 ++ g :: G2).*1) as Hfresh.
  { rewrite <-fcells_locs. intros Hin. apply not_elem_of_dom in Hf'. apply Hf'.
    apply (dseg_dom _ _ _ _ Hseg). by apply elem_of_list_to_set. }
  assert (allcells (G1 ++ g :: (f', (u', [])) :: G2) = allcells (G1 ++ g :: G2)) as Eall.
  { by rewrite !allcells_app, !allcells_cons. }
  rewrite fcells_app in Hseg, Hout, Hhd.
  split; simpl; rewrite ?fcells_app, ?Eall; try done.
  - pose proof (dseg_insert_after (fl_fheap s) pp (fcells G1) (fcell g)
      (fcell (f', (u', []))) (fcells G2) fh') as Hins. simpl in Hins.
    apply Hins; try done.
    + by rewrite <-(fcells_locs (G1 ++ _)), fcells_app in Hfnd.
    + by rewrite <-(fcells_locs (G1 ++ _)), fcells_app in Hfresh.
    + intros z l2' E. destruct G2 as [|k G2]; [done|]. injection E as <- <-.
      by apply (Hk' k G2).
  - destruct pp as [q|]; [|done]. destruct Hout as [Hq (a & n & p & Hh)].
    rewrite fmap_app, !fcells_locs, !fmap_cons, not_elem_of_app, not_elem_of_cons in Hq.
    destruct Hq as (Hq1 & Hqg & Hq2). split.
    + rewrite fmap_app, !fcells_locs, !fmap_cons, not_elem_of_app, !not_elem_of_cons.
      split_and!; try done. intros ->. simpl in Hh. congruence.
    + exists a, n, p. rewrite Hq'; try done.
      * intros ->. congruence.
      * destruct G2 as [|k G2]; [done|]. intros [= ->]. apply Hq2. left.
  - by rewrite Hhd, !hd_ptr_app.
  - intros k Hk. apply elem_of_app in Hk as [Hk|[->|[->|Hk]%elem_of_cons]%elem_of_cons];
      [apply Hcs; set_solver|apply Hcs; set_solver|done|apply Hcs; set_solver].
  - rewrite fmap_app, !fmap_cons in *. apply NoDup_app in Hfnd as (Hn1 & Hd & [Hg Hn2]%NoDup_cons).
    apply not_elem_of_app in Hfresh as [Hf1 [Hfg Hf2]%not_elem_of_cons].
    apply NoDup_app. split_and!; [done| |].
    + intros q Hq Hin. apply elem_of_cons in Hin as [->|[->|Hin]%elem_of_cons].
      * apply (Hd _ Hq). left.
      * done.
      * apply (Hd _ Hq). by right.
    + constructor; [|by constructor]. apply not_elem_of_cons. split; [|done].
      simpl. congruence.
Qed.
(** The successor of a group with use count [u - 1], once its existence is
    ensured: the old one, or a new empty one. *)
Definition next_group (G2 : list group) (u : Z) f' (cs' : cells) (G2' : list group) : Prop :=
  G2 = (f', (u, cs')) :: G2' ∨
  (cs' = [] ∧ G2 = G2' ∧ (∀ k G, G2 = k :: G → u < k.2.1)).

Lemma wp_ensureNextFreq s pp G1 (g : group) G2 X Q :
  frep s pp (G1 ++ g :: G2) X → 0 <= g.2.1 → g.2.1 + 1 < 2 ^ 64 →
  (∀ k G, G2 = k :: G → g.2.1 < k.2.1) →
  (∀ s' f' cs' G2', frep s' pp (G1 ++ g :: (f', (g.2.1 + 1, cs')) :: G2') X →
     fl_lheap s' = fl_lheap s → fl_count s' = fl_count s →
     next_group G2 (g.2.1 + 1) f' cs' G2' → Q tt s') →
  wp (ensureNextFreq (Some g.1)) s Q.
Proof.
  intros Hr Hu Hu' Hlt HQ. pose proof (frep_fnode _ _ _ _ _ _ Hr) as Hg.
  unfold ensureNextFreq, loadF, storeF. rewrite wp_bind. eapply wp_load; [exact Hg|]. simpl.
  rewrite u64_small by lia.
  destruct G2 as [|k G2]; simpl.
  - rewrite wp_bind. apply wp_malloc. simpl. intros f' Hf'.
    assert (g.1 ≠ f') by congruence.
    eapply wp_store; simpl; [by rewrite lookup_insert_ne|].
    apply (HQ _ f' [] []); [|done|done|by right].
    apply (frep_insert_freq s pp G1 g f' (g.2.1 + 1) []); simpl; try done.
    + by rewrite lookup_insert_eq.
    + by rewrite lookup_insert_ne, lookup_insert_eq.
    + intros q ? ? ?. by rewrite !lookup_insert_ne.
  - pose proof Hr as Hr'. rewrite cons_middle, app_assoc in Hr'.
    pose proof (frep_fnode _ _ _ _ _ _ Hr') as Hk. rewrite fcells_app, last_ptr_app in Hk.
    simpl in Hk. rewrite wp_bind. eapply wp_load; [exact Hk|]. simpl.
    pose proof (Hlt k G2 eq_refl) as Hlt'. destruct (Z.ltb_spec (g.2.1 + 1) k.2.1).
    + rewrite wp_bind. apply wp_malloc. simpl. intros f' Hf'.
      assert (g.1 ≠ f') by congruence.
      assert (k.1 ≠ f') by congruence.
      assert (g.1 ≠ k.1).
      { pose proof (fr_fnodup _ _ _ _ Hr) as Hnd. rewrite fmap_app, !fmap_cons in Hnd.
        apply NoDup_app in Hnd as (_ & _ & [[? _]%not_elem_of_cons _]%NoDup_cons). done. }
      rewrite wp_bind. eapply wp_store; simpl; [by rewrite lookup_insert_ne|].
      eapply wp_store; simpl; [by rewrite !lookup_insert_ne|].
      apply (HQ _ f' [] (k :: G2)); [|done|done|right; split_and!; [done..|]].
      2: { intros ? ? [= <- <-]. done. }
      apply (frep_insert_freq s pp G1 g f' (g.2.1 + 1) (k :: G2)); simpl; try done.
      * by rewrite lookup_insert_eq.
      * by rewrite lookup_insert_ne, lookup_insert_ne, lookup_insert_eq.
      * intros ? ? [= <- <-]. by rewrite lookup_insert_ne, lookup_insert_eq.
      * intros q ? ? ?. rewrite !lookup_insert_ne; congruence.
    + rewrite wp_ret. destruct k as [f' [u' cs']]. simpl in *.
      assert (u' = g.2.1 + 1) as -> by lia. by apply (HQ s f' cs' G2); [..|left].
Qed.

Lemma wp_pushNextFreq s pp G1 f u cs f' u' cs' G2 x n p Q :
  frep s pp (G1 ++ (f, (u, cs)) :: (f', (u', cs')) :: G2) {[x.1]} →
  x.1 ∉ (allcells (G1 ++ (f, (u, cs)) :: (f', (u', cs')) :: G2)).*1 →
  fl_lheap s !! x.1 = Some (LfuNode x.2 n p (Some f)) →
  (∀ s', frep s' pp (G1 ++ (f, (u, cs)) :: (f', (u', x :: cs')) :: G2) ∅ →
     fl_count s' = fl_count s → Q tt s') →
  wp (pushNextFreq (Some x.1)) s Q.
Proof.
  intros Hr Hx Hl HQ. pose proof (frep_fnode _ _ _ _ _ _ Hr) as Hf. simpl in Hf.
  pose proof Hr as Hr'. rewrite cons_middle, app_assoc in Hr'.
  pose proof (frep_fnode _ _ _ _ _ _ Hr') as Hf'. rewrite fcells_app, last_ptr_app in Hf'.
  simpl in Hf'. unfold pushNextFreq, loadL, loadF, storeL, storeF, when.
  rewrite wp_bind. eapply wp_load; [exact Hl|]. simpl.
  rewrite wp_bind. eapply wp_load; [exact Hf|]. simpl.
  rewrite wp_bind. eapply wp_store; [exact Hl|]. simpl.
  rewrite wp_bind. eapply wp_load; [exact Hf'|]. simpl.
  assert ((f', (u', cs')) ∈ G1 ++ (f, (u, cs)) :: (f', (u', cs')) :: G2) as Hg' by set_solver.
  pose proof (fr_cells _ _ _ _ Hr _ Hg') as Hseg. cbn [fst snd] in Hseg.
  assert (x.1 ∉ cs'.*1) as Hxc.
  { intros (y & E & Hy)%list_elem_of_fmap. apply Hx. rewrite E. apply list_elem_of_fmap.
    exists y. split; [done|]. apply elem_of_allcells. by exists (f', (u', cs')). }
  assert (∀ lh' , dseg lh' None (lcells f' (x :: cs')) None → dom lh' = dom (fl_lheap s) →
    (∀ q, q ≠ x.1 → q ∉ cs'.*1 → lh' !! q = fl_lheap s !! q) →
    Q tt (FreqList (<[f' := FreqNode u' (hd_ptr (fcells G2) None) (Some f)
                      (Some x.1) (last_ptr (x :: cs') None)]> (fl_fheap s))
          lh' (fl_head s) (fl_count s))) as Hfin.
  { intros lh' Hs' Hd' Hfr'. apply HQ; [|done]. rewrite cons_middle, app_assoc.
    pose proof (frep_push s pp (G1 ++ [(f, (u, cs))]) f' u' cs' G2 x lh' Hr') as Hpush.
    rewrite fcells_app, last_ptr_app in Hpush. apply Hpush; try done.
    by rewrite <-app_assoc. }
  assert (x.1 ∈ dom (fl_lheap s)) as Hxd by by eapply elem_of_dom_2.
  destruct cs' as [|y cs']; simpl.
  - wp_pure. eapply wp_store; simpl; [apply lookup_insert_eq|]. simpl.
    wp_pure. eapply wp_store; simpl; [apply lookup_insert_eq|]. simpl.
    wp_pure. eapply wp_store; simpl; [exact Hf'|]. simpl.
    eapply wp_store; simpl; [apply lookup_insert_eq|]. simpl.
    rewrite !insert_insert_eq. apply Hfin.
    + simpl. by rewrite lookup_insert_eq.
    + rewrite dom_insert_L. set_solver.
    + intros q ? _. by rewrite lookup_insert_ne.
  - destruct Hseg as [Hy Hseg]. cbn [fst snd] in Hy.
    assert (x.1 ≠ y.1 ∧ x.1 ∉ cs'.*1) as [Hxy Hxc'] by by apply not_elem_of_cons.
    assert (y.1 ∉ cs'.*1) as Hyc.
    { pose proof (fr_nodup _ _ _ _ Hr') as Hnd. rewrite allcells_app, allcells_cons in Hnd.
      cbn [fst snd] in Hnd. rewrite !fmap_app, fmap_cons in Hnd.
      by apply NoDup_app in Hnd as (_ & _ & [[? _]%NoDup_cons _]%NoDup_app). }
    wp_pure. eapply wp_store; simpl; [rewrite lookup_insert_ne by done; exact Hy|]. simpl.
    wp_pure. eapply wp_store; simpl;
      [rewrite lookup_insert_ne, lookup_insert_eq by done; done|]. simpl.
    wp_pure. eapply wp_store; simpl; [apply lookup_insert_eq|]. simpl.
    wp_pure. eapply wp_store; simpl; [exact Hf'|]. simpl.
    destruct (is_null (last_ptr cs' (Some y.1))) eqn:Enull.
    { exfalso. revert Enull. clear. destruct cs' as [|z cs' _] using rev_ind; [done|].
      by rewrite last_ptr_app. }
    rewrite wp_ret. apply Hfin.
    + simpl. rewrite lookup_insert_eq, !lookup_insert_ne by done. rewrite lookup_insert_eq.
      split_and!; [done..|]. repeat apply dseg_insert_out; rewrite ?lcells_locs; done.
    + rewrite !dom_insert_L. apply elem_of_dom_2 in Hy. set_solver.
    + intros q ? [??]%not_elem_of_cons. by rewrite !lookup_insert_ne.
Qed.
(** Unlinking and freeing an empty frequency node. *)
Lemma frep_drop s pp G1 f u G2 X fh' :
  frep s pp (G1 ++ (f, (u, [])) :: G2) X →
  unlinked (fl_fheap s) pp (fcells G1) (fcell (f, (u, []))) (fcells G2) fh' →
  frep (FreqList (delete f fh') (fl_lheap s) (hd_ptr (fcells (G1 ++ G2)) None) (fl_count s))
    pp (G1 ++ G2) X.
Proof.
  intros [Hseg Hout Hhd Hcs Hfnd Hnd Hdom] [Hs Hn Hd Hfr Ho].
  assert (allcells (G1 ++ (f, (u, [])) :: G2) = allcells (G1 ++ G2)) as Eall.
  { by rewrite !allcells_app, allcells_cons. }
  rewrite fmap_app, fmap_cons, <-Permutation_middle, NoDup_cons, <-fmap_app in Hfnd.
  destruct Hfnd as [Hff Hfnd]. cbn [fst] in Hff.
  rewrite Eall in Hnd, Hdom. split; simpl; try done.
  - rewrite fcells_app. apply dseg_delete_out; [|done].
    by rewrite <-fcells_app, fcells_locs.
  - destruct pp as [q|]; [|done]. destruct Ho as [Hq (a & n & p & Hh)].
    rewrite fmap_app, fmap_cons, !fcells_locs, not_elem_of_app, not_elem_of_cons in Hq.
    destruct Hq as (? & Hqf & ?). split.
    + by rewrite fcells_locs, fmap_app, not_elem_of_app.
    + rewrite lookup_delete_ne; [eauto|]. cbn in Hqf. congruence.
  - intros g Hg. apply Hcs. set_solver.
Qed.

Lemma wp_dropFreq s pp G1 f u cs G2 Q :
  frep s pp (G1 ++ (f, (u, cs)) :: G2) ∅ →
  (∀ s', frep s' pp (G1 ++ (if decide (cs = []) then [] else [(f, (u, cs))]) ++ G2) ∅ →
     fl_count s' = fl_count s → Q tt s') →
  wp (dropFreq (Some f)) s Q.
Proof.
  intros Hr HQ. pose proof (frep_fnode _ _ _ _ _ _ Hr) as Hf. simpl in Hf.
  unfold dropFreq, loadF. rewrite wp_bind. eapply wp_load; [exact Hf|]. simpl.
  destruct cs as [|y cs]; simpl; [|by rewrite wp_ret; apply HQ].
  rewrite wp_bind, wp_gets, wp_bind, wp_when_modify, wp_bind.
  pose proof (fr_head _ _ _ _ Hr) as Hh. rewrite fcells_app, hd_ptr_app in Hh. simpl in Hh.
  pose proof (fr_fnodup _ _ _ _ Hr) as Hnd. pose proof Hnd as Hnd'.
  rewrite fmap_app, fmap_cons, <-Permutation_middle, NoDup_cons, <-fmap_app in Hnd'.
  destruct Hnd' as [Hff _]. cbn [fst] in Hff.
  assert ((if ptr_eqb (Some f) (fl_head s) then fl_set_head (hd_ptr (fcells G2) None) s else s)
    = FreqList (fl_fheap s) (fl_lheap s) (hd_ptr (fcells (G1 ++ G2)) None) (fl_count s)) as ->.
  { rewrite Hh, fcells_app, hd_ptr_app. destruct s as [fh lh hd c]; simpl in *; subst.
    destruct G1 as [|k G1]; simpl; [by rewrite ptr_eqb_refl|].
    rewrite ptr_eqb_ne; [done|]. intros [= ->]. apply Hff. left. }
  pose proof (wp_unlink (N := freqListNode)
    (FreqList (fl_fheap s) (fl_lheap s) (hd_ptr (fcells (G1 ++ G2)) None) (fl_count s))
    pp (fcells G1) (fcell (f, (u, []))) (fcells G2)) as Hul. simpl in Hul. apply Hul; clear Hul.
  - pose proof (fr_seg _ _ _ _ Hr) as Hs. by rewrite fcells_app in Hs.
  - rewrite <-fcells_locs in Hnd. by rewrite fcells_app in Hnd.
  - pose proof (fr_out _ _ _ _ Hr) as Ho. by rewrite fcells_app in Ho.
  - intros fh' Hul. pose proof (ul_node _ _ _ _ _ _ Hul) as Hn. simpl in Hn. rewrite Hf in Hn.
    eapply wp_free; [exact Hn|]. simpl. apply HQ; [|done].
    by apply (frep_drop s pp G1 f u G2).
Qed.
End phases.

(** ** The operations on the abstract list

    [counted G] is the multiset of (cell, use count) pairs. *)

Definition counted (G : list group) : list (loc * Z * Z) :=
  G ≫= (λ g, (λ x, (x, g.2.1)) <$> g.2.2).

Section freq_specs.
Context `{Malloc}.
Implicit Types (s : freqList) (G : list group).

Lemma counted_app G1 G2 : counted (G1 ++ G2) = counted G1 ++ counted G2.
Proof. apply bind_app. Qed.
Lemma counted_cons g G : counted (g :: G) = ((λ x, (x, g.2.1)) <$> g.2.2) ++ counted G.
Proof. reflexivity. Qed.
Lemma counted_fst G : (counted G).*1 = allcells G.
Proof.
  induction G as [|g G IH]; [done|].
  rewrite counted_cons, allcells_cons, fmap_app, IH, <-list_fmap_compose.
  f_equal. apply list_fmap_id.
Qed.
Lemma elem_of_counted x u G : (x, u) ∈ counted G ↔ ∃ g, g ∈ G ∧ g.2.1 = u ∧ x ∈ g.2.2.
Proof.
  unfold counted. rewrite list_elem_of_bind. setoid_rewrite list_elem_of_fmap. split.
  - intros (g & (y & [= -> ->] & Hy) & Hg). eauto.
  - intros (g & Hg & <- & Hx). exists g. split; [|done]. eauto.
Qed.
Lemma counted_split x u G :
  (x, u) ∈ counted G →
  ∃ G1 f c1 c2 G2, G = G1 ++ (f, (u, c1 ++ x :: c2)) :: G2.
Proof.
  intros ([f [u' cs]] & Hg & <- & Hx)%elem_of_counted. simpl in *.
  apply list_elem_of_split in Hg as (G1 & G2 & ->).
  apply list_elem_of_split in Hx as (c1 & c2 & ->). eauto 10.
Qed.
Lemma counted_take_out G1 f u c1 x c2 G2 :
  counted (G1 ++ (f, (u, c1 ++ x :: c2)) :: G2) ≡ₚ
    (x, u) :: counted (G1 ++ (f, (u, c1 ++ c2)) :: G2).
Proof.
  rewrite !counted_app, !counted_cons. cbn [fst snd]. rewrite !fmap_app, fmap_cons.
  by rewrite <-!app_assoc, <-!app_comm_cons, <-!Permutation_middle.
Qed.
Lemma counted_drop_empty G1 f u cs G2 :
  counted (G1 ++ (if decide (cs = []) then [] else [(f, (u, cs))]) ++ G2) =
  counted (G1 ++ (f, (u, cs)) :: G2).
Proof. case_decide; subst; [|done]. by rewrite !counted_app, counted_cons. Qed.
Lemma len_counted G : len (counted G) = len (allcells G).
Proof. unfold len. by rewrite <-counted_fst, length_fmap. Qed.
Lemma len_perm {A} (l l' : list A) : l ≡ₚ l' → len l = len l'.
Proof. unfold len. by intros ->. Qed.

(** Use counts stay strictly increasing. *)
Lemma sorted_next (G1 : list group) f u cs G2 f' cs' G2' :
  StronglySorted Z.lt ((G1 ++ (f, (u, cs)) :: G2).*2.*1) → next_group G2 (u + 1) f' cs' G2' →
  ∀ cs1 cs2, StronglySorted Z.lt ((G1 ++ (f, (u, cs1)) :: (f', (u + 1, cs2)) :: G2').*2.*1).
Proof.
  intros Hs Hn cs1 cs2. rewrite !fmap_app, !fmap_cons in *. cbn [fst snd] in *.
  apply StronglySorted_app in Hs as (Hlt & Hs1 & [Hu Hs2]%StronglySorted_cons).
  assert (Forall (Z.lt (u + 1)) G2'.*2.*1 ∧ StronglySorted Z.lt G2'.*2.*1) as [Hf2 Hs2'].
  { destruct Hn as [->|(-> & <- & Hk)]; [by apply StronglySorted_cons in Hs2|].
    split; [|done]. destruct G2 as [|k G2]; [constructor|].
    specialize (Hk k G2 eq_refl). rewrite !fmap_cons in *.
    apply StronglySorted_cons in Hs2 as [Hs2 _]. constructor; [done|].
    eapply Forall_impl; [exact Hs2|]. simpl. lia. }
  apply StronglySorted_app. split_and!; [|done|].
  - intros a b Ha Hb. assert (a < u) by (apply Hlt; [done|left]).
    apply elem_of_cons in Hb as [->|[->|Hb]%elem_of_cons]; [lia..|].
    rewrite Forall_forall in Hf2. specialize (Hf2 b Hb). lia.
  - repeat (constructor; try done); [lia|].
    eapply Forall_impl; [exact Hf2|]. simpl. lia.
Qed.
Lemma sorted_drop (G1 : list group) f u cs G2 :
  StronglySorted Z.lt ((G1 ++ (f, (u, cs)) :: G2).*2.*1) →
  StronglySorted Z.lt ((G1 ++ (if decide (cs = []) then [] else [(f, (u, cs))]) ++ G2).*2.*1).
Proof.
  intros Hs. case_decide; [|done]. cbn [app]. rewrite !fmap_app in *. rewrite !fmap_cons in Hs.
  apply StronglySorted_app in Hs as (Hlt & Hs1 & [_ Hs2]%StronglySorted_cons).
  apply StronglySorted_app. split_and!; [|done..]. intros a b Ha Hb. apply Hlt; [done|].
  by right.
Qed.
Lemma sorted_head_all (G1 : list group) (g : group) G2 :
  StronglySorted Z.lt ((G1 ++ g :: G2).*2.*1) → ∀ k, k ∈ G2 → g.2.1 < k.2.1.
Proof.
  intros Hs k Hk. rewrite !fmap_app, !fmap_cons in Hs.
  apply StronglySorted_app in Hs as (_ & _ & [Hf _]%StronglySorted_cons).
  rewrite Forall_forall in Hf. apply Hf, list_elem_of_fmap. exists k.2. split; [done|].
  apply list_elem_of_fmap. eauto.
Qed.
Lemma sorted_head (G1 : list group) (g : group) G2 :
  StronglySorted Z.lt ((G1 ++ g :: G2).*2.*1) → ∀ k G, G2 = k :: G → g.2.1 < k.2.1.
Proof.
  intros Hs k G ->. rewrite !fmap_app, !fmap_cons in Hs.
  by apply StronglySorted_app in Hs as (_ & _ & [[? _]%Forall_cons _]%StronglySorted_cons).
Qed.

Lemma counted_next G1 g G2 u f' cs' G2' :
  next_group G2 u f' cs' G2' →
  counted (G1 ++ g :: (f', (u, cs')) :: G2') = counted (G1 ++ g :: G2).
Proof.
  intros [->|(-> & -> & _)]; [done|]. by rewrite !counted_app, !counted_cons.
Qed.
Lemma counted_push G1 f u cs x G2 :
  counted (G1 ++ (f, (u, x :: cs)) :: G2) ≡ₚ (x, u) :: counted (G1 ++ (f, (u, cs)) :: G2).
Proof. apply (counted_take_out G1 f u [] x cs G2). Qed.

(** The groups after a move are well formed again. *)
Lemma freq_rep_moved s s' pp G1 f u c1 x c2 G2 f' cs' G2' :
  freq_rep s (G1 ++ (f, (u, c1 ++ x :: c2)) :: G2) →
  next_group G2 (u + 1) f' cs' G2' →
  let G' := G1 ++ (if decide (c1 ++ c2 = []) then [] else [(f, (u, c1 ++ c2))]) ++
              (f', (u + 1, x :: cs')) :: G2' in
  frep s' pp G' ∅ → fl_count s' = fl_count s →
  ∃ R, freq_rep s' G' ∧ counted (G1 ++ (f, (u, c1 ++ x :: c2)) :: G2) ≡ₚ (x, u) :: R ∧
    counted G' ≡ₚ (x, u + 1) :: R.
Proof.
  intros [_ Hc Hne Hso Hnn] Hn G' Hr' Hc'.
  set (R := counted (G1 ++ (f, (u, c1 ++ c2)) :: G2)).
  assert (counted G' ≡ₚ (x, u + 1) :: R) as HR.
  { subst G' R. rewrite counted_drop_empty. rewrite (cons_middle (f, _)), app_assoc.
    rewrite counted_push, <-app_assoc. cbn [app]. by rewrite (counted_next _ _ G2). }
  pose proof (counted_take_out G1 f u c1 x c2 G2) as HR0. fold R in HR0.
  assert (0 <= u) as Hu0 by (apply (Hnn (f, (u, c1 ++ x :: c2))); set_solver).
  exists R. split_and!; [|done|done]. split.
  - by exists pp.
  - rewrite Hc', Hc, <-!len_counted, (len_perm _ _ HR), (len_perm _ _ HR0). len_lia.
  - intros k Hk. apply elem_of_app in Hk as [Hk|[Hk|[->|Hk]%elem_of_cons]%elem_of_app];
      [apply Hne; set_solver| |done|].
    + case_decide; [by apply elem_of_nil in Hk|]. by apply list_elem_of_singleton in Hk as ->.
    + apply Hne. destruct Hn as [->|(-> & -> & _)]; set_solver.
  - apply sorted_drop. by eapply sorted_next.
  - intros k Hk. apply elem_of_app in Hk as [Hk|[Hk|[->|Hk]%elem_of_cons]%elem_of_app];
      [apply Hnn; set_solver| |simpl; lia|].
    + case_decide; [by apply elem_of_nil in Hk|]. by apply list_elem_of_singleton in Hk as ->.
    + apply Hnn. destruct Hn as [->|(-> & -> & _)]; set_solver.
Qed.

Lemma wp_moveNodeToNextFreq s G x u Q :
  freq_rep s G → (x, u) ∈ counted G → u + 1 < 2 ^ 64 →
  (∀ s' G' R, freq_rep s' G' → counted G ≡ₚ (x, u) :: R → counted G' ≡ₚ (x, u + 1) :: R →
     Q tt s') →
  wp (moveNodeToNextFreq (Some x.1)) s Q.
Proof.
  intros Hrep (G1 & f & c1 & c2 & G2 & ->)%counted_split Hu HQ.
  pose proof Hrep as [[pp Hr] Hc Hne Hso Hnn].
  set (g := (f, (u, c1 ++ x :: c2)) : group) in *.
  assert (g ∈ G1 ++ g :: G2) as Hg by set_solver.
  pose proof (frep_lnode _ _ _ _ _ c1 x c2 Hr Hg eq_refl) as Hl.
  unfold moveNodeToNextFreq, loadL. rewrite wp_bind. eapply wp_load; [exact Hl|]. simpl.
  rewrite wp_bind. eapply (wp_ensureNextFreq s pp G1 g G2 ∅); [done|by apply Hnn|done| |].
  { by eapply sorted_head. }
  intros s1 f' cs' G2' Hr1 Elh Ec1 Hn. simpl in Hr1, Hn. rewrite wp_seq_assoc.
  apply (wp_unlink_fixEnds s1 pp G1 f u c1 x c2 ((f', (u + 1, cs')) :: G2')); [done|].
  intros s2 Hr2 El2 Ec2. rewrite Elh, Hl in El2. simpl in El2.
  pose proof (allcells_NoDup_mid _ _ _ _ _ _ _ (fr_nodup _ _ _ _ Hr1)) as (_ & _ & _ & Hx & _).
  rewrite wp_bind. eapply wp_pushNextFreq; [done|done|exact El2|].
  intros s3 Hr3 Ec3. eapply wp_dropFreq; [exact Hr3|]. intros s4 Hr4 Ec4.
  destruct (freq_rep_moved s s4 pp G1 f u c1 x c2 G2 f' cs' G2') as (R & ? & ? & ?);
    [done|done|done|congruence|]. by eapply HQ.
Qed.
(** ** Creation *)

Lemma allcells_fresh s pp G p :
  frep s pp G ∅ → fl_lheap s !! p = None → p ∉ (allcells G).*1.
Proof.
  intros Hr Hp Hin. apply not_elem_of_dom in Hp. apply Hp. rewrite (fr_dom _ _ _ _ Hr).
  apply elem_of_union_l. by apply elem_of_list_to_set.
Qed.

(** A fresh group with one fresh cell in front of the list. *)
Lemma frep_new_group s pp G f' x fh' c' :
  frep s pp G ∅ → fl_fheap s !! f' = None → fl_lheap s !! x.1 = None →
  fh' !! f' = Some (FreqNode 0 (hd_ptr (fcells G) None) None (Some x.1) (Some x.1)) →
  (∀ k G2, G = k :: G2 → fh' !! k.1 = Some (FreqNode k.2.1 (hd_ptr (fcells G2) None) (Some f')
                       (hd_ptr k.2.2 None) (last_ptr k.2.2 None))) →
  (∀ q, q ≠ f' → Some q ≠ hd_ptr (fcells G) None → fh' !! q = fl_fheap s !! q) →
  frep (FreqList fh' (<[x.1 := LfuNode x.2 None None (Some f')]> (fl_lheap s)) (Some f') c')
    None ((f', (0, [x])) :: G) ∅.
Proof.
  intros Hr Hf' Hx Hn' Hk' Hq'. pose proof (allcells_fresh _ _ _ _ Hr Hx) as Hxa.
  destruct Hr as [Hseg Hout Hhd Hcs Hfnd Hnd Hdom].
  assert (f' ∉ G.*1) as Hfresh.
  { rewrite <-fcells_locs. intros Hin. apply not_elem_of_dom in Hf'. apply Hf'.
    apply (dseg_dom _ _ _ _ Hseg). by apply elem_of_list_to_set. }
  split; simpl; try done.
  - split; [done|]. destruct G as [|k G]; [done|]. destruct Hseg as [_ Hseg].
    split; [by apply (Hk' k G)|]. eapply dseg_frame; [|exact Hseg].
    intros q Hq. rewrite fcells_locs in Hq. apply Hq'.
    + intros ->. apply Hfresh. by right.
    + intros [= ->]. by apply NoDup_cons in Hfnd as [? _].
  - intros g [->|Hg]%elem_of_cons; simpl; [by rewrite lookup_insert_eq|].
    apply dseg_insert_out; [|by apply Hcs]. rewrite lcells_locs.
    intros (y & E & Hy)%list_elem_of_fmap. apply Hxa. rewrite E. apply list_elem_of_fmap.
    exists y. split; [done|]. apply elem_of_allcells. eauto.
  - by constructor.
  - by constructor.
  - rewrite dom_insert_L, Hdom. by rewrite union_assoc_L.
Qed.

Lemma frep_count fh lh hd c c' pp G X :
  frep (FreqList fh lh hd c) pp G X → frep (FreqList fh lh hd c') pp G X.
Proof. by intros []; split. Qed.

(** A fresh cell at the front of a non-empty group. *)
Lemma frep_new_cell s pp G1 f u y cs G2 p key lh' :
  frep s pp (G1 ++ (f, (u, y :: cs)) :: G2) ∅ → fl_lheap s !! p = None →
  lh' !! p = Some (LfuNode key (Some y.1) None (Some f)) →
  lh' !! y.1 = Some (LfuNode y.2 (hd_ptr cs None) (Some p) (Some f)) →
  (∀ q, q ≠ p → q ≠ y.1 → lh' !! q = fl_lheap s !! q) →
  frep (FreqList (<[f := FreqNode u (hd_ptr (fcells G2) None) (last_ptr (fcells G1) pp)
                      (Some p) (last_ptr (y :: cs) None)]> (fl_fheap s))
          lh' (fl_head s) (fl_count s))
    pp (G1 ++ (f, (u, (p, key) :: y :: cs)) :: G2) ∅.
Proof.
  intros Hr Hp Hp' Hy' Hq'. pose proof (allcells_fresh _ _ _ _ Hr Hp) as Hpa.
  assert ((f, (u, y :: cs)) ∈ G1 ++ (f, (u, y :: cs)) :: G2) as Hg by set_solver.
  pose proof (fr_cells _ _ _ _ Hr _ Hg) as Hseg. destruct Hseg as [Hy Hseg].
  assert ((allcells (G1 ++ (f, (u, (p, key) :: y :: cs)) :: G2)).*1 ≡ₚ
    p :: (allcells (G1 ++ (f, (u, y :: cs)) :: G2)).*1) as Hperm.
  { rewrite !allcells_app, !allcells_cons. cbn [fst snd]. rewrite !fmap_app, !fmap_cons.
    cbn [app]. by rewrite <-Permutation_middle. }
  pose proof (fr_nodup _ _ _ _ Hr) as Hnd.
  pose proof (allcells_NoDup_mid G1 f u [] y cs G2 Hnd) as (_ & Hyc & _). cbn [app] in Hyc.
  assert (∀ q g, g ∈ G1 ++ (f, (u, y :: cs)) :: G2 → q ∈ g.2.2.*1 → q ≠ p) as Hne.
  { intros q g Hg' (z & -> & Hz)%list_elem_of_fmap E. apply Hpa. rewrite <-E.
    apply list_elem_of_fmap. exists z. split; [done|]. apply elem_of_allcells. eauto. }
  apply (frep_set_group s pp G1 f u (y :: cs) G2 ∅ ((p, key) :: y :: cs) lh' ∅ Hr).
  - split; [done|]. split; [by destruct cs|]. eapply dseg_frame; [|exact Hseg].
    intros q Hq. rewrite lcells_locs in Hq. apply Hq'; [|by intros ->].
    eapply Hne; [exact Hg|]. by right.
  - intros g q Hg' Hqg. apply Hq'.
    + eapply Hne; [|exact Hqg]. set_solver.
    + intros ->. eapply (allcells_mid_disj G1 (f, (u, y :: cs)) G2); [done|left|done|done].
  - rewrite Hperm. by constructor.
  - rewrite Hperm, list_to_set_cons, union_empty_r_L. apply set_eq. intros q.
    rewrite elem_of_union, elem_of_singleton, elem_of_list_to_set, elem_of_dom.
    pose proof (fr_dom _ _ _ _ Hr) as Hdom. rewrite union_empty_r_L in Hdom.
    assert (q ∈ dom (fl_lheap s) ↔ q ∈ (allcells (G1 ++ (f, (u, y :: cs)) :: G2)).*1) as Hq0
      by (by rewrite Hdom, elem_of_list_to_set).
    destruct (decide (q = p)) as [->|Hqp]; [rewrite Hp'; naive_solver|].
    destruct (decide (q = y.1)) as [->|Hqy].
    + rewrite Hy', <-Hq0. apply elem_of_dom_2 in Hy. naive_solver.
    + rewrite Hq', <-elem_of_dom, Hq0 by done. naive_solver.
Qed.

Lemma wp_createlfuListNode s G key Q :
  freq_rep s G → len (counted G) + 1 < 2 ^ 64 →
  (∀ p s' G', freq_rep s' G' → counted G' ≡ₚ ((p, key), 0) :: counted G → Q (Some p) s') →
  wp (createlfuListNode key) s Q.
Proof.
  intros [[pp Hr] Hc Hne Hso Hnn] Hlen HQ. rewrite len_counted in Hlen.
  unfold createlfuListNode, loadL, loadF, storeL, storeF. rewrite wp_bind.
  apply wp_malloc. simpl. intros p Hp. pose proof (allcells_fresh _ _ _ _ Hr Hp) as Hpa.
  wp_pure. pose proof (fr_head _ _ _ _ Hr) as Hhd.
  assert (∀ s' f', (∃ pp', frep s' pp' ((f', (0, [(p, key)])) :: G) ∅) →
    fl_count s' = fl_count s + 1 → (∀ k, k ∈ G → 0 < k.2.1) → Q (Some p) s') as Hnew.
  { intros s' f' Hr' Hc' Hpos. apply (HQ p s' ((f', (0, [(p, key)])) :: G)); [|done].
    split; [done|..].
    - rewrite Hc', Hc, allcells_cons. cbn [fst snd]. len_lia.
    - intros k [->|Hk]%elem_of_cons; [done|by apply Hne].
    - rewrite !fmap_cons. cbn [fst snd]. constructor; [done|]. rewrite Forall_forall.
      intros u (x & -> & (k & -> & Hk)%list_elem_of_fmap)%list_elem_of_fmap. by apply Hpos.
    - intros k [->|Hk]%elem_of_cons; [done|by apply Hnn]. }
  assert (u64 (fl_count s + 1) = fl_count s + 1) as Hu64.
  { apply u64_small. rewrite Hc. len_lia. }
  destruct G as [|k G]; simpl in Hhd; rewrite Hhd; simpl.
  { rewrite wp_ret. wp_pure. apply wp_malloc. simpl. intros f' Hf'. wp_pure.
    eapply wp_store; simpl; [apply lookup_insert_eq|]. wp_pure. rewrite insert_insert_eq.
    apply (Hnew _ f'); [|done|intros k Hk; by apply elem_of_nil in Hk]. exists None.
    apply (frep_new_group s pp [] f' (p, key)); simpl; try done.
    - by rewrite lookup_insert_eq.
    - intros q ? _. by rewrite lookup_insert_ne. }
  pose proof (frep_fnode _ _ [] k G _ Hr) as Hk. rewrite wp_bind. eapply wp_load; [exact Hk|].
  simpl. rewrite wp_ret, wp_bind. pose proof (Hnn k ltac:(left)) as Hk0.
  destruct (Z.eqb_spec k.2.1 0) as [Ek|Ek].
  - destruct k as [f [u cs]]. simpl in Ek, Hk. subst u. simpl in Hhd. simpl.
    destruct cs as [|y cs]; [by destruct (Hne (f, (0, [])) ltac:(left))|].
    assert ((f, (0, y :: cs)) ∈ (f, (0, y :: cs)) :: G) as Hg by left.
    pose proof (frep_lnode _ _ _ _ _ [] y cs Hr Hg eq_refl) as Hy. simpl in Hy.
    assert (p ≠ y.1) by congruence.
    rewrite wp_bind. eapply wp_load; [exact Hk|]. simpl.
    rewrite wp_bind. eapply wp_store; simpl; [apply lookup_insert_eq|].
    rewrite wp_bind. eapply wp_store; simpl; [rewrite !lookup_insert_ne by done; exact Hy|].
    eapply wp_store; simpl; [exact Hk|]. wp_pure.
    eapply wp_store; simpl; [rewrite lookup_insert_ne, lookup_insert_eq by done; done|].
    wp_pure. eapply (HQ p _ ((f, (0, (p, key) :: y :: cs)) :: G)); [|done].
    rewrite Hu64. split.
    + exists pp. pose proof (frep_new_cell s pp [] f 0 y cs G p key) as Hcell.
      cbn [app] in Hcell. rewrite Hhd in Hcell. eapply frep_count, Hcell; simpl; try done.
      * by rewrite lookup_insert_eq.
      * by rewrite lookup_insert_ne, lookup_insert_eq.
      * intros q ? ?. by rewrite !lookup_insert_ne.
    + simpl. rewrite Hc, !allcells_cons. cbn [fst snd]. len_lia.
    + intros g [->|Hg']%elem_of_cons; [done|]. apply Hne. by right.
    + done.
    + intros g [->|Hg']%elem_of_cons; [done|]. apply Hnn. by right.
  - rewrite wp_bind. apply wp_malloc. simpl. intros f' Hf'.
    assert (k.1 ≠ f') by congruence. wp_pure.
    eapply wp_store; simpl; [rewrite lookup_insert_ne by done; exact Hk|]. wp_pure.
    eapply wp_store; simpl; [rewrite lookup_insert_ne, lookup_insert_eq by done; done|].
    wp_pure. eapply wp_store; simpl; [apply lookup_insert_eq|]. wp_pure.
    apply (Hnew _ f'); [|by simpl; rewrite Hu64|].
    + exists None. rewrite insert_insert_eq. eapply (frep_new_group s pp (k :: G) f' (p, key)); simpl; try done.
      * by rewrite lookup_insert_eq.
      * intros ? ? [= <- <-]. by rewrite lookup_insert_ne, lookup_insert_eq.
      * simpl. intros q ? ?. rewrite !lookup_insert_ne; congruence.
    + intros g [->|Hg]%elem_of_cons; [lia|].
      pose proof (sorted_head_all [] k G Hso g Hg). lia.
Qed.
(** ** Deletion of the least frequently used node *)

(** The cell is out, its group is not empty. *)
Lemma frep_free_cell s pp G p :
  frep s pp G {[p]} → p ∉ (allcells G).*1 →
  frep (FreqList (fl_fheap s) (delete p (fl_lheap s)) (fl_head s) (fl_count s)) pp G ∅.
Proof.
  intros [Hseg Hout Hhd Hcs Hfnd Hnd Hdom] Hp. split; simpl; try done.
  - intros g Hg. apply dseg_delete_out; [|by apply Hcs]. rewrite lcells_locs.
    intros (y & E & Hy)%list_elem_of_fmap. apply Hp. rewrite E. apply list_elem_of_fmap.
    exists y. split; [done|]. apply elem_of_allcells. eauto.
  - rewrite dom_delete_L, Hdom. apply set_eq. intros q.
    rewrite elem_of_difference, elem_of_union, elem_of_singleton, elem_of_list_to_set.
    rewrite union_empty_r_L, elem_of_list_to_set.
    destruct (decide (q = p)) as [->|]; naive_solver.
Qed.

(** The emptied first group is skipped, not unlinked: its node stays
    allocated and is the new first node's predecessor. *)
Lemma frep_skip_head s pp f u G2 X n' :
  frep s pp ((f, (u, [])) :: G2) X →
  frep (FreqList (<[f := n']> (fl_fheap s)) (fl_lheap s) (hd_ptr (fcells G2) None) (fl_count s))
    (Some f) G2 X.
Proof.
  intros [[Hf Hseg] Hout Hhd Hcs Hfnd Hnd Hdom]. apply NoDup_cons in Hfnd as [Hf2 Hfnd].
  cbn [fst] in *. split; simpl; try done.
  - apply dseg_insert_out; [|done]. by rewrite fcells_locs.
  - split; [by rewrite fcells_locs|]. rewrite lookup_insert_eq.
    destruct n' as [u' nx pv hd tl]. by exists (u', hd, tl), nx, pv.
  - intros g Hg. apply Hcs. by right.
Qed.

Lemma freq_rep_deleted s s' pp f u c1 x G2 :
  freq_rep s ((f, (u, c1 ++ [x])) :: G2) →
  len (counted ((f, (u, c1 ++ [x])) :: G2)) < 2 ^ 64 →
  let G' := (if decide (c1 = []) then [] else [(f, (u, c1))]) ++ G2 in
  frep s' pp G' ∅ → fl_count s' = fl_count s →
  freq_rep (fl_set_count (u64 (fl_count s' - 1)) s') G' ∧
  counted ((f, (u, c1 ++ [x])) :: G2) ≡ₚ (x, u) :: counted G'.
Proof.
  intros [_ Hc Hne Hso Hnn] Hlen G' Hr' Hc'.
  assert (counted ((f, (u, c1 ++ [x])) :: G2) ≡ₚ (x, u) :: counted G') as HR.
  { pose proof (counted_drop_empty [] f u c1 G2) as E. cbn [app] in E. subst G'. rewrite E.
    pose proof (counted_take_out [] f u c1 x [] G2) as Ht. by rewrite app_nil_r in Ht. }
  split; [|done]. split.
  - exists pp. destruct s'. by eapply frep_count.
  - simpl. rewrite Hc', Hc. rewrite <-!len_counted.
    rewrite (len_perm _ _ HR) in Hlen |- *. rewrite len_cons in *.
    rewrite u64_small; len_lia.
  - intros g [Hg|Hg]%elem_of_app; [|apply Hne; by right].
    case_decide; [by apply elem_of_nil in Hg|]. by apply list_elem_of_singleton in Hg as ->.
  - apply (sorted_drop [] f u c1 G2). exact Hso.
  - intros g [Hg|Hg]%elem_of_app; [|apply Hnn; by right].
    case_decide; [by apply elem_of_nil in Hg|]. apply list_elem_of_singleton in Hg as ->.
    apply (Hnn (f, (u, c1 ++ [x]))). left.
Qed.

Lemma wp_deletelfuListNode s f u c1 x G2 Q :
  freq_rep s ((f, (u, c1 ++ [x])) :: G2) →
  len (counted ((f, (u, c1 ++ [x])) :: G2)) < 2 ^ 64 →
  (∀ s' G', freq_rep s' G' →
     counted ((f, (u, c1 ++ [x])) :: G2) ≡ₚ (x, u) :: counted G' → Q tt s') →
  wp (deletelfuListNode (Some x.1)) s Q.
Proof.
  intros Hrep Hlen HQ. pose proof Hrep as [[pp Hr] _ _ _ _].
  assert ((f, (u, c1 ++ [x])) ∈ (f, (u, c1 ++ [x])) :: G2) as Hg by left.
  pose proof (frep_lnode _ _ _ _ _ c1 x [] Hr Hg eq_refl) as Hl. simpl in Hl.
  pose proof (allcells_NoDup_mid [] f u c1 x [] G2 (fr_nodup _ _ _ _ Hr)) as (_ & _ & _ & Hx & _).
  unfold deletelfuListNode, loadL, loadF, storeF. rewrite wp_seq_assoc.
  apply (wp_fixEnds_unlink s pp [] f u c1 x [] G2); [done|].
  rewrite app_nil_r in *. cbn [app] in *. intros s1 Hr1 Hl1 Ec1. rewrite Hl in Hl1.
  rewrite wp_bind. eapply wp_load; [exact Hl1|]. simpl.
  pose proof (frep_fnode _ _ [] _ _ _ Hr1) as Hf. simpl in Hf.
  rewrite wp_bind. eapply wp_load; [exact Hf|]. simpl.
  assert (∀ s2 pp', fl_lheap s2 = fl_lheap s1 → fl_count s2 = fl_count s1 →
    frep s2 pp' ((if decide (c1 = []) then [] else [(f, (u, c1))]) ++ G2) {[x.1]} →
    x.1 ∉ (allcells ((if decide (c1 = []) then [] else [(f, (u, c1))]) ++ G2)).*1 →
    wp (free (N := lfuListNode) (Some x.1);;
        modify (λ s, fl_set_count (u64 (fl_count s - 1)) s)) s2 Q) as Hfin.
  { intros s2 pp' E2 C2 Hr2 Hx2. rewrite wp_bind. rewrite <-E2 in Hl1.
    eapply wp_free; [exact Hl1|]. rewrite wp_modify.
    apply frep_free_cell in Hr2; [|done].
    eapply freq_rep_deleted in Hr2 as [Hfr HR]; [|exact Hrep|done|simpl; congruence].
    by eapply HQ. }
  rewrite wp_bind. destruct c1 as [|y c1]; simpl.
  - pose proof (fr_head _ _ _ _ Hr1) as Hh. simpl in Hh.
    rewrite wp_bind, wp_gets, wp_bind, Hh, ptr_eqb_refl. simpl. rewrite wp_modify.
    rewrite wp_bind. eapply wp_store; simpl; [exact Hf|]. simpl.
    rewrite wp_bind. eapply wp_load; simpl; [apply lookup_insert_eq|].
    eapply wp_store; simpl; [apply lookup_insert_eq|].
    rewrite insert_insert_eq. eapply Hfin; [done|done|by eapply frep_skip_head|].
    by rewrite allcells_cons in Hx.
  - rewrite wp_ret. by eapply Hfin.
Qed.

(** The node [freqList->head->tail], which [deleteLFU] evicts, has the
    smallest use count of all. *)
Lemma freq_rep_victim s G :
  freq_rep s G → counted G ≠ [] →
  ∃ f u c1 x G2, G = (f, (u, c1 ++ [x])) :: G2 ∧ fl_head s = Some f ∧
    (∃ nx pv hd, fl_fheap s !! f = Some (FreqNode u nx pv hd (Some x.1))) ∧
    (∃ nx pv pr, fl_lheap s !! x.1 = Some (LfuNode x.2 nx pv pr)) ∧
    ∀ y v, (y, v) ∈ counted G → u <= v.
Proof.
  intros [[pp Hr] _ Hne Hso _] Hnil. destruct G as [|[f [u cs]] G]; [done|].
  pose proof (Hne (f, (u, cs)) ltac:(left)) as Hcs. simpl in Hcs.
  destruct cs as [|x c1 _] using rev_ind; [done|]. clear Hcs.
  exists f, u, c1, x, G. split_and!; [done|apply (fr_head _ _ _ _ Hr)|..].
  - pose proof (frep_fnode _ _ [] _ _ _ Hr) as Hf. simpl in Hf.
    rewrite last_ptr_app in Hf. eauto.
  - assert ((f, (u, c1 ++ [x])) ∈ (f, (u, c1 ++ [x])) :: G) as Hg by left.
    pose proof (frep_lnode _ _ _ _ _ c1 x [] Hr Hg eq_refl) as Hl. eauto.
  - intros y v (g & [->|Hg]%elem_of_cons & <- & _)%elem_of_counted; [simpl; lia|].
    pose proof (sorted_head_all [] _ G Hso g Hg). simpl in *. lia.
Qed.
End freq_specs.
