(* ===== verification/Backends.v ===== *)
(** * Paging backends: the block stores behind the page table

    [BlockDev] is what [page_table.c] expects of the store it pages to: an
    array of blocks of [BLOCK_SIZE] bytes with a read and a write. This file
    has the interface, the in-memory store of src/ip6/lib/vmem/mem.c and the
    file store of src/ip6/lib/vmem/disk.c, and [readData]/[writeData] of
    page_table.c, which dispatch on [pagingSystem]. *)

From S2P Require Import Prelude Types.

(** A block: [BLOCK_SIZE] bytes. *)
Record block_of `{Config} (b : list Z) : Prop := BlockOf {
  bo_len : len b = BLOCK_SIZE;
  bo_bytes : Forall byte_ok b;
}.

(** Block [p] of [content d] is what a read returns. *)
Class BlockDev `{Config} (D : Type) := {
  bd_read : Z → list Z → M D (list Z);
  bd_write : Z → list Z → M D unit;
  bd_inv : D → Prop;
  bd_blocks : D → Z;
  bd_content : D → Z → list Z;
  bd_content_block d p : bd_inv d → 0 <= p < bd_blocks d → block_of (bd_content d p);
  bd_read_ok d p buf Q :
    bd_inv d → 0 <= p < bd_blocks d → block_of buf →
    (∀ d', bd_inv d' → bd_blocks d' = bd_blocks d →
       (∀ q, 0 <= q < bd_blocks d → bd_content d' q = bd_content d q) →
       Q (bd_content d p) d') →
    wp (bd_read p buf) d Q;
  bd_write_ok d p buf Q :
    bd_inv d → 0 <= p < bd_blocks d → block_of buf →
    (∀ d', bd_inv d' → bd_blocks d' = bd_blocks d →
       (∀ q, 0 <= q < bd_blocks d →
          bd_content d' q = if decide (q = p) then buf else bd_content d q) →
       Q tt d') →
    wp (bd_write p buf) d Q;
}.

(** ** mem.c *)
Module Mem.
Section Mem.
Context `{Config}.

Record mem := MkMem { memList : list (list Z); block_size : Z; nblocks : Z }.
Definition set_memList (l : list (list Z)) (r : mem) := MkMem l (block_size r) (nblocks r).

(** [fill_mem] allocates the blocks; their initial content is whatever
    [malloc] returns. *)
Definition fill_mem (garbage : Z → list Z) (r : mem) : mem :=
  set_memList ((λ i, garbage (Z.of_nat i)) <$> seq 0 (Z.to_nat (nblocks r))) r.
Definition mem_allocate (garbage : Z → list Z) (n : Z) : mem :=
  fill_mem garbage (MkMem [] BLOCK_SIZE n).

Definition mem_write (block : Z) (data : list Z) : M mem unit :=
  n ← gets nblocks;
  if (block <? 0) || (n <=? block) then err Abort else
  bs ← gets block_size;
  old ← aload memList block;
  b ← memcpy old data bs;
  astore memList set_memList block b.

Definition mem_read (block : Z) (data : list Z) : M mem (list Z) :=
  n ← gets nblocks;
  if (block <? 0) || (n <=? block) then err Abort else
  bs ← gets block_size;
  b ← aload memList block;
  memcpy data b bs.

Definition mem_blocks (r : mem) : Z := nblocks r.

Record mem_ok (r : mem) : Prop := {
  mo_bs : block_size r = BLOCK_SIZE;
  mo_len : len (memList r) = nblocks r;
  mo_int : nblocks r < 2 ^ 31;
  mo_block p b : idx (memList r) p = Some b → block_of b;
}.
Definition mem_content (r : mem) (p : Z) : list Z := default [] (idx (memList r) p).

(** The page number is a [uint64_t]; the parameter of [mem_read] is an [int]. *)
Definition mem_read_page (page : Z) (data : list Z) : M mem (list Z) := mem_read (s32 page) data.
Definition mem_write_page (page : Z) (data : list Z) : M mem unit := mem_write (s32 page) data.

Lemma s32_small x : 0 <= x < 2 ^ 31 → s32 x = x.
Proof.
  intros. unfold s32. rewrite u32_small by lia. by rewrite (proj2 (Z.ltb_lt _ _)) by lia.
Qed.

Lemma wp_mem_read r p buf Q :
  mem_ok r → 0 <= p < nblocks r → block_of buf → Q (mem_content r p) r →
  wp (mem_read_page p buf) r Q.
Proof.
  intros [Hbs Hlen Hint Hblk] Hp Hb HQ. unfold mem_read_page, mem_read.
  rewrite s32_small by lia. rewrite wp_bind, wp_gets.
  rewrite (proj2 (Z.ltb_ge p 0)), (proj2 (Z.leb_gt _ p)) by lia. simpl.
  rewrite wp_bind, wp_gets, wp_bind. rewrite <-Hlen in Hp.
  apply idx_is_Some in Hp as [b E]. eapply wp_aload; [exact E|].
  rewrite Hbs. apply wp_memcpy_full; [by eapply bo_len, Hblk|apply Hb|].
  unfold mem_content in HQ. by rewrite E in HQ.
Qed.

Lemma wp_mem_write r p buf Q :
  mem_ok r → 0 <= p < nblocks r → block_of buf →
  Q tt (set_memList (upd (memList r) p buf) r) →
  wp (mem_write_page p buf) r Q.
Proof.
  intros [Hbs Hlen Hint Hblk] Hp Hb HQ. unfold mem_write_page, mem_write.
  rewrite s32_small by lia. rewrite wp_bind, wp_gets.
  rewrite (proj2 (Z.ltb_ge p 0)), (proj2 (Z.leb_gt _ p)) by lia. simpl.
  rewrite wp_bind, wp_gets, wp_bind. rewrite <-Hlen in Hp.
  pose proof Hp as [b E]%idx_is_Some. eapply wp_aload; [exact E|]. rewrite wp_bind.
  rewrite Hbs. apply wp_memcpy_full; [apply Hb|by eapply bo_len, Hblk|]. by apply wp_astore.
Qed.

#[export] Program Instance mem_dev : BlockDev mem := {|
  bd_read := mem_read_page;
  bd_write := mem_write_page;
  bd_inv := mem_ok;
  bd_blocks := nblocks;
  bd_content := mem_content;
|}.
Next Obligation.
  intros r p [Hbs Hlen Hint Hblk] Hp. rewrite <-Hlen in Hp.
  apply idx_is_Some in Hp as [b E]. unfold mem_content. rewrite E. by eapply Hblk.
Qed.
Next Obligation. intros r p buf Q Hr Hp Hb HQ. apply wp_mem_read; auto. Qed.
Next Obligation.
  intros r p buf Q [Hbs Hlen Hint Hblk] Hp Hb HQ. apply wp_mem_write; [done..|].
  apply HQ; [|done|].
  - split; simpl; [done|by rewrite len_upd|done|]. intros q b.
    rewrite idx_upd by lia. case_decide; [by intros [= <-]|by apply Hblk].
  - intros q Hq. unfold mem_content. simpl. rewrite idx_upd by lia.
    repeat case_decide; by simplify_eq/=.
Qed.

Lemma mem_allocate_ok garbage n :
  0 <= n < 2 ^ 31 → (∀ i, block_of (garbage i)) → mem_ok (mem_allocate garbage n).
Proof.
  intros Hn Hg. split; simpl; [done| |lia|].
  - unfold len. rewrite length_fmap, length_seq. lia.
  - intros p b. unfold idx. case_match; [|done].
    intros (i & -> & _)%list_elem_of_lookup_2%list_elem_of_fmap. apply Hg.
Qed.
End Mem.
End Mem.

(** ** disk.c

    The backing file is its list of bytes; [pread] returns fewer bytes at the
    end of the file, [pwrite] to a regular file writes all of them. *)
Module Disk.
Section Disk.
Context `{Config}.

Record disk := MkDisk { file : list Z; block_size : Z; nblocks : Z }.
Definition set_file (f : list Z) (d : disk) := MkDisk f (block_size d) (nblocks d).

Definition ftruncate (f : list Z) (n : Z) : list Z :=
  take (Z.to_nat n) f ++ replicate (Z.to_nat (n - len f)) 0.
Definition pread (f : list Z) (n off : Z) : list Z :=
  take (Z.to_nat n) (drop (Z.to_nat off) f).
Definition pwrite (f data : list Z) (n off : Z) : list Z :=
  let f' := f ++ replicate (Z.to_nat (off - len f)) 0 in
  take (Z.to_nat off) f' ++ take (Z.to_nat n) data ++ drop (Z.to_nat (off + n)) f'.

(** [open] and [ftruncate] may fail; [old] is what the file held. *)
Definition disk_open (open_ok ftruncate_ok : bool) (old : list Z) (n : Z) : option disk :=
  if negb open_ok then None else
  if negb ftruncate_ok then None else
  Some (MkDisk (ftruncate old (u64 (n * BLOCK_SIZE))) BLOCK_SIZE n).

Definition disk_write (block : Z) (data : list Z) : M disk unit :=
  n ← gets nblocks;
  if n <=? block then err Abort else
  bs ← gets block_size;
  if len data <? bs then err OutOfBounds else
  f ← gets file;
  modify (set_file (pwrite f data bs (u64 (block * bs)))).

Definition disk_read (block : Z) (data : list Z) : M disk (list Z) :=
  n ← gets nblocks;
  if n <=? block then err Abort else
  bs ← gets block_size;
  f ← gets file;
  let got := pread f bs (u64 (block * bs)) in
  if negb (len got =? bs) then err Abort else
  memcpy data got bs.

Definition disk_nblocks (d : disk) : Z := nblocks d.

Record disk_ok (d : disk) : Prop := {
  do_bs : block_size d = BLOCK_SIZE;
  do_pos : 0 <= nblocks d;
  do_len : len (file d) = nblocks d * BLOCK_SIZE;
  do_u64 : nblocks d * BLOCK_SIZE < 2 ^ 64;
  do_bytes : Forall byte_ok (file d);
}.
Definition disk_content (d : disk) (p : Z) : list Z :=
  pread (file d) BLOCK_SIZE (p * BLOCK_SIZE).

Lemma block_in_file d p :
  disk_ok d → 0 <= p < nblocks d →
  0 <= p * BLOCK_SIZE ∧ p * BLOCK_SIZE + BLOCK_SIZE <= len (file d) ∧
  u64 (p * BLOCK_SIZE) = p * BLOCK_SIZE.
Proof.
  intros [_ Hpos Hlen Hu _] Hp. pose proof BLOCK_SIZE_pos.
  assert (p * BLOCK_SIZE + BLOCK_SIZE <= len (file d)) by (rewrite Hlen; nia).
  split_and!; [nia|done|]. apply u64_small. split; [nia|]. lia.
Qed.

Lemma len_pread f n off :
  0 <= n → 0 <= off → off + n <= len f → len (pread f n off) = n.
Proof. intros. unfold pread, len in *. rewrite length_take, length_drop. lia. Qed.

Lemma len_pwrite f data n off :
  0 <= n → 0 <= off → off + n <= len f → n <= len data →
  len (pwrite f data n off) = len f.
Proof.
  intros. unfold pwrite, len in *.
  rewrite !length_app, !length_take, length_drop, length_app, length_replicate. lia.
Qed.

Lemma pread_pwrite_eq f data n off :
  0 <= n → 0 <= off → off + n <= len f → len data = n →
  pread (pwrite f data n off) n off = data.
Proof.
  intros. unfold pread, pwrite, len in *.
  rewrite (take_ge data) by lia.
  rewrite drop_app_length' by (rewrite length_take, length_app; lia).
  rewrite take_app_length' by lia. done.
Qed.

Lemma pread_pwrite_ne f data n off off' :
  0 <= n → 0 <= off → 0 <= off' → off + n <= len f → off' + n <= len f → len data = n →
  off' + n <= off ∨ off + n <= off' →
  pread (pwrite f data n off) n off' = pread f n off'.
Proof.
  intros. unfold pread, pwrite, len in *. apply list_eq. intros i.
  replace (Z.to_nat (off - Z.of_nat (length f))) with 0%nat by lia.
  rewrite app_nil_r, (take_ge data) by lia.
  destruct (decide (i < Z.to_nat n)%nat); [|rewrite !lookup_take_ge by lia; done].
  rewrite !lookup_take_lt, !lookup_drop by lia.
  destruct (decide (off' + n <= off)).
  - rewrite lookup_app_l by (rewrite length_take; lia). rewrite lookup_take_lt by lia. done.
  - rewrite lookup_app_r by (rewrite length_take; lia).
    rewrite lookup_app_r by (rewrite length_take; lia).
    rewrite lookup_drop, length_take. f_equal. lia.
Qed.

Lemma pread_bytes f n off : Forall byte_ok f → Forall byte_ok (pread f n off).
Proof. intros. by apply Forall_take, Forall_drop. Qed.
Lemma pwrite_bytes f data n off :
  Forall byte_ok f → Forall byte_ok data → Forall byte_ok (pwrite f data n off).
Proof.
  intros Hf Hd. assert (Forall byte_ok (f ++ replicate (Z.to_nat (off - len f)) 0)).
  { apply Forall_app. split; [done|]. by apply Forall_replicate. }
  repeat (apply Forall_app; split); by apply Forall_take || apply Forall_drop.
Qed.

#[export] Program Instance disk_dev : BlockDev disk := {|
  bd_read := disk_read;
  bd_write := disk_write;
  bd_inv := disk_ok;
  bd_blocks := nblocks;
  bd_content := disk_content;
|}.
Next Obligation.
  intros d p Hd Hp. pose proof (block_in_file d p Hd Hp). pose proof BLOCK_SIZE_pos.
  split; [apply len_pread; lia|]. apply pread_bytes, Hd.
Qed.
Next Obligation.
  intros d p buf Q Hd Hp Hb HQ. pose proof (block_in_file d p Hd Hp) as (?&?&Hu).
  pose proof BLOCK_SIZE_pos. unfold disk_read. rewrite wp_bind, wp_gets.
  rewrite (proj2 (Z.leb_gt _ p)) by lia. rewrite wp_bind, wp_gets, wp_bind, wp_gets.
  rewrite (do_bs _ Hd), Hu, len_pread, Z.eqb_refl by lia. simpl.
  apply wp_memcpy_full; [apply len_pread; lia|apply Hb|]. by apply HQ.
Qed.
Next Obligation.
  intros d p buf Q Hd Hp Hb HQ. pose proof (block_in_file d p Hd Hp) as (?&?&Hu).
  pose proof BLOCK_SIZE_pos. unfold disk_write. rewrite wp_bind, wp_gets.
  rewrite (proj2 (Z.leb_gt _ p)) by lia. rewrite wp_bind, wp_gets.
  rewrite (do_bs _ Hd), Hu. rewrite (proj2 (Z.ltb_ge _ _)) by (rewrite (bo_len _ Hb); lia).
  wp_pure. apply HQ; simpl; [|done|].
  - pose proof (bo_len _ Hb). destruct Hd. split; simpl; try done.
    + rewrite len_pwrite; try done; lia.
    + apply pwrite_bytes; [done|apply Hb].
  - intros q Hq. pose proof (block_in_file d q Hd Hq) as (?&?&_).
    unfold disk_content. simpl. case_decide as E; subst.
    + apply pread_pwrite_eq; try lia. apply Hb.
    + apply pread_pwrite_ne; try lia; [apply Hb|]. nia.
Qed.

Lemma disk_open_ok old n :
  0 <= n → n * BLOCK_SIZE < 2 ^ 64 → Forall byte_ok old →
  ∃ d, disk_open true true old n = Some d ∧ disk_ok d ∧ nblocks d = n.
Proof.
  intros Hn Hu Ho. pose proof BLOCK_SIZE_pos. eexists. split; [reflexivity|]. split; [|done].
  split; simpl; try done.
  - rewrite u64_small by nia. unfold ftruncate, len.
    rewrite length_app, length_take, length_replicate. nia.
  - apply Forall_app. split; [by apply Forall_take|by apply Forall_replicate].
Qed.
End Disk.
End Disk.

(** ** readData and writeData of page_table.c *)

Definition MEM_PAGING : Z := 0.
Definition RMEM_PAGING : Z := 1.
Definition DISK_PAGING : Z := 2.
Definition RRMEM_PAGING : Z := 3.

(** The globals [pagingSystem], [mem], [rmem], [disk], [rrmem] and the
    statistics counters. *)
Record stores (Dm Dr Dd Drr : Type) := MkStores {
  pagingSystem : Z;
  g_mem : Dm;
  g_rmem : Dr;
  g_disk : Dd;
  g_rrmem : Drr;
  pageReads : Z;
  pageWrites : Z;
}.
Arguments MkStores {Dm Dr Dd Drr}.
Arguments pagingSystem {Dm Dr Dd Drr}.
Arguments g_mem {Dm Dr Dd Drr}.
Arguments g_rmem {Dm Dr Dd Drr}.
Arguments g_disk {Dm Dr Dd Drr}.
Arguments g_rrmem {Dm Dr Dd Drr}.
Arguments pageReads {Dm Dr Dd Drr}.
Arguments pageWrites {Dm Dr Dd Drr}.

Section Stores.
Context `{Config} {Dm Dr Dd Drr : Type}.
Context `{!BlockDev Dm, !BlockDev Dr, !BlockDev Dd, !BlockDev Drr}.
Abbreviation ST := (stores Dm Dr Dd Drr).

Definition put_mem (d : Dm) (s : ST) : ST :=
  MkStores (pagingSystem s) d (g_rmem s) (g_disk s) (g_rrmem s) (pageReads s) (pageWrites s).
Definition put_rmem (d : Dr) (s : ST) : ST :=
  MkStores (pagingSystem s) (g_mem s) d (g_disk s) (g_rrmem s) (pageReads s) (pageWrites s).
Definition put_disk (d : Dd) (s : ST) : ST :=
  MkStores (pagingSystem s) (g_mem s) (g_rmem s) d (g_rrmem s) (pageReads s) (pageWrites s).
Definition put_rrmem (d : Drr) (s : ST) : ST :=
  MkStores (pagingSystem s) (g_mem s) (g_rmem s) (g_disk s) d (pageReads s) (pageWrites s).
Definition bump_reads (s : ST) : ST :=
  MkStores (pagingSystem s) (g_mem s) (g_rmem s) (g_disk s) (g_rrmem s)
    (u64 (pageReads s + 1)) (pageWrites s).
Definition bump_writes (s : ST) : ST :=
  MkStores (pagingSystem s) (g_mem s) (g_rmem s) (g_disk s) (g_rrmem s)
    (pageReads s) (u64 (pageWrites s + 1)).

(** The new content of the buffer [data]. *)
Definition readData (page : Z) (data : list Z) : M ST (list Z) :=
  sys ← gets pagingSystem;
  data ← (if sys =? MEM_PAGING then zoom g_mem put_mem (bd_read page data)
          else if sys =? RMEM_PAGING then zoom g_rmem put_rmem (bd_read page data)
          else if sys =? DISK_PAGING then zoom g_disk put_disk (bd_read page data)
          else if sys =? RRMEM_PAGING then zoom g_rrmem put_rrmem (bd_read page data)
          else mret data);
  modify bump_reads;;
  mret data.

Definition writeData (page : Z) (data : list Z) : M ST unit :=
  sys ← gets pagingSystem;
  (if sys =? MEM_PAGING then zoom g_mem put_mem (bd_write page data)
   else if sys =? RMEM_PAGING then zoom g_rmem put_rmem (bd_write page data)
   else if sys =? DISK_PAGING then zoom g_disk put_disk (bd_write page data)
   else if sys =? RRMEM_PAGING then zoom g_rrmem put_rrmem (bd_write page data)
   else mret tt);;
  modify bump_writes.

(** The selected store. *)
Definition on_store {X} (fm : Dm → X) (fr : Dr → X) (fd : Dd → X) (frr : Drr → X) (s : ST) : X :=
  if pagingSystem s =? MEM_PAGING then fm (g_mem s)
  else if pagingSystem s =? RMEM_PAGING then fr (g_rmem s)
  else if pagingSystem s =? DISK_PAGING then fd (g_disk s)
  else frr (g_rrmem s).

Definition stores_inv (s : ST) : Prop :=
  0 <= pagingSystem s <= 3 ∧ on_store bd_inv bd_inv bd_inv bd_inv s.

#[local] Lemma paging_cases (s : ST) :
  0 <= pagingSystem s <= 3 →
  pagingSystem s = MEM_PAGING ∨ pagingSystem s = RMEM_PAGING ∨
  pagingSystem s = DISK_PAGING ∨ pagingSystem s = RRMEM_PAGING.
Proof. unfold MEM_PAGING, RMEM_PAGING, DISK_PAGING, RRMEM_PAGING. lia. Qed.

#[export] Program Instance stores_dev : BlockDev ST := {|
  bd_read := readData;
  bd_write := writeData;
  bd_inv := stores_inv;
  bd_blocks := on_store bd_blocks bd_blocks bd_blocks bd_blocks;
  bd_content := on_store bd_content bd_content bd_content bd_content;
|}.
Next Obligation.
  intros [sys m r d rr n1 n2] p [Hs Hinv] Hp. pose proof (paging_cases _ Hs) as Hc.
  unfold on_store in *. simpl in *. destruct Hc as [->|[->|[->| ->]]]; simpl in *;
    by apply bd_content_block.
Qed.
Next Obligation.
  intros [sys m r d rr n1 n2] p buf Q [Hs Hinv] Hp Hb HQ. pose proof (paging_cases _ Hs) as Hc.
  unfold readData. wp_pure. unfold stores_inv, on_store in *. simpl in *.
  destruct Hc as [->|[->|[->| ->]]]; simpl in *; rewrite wp_zoom; simpl;
    apply bd_read_ok; auto; intros; wp_pure; apply HQ; simpl; auto.
Qed.
Next Obligation.
  intros [sys m r d rr n1 n2] p buf Q [Hs Hinv] Hp Hb HQ. pose proof (paging_cases _ Hs) as Hc.
  unfold writeData. wp_pure. unfold stores_inv, on_store in *. simpl in *.
  destruct Hc as [->|[->|[->| ->]]]; simpl in *; rewrite wp_zoom; simpl;
    apply bd_write_ok; auto; intros; wp_pure; apply HQ; simpl; auto.
Qed.
End Stores.
