(* ===== verification/RMem.v ===== *)
(** * Paging to remote memory: src/ip6/lib/vmem/rmem.c

    A block store whose blocks are ranges of the servers' memories, accessed
    through the client library. [rmem_dev] is its [BlockDev] instance, proved
    from the contract [RemoteHosts] only. *)

From S2P Require Import Prelude Types Bytes Backends Wire RawSend RawRecv Server ServerSpec Client Remote.

Section RMem.
Context `{Config} `{!Calloc} {W : Type} `{!ClientNet W}.

(** [struct rmem], [myConf.num_hosts] and the state of the client library. *)
Record rmem := MkRmem {
  rm_memList : list ip6_memaddr;
  rm_block_size : Z;
  rm_nblocks : Z;
  num_hosts : Z;
  rm_client : client W;
}.
Definition put_memList x r := MkRmem x (rm_block_size r) (rm_nblocks r) (num_hosts r) (rm_client r).
Definition put_client x r :=
  MkRmem (rm_memList r) (rm_block_size r) (rm_nblocks r) (num_hosts r) x.
Definition on_client {A} (m : M (client W) A) : M rmem A := zoom rm_client put_client m.

(** [memcpy(&memList[offset], temp, length * sizeof(ip6_memaddr))]. *)
Definition copy_addrs (offset : Z) (temp : list ip6_memaddr) : M rmem unit :=
  l ← gets rm_memList;
  if offset + len temp <=? len l
  then modify (put_memList (take (Z.to_nat offset) l ++ temp ++ drop (Z.to_nat (offset + len temp)) l))
  else err OutOfBounds.

Definition fill_host (split i : Z) : M rmem unit :=
  n ← gets num_hosts;
  nb ← gets rm_nblocks;
  let offset := split * i in
  let length := if i =? n - 1 then nb - offset else split in
  a ← on_client (get_ip6_target i);
  on_client (modify (λ c, put_ctarget (MkSock a (sin6_port (c_target c))) c));;
  temp ← on_client (allocate_bulk_rmem length);
  copy_addrs offset temp.
(** [memList] comes from [malloc]: its content is [garbage]. *)
Definition fill_rmem (garbage : ip6_memaddr) : M rmem unit :=
  nb ← gets rm_nblocks;
  n ← gets num_hosts;
  if n =? 0 then err DivByZero else
  modify (put_memList (replicate (Z.to_nat nb) garbage));;
  for_range 0 n (fill_host (nb / n)).
Definition rmem_allocate (nblocks nhosts : Z) (garbage : ip6_memaddr) (c : client W) : res rmem unit :=
  fill_rmem garbage (MkRmem [] BLOCK_SIZE nblocks nhosts c).

Definition rmem_write (block : Z) (data : list Z) : M rmem unit :=
  nb ← gets rm_nblocks;
  if nb <=? block then err Abort else
  a ← aload rm_memList block;
  a ← on_client (write_rmem a data (u16 BLOCK_SIZE));
  astore rm_memList put_memList block a.

Definition rmem_read (block : Z) (data : list Z) : M rmem (list Z) :=
  nb ← gets rm_nblocks;
  if nb <=? block then err Abort else
  a ← aload rm_memList block;
  bs ← gets rm_block_size;
  '(a, data, _) ← on_client (read_rmem a data (u16 bs));
  astore rm_memList put_memList block a;;
  mret data.

Definition rmem_blocks (r : rmem) : Z := rm_nblocks r.

Definition free_host (split i : Z) : M rmem unit :=
  let offset := split * i in
  a ← aload rm_memList offset;
  a ← on_client (free_rmem a);
  astore rm_memList put_memList offset a.
Definition rmem_deallocate : M rmem unit :=
  nb ← gets rm_nblocks;
  n ← gets num_hosts;
  if n =? 0 then err DivByZero else for_range 0 n (free_host (nb / n)).

(** ** The store *)

Context `{!RemoteHosts W}.
Hypothesis Hbs : BLOCK_SIZE <= MAX_PAYLOAD.

Abbreviation net_of r := (c_net (rm_client r)).
Abbreviation host_mem r := (rh_mem (net_of r)).

Record rmem_ok (r : rmem) : Prop := {
  rk_client : client_inv (rm_client r);
  rk_bs : rm_block_size r = BLOCK_SIZE;
  rk_len : len (rm_memList r) = rm_nblocks r;
  rk_addr p a : idx (rm_memList r) p = Some a → addr_in (subid a) a;
  rk_mapped p a : idx (rm_memList r) p = Some a →
    mapped (host_mem r (subid a)) (paddr a) BLOCK_SIZE;
  rk_apart p q a b : idx (rm_memList r) p = Some a → idx (rm_memList r) q = Some b → p ≠ q →
    subid a = subid b → apart (paddr a) BLOCK_SIZE (paddr b) BLOCK_SIZE;
}.
Definition rmem_content (r : rmem) (p : Z) : list Z :=
  match idx (rm_memList r) p with
  | Some a => rd_bytes (host_mem r (subid a)) (paddr a) BLOCK_SIZE
  | None => []
  end.

Lemma len_rd_bytes mem a n : 0 <= n → len (rd_bytes mem a n) = n.
Proof. intros. unfold rd_bytes, len. rewrite length_fmap, length_seq. lia. Qed.
Lemma idx_rd_bytes mem a n i :
  0 <= i < n → idx (rd_bytes mem a n) i = Some (default 0 (mem !! (a + i))).
Proof.
  intros Hi. unfold idx, rd_bytes. rewrite (proj2 (Z.leb_le 0 i)) by lia.
  rewrite list_lookup_fmap, lookup_seq_lt by lia. simpl. by rewrite Z2Nat.id by lia.
Qed.
Lemma rd_bytes_eq mem a n l :
  len l = n → (∀ i, 0 <= i < n → mem !! (a + i) = idx l i) → rd_bytes mem a n = l.
Proof.
  intros Hl Hi. pose proof (len_nonneg l). apply idx_ext. intros i.
  destruct (decide (0 <= i < n)) as [Hr|Hr].
  - rewrite idx_rd_bytes, Hi by done. destruct (idx_is_Some l i) as [x ->]; [lia|done].
  - rewrite !idx_None; [done|lia|]. rewrite len_rd_bytes; lia.
Qed.
Lemma rd_bytes_ext mem mem' a n :
  0 <= n → (∀ x, a <= x < a + n → mem !! x = mem' !! x) → rd_bytes mem a n = rd_bytes mem' a n.
Proof.
  intros Hn Hx. apply idx_ext. intros i. destruct (decide (0 <= i < n)) as [Hr|Hr].
  - rewrite !idx_rd_bytes, Hx by lia. done.
  - rewrite !idx_None; [done|rewrite len_rd_bytes; lia..].
Qed.

Lemma payload_u16 : 0 < BLOCK_SIZE < 2 ^ 16.
Proof.
  pose proof BLOCK_SIZE_pos. pose proof offs. unfold MAX_PAYLOAD in Hbs. lia.
Qed.

(** A state with the same pointers and maps from which the invariant follows. *)
Lemma rmem_ok_step r c' p a a' :
  rmem_ok r → idx (rm_memList r) p = Some a → subid a' = subid a → paddr a' = paddr a →
  addr_ok a' → client_inv c' →
  (∀ i x, is_Some (host_mem r i !! x) → is_Some (rh_mem (c_net c') i !! x)) →
  rmem_ok (put_memList (upd (rm_memList r) p a') (put_client c' r)).
Proof.
  intros [Hc Hb Hl Ha Hm Hap] Hp Hs Hpa Hok Hc' Hmono.
  pose proof (idx_Some_range _ _ _ Hp) as Hr.
  assert (∀ q b, idx (upd (rm_memList r) p a') q = Some b →
    ∃ b0, idx (rm_memList r) q = Some b0 ∧ subid b = subid b0 ∧ paddr b = paddr b0 ∧
      (b = b0 ∨ b = a')) as Hold.
  { intros q b E. rewrite idx_upd in E by done. case_decide as Ep.
    - subst q. injection E as <-. exists a. auto.
    - exists b. auto. }
  split; simpl; [done|done|by rewrite len_upd| | |].
  - intros q b E. destruct (Hold q b E) as (b0 & E0 & Hs0 & Hp0 & Hor).
    destruct (Ha q b0 E0) as (? & _ & ?). rewrite Hs0. split_and!; [|done|done].
    destruct Hor as [->| ->]; done.
  - intros q b E x Hx. destruct (Hold q b E) as (b0 & E0 & Hs0 & Hp0 & _). rewrite Hs0.
    apply Hmono. apply (Hm q b0 E0). lia.
  - intros q q' b b' E E' Hne Hss. destruct (Hold q b E) as (b0 & E0 & Hs0 & Hp0 & _).
    destruct (Hold q' b' E') as (b0' & E0' & Hs0' & Hp0' & _). rewrite Hp0, Hp0'.
    eapply Hap; [done..|congruence].
Qed.
Lemma content_upd r c' p a a' q :
  idx (rm_memList r) p = Some a → subid a' = subid a → paddr a' = paddr a →
  rmem_content (put_memList (upd (rm_memList r) p a') (put_client c' r)) q =
  match idx (rm_memList r) q with
  | Some b => rd_bytes (rh_mem (c_net c') (subid b)) (paddr b) BLOCK_SIZE
  | None => []
  end.
Proof.
  intros Hp Hs Hpa. pose proof (idx_Some_range _ _ _ Hp). unfold rmem_content. simpl.
  rewrite idx_upd by done. case_decide as E; [|done]. subst q. by rewrite Hp, Hs, Hpa.
Qed.

#[export] Program Instance rmem_dev : BlockDev rmem := {|
  bd_read := rmem_read;
  bd_write := rmem_write;
  bd_inv := rmem_ok;
  bd_blocks := rm_nblocks;
  bd_content := rmem_content;
|}.
Next Obligation.
  intros r p Hr Hp. rewrite <-(rk_len _ Hr) in Hp. apply idx_is_Some in Hp as [a E].
  unfold rmem_content. rewrite E. pose proof payload_u16.
  split; [apply len_rd_bytes; lia|]. unfold rd_bytes. apply Forall_fmap, Forall_forall.
  intros i [_ Hi]%elem_of_seq. simpl. destruct (rk_addr _ Hr p a E) as (_ & _ & Hsrv).
  destruct (rk_mapped _ Hr p a E (paddr a + Z.of_nat i)) as [y Ey]; [lia|]. rewrite Ey.
  eapply (mw_bytes _ _ (rh_wf _ _ (ci_net _ (rk_client _ Hr)) Hsrv)); done.
Qed.
Next Obligation.
  intros r p buf Q Hr Hp [Hbl _] HQ. pose proof payload_u16 as Hpu.
  pose proof Hp as Hp'. rewrite <-(rk_len _ Hr) in Hp'. apply idx_is_Some in Hp' as [a E].
  unfold rmem_read. rewrite wp_bind, wp_gets. rewrite (proj2 (Z.leb_gt _ p)) by lia.
  rewrite wp_bind. eapply wp_aload; [exact E|]. rewrite wp_bind, wp_gets, (rk_bs _ Hr).
  rewrite u16_small by lia. rewrite wp_bind. unfold on_client. rewrite wp_zoom.
  pose proof (rk_addr _ Hr p a E) as Ha.
  eapply (wp_read_rmem _ (subid a)); [apply Hr|done|lia|done|lia|by eapply (rk_mapped _ Hr)|].
  intros c' l Hc' Hm' Hbl' Ho _ _ Hll Htake _. rewrite wp_bind.
  apply wp_astore; [by eapply idx_Some_range|]. rewrite wp_ret. cbn [rm_memList put_client].
  assert (∀ i x, rh_mem (c_net c') i !! x = host_mem r i !! x) as Hmem.
  { intros i x. destruct (decide (i = subid a)) as [->|Hne]; [apply Hm'|].
    by destruct (Ho i Hne) as [-> _]. }
  rewrite take_ge in Htake by (unfold len in *; lia).
  assert (l = rmem_content r p) as -> by (unfold rmem_content; by rewrite E).
  apply HQ.
  - apply (rmem_ok_step r c' p a); try done; [|intros i x; by rewrite Hmem].
    destruct Ha as [[] _]. split; simpl; try done. lia.
  - done.
  - intros q Hq. rewrite (content_upd r c' p a) by done. unfold rmem_content.
    destruct (idx (rm_memList r) q) as [b|]; [|done]. apply rd_bytes_ext; [lia|]. intros. apply Hmem.
Qed.
Next Obligation.
  intros r p buf Q Hr Hp [Hbl Hbb] HQ. pose proof payload_u16 as Hpu.
  pose proof Hp as Hp'. rewrite <-(rk_len _ Hr) in Hp'. apply idx_is_Some in Hp' as [a E].
  unfold rmem_write. rewrite wp_bind, wp_gets. rewrite (proj2 (Z.leb_gt _ p)) by lia.
  rewrite wp_bind. eapply wp_aload; [exact E|]. rewrite wp_bind. unfold on_client. rewrite wp_zoom.
  pose proof (rk_addr _ Hr p a E) as Ha.
  rewrite u16_small by lia.
  eapply (wp_write_rmem _ (subid a)); [apply Hr|done|by rewrite Hbl|done|done|by eapply (rk_mapped _ Hr)|].
  intros c' Hc' Hm' Hbl' Ho _ _. apply wp_astore; [by eapply idx_Some_range|].
  cbn [rm_memList put_client]. apply HQ.
  - apply (rmem_ok_step r c' p a); try done.
    { destruct Ha as [[] _]. by split. }
    intros i x Hx. destruct (decide (i = subid a)) as [->|Hne].
    + rewrite Hm'. unfold stored_at. case_decide; [|done]. apply idx_is_Some. lia.
    + by destruct (Ho i Hne) as [-> _].
  - done.
  - intros q Hq. rewrite (content_upd r c' p a) by done. unfold rmem_content.
    destruct (decide (q = p)) as [->|Hne].
    + rewrite E. apply rd_bytes_eq; [done|]. intros i Hi. rewrite Hm'. unfold stored_at.
      rewrite decide_True by lia. f_equal. lia.
    + destruct (idx (rm_memList r) q) as [b|] eqn:Eb; [|done]. apply rd_bytes_ext; [lia|].
      intros x Hx. destruct (decide (subid b = subid a)) as [Es|Hns].
      * rewrite Es, Hm'. unfold stored_at. rewrite decide_False; [done|].
        destruct (rk_apart _ Hr q p b a Eb E Hne Es); lia.
      * by destruct (Ho _ Hns) as [-> _].
Qed.
End RMem.
Arguments rmem : clear implicits.

(** ** Allocation

    [allocate_bulk_rmem] asks a server for as many bytes as blocks, and the
    blocks are [BLOCK_SIZE] apart; the ranges it hands out are inside what was
    allocated when [BLOCK_SIZE] is 1, the value of types.h. *)

Section Allocate.
Context `{Config} `{!Calloc} {W : Type} `{!ClientNet W} `{!RemoteHosts W}.
Hypothesis Hone : BLOCK_SIZE = 1.
Variables (nb n : Z) (hosts : list ip6_memaddr).
Hypothesis Hn : 0 < n <= nb.
Hypothesis Hn256 : n <= 256.
Hypothesis Hnb : nb < 2 ^ 63.
(** The host list names [n] different servers. *)
Hypothesis Hhosts : ∀ i, 0 <= i < n →
  ∃ a, idx hosts i = Some a ∧ addr_ok a ∧ is_Some (rh_server (subid a)).
Hypothesis Hdistinct : ∀ i j a b, idx hosts i = Some a → idx hosts j = Some b →
  subid a = subid b → i = j.
(** The live blocks of the servers at the start; each has room for the blocks. *)
Variable bl0 : Z → gmap Z Z.
Hypothesis Hmemory : ∀ h b m, idx hosts h = Some b → 0 < m <= nb →
  calloc_addr (bl0 (subid b)) m ≠ 0.

Abbreviation split := (nb / n).

(** The blocks of the hosts below [j]. *)
Definition upto (j : Z) : Z := if j =? n then nb else split * j.

Record filled (k j : Z) (r : rmem W) : Prop := {
  fl_client : client_inv (rm_client r);
  fl_hosts : hostList (rm_client r) = hosts;
  fl_bs : rm_block_size r = 1;
  fl_nb : rm_nblocks r = nb;
  fl_n : num_hosts r = n;
  fl_len : len (rm_memList r) = nb;
  fl_addr p a : 0 <= p < k → idx (rm_memList r) p = Some a → addr_in (subid a) a;
  fl_zero p a : 0 <= p < k → idx (rm_memList r) p = Some a →
    rh_mem (c_net (rm_client r)) (subid a) !! paddr a = Some 0;
  fl_apart p q a b : 0 <= p < k → 0 <= q < k → idx (rm_memList r) p = Some a →
    idx (rm_memList r) q = Some b → p ≠ q → subid a = subid b → paddr a ≠ paddr b;
  fl_host p a : 0 <= p < k → idx (rm_memList r) p = Some a →
    ∃ h b, 0 <= h < j ∧ idx hosts h = Some b ∧ subid a = subid b;
  (* the allocations: one at each of the hosts below [j] *)
  fl_blocks i : (∀ h b, 0 <= h < j → idx hosts h = Some b → subid b ≠ i) →
    rh_blocks (c_net (rm_client r)) i = bl0 i;
  fl_owned h b : 0 <= h < j → idx hosts h = Some b →
    ∃ a, idx (rm_memList r) (split * h) = Some a ∧ subid a = subid b ∧ bl0 (subid b) !! paddr a = None ∧
      rh_blocks (c_net (rm_client r)) (subid b) = <[paddr a := upto (h + 1) - split * h]> (bl0 (subid b));
}.

Lemma idx_block_addrs a m p :
  0 <= p < m → 0 <= paddr a → paddr a + m <= 2 ^ 64 →
  idx (block_addrs a m) p = Some (set_paddr (paddr a + p) a).
Proof.
  intros Hp Ha Hm. unfold block_addrs, idx. rewrite (proj2 (Z.leb_le 0 p)) by lia.
  rewrite list_lookup_fmap, lookup_seq_lt by lia. simpl.
  rewrite Hone, Z2Nat.id, Z.mul_1_r, u64_small by lia. done.
Qed.
Lemma len_block_addrs a m : 0 <= m → len (block_addrs a m) = m.
Proof. intros. unfold block_addrs, len. rewrite length_fmap, length_seq. lia. Qed.

Lemma split_facts j : 0 <= j < n →
  0 < split ∧ upto j = split * j ∧ 0 < upto (j + 1) - split * j ∧ upto (j + 1) <= nb ∧
  0 <= split * j ∧
  (if j =? n - 1 then nb - split * j else split) = upto (j + 1) - split * j.
Proof.
  intros Hj. assert (0 < split) as Hs by (apply Z.div_str_pos; lia).
  pose proof (Z.mul_div_le nb n ltac:(lia)). unfold upto.
  destruct (Z.eqb_spec j n), (Z.eqb_spec (j + 1) n), (Z.eqb_spec j (n - 1)); try lia;
    split_and!; lia || nia.
Qed.

(** The list with the blocks of an allocation copied to [o]. *)
Lemma idx_copied l a m o p : 0 <= o → 0 < m → o + m <= len l → 0 <= p → 0 <= paddr a → paddr a + m <= 2 ^ 64 →
  idx (take (Z.to_nat o) l ++ block_addrs a m ++ drop (Z.to_nat (o + m)) l) p =
  if decide (o <= p < o + m) then Some (set_paddr (paddr a + (p - o)) a) else idx l p.
Proof.
  intros Ho Hm Hl Hp Ha Ht. rewrite idx_app, len_take by lia. destruct (decide (p < o)) as [Hlt|Hge].
  { rewrite idx_take, decide_True by lia. by rewrite decide_False by lia. }
  rewrite idx_app, len_block_addrs by lia. destruct (decide (p - o < m)) as [Hlt'|Hge'].
  - rewrite idx_block_addrs by lia. by rewrite decide_True by lia.
  - rewrite idx_drop by lia. rewrite decide_False by lia. f_equal. lia.
Qed.
Lemma fresh_block mem bl A m : mem_wf mem bl → 0 < m →
  (∀ b k, bl !! b = Some k → apart A m b k) → bl !! A = None.
Proof.
  intros Hwf Hm Hap. destruct (bl !! A) as [k|] eqn:E; [|done]. pose proof (mw_block _ _ Hwf _ _ E).
  specialize (Hap _ _ E). unfold apart in Hap. lia.
Qed.

(** One host's share. *)
Lemma wp_fill_host j r :
  0 <= j < n → filled (upto j) j r →
  wp (fill_host split j) r (λ _, filled (upto (j + 1)) (j + 1)).
Proof.
  intros Hj [Hc Hhl Hbs Hnb' Hn' Hlen Haddr Hzero Hap Hhost Hbl0 Hown].
  destruct (split_facts j Hj) as (Hs & Eu & Hm & Htop & Hlow & Elen).
  remember (upto (j + 1) - split * j) as m eqn:Em.
  destruct (Hhosts j Hj) as (ha & Eha & Hha & [srv Hsrv]).
  unfold fill_host. rewrite wp_bind, wp_gets, wp_bind, wp_gets, Hn', Hnb', Elen.
  rewrite wp_bind. unfold on_client at 1. rewrite wp_zoom. unfold get_ip6_target.
  rewrite u8_small by lia. eapply wp_aload; [by rewrite Hhl|].
  rewrite wp_bind. unfold on_client at 1. rewrite wp_zoom, wp_modify.
  rewrite wp_bind. unfold on_client. rewrite wp_zoom. cbn [rm_client put_client].
  unfold allocate_bulk_rmem. rewrite wp_bind.
  set (c1 := put_ctarget _ _). assert (client_inv c1) as Hc1 by (by destruct Hc).
  eapply (wp_allocate_bulk c1 (subid ha) srv); try done; [lia|].
  assert (rh_blocks (c_net c1) (subid ha) = bl0 (subid ha)) as Ebl.
  { apply Hbl0. intros h b Hh Eb E. assert (h = j); [by eapply Hdistinct|lia]. }
  unfold allocated. set (A := calloc_addr _ m). intros c' ret Hc' Hmem Hbl Ho _ Hhl' _ Hsub Hpa Hret.
  assert (A ≠ 0) as HA by (unfold A; rewrite Ebl; apply (Hmemory j); [done|lia]). rewrite wp_ret.
  assert (0 < A ∧ A + m <= 2 ^ 64 ∧ ∀ b k, rh_blocks (c_net c1) (subid ha) !! b = Some k → apart A m b k)
    as (HA0 & HAt & HAp).
  { destruct (calloc_addr_ok (rh_blocks (c_net c1) (subid ha)) m ltac:(lia)) as [?|?]; [done|done]. }
  rewrite decide_False in Hbl by done.
  unfold copy_addrs. rewrite wp_bind, wp_gets. cbn [rm_memList put_client].
  rewrite len_block_addrs by lia. rewrite (proj2 (Z.leb_le _ _)) by lia. rewrite wp_modify.
  set (l' := _ ++ _ ++ _).
  assert (∀ p, 0 <= p → idx l' p = if decide (split * j <= p < upto (j + 1))
    then Some (set_paddr (A + (p - split * j)) ret) else idx (rm_memList r) p) as Hidx.
  { intros p Hp. unfold l'. replace (upto (j + 1)) with (split * j + m) by lia. rewrite <-Hpa. apply idx_copied; lia. }
  assert (∀ i x, rh_mem (c_net (rm_client r)) i !! x = Some 0 →
    rh_mem (c_net c') i !! x = Some 0) as Hkeep.
  { intros i x Hx. destruct (decide (i = subid ha)) as [->|Hne].
    - rewrite Hmem. destruct (decide _); [done|exact Hx].
    - destruct (Ho i Hne) as [-> _]. exact Hx. }
  assert (∀ p a, 0 <= p < upto (j + 1) → idx l' p = Some a →
    (split * j <= p ∧ a = set_paddr (A + (p - split * j)) ret) ∨
    (p < split * j ∧ idx (rm_memList r) p = Some a)) as Hcase.
  { intros p a Hp E. rewrite Hidx in E by lia. case_decide; [|right; split; [lia|done]].
    left. split; [lia|congruence]. }
  assert (∀ p a, p < split * j → 0 <= p → idx (rm_memList r) p = Some a → subid a ≠ subid ha) as Hold.
  { intros p a Hp Hp0 E Es. destruct (Hhost p a) as (h & b & Hh & Eb & Esb); [lia|done|].
    assert (h = j); [|lia]. eapply (Hdistinct h j b ha); [done|done|congruence]. }
  split; simpl; try done.
  - by rewrite Hhl'.
  - unfold l'. rewrite !len_app, len_take, len_block_addrs, len_drop by lia. lia.
  - intros p a Hp E. destruct (Hcase p a Hp E) as [[Hpp ->]|[Hpp E']].
    + split_and!; [|done|simpl; rewrite Hsub; by eexists].
      destruct Hret. split; simpl; try done. lia.
    + by apply (Haddr p); [lia|].
  - intros p a Hp E. destruct (Hcase p a Hp E) as [[Hpp ->]|[Hpp E']].
    + simpl. rewrite Hsub, Hmem, decide_True by lia. done.
    + by apply Hkeep, (Hzero p); [lia|].
  - intros p q a b Hp Hq Ea Eb Hne Hss.
    destruct (Hcase p a Hp Ea) as [[Hpp ->]|[Hpp Ea']], (Hcase q b Hq Eb) as [[Hqq ->]|[Hqq Eb']].
    + simpl. lia.
    + simpl in Hss. exfalso. eapply (Hold q b); [lia|lia|done|congruence].
    + simpl in Hss. exfalso. eapply (Hold p a); [lia|lia|done|congruence].
    + eapply (Hap p q); try done; lia.
  - intros p a Hp E. destruct (Hcase p a Hp E) as [[Hpp ->]|[Hpp E']].
    + exists j, ha. split_and!; [lia|lia|done|done].
    + destruct (Hhost p a) as (h & b & Hh & ?); [lia|done|]. exists h, b. split; [lia|done].
  - intros i Hi. destruct (Ho i) as [_ ->].
    { intros ->. apply (Hi j ha); [lia|done|done]. }
    apply Hbl0. intros h b Hh. apply Hi. lia.
  - intros h b Hh Eb. destruct (decide (h = j)) as [->|Hne].
    + assert (b = ha) as -> by congruence. exists (set_paddr (A + (split * j - split * j)) ret).
      rewrite Z.sub_diag, Z.add_0_r. cbn [subid paddr set_paddr].
      rewrite Hidx, decide_True, Z.sub_diag, Z.add_0_r, <-Em by lia. split_and!; [done|done| |by rewrite Hbl, Ebl].
      rewrite <-Ebl. eapply fresh_block; [|exact (Hm : 0 < m)|exact HAp]. by eapply (rh_wf _ _ (ci_net _ Hc1)).
    + destruct (Hown h b) as (a & Ea & Sa & Fa & Ba); [lia|done|]. exists a. rewrite Hidx by nia.
      rewrite decide_False by nia. split_and!; [done|done|done|]. destruct (Ho (subid b)) as [_ ->]; [|done].
      intros E. apply Hne. by eapply Hdistinct.
Qed.

Lemma filled_start r :
  client_inv (rm_client r) → hostList (rm_client r) = hosts → (∀ i, rh_blocks (c_net (rm_client r)) i = bl0 i) →
  rm_block_size r = 1 → rm_nblocks r = nb → num_hosts r = n → len (rm_memList r) = nb → filled (upto 0) 0 r.
Proof.
  intros. assert (upto 0 = 0) as ->.
  { unfold upto. destruct (Z.eqb_spec 0 n); lia. }
  split; simpl; try done; intros; lia.
Qed.
(** The loop over the hosts, from a list of any content. *)
Lemma wp_fill_hosts r :
  client_inv (rm_client r) → hostList (rm_client r) = hosts → (∀ i, rh_blocks (c_net (rm_client r)) i = bl0 i) →
  rm_block_size r = 1 → rm_nblocks r = nb → num_hosts r = n → len (rm_memList r) = nb →
  wp (for_range 0 n (fill_host split)) r (λ _, filled nb n).
Proof.
  intros Hc Hhl Hb0 Hbs Hnb' Hn' Hlen.
  eapply (wp_for_range (λ j r, filled (upto j) j r)); [lia|by apply filled_start| |].
  - intros j r' Hj Hf. by apply wp_fill_host.
  - intros r'. unfold upto. by rewrite Z.eqb_refl.
Qed.
Lemma filled_store r : filled nb n r → rmem_ok r ∧ rm_nblocks r = nb ∧ (∀ p, 0 <= p < nb → rmem_content r p = [0]) ∧
  ∀ p a, idx (rm_memList r) p = Some a → ∃ h b, idx hosts h = Some b ∧ subid a = subid b.
Proof.
  intros [Hc' _ Hbs Hnb' _ Hlen Haddr Hzero Hap Hhost _ _].
  assert (∀ p a, idx (rm_memList r) p = Some a → 0 <= p < nb) as Hr.
  { intros p a E. apply idx_Some_range in E. lia. }
  split_and!; [split|done| |].
  - done.
  - by rewrite Hbs, Hone.
  - by rewrite Hlen, Hnb'.
  - intros p a E. by eapply Haddr; [eapply Hr|].
  - intros p a E x Hx. rewrite Hone in Hx. replace x with (paddr a) by lia.
    rewrite (Hzero p); [by eexists|by eapply Hr|done].
  - intros p q a b Ea Eb Hne Hss. unfold apart. rewrite Hone.
    assert (paddr a ≠ paddr b); [|lia]. eapply (Hap p q); eauto.
  - intros p Hp. assert (0 <= p < len (rm_memList r)) as [a E]%idx_is_Some by lia.
    unfold rmem_content. rewrite E, Hone. apply rd_bytes_eq; [done|]. intros i Hi.
    replace i with 0 by lia. rewrite Z.add_0_r. by rewrite (Hzero p).
  - intros p a E. destruct (Hhost p a (Hr p a E) E) as (h & b & _ & ?). by exists h, b.
Qed.
(** [rmem_allocate] makes a store of zeroed blocks. *)
Lemma wp_fill_rmem garbage c :
  client_inv c → hostList c = hosts → (∀ i, rh_blocks (c_net c) i = bl0 i) →
  wp (fill_rmem garbage) (MkRmem [] BLOCK_SIZE nb n c)
    (λ _ r, rmem_ok r ∧ rm_nblocks r = nb ∧ (∀ p, 0 <= p < nb → rmem_content r p = [0]) ∧
      ∀ p a, idx (rm_memList r) p = Some a → ∃ h b, idx hosts h = Some b ∧ subid a = subid b).
Proof.
  intros Hc Hhl Hb0. unfold fill_rmem. rewrite wp_bind, wp_gets, wp_bind, wp_gets. cbn [rm_nblocks num_hosts].
  rewrite (proj2 (Z.eqb_neq n 0)) by lia. rewrite wp_bind, wp_modify.
  eapply wp_mono; [apply wp_fill_hosts; simpl; try done; apply len_replicate; lia|]. intros [] r. apply filled_store.
Qed.
End Allocate.
