(* ===== verification/Buse.v ===== *)
(** * A block device over remote memory: src/ip6/lib/buse and bb_disk

    The request loop of buse.c, which serves the network block device protocol
    on a stream socket, and the operations of src/ip6/apps/bb_disk.c, which
    keep the blocks of the device in remote memory through the bulk functions
    of the client library. Opening the device, the [ioctl]s and the child
    process are not modelled. *)

From S2P Require Import Prelude Types Bytes Wire RawSend RawRecv Server ServerSpec Client Remote RMem.

(** ** linux/nbd.h

    The structures as the loop sees them: the members hold what is in memory,
    in network byte order. *)
Record nbd_request := MkReq { rq_magic : Z; rq_type : Z; rq_handle : list Z; rq_from : Z; rq_len : Z }.
Record nbd_reply := MkRep { re_magic : Z; re_error : Z; re_handle : list Z }.
Class NbdHeader := {
  NBD_REQUEST_MAGIC : Z;
  NBD_REPLY_MAGIC : Z;
  NBD_CMD_READ : Z;
  NBD_CMD_WRITE : Z;
  NBD_CMD_DISC : Z;
  NBD_CMD_FLUSH : Z;
  NBD_CMD_TRIM : Z;
  sizeof_request : Z;
  dec_request : list Z → nbd_request;
  enc_request : nbd_request → list Z;
  enc_reply : nbd_reply → list Z;
  request_size : 0 < sizeof_request;
  len_enc_request r : len (enc_request r) = sizeof_request;
  dec_enc_request r : 0 <= rq_magic r < 2 ^ 32 → 0 <= rq_type r < 2 ^ 32 → len (rq_handle r) = 8 →
    Forall byte_ok (rq_handle r) → 0 <= rq_from r < 2 ^ 64 → 0 <= rq_len r < 2 ^ 32 → dec_request (enc_request r) = r;
  cmds_differ : NoDup [NBD_CMD_READ; NBD_CMD_WRITE; NBD_CMD_DISC; NBD_CMD_FLUSH; NBD_CMD_TRIM];
  cmds_range : Forall (λ c, 0 <= c < 2 ^ 32) [NBD_CMD_READ; NBD_CMD_WRITE; NBD_CMD_DISC; NBD_CMD_FLUSH; NBD_CMD_TRIM];
}.

(** ** The stream socket

    [s_in] is what the coming calls of [read] find, a chunk per call (one that
    is longer than the buffer is split), [s_caps] how many bytes the coming
    calls of [write] take (all of them when nothing is said). *)
Record sock := MkStream { s_in : list (list Z); s_caps : list Z; s_out : list Z }.
Definition put_in (x : list (list Z)) (s : sock) : sock := MkStream x (s_caps s) (s_out s).
Definition put_caps (x : list Z) (s : sock) : sock := MkStream (s_in s) x (s_out s).
Definition put_out (x : list Z) (s : sock) : sock := MkStream (s_in s) (s_caps s) x.
Definition sys_read (n : Z) : M sock (list Z) :=
  cs ← gets s_in;
  match cs with
  | [] => mret []
  | c :: cs =>
      if len c <=? n then modify (put_in cs);; mret c
      else modify (put_in (drop (Z.to_nat n) c :: cs));; mret (take (Z.to_nat n) c)
  end.
Definition sys_write (l : list Z) : M sock Z :=
  caps ← gets s_caps;
  let n := match caps with [] => len l | k :: _ => Z.min k (len l) end in
  modify (put_caps (tail caps));;
  modify (λ s, put_out (s_out s ++ take (Z.to_nat n) l) s);;
  mret n.

(** ** buse.c *)

Definition htonl (x : Z) : Z := un_le (rev (le 4 x)).
Abbreviation ntohl := htonl.
Definition ntohll (a : Z) : Z :=
  let lo := u32 (Z.land a 4294967295) in
  let hi := u32 (Z.shiftr a 32) in
  let lo := ntohl lo in
  let hi := ntohl hi in
  Z.lor (u64 (Z.shiftl lo 32)) hi.
Abbreviation htonll := ntohll.

(** Every round of the two loops moves a byte, so the count is fuel enough. *)
Fixpoint read_loop (fuel : nat) (buf : list Z) (count : Z) : M sock (list Z) :=
  if count =? 0 then mret buf else
  match fuel with
  | O => err Hang
  | S fuel =>
      bytes_read ← sys_read count;
      guard_or (0 <? len bytes_read) AssertFail;;
      read_loop fuel (buf ++ bytes_read) (count - len bytes_read)
  end.
Definition read_all (count : Z) : M sock (list Z) := read_loop (Z.to_nat count) [] count.
Fixpoint write_loop (fuel : nat) (buf : list Z) (count : Z) : M sock unit :=
  if count =? 0 then mret tt else
  match fuel with
  | O => err Hang
  | S fuel =>
      bytes_written ← sys_write (take (Z.to_nat count) buf);
      guard_or (0 <? bytes_written) AssertFail;;
      write_loop fuel (drop (Z.to_nat bytes_written) buf) (count - bytes_written)
  end.
Definition write_all (buf : list Z) (count : Z) : M sock unit :=
  if len buf <? count then err OutOfBounds else write_loop (Z.to_nat count) buf count.

(** [struct buse_operations] on a device with the state [D]; a [NULL]
    function is [None]. [read] gets the buffer and gives it back filled. *)
Record buse_operations (D : Type) := MkOps {
  op_read : option (list Z → Z → Z → M D (Z * list Z));
  op_write : option (list Z → Z → Z → M D Z);
  op_disc : option (M D unit);
  op_flush : option (M D Z);
  op_trim : option (Z → Z → M D Z);
}.
Arguments MkOps {D}.
Arguments op_read {D}.
Arguments op_write {D}.
Arguments op_disc {D}.
Arguments op_flush {D}.
Arguments op_trim {D}.

Definition EPERM : Z := 1.

Section Buse.
Context `{!NbdHeader} {D : Type}.
(** What [malloc] leaves in a chunk of a size. *)
Variable fresh_chunk : Z → list Z.

Abbreviation MB := (M (sock * D)).
Definition on_sock {A} (m : M sock A) : MB A := zoom fst (λ s x, (s, x.2)) m.
Definition on_dev {A} (m : M D A) : MB A := zoom snd (λ d x, (x.1, d)) m.
Definition send_reply (error : Z) (handle : list Z) : MB unit :=
  let r := enc_reply (MkRep (htonl NBD_REPLY_MAGIC) error handle) in
  on_sock (write_all r (len r)).

(** The body of the loop; the result is whether the device was disconnected. *)
Definition serve_request (aop : buse_operations D) (request : nbd_request) : MB bool :=
  let handle := rq_handle request in
  let error := htonl 0 in
  let len := ntohl (rq_len request) in
  let from := ntohll (rq_from request) in
  guard_or (rq_magic request =? htonl NBD_REQUEST_MAGIC) AssertFail;;
  let type := ntohl (rq_type request) in
  if type =? NBD_CMD_READ then
    let chunk := fresh_chunk len in
    '(error, chunk) ← match op_read aop with
                      | Some f => '(e, c) ← on_dev (f chunk len from); mret (u32 e, c)
                      | None => mret (htonl EPERM, chunk)
                      end;
    send_reply error handle;;
    on_sock (write_all chunk len);;
    mret false
  else if type =? NBD_CMD_WRITE then
    chunk ← on_sock (read_all len);
    error ← match op_write aop with
            | Some f => e ← on_dev (f chunk len from); mret (u32 e)
            | None => mret (htonl EPERM)
            end;
    send_reply error handle;;
    mret false
  else if type =? NBD_CMD_DISC then
    match op_disc aop with Some f => on_dev f | None => mret tt end;;
    mret true
  else if type =? NBD_CMD_FLUSH then
    error ← match op_flush aop with Some f => e ← on_dev f; mret (u32 e) | None => mret error end;
    send_reply error handle;;
    mret false
  else if type =? NBD_CMD_TRIM then
    error ← match op_trim aop with Some f => e ← on_dev (f from len); mret (u32 e) | None => mret error end;
    send_reply error handle;;
    mret false
  else err AssertFail.

Fixpoint buse_loop (fuel : nat) (aop : buse_operations D) : MB Z :=
  match fuel with
  | O => err Hang
  | S fuel =>
      request ← on_sock (sys_read sizeof_request);
      if len request =? 0 then mret 0 else
      guard_or (len request =? sizeof_request) AssertFail;;
      disc ← serve_request aop (dec_request request);
      if (disc : bool) then mret 0 else buse_loop fuel aop
  end.
(** Every round takes at least a byte of the stream, and one more sees its end. *)
Definition buse_main (aop : buse_operations D) : MB Z :=
  λ x, buse_loop (S (length (concat (s_in x.1)))) aop x.
End Buse.

(** ** bb_disk.c

    Its [struct rmem] has the members of the one of rmem.h, and [main] fills
    it as [fill_rmem] does. *)
Section Disk.
Context `{Config} `{!Calloc} `{!NbdHeader} {W : Type} `{!ClientNet W}.
(** The address of a buffer of a size. *)
Variable chunk_addr : Z → Z.

Definition xmp_read (buf : list Z) (len offset : Z) : M (rmem W) (Z * list Z) :=
  let page_offset := offset / BLOCK_SIZE in
  l ← gets rm_memList;
  '(arr, r) ← on_client (read_bulk_rmem (drop (Z.to_nat page_offset) l) (len / BLOCK_SIZE)
    (MkPool (chunk_addr len) buf) len);
  modify (put_memList (take (Z.to_nat page_offset) l ++ arr));;
  mret (0, match r with inl _ => buf | inr p => bytes p end).
Definition xmp_write (buf : list Z) (len offset : Z) : M (rmem W) Z :=
  let page_offset := offset / BLOCK_SIZE in
  l ← gets rm_memList;
  '(arr, _) ← on_client (write_bulk_rmem (drop (Z.to_nat page_offset) l) (len / BLOCK_SIZE) buf len);
  modify (put_memList (take (Z.to_nat page_offset) l ++ arr));;
  mret 0.
Definition xmp_disc : M (rmem W) unit := mret tt.
Definition xmp_flush : M (rmem W) Z := mret 0.
Definition xmp_trim (from len : Z) : M (rmem W) Z := mret 0.
Definition aop : buse_operations (rmem W) :=
  MkOps (Some xmp_read) (Some xmp_write) (Some xmp_disc) (Some xmp_flush) (Some xmp_trim).

(** [size] is [aop.size], 42 GB; [garbage] what [malloc] leaves in [memList]. *)
Definition aop_size : Z := 42 * 1024 * 1024 * 1024.
Definition bb_disk (fresh_chunk : Z → list Z) (size nhosts : Z) (garbage : ip6_memaddr) (c : client W) (s : sock)
    : res (sock * rmem W) Z :=
  match fill_rmem garbage (MkRmem [] BLOCK_SIZE (size / BLOCK_SIZE) nhosts c) with
  | Ok _ r => buse_main fresh_chunk aop (s, r)
  | Err e => Err e
  end.
End Disk.
