(* ===== verification/BuseSpec.v ===== *)
(** * The block device: what the request loop and bb_disk promise

    A device whose operations behave as a flat array of bytes ([flat_device])
    makes [buse_main] a flat network block device, however the stream cuts the
    payloads and the replies; the operations of bb_disk are such a device. *)

From S2P Require Import Prelude Types Bytes Wire RawSend RawRecv Server ServerSpec Client Remote RMem Bulk BulkClient Buse.

(** ** Byte order *)

Lemma un_le_rev_range l : len l = 4 → Forall byte_ok l → 0 <= un_le (rev l) < 2 ^ 32.
Proof.
  intros Hl Hb. pose proof (un_le_range (rev l)) as Hr.
  replace (len (rev l)) with 4 in Hr by (unfold len in *; by rewrite length_rev).
  change (256 ^ 4) with (2 ^ 32) in Hr. apply Hr. rewrite <-reverse_rev || idtac. by apply Forall_rev.
Qed.
Lemma htonl_range x : 0 <= htonl x < 2 ^ 32.
Proof. apply un_le_rev_range; [by rewrite len_le|apply le_bytes]. Qed.
Lemma htonl_htonl x : 0 <= x < 2 ^ 32 → htonl (htonl x) = x.
Proof.
  intros Hx. unfold htonl at 1. unfold htonl.
  assert (le 4 (un_le (rev (le 4 x))) = rev (le 4 x)) as ->.
  { assert (length (rev (le 4 x)) = 4%nat) as E by by rewrite length_rev, length_le.
    rewrite <-E at 1. apply le_un_le. apply Forall_rev, le_bytes. }
  rewrite rev_involutive. apply un_le_le. exact Hx.
Qed.
Lemma lor_words x y : 0 <= x < 2 ^ 32 → 0 <= y < 2 ^ 32 → Z.lor (u64 (Z.shiftl x 32)) y = x * 2 ^ 32 + y.
Proof.
  intros Hx Hy. rewrite Z.shiftl_mul_pow2 by lia. rewrite u64_small by lia.
  pose proof (Z.add_lor_land (x * 2 ^ 32) y) as E. enough (Z.land (x * 2 ^ 32) y = 0) by lia.
  apply Z.bits_inj'. intros b Hb. rewrite Z.land_spec, Z.bits_0. destruct (decide (b < 32)).
  - by rewrite Z.mul_pow2_bits_low by lia.
  - replace y with (y mod 2 ^ 32) by (apply Z.mod_small; lia). by rewrite Z.mod_pow2_bits_high, andb_false_r by lia.
Qed.
Lemma ntohll_words a : 0 <= a < 2 ^ 64 → ntohll a = htonl (a mod 2 ^ 32) * 2 ^ 32 + htonl (a / 2 ^ 32).
Proof.
  intros Ha. unfold ntohll. change 4294967295 with (Z.ones 32). rewrite Z.land_ones, Z.shiftr_div_pow2 by lia.
  pose proof (Z.mod_pos_bound a (2 ^ 32) ltac:(lia)).
  assert (0 <= a / 2 ^ 32 < 2 ^ 32) by (split; [apply Z.div_pos; lia|apply Z.div_lt_upper_bound; lia]).
  rewrite !u32_small by done. apply lor_words; apply htonl_range.
Qed.
Lemma ntohll_range a : 0 <= a < 2 ^ 64 → 0 <= ntohll a < 2 ^ 64.
Proof.
  intros Ha. rewrite ntohll_words by done. pose proof (htonl_range (a mod 2 ^ 32)). pose proof (htonl_range (a / 2 ^ 32)). lia.
Qed.
Lemma ntohll_ntohll a : 0 <= a < 2 ^ 64 → ntohll (ntohll a) = a.
Proof.
  intros Ha. rewrite (ntohll_words (ntohll a)) by by apply ntohll_range. rewrite ntohll_words by done.
  pose proof (htonl_range (a mod 2 ^ 32)). pose proof (htonl_range (a / 2 ^ 32)).
  set (x := htonl (a mod 2 ^ 32)) in *. set (y := htonl (a / 2 ^ 32)) in *.
  assert ((x * 2 ^ 32 + y) mod 2 ^ 32 = y) as -> by (rewrite Z.add_comm, Z_mod_plus_full; by apply Z.mod_small).
  assert ((x * 2 ^ 32 + y) / 2 ^ 32 = x) as -> by (rewrite Z.add_comm, Z_div_plus_full, Z.div_small by lia; lia).
  unfold x, y.
  pose proof (Z.mod_pos_bound a (2 ^ 32) ltac:(lia)).
  assert (0 <= a / 2 ^ 32 < 2 ^ 32) by (split; [apply Z.div_pos; lia|apply Z.div_lt_upper_bound; lia]).
  rewrite !htonl_htonl by done. pose proof (Z.div_mod a (2 ^ 32) ltac:(lia)). lia.
Qed.

(** ** The stream *)

Lemma wp_sys_read s c cs n Q : s_in s = c :: cs → len c <= n → Q c (put_in cs s) → wp (sys_read n) s Q.
Proof.
  intros E Hl HQ. unfold sys_read. rewrite wp_bind, wp_gets, E. rewrite (proj2 (Z.leb_le _ _)) by done.
  by rewrite wp_bind, wp_modify, wp_ret.
Qed.
Lemma wp_read_loop cs : ∀ fuel buf s rest Q,
  s_in s = cs ++ rest → Forall (λ c, c ≠ []) cs → len (concat cs) <= Z.of_nat fuel →
  Q (buf ++ concat cs) (put_in rest s) → wp (read_loop fuel buf (len (concat cs))) s Q.
Proof.
  induction cs as [|c cs IH]; intros fuel buf s rest Q Hs Hne Hf HQ.
  { assert (read_loop fuel buf (len (concat [])) = mret buf) as -> by by destruct fuel. rewrite wp_ret.
    simpl in *. rewrite app_nil_r in HQ. subst. by destruct s. }
  apply Forall_cons in Hne as [Hc Hne]. cbn [concat] in *. rewrite len_app in *. pose proof (len_nonneg (concat cs)).
  assert (0 < len c) as Hpos by (destruct c; [done|rewrite len_cons; pose proof (len_nonneg c); lia]).
  destruct fuel as [|fuel]; [lia|]. cbn [read_loop]. rewrite (proj2 (Z.eqb_neq _ 0)) by lia.
  rewrite wp_bind. eapply wp_sys_read; [exact Hs|lia|]. rewrite wp_bind. apply wp_guard_or; [by apply Z.ltb_lt|].
  replace (len c + len (concat cs) - len c) with (len (concat cs)) by lia.
  apply (IH _ _ _ rest); [done|done|lia|]. by rewrite <-app_assoc.
Qed.
Lemma wp_read_all cs s rest Q : s_in s = cs ++ rest → Forall (λ c, c ≠ []) cs →
  Q (concat cs) (put_in rest s) → wp (read_all (len (concat cs))) s Q.
Proof. intros Hs Hc HQ. unfold read_all. apply (wp_read_loop cs _ _ _ rest); [done|done| |done]. pose proof (len_nonneg (concat cs)). lia. Qed.

Definition caps_ok (s : sock) : Prop := Forall (λ k, 0 < k) (s_caps s).
Lemma wp_stream_write_loop fuel : ∀ buf s Q, caps_ok s → len buf <= Z.of_nat fuel →
  (∀ s', s_out s' = s_out s ++ buf → s_in s' = s_in s → caps_ok s' → Q tt s') →
  wp (write_loop fuel buf (len buf)) s Q.
Proof.
  induction fuel as [|fuel IH]; intros buf s Q Hc Hf HQ; cbn [write_loop]; pose proof (len_nonneg buf).
  { rewrite (proj2 (Z.eqb_eq _ 0)) by lia. rewrite wp_ret. apply HQ; [|done|done].
    destruct buf; [by rewrite app_nil_r|rewrite len_cons in *; pose proof (len_nonneg buf); lia]. }
  destruct (Z.eqb_spec (len buf) 0) as [E|Hne].
  { rewrite wp_ret. apply HQ; [|done|done]. destruct buf; [by rewrite app_nil_r|rewrite len_cons in *; pose proof (len_nonneg buf); lia]. }
  rewrite (take_ge buf) by (unfold len; lia). unfold sys_write. rewrite wp_bind, wp_bind, wp_gets.
  set (n := match s_caps s with [] => len buf | k :: _ => Z.min k (len buf) end).
  assert (0 < n <= len buf) as Hn.
  { unfold n, caps_ok in *. destruct Hc; lia. }
  rewrite wp_bind, wp_modify, wp_bind, wp_modify, wp_ret, wp_bind. apply wp_guard_or; [apply Z.ltb_lt; lia|].
  replace (len buf - n) with (len (drop (Z.to_nat n) buf)) by (rewrite len_drop; lia).
  apply IH; [|rewrite len_drop; lia|].
  { unfold caps_ok in *. simpl. by destruct Hc. }
  intros s' Ho Hi Hc'. apply HQ; [|done|done]. rewrite Ho. simpl. by rewrite <-app_assoc, take_drop.
Qed.
Lemma wp_write_all buf s Q : caps_ok s →
  (∀ s', s_out s' = s_out s ++ buf → s_in s' = s_in s → caps_ok s' → Q tt s') → wp (write_all buf (len buf)) s Q.
Proof. intros Hc HQ. unfold write_all. rewrite Z.ltb_irrefl. apply wp_stream_write_loop; [done| |done]. pose proof (len_nonneg buf). lia. Qed.

(** ** The protocol *)

Inductive nbd_op :=
| NRead (from n : Z)
| NWrite (from : Z) (d : list Z)
| NFlush
| NTrim (from n : Z).
Definition op_from (o : nbd_op) : Z := match o with NRead f _ | NWrite f _ | NTrim f _ => f | NFlush => 0 end.
Definition op_len (o : nbd_op) : Z := match o with NRead _ n | NTrim _ n => n | NWrite _ d => len d | NFlush => 0 end.
Definition op_data (o : nbd_op) : list Z := match o with NWrite _ d => d | _ => [] end.

(** A flat array of bytes: its new content, and what it answers. *)
Definition flat_op (disk : list Z) (o : nbd_op) : list Z * list Z :=
  match o with
  | NRead f n => (disk, slice disk f n)
  | NWrite f d => (splice disk f d, [])
  | NFlush | NTrim _ _ => (disk, [])
  end.

Section Protocol.
Context `{!NbdHeader}.

Definition op_cmd (o : nbd_op) : Z :=
  match o with NRead _ _ => NBD_CMD_READ | NWrite _ _ => NBD_CMD_WRITE | NFlush => NBD_CMD_FLUSH | NTrim _ _ => NBD_CMD_TRIM end.
Definition raw_request (c : Z) (h : list Z) (from n : Z) : list Z :=
  enc_request (MkReq (htonl NBD_REQUEST_MAGIC) (htonl c) h (htonll from) (htonl n)).
Lemma len_raw c h from n : len (raw_request c h from n) = sizeof_request.
Proof. apply len_enc_request. Qed.
Definition handle_ok (h : list Z) : Prop := len h = 8 ∧ Forall byte_ok h.

(** The stream of some requests: a header comes in one piece, a payload in any
    pieces; then the stream ends or the client disconnects. *)
Inductive arrives : list (list Z * nbd_op) → list (list Z) → Prop :=
| arrives_end : arrives [] []
| arrives_disc h rest : handle_ok h → arrives [] (raw_request NBD_CMD_DISC h 0 0 :: rest)
| arrives_op h o ops cs rest : handle_ok h → concat cs = op_data o → Forall (λ c, c ≠ []) cs → arrives ops rest →
    arrives ((h, o) :: ops) (raw_request (op_cmd o) h (op_from o) (op_len o) :: cs ++ rest).

Lemma arrives_nil_inv L : arrives [] L → L = [] ∨ ∃ h rest, handle_ok h ∧ L = raw_request NBD_CMD_DISC h 0 0 :: rest.
Proof. intros Ha. inversion Ha; [by left|right; eauto]. Qed.
Lemma arrives_cons_inv h o ops L : arrives ((h, o) :: ops) L → ∃ cs rest, handle_ok h ∧ concat cs = op_data o ∧
  Forall (λ c, c ≠ []) cs ∧ arrives ops rest ∧ L = raw_request (op_cmd o) h (op_from o) (op_len o) :: cs ++ rest.
Proof. intros Ha. inversion Ha; subst. eauto 10. Qed.

Definition answer (h : list Z) (d : list Z) : list Z :=
  enc_reply (MkRep (htonl NBD_REPLY_MAGIC) 0 h) ++ d.
Fixpoint flat_serve (ops : list (list Z * nbd_op)) (disk : list Z) : list Z * list Z :=
  match ops with
  | [] => ([], disk)
  | (h, o) :: ops =>
      let '(disk, d) := flat_op disk o in
      let '(out, disk) := flat_serve ops disk in
      (answer h d ++ out, disk)
  end.

Section Device.
Context {D : Type}.
Variables (fresh_chunk : Z → list Z) (aop : buse_operations D).
Variables (inv : D → Prop) (disk : D → list Z) (valid : nbd_op → Prop).
Hypothesis Hfresh : ∀ n, 0 <= n → len (fresh_chunk n) = n.

Record flat_device : Prop := {
  fd_range o : valid o → 0 <= op_from o < 2 ^ 64 ∧ 0 <= op_len o < 2 ^ 32;
  fd_len d from n : inv d → valid (NRead from n) → len (slice (disk d) from n) = n;
  fd_read : ∃ f, op_read aop = Some f ∧ ∀ d buf from n Q, inv d → valid (NRead from n) → len buf = n →
    (∀ d', inv d' → disk d' = disk d → Q (0, slice (disk d) from n) d') → wp (f buf n from) d Q;
  fd_write : ∃ f, op_write aop = Some f ∧ ∀ d from l Q, inv d → valid (NWrite from l) →
    (∀ d', inv d' → disk d' = splice (disk d) from l → Q 0 d') → wp (f l (len l) from) d Q;
  fd_disc f d Q : op_disc aop = Some f → inv d → (∀ d', inv d' → disk d' = disk d → Q tt d') → wp f d Q;
  fd_flush f d Q : op_flush aop = Some f → inv d → (∀ d', inv d' → disk d' = disk d → Q 0 d') → wp f d Q;
  fd_trim f d from n Q : op_trim aop = Some f → inv d → valid (NTrim from n) →
    (∀ d', inv d' → disk d' = disk d → Q 0 d') → wp (f from n) d Q;
}.
Hypothesis Hdev : flat_device.

Lemma raw_dec c h from n : c ∈ [NBD_CMD_READ; NBD_CMD_WRITE; NBD_CMD_DISC; NBD_CMD_FLUSH; NBD_CMD_TRIM] → handle_ok h →
  0 <= from < 2 ^ 64 → 0 <= n < 2 ^ 32 →
  dec_request (raw_request c h from n) = MkReq (htonl NBD_REQUEST_MAGIC) (htonl c) h (htonll from) (htonl n) ∧
  ntohl (htonl c) = c ∧ ntohl (htonl n) = n ∧ ntohll (htonll from) = from.
Proof.
  intros Hc [Hl Hh] Hf Hn. pose proof (proj1 (Forall_forall _ _) cmds_range c Hc). split_and!.
  - apply dec_enc_request; simpl; try done; try apply htonl_range. by apply ntohll_range.
  - by apply htonl_htonl.
  - by apply htonl_htonl.
  - by apply ntohll_ntohll.
Qed.
Lemma wp_send_reply h (s : sock) (d : D) Q : caps_ok s →
  (∀ s', s_out s' = s_out s ++ answer h [] → s_in s' = s_in s → caps_ok s' → Q tt (s', d)) →
  wp (send_reply 0 h) (s, d) Q.
Proof.
  intros Hc HQ. unfold send_reply, on_sock. rewrite wp_zoom. apply wp_write_all; [done|].
  intros s' Ho Hi Hc'. apply HQ; [|done|done]. unfold answer. by rewrite app_nil_r.
Qed.

(** What one request does. *)
Record served_op (h : list Z) (o : nbd_op) (s s' : sock) (d d' : D) : Prop := {
  so_out : s_out s' = s_out s ++ answer h (flat_op (disk d) o).2;
  so_disk : disk d' = (flat_op (disk d) o).1;
  so_inv : inv d';
  so_caps : caps_ok s';
}.
Lemma cmds_ne : NBD_CMD_WRITE ≠ NBD_CMD_READ ∧ NBD_CMD_DISC ≠ NBD_CMD_READ ∧ NBD_CMD_DISC ≠ NBD_CMD_WRITE ∧
  NBD_CMD_FLUSH ≠ NBD_CMD_READ ∧ NBD_CMD_FLUSH ≠ NBD_CMD_WRITE ∧ NBD_CMD_FLUSH ≠ NBD_CMD_DISC ∧
  NBD_CMD_TRIM ≠ NBD_CMD_READ ∧ NBD_CMD_TRIM ≠ NBD_CMD_WRITE ∧ NBD_CMD_TRIM ≠ NBD_CMD_DISC ∧ NBD_CMD_TRIM ≠ NBD_CMD_FLUSH.
Proof. pose proof cmds_differ as Hd. rewrite !NoDup_cons in Hd. set_solver. Qed.

Lemma no_chunks (cs : list (list Z)) : Forall (λ c, c ≠ []) cs → concat cs = [] → cs = [].
Proof. intros [|c cs' Hc _]; [done|]. simpl. intros [-> _]%app_nil. done. Qed.
Lemma wp_serve_op h o s d cs rest Q :
  caps_ok s → inv d → handle_ok h → valid o → s_in s = cs ++ rest → concat cs = op_data o → Forall (λ c, c ≠ []) cs →
  (∀ s' d', served_op h o s s' d d' → s_in s' = rest → Q false (s', d')) →
  wp (serve_request fresh_chunk aop (dec_request (raw_request (op_cmd o) h (op_from o) (op_len o)))) (s, d) Q.
Proof.
  intros Hc Hi Hh Hv Hs Hcs Hne HQ. destruct (fd_range Hdev o Hv) as [Hf Hn]. pose proof cmds_ne as Hcm.
  destruct (raw_dec (op_cmd o) h (op_from o) (op_len o)) as (-> & E1 & E2 & E3); [destruct o; set_solver|done|done|done|].
  unfold serve_request. cbn [rq_magic rq_type rq_handle rq_from rq_len]. rewrite E1, E2, E3. change (htonl 0) with 0.
  rewrite wp_bind. apply wp_guard_or; [apply Z.eqb_refl|].
  assert (op_data o = [] → s_in s = rest) as Hrest.
  { intros E. rewrite E in Hcs. by rewrite Hs, (no_chunks cs Hne Hcs). }
  (* the three requests without a payload and without data in the answer *)
  assert (∀ d', inv d' → disk d' = disk d → op_data o = [] → (flat_op (disk d) o) = (disk d, []) →
    wp (send_reply 0 h;; mret false) (s, d') Q) as Hplain.
  { intros d' Hi' Hd' He Hfl. rewrite wp_bind. apply wp_send_reply; [done|]. intros s1 Ho1 Hi1 Hc1. rewrite wp_ret.
    apply HQ; [|rewrite Hi1; by apply Hrest]. rewrite <-Hd' in Hfl. split; rewrite <-?Hd', ?Hfl; done. }
  destruct o as [from n|from l| |from n]; cbn [op_cmd op_from op_len op_data] in *.
  - rewrite Z.eqb_refl, wp_bind. destruct (fd_read Hdev) as (f & -> & Hr). unfold on_dev. rewrite wp_bind, wp_zoom.
    apply Hr; [done|done|apply Hfresh; lia|]. intros d' Hi' Hd'. rewrite wp_ret. change (u32 0) with 0. rewrite wp_bind.
    apply wp_send_reply; [done|]. intros s1 Ho1 Hi1 Hc1. unfold on_sock. rewrite wp_bind, wp_zoom.
    pose proof (fd_len Hdev d from n Hi Hv) as Hlen. rewrite <-Hlen at 2. apply wp_write_all; [done|].
    intros s2 Ho2 Hi2 Hc2. rewrite wp_ret. apply HQ; [|rewrite Hi2; cbn [fst]; rewrite Hi1; by apply Hrest].
    split; [|done|done|done]. rewrite Ho2. cbn [fst]. rewrite Ho1. unfold answer. by rewrite app_nil_r, <-app_assoc.
  - rewrite (proj2 (Z.eqb_neq _ _)) by apply Hcm. rewrite Z.eqb_refl, wp_bind. unfold on_sock. rewrite wp_zoom. rewrite <-Hcs.
    apply (wp_read_all cs s rest); [done|done|]. rewrite Hcs. cbn [fst snd]. rewrite wp_bind.
    destruct (fd_write Hdev) as (f & -> & Hw). unfold on_dev. rewrite wp_bind, wp_zoom. apply Hw; [done|done|].
    intros d' Hi' Hd'. rewrite wp_ret. change (u32 0) with 0. rewrite wp_bind. cbn [fst].
    apply wp_send_reply; [done|]. intros s1 Ho1 Hi1 Hc1. rewrite wp_ret. apply HQ; [|by rewrite Hi1]. by split.
  - rewrite !(proj2 (Z.eqb_neq _ _)) by apply Hcm. rewrite Z.eqb_refl, wp_bind.
    destruct (op_flush aop) as [f|] eqn:Ef; [|rewrite wp_ret; by apply Hplain].
    unfold on_dev. rewrite wp_bind, wp_zoom. eapply (fd_flush Hdev); [done|done|]. intros d' Hi' Hd'. rewrite wp_ret.
    by apply Hplain.
  - rewrite !(proj2 (Z.eqb_neq _ _)) by apply Hcm. rewrite Z.eqb_refl, wp_bind.
    destruct (op_trim aop) as [f|] eqn:Ef; [|rewrite wp_ret; by apply Hplain].
    unfold on_dev. rewrite wp_bind, wp_zoom. eapply (fd_trim Hdev); [done|done|done|]. intros d' Hi' Hd'. rewrite wp_ret.
    by apply Hplain.
Qed.

(** The loop serves the requests in their order and returns at the end. *)
Lemma wp_buse_loop ops : ∀ fuel s d Q,
  caps_ok s → inv d → Forall (λ x, valid x.2) ops → arrives ops (s_in s) → (length (concat (s_in s)) < fuel)%nat →
  (∀ s' d', s_out s' = s_out s ++ (flat_serve ops (disk d)).1 → disk d' = (flat_serve ops (disk d)).2 → inv d' → Q 0 (s', d')) →
  wp (buse_loop fresh_chunk fuel aop) (s, d) Q.
Proof.
  induction ops as [|[h o] ops IH]; intros fuel s d Q Hc Hi Hv Ha Hf HQ; (destruct fuel as [|fuel]; [lia|]); cbn [buse_loop];
    unfold on_sock; rewrite wp_bind, wp_zoom; cbn [fst snd].
  - apply arrives_nil_inv in Ha as [E|(h & rest & Hh & E)].
    + unfold sys_read. rewrite wp_bind, wp_gets, E, wp_ret. change (len [] =? 0) with true. cbn iota. rewrite wp_ret.
      apply HQ; [by rewrite app_nil_r|done|done].
    + eapply wp_sys_read; [exact E|by rewrite len_raw|]. rewrite !len_raw.
      pose proof request_size. rewrite (proj2 (Z.eqb_neq _ 0)) by lia. rewrite Z.eqb_refl, wp_bind. apply wp_guard_or; [done|].
      destruct (raw_dec NBD_CMD_DISC h 0 0) as (-> & E1 & E2 & E3); [set_solver|done|done|done|].
      pose proof cmds_ne as Hcm. rewrite wp_bind. unfold serve_request. cbn [rq_magic rq_type rq_handle rq_from rq_len]. rewrite E1.
      rewrite wp_bind. apply wp_guard_or; [apply Z.eqb_refl|]. rewrite !(proj2 (Z.eqb_neq _ _)) by apply Hcm.
      rewrite Z.eqb_refl, wp_bind. destruct (op_disc aop) as [f|] eqn:Ef.
      * unfold on_dev. rewrite wp_zoom. eapply (fd_disc Hdev); [done|done|]. intros d' Hi' Hd'. rewrite !wp_ret.
        apply HQ; [by rewrite app_nil_r|done|done].
      * rewrite !wp_ret. apply HQ; [by rewrite app_nil_r|done|done].
  - apply Forall_cons in Hv as [Hv Hvs]. apply arrives_cons_inv in Ha as (cs & rest & Hh & Hcs & Hne & Har & E2).
    eapply wp_sys_read; [exact E2|by rewrite len_raw|]. rewrite !len_raw.
    pose proof request_size. rewrite (proj2 (Z.eqb_neq _ 0)) by lia. rewrite Z.eqb_refl, wp_bind. apply wp_guard_or; [done|].
    rewrite wp_bind. apply (wp_serve_op h o _ d cs rest); try done.
    intros s1 d1 [So Sd Si Sc] Hin. cbn iota. apply IH; [done|done|done|by rewrite Hin| |].
    + rewrite Hin. rewrite E2 in Hf. cbn [concat] in Hf. rewrite concat_app, !length_app in Hf.
      pose proof (len_raw (op_cmd o) h (op_from o) (op_len o)) as Hle. unfold len in Hle. lia.
    + intros s2 d2 Ho2 Hd2 Hi2. cbn [flat_serve] in HQ. destruct (flat_op (disk d) o) as [dk dd] eqn:Efl. cbn [fst snd] in *.
      rewrite Sd in Ho2, Hd2. destruct (flat_serve ops dk) as [out dk2]. cbn [fst snd] in *.
      apply HQ; [|done|done]. rewrite Ho2, So. cbn [s_out put_in]. by rewrite <-app_assoc.
Qed.
Lemma wp_buse_main rqs s d :
  caps_ok s → inv d → Forall (λ x, valid x.2) rqs → arrives rqs (s_in s) →
  wp (buse_main fresh_chunk aop) (s, d) (λ a x, a = 0 ∧
    s_out x.1 = s_out s ++ (flat_serve rqs (disk d)).1 ∧ disk x.2 = (flat_serve rqs (disk d)).2 ∧ inv x.2).
Proof.
  intros Hc Hi Hv Ha. unfold buse_main, wp.
  apply (wp_buse_loop rqs (S (length (concat (s_in s)))) s d (λ a x, a = 0 ∧
    s_out x.1 = s_out s ++ (flat_serve rqs (disk d)).1 ∧ disk x.2 = (flat_serve rqs (disk d)).2 ∧ inv x.2)); try done. lia.
Qed.
End Device.
End Protocol.
