(* ===== verification/DiskSpec.v ===== *)
(** * A block device over remote memory is a flat array of bytes

    The operations of bb_disk.c are a [flat_device]: reads and writes of whole
    blocks go through the bulk functions of the client library, and what the
    servers hold at the addresses of [memList] is the content of the device.
    Then the whole program: [bb_disk] allocates the blocks and serves a stream
    of requests as an array of zeroes would. *)

From S2P Require Import Prelude Types Bytes Wire RawSend RawRecv Server ServerSpec Client Remote RMem Bulk BulkClient Buse BuseSpec.

(** ** The stores of a batch *)

Definition ends_before (x : Z) (ad : ip6_memaddr * list Z) : Prop := ¬ (paddr ad.1 <= x < paddr ad.1 + len ad.2).
Lemma stores_out l : ∀ m i x, Forall (λ ad, i = subid ad.1 → ends_before x ad) l → stores m l i x = m i x.
Proof.
  induction l as [|ad l IH]; intros m i x Hl; [done|]. apply Forall_cons in Hl as [Ha Hl].
  unfold stores. cbn [foldl]. fold (stores (put_store m ad) l). rewrite IH by done.
  unfold put_store. rewrite decide_False; [done|]. intros [E Hx]. by apply Ha.
Qed.

(** Addresses with [chunk] bytes each that do not overlap. *)
Definition all_apart (chunk : Z) (l : list ip6_memaddr) : Prop :=
  ∀ p q a b, l !! p = Some a → l !! q = Some b → p ≠ q → subid a = subid b → apart (paddr a) chunk (paddr b) chunk.
Lemma all_apart_app chunk l1 l2 : all_apart chunk (l1 ++ l2) → all_apart chunk l1 ∧ all_apart chunk l2 ∧
  ∀ a b, a ∈ l1 → b ∈ l2 → subid a = subid b → apart (paddr a) chunk (paddr b) chunk.
Proof.
  intros Ha. split_and!.
  - intros p q a b Ea Eb. apply Ha; by apply lookup_app_l_Some.
  - intros p q a b Ea Eb Hne. apply (Ha (length l1 + p)%nat (length l1 + q)%nat); [| |lia];
      rewrite lookup_app_r by lia; (rewrite <-Ea || rewrite <-Eb); f_equal; lia.
  - intros a b [p Ea]%list_elem_of_lookup [q Eb]%list_elem_of_lookup. apply lookup_lt_Some in Ea as Hp.
    apply (Ha p (length l1 + q)%nat); [by apply lookup_app_l_Some| |lia]. rewrite lookup_app_r by lia.
    rewrite <-Eb. f_equal. lia.
Qed.

Section Chunks.
Variables (payload : list Z) (chunk : Z).
Hypothesis Hchunk : 0 <= chunk.

Lemma chunked_elem l : ∀ i ad, 0 <= i → chunk * (i + len l) <= len payload → ad ∈ chunked i l payload chunk →
  ad.1 ∈ l ∧ len ad.2 = chunk.
Proof.
  induction l as [|a l IH]; intros i ad Hi Hp; cbn [chunked]; [by intros ?%elem_of_nil|].
  rewrite len_cons in Hp. pose proof (len_nonneg l). intros [->|Hin]%elem_of_cons.
  - split; [left|]. cbn [snd]. apply len_slice; nia.
  - apply IH in Hin as [? ?]; [split; [by right|done]|lia|nia].
Qed.
Lemma stores_elsewhere l i m a x : 0 <= i → chunk * (i + len l) <= len payload →
  (∀ b, b ∈ l → subid a = subid b → apart (paddr a) chunk (paddr b) chunk) → paddr a <= x < paddr a + chunk →
  stores m (chunked i l payload chunk) (subid a) x = m (subid a) x.
Proof.
  intros Hi Hp Ha Hx. apply stores_out, Forall_forall. intros ad Had Es.
  apply chunked_elem in Had as [Hin Hl]; [|done|done]. specialize (Ha _ Hin Es). unfold ends_before, apart in *. lia.
Qed.
Lemma stores_here l : ∀ i m j a x, all_apart chunk l → 0 <= i → chunk * (i + len l) <= len payload →
  l !! j = Some a → 0 <= x < chunk →
  stores m (chunked i l payload chunk) (subid a) (paddr a + x) = idx (slice payload (chunk * (i + Z.of_nat j)) chunk) x.
Proof.
  induction l as [|a0 l IH]; intros i m j a x Hap Hi Hp E Hx; [done|]. cbn [chunked].
  rewrite len_cons in Hp. pose proof (len_nonneg l). unfold stores. cbn [foldl].
  fold (stores (put_store m (a0, slice payload (chunk * i) chunk)) (chunked (i + 1) l payload chunk)).
  destruct j as [|j].
  - injection E as ->. rewrite stores_elsewhere; [|lia|nia| |lia].
    + unfold put_store. cbn [fst snd]. rewrite len_slice by nia. rewrite decide_True by lia. rewrite Z.add_0_r. f_equal. lia.
    + intros b [q Eb]%list_elem_of_lookup Hs. by apply (Hap 0%nat (S q)).
  - rewrite (IH _ _ j a); [do 2 f_equal; lia| |lia|nia|done|done].
    intros p q b b' Eb Eb' Hne. apply (Hap (S p) (S q)); [done|done|lia].
Qed.
End Chunks.

(** Reading a row of addresses. *)
Lemma read_data_slices chunk v l payload : ∀ i, 0 <= chunk → 0 <= i → chunk * (i + len l) <= len payload →
  (∀ j a, l !! j = Some a → rd_bytes (v (subid a)).1 (paddr a) chunk = slice payload (chunk * (i + Z.of_nat j)) chunk) →
  read_data chunk v l = slice payload (chunk * i) (chunk * len l).
Proof.
  induction l as [|a l IH]; intros i Hc Hi Hp Hr; unfold read_data in *.
  { change (len (@nil ip6_memaddr)) with 0. by rewrite Z.mul_0_r, slice_0. }
  rewrite len_cons in *. pose proof (len_nonneg l). rewrite fmap_cons. cbn [concat].
  rewrite (IH (i + 1)); [|lia|lia|nia|].
  - rewrite (Hr 0%nat a eq_refl), Z.add_0_r. replace (chunk * (len l + 1)) with (chunk + chunk * len l) by lia.
    rewrite slice_split by nia. do 2 f_equal. lia.
  - intros j b E. rewrite (Hr (S j) b E). f_equal. lia.
Qed.
Lemma read_data_same chunk v v' l l' :
  0 <= chunk → Forall2 (λ a b, subid b = subid a ∧ paddr b = paddr a ∧ (addr_ok a → addr_ok b)) l l' →
  (∀ a x, a ∈ l → paddr a <= x < paddr a + chunk → (v' (subid a)).1 !! x = (v (subid a)).1 !! x) →
  read_data chunk v' l' = read_data chunk v l.
Proof.
  intros Hc Hl Hv. unfold read_data. induction Hl as [|a b l l' (Es & Ep & _) Hl IH]; [done|].
  rewrite !fmap_cons. cbn [concat]. rewrite IH by (intros; apply Hv; [by right|done]). f_equal. rewrite Es, Ep.
  apply rd_bytes_ext; [done|]. intros x Hx. apply Hv; [left|done].
Qed.

(** ** Round trip *)

Section RoundTrip.
Context `{Config} `{!Calloc} {W : Type} `{!ClientNet W} `{!RemoteHosts W} `{!BulkHosts W}.
Implicit Types (c : client W).

(** After the stores, the addresses hold the payload. *)
Lemma stored_read c c' l payload : all_apart BLOCK_SIZE l → len payload = BLOCK_SIZE * len l →
  stored c c' (chunked 0 l payload BLOCK_SIZE) → read_data BLOCK_SIZE (view_of (c_net c')) l = payload.
Proof.
  intros Hap Hp [_ Hm _ _ _]. pose proof BLOCK_SIZE_pos.
  rewrite (read_data_slices _ _ _ payload 0); [|lia|lia|lia|].
  - unfold slice. rewrite Z.mul_0_r, drop_0. apply take_ge. unfold len in *. lia.
  - intros j a E. assert (j < length l)%nat as Hj by by apply lookup_lt_Some in E.
    apply rd_bytes_eq; [apply len_slice; unfold len in *; nia|]. intros i Hi. cbn [view_of fst]. rewrite Hm.
    by apply stores_here; [lia|done|lia|lia|..].
Qed.
End RoundTrip.

(** ** The operations of bb_disk *)

Section Device.
Context `{Config} `{!Calloc} `{!NbdHeader} {W : Type} `{!ClientNet W} `{!RemoteHosts W} `{!BulkHosts W}.
Hypothesis Hbs : BLOCK_SIZE <= MAX_PAYLOAD.
Variable chunk_addr : Z → Z.
Hypothesis Hchunk_addr : ∀ n, 0 <= n < 2 ^ 32 → 0 <= chunk_addr n ∧ chunk_addr n + n < 2 ^ 64.
(** The number of blocks. *)
Variable N : Z.
Hypothesis HN : BLOCK_SIZE * N < 2 ^ 64.
Abbreviation BS := BLOCK_SIZE.
Abbreviation view_at r := (view_of (c_net (rm_client r))).

Record disk_ok (r : rmem W) : Prop := {
  dk_ok : rmem_ok r;
  dk_nb : rm_nblocks r = N;
  dk_ids p a : idx (rm_memList r) p = Some a → subid a < USHRT_MAX;
}.
(** What the servers hold, block after block. *)
Definition disk_bytes (r : rmem W) : list Z := read_data BS (view_at r) (rm_memList r).
(** Whole blocks of the device. *)
Definition block_range (from n : Z) : Prop := ∃ k m, from = BS * k ∧ n = BS * m ∧ 0 <= k ∧ 0 < m ∧ k + m <= N ∧ n < 2 ^ 32.
Definition disk_valid (o : nbd_op) : Prop :=
  match o with
  | NRead f n => block_range f n
  | NWrite f d => block_range f (len d) ∧ Forall byte_ok d
  | NTrim f n => 0 <= f < 2 ^ 64 ∧ 0 <= n < 2 ^ 32
  | NFlush => True
  end.

Lemma dk_len r : disk_ok r → len (rm_memList r) = N.
Proof. intros [Hr Hn _]. by rewrite (rk_len _ Hr). Qed.
Lemma disk_lookup r j a : disk_ok r → rm_memList r !! j = Some a →
  usable (rm_client r) BS a ∧ idx (rm_memList r) (Z.of_nat j) = Some a.
Proof.
  intros [Hr Hn Hi] E. assert (idx (rm_memList r) (Z.of_nat j) = Some a) as Ei.
  { unfold idx. rewrite (proj2 (Z.leb_le 0 _)) by lia. by rewrite Nat2Z.id. }
  split; [|done]. split_and!; [by eapply rk_addr|by eapply Hi|by eapply rk_mapped].
Qed.
Lemma disk_usable r : disk_ok r → Forall (usable (rm_client r) BS) (rm_memList r).
Proof. intros Hr. apply Forall_lookup. intros j a E. by eapply disk_lookup. Qed.
Lemma disk_apart r : disk_ok r → all_apart BS (rm_memList r).
Proof.
  intros Hr p q a b Ea Eb Hne Hs. apply (disk_lookup r _ _ Hr) in Ea as [_ Ea]. apply (disk_lookup r _ _ Hr) in Eb as [_ Eb].
  eapply (rk_apart _ (dk_ok _ Hr)); [exact Ea|exact Eb|lia|done].
Qed.

(** The parts of [memList] before, in and after a range. *)
Lemma disk_parts r k m : disk_ok r → 0 <= k → 0 < m → k + m <= N →
  ∃ l1 l2 l3, rm_memList r = l1 ++ l2 ++ l3 ∧ len l1 = k ∧ len l2 = m ∧ addrs_at (drop (Z.to_nat k) (rm_memList r)) 0 l2.
Proof.
  intros Hr Hk Hm Hkm. pose proof (dk_len r Hr) as Hl. set (l := rm_memList r) in *.
  exists (take (Z.to_nat k) l), (take (Z.to_nat m) (drop (Z.to_nat k) l)), (drop (Z.to_nat m) (drop (Z.to_nat k) l)).
  rewrite !take_drop. split_and!; [done|rewrite len_take; lia|rewrite len_take; rewrite ?len_drop; lia|].
  intros j a E. rewrite Z.add_0_l. unfold idx. rewrite (proj2 (Z.leb_le 0 _)) by lia. rewrite Nat2Z.id.
  by apply lookup_take_Some in E as [E _].
Qed.
Lemma disk_ok_next r c' l' : disk_ok r → client_inv c' →
  (∀ i x, is_Some (rh_mem (c_net (rm_client r)) i !! x) → is_Some (rh_mem (c_net c') i !! x)) →
  alike (rm_memList r) l' → disk_ok (put_memList l' (put_client c' r)).
Proof.
  intros [Hr Hn Hi] Hc Hm [Al Ai]. destruct Hr as [Kc Kb Kl Ka Km Kap]. split; [split| |]; simpl; try done.
  - congruence.
  - intros p a E. destruct (Ai p a E) as (a0 & E0 & -> & Hp & Hok). destruct (Ka p a0 E0) as (? & Es & ?).
    split_and!; [by apply Hok|destruct (Ai p a E) as (? & E1 & ? & _); congruence|done].
  - intros p a E x Hx. destruct (Ai p a E) as (a0 & E0 & -> & Hp & _). apply Hm, (Km p a0 E0). by rewrite <-Hp.
  - intros p q a b Ea Eb Hne Hs. destruct (Ai p a Ea) as (a0 & Ea0 & Sa & -> & _).
    destruct (Ai q b Eb) as (b0 & Eb0 & Sb & -> & _). apply (Kap p q); [done|done|done|congruence].
  - intros p a E. destruct (Ai p a E) as (a0 & E0 & -> & _). by eapply Hi.
Qed.
Lemma alike_parts k l arr : 0 <= k <= len l → alike (drop (Z.to_nat k) l) arr → alike l (take (Z.to_nat k) l ++ arr).
Proof.
  intros Hk [Al Ai]. split.
  - rewrite len_app, Al, len_take, len_drop by lia. lia.
  - intros i b E. pose proof (idx_Some_range _ _ _ E) as Hr. rewrite idx_app, len_take in E by lia.
    destruct (decide (i < k)).
    + exists b. rewrite idx_take, decide_True in E by lia. done.
    + destruct (Ai _ _ E) as (a & Ea & ?). exists a. rewrite idx_drop in Ea by lia. by replace (k + (i - k)) with i in Ea by lia.
Qed.

Lemma block_div k : 0 <= k → BS * k / BS = k.
Proof. intros. pose proof BLOCK_SIZE_pos. rewrite Z.mul_comm. by apply Z_div_mult_full; lia. Qed.
Lemma slice_disk r l1 l2 l3 : rm_memList r = l1 ++ l2 ++ l3 →
  disk_bytes r = read_data BS (view_at r) l1 ++ read_data BS (view_at r) l2 ++ read_data BS (view_at r) l3 ∧
  slice (disk_bytes r) (BS * len l1) (BS * len l2) = read_data BS (view_at r) l2.
Proof.
  intros E. pose proof BLOCK_SIZE_pos. unfold disk_bytes. rewrite E, !read_data_app. split; [done|].
  apply slice_app_mid; rewrite len_read_data; unfold MAX_PAYLOAD in *; lia.
Qed.
Lemma len_disk r : disk_ok r → len (disk_bytes r) = BS * N.
Proof. intros Hr. pose proof BLOCK_SIZE_pos. unfold disk_bytes. rewrite len_read_data, dk_len by (done || lia). done. Qed.

Lemma wp_xmp_read r buf from n Q : disk_ok r → block_range from n → len buf = n →
  (∀ r', disk_ok r' → disk_bytes r' = disk_bytes r → Q (0, slice (disk_bytes r) from n) r') →
  wp (xmp_read chunk_addr buf n from) r Q.
Proof.
  intros Hr (k & m & -> & -> & Hk & Hm & Hkm & H32) Hbuf HQ. pose proof BLOCK_SIZE_pos.
  destruct (disk_parts r k m Hr Hk Hm Hkm) as (l1 & l2 & l3 & El & <- & <- & Hat).
  destruct (slice_disk r l1 l2 l3 El) as [Ed Es]. destruct (Hchunk_addr (BS * len l2)) as [Hc1 Hc2]; [nia|].
  unfold xmp_read. rewrite wp_bind, wp_gets, !block_div by lia. rewrite wp_bind. unfold on_client. rewrite wp_zoom.
  pose proof (disk_usable r Hr) as Hu. rewrite El, !Forall_app in Hu. destruct Hu as (_ & Hu & _).
  eapply (wp_read_bulk_rmem Hbs _ _ l2); cbn [base bytes]; [apply Hr|done|lia|done|done|done|lia|lia|].
  intros arr c' Hal Hc' Hv Hh _. rewrite wp_bind, wp_modify, wp_ret. cbn [rm_memList put_client bytes base].
  rewrite <-Es. apply HQ.
  - apply (disk_ok_next r c'); [done|done| |].
    + intros i x. specialize (Hv i). injection Hv as -> _. done.
    + apply alike_parts; [|done]. rewrite dk_len by done. lia.
  - unfold disk_bytes. apply read_data_same; [lia| |].
    + apply alike_rows, alike_parts; [|done]. rewrite dk_len by done. lia.
    + intros a x _ _. cbn [rm_client put_memList put_client]. by rewrite Hv.
Qed.

(** Storing the payload at the addresses of a range changes these blocks only. *)
Lemma stored_disk r c' l1 l2 l3 payload : disk_ok r → rm_memList r = l1 ++ l2 ++ l3 → len payload = BS * len l2 →
  stored (rm_client r) c' (chunked 0 l2 payload BS) →
  read_data BS (view_of (c_net c')) (rm_memList r) = splice (disk_bytes r) (BS * len l1) payload.
Proof.
  intros Hr El Hp Hst. pose proof (sd_mem _ _ _ Hst) as Hm. pose proof BLOCK_SIZE_pos as HBS. destruct (slice_disk r l1 l2 l3 El) as [-> _].
  pose proof (disk_apart r Hr) as Hap. rewrite El in *. rewrite !read_data_app.
  apply all_apart_app in Hap as (_ & Hap & Hx1). apply all_apart_app in Hap as (Hap2 & _ & Hx2).
  assert (∀ l, (∀ a b, a ∈ l → b ∈ l2 → subid a = subid b → apart (paddr a) BS (paddr b) BS) →
    read_data BS (view_of (c_net c')) l = read_data BS (view_at r) l) as Hout.
  { intros l Hl. apply read_data_same; [lia|by apply Forall_Forall2_diag, Forall_true|]. intros a x Ha Hx.
    cbn [view_of fst]. rewrite Hm. apply stores_elsewhere; [lia|lia|lia| |done]. intros b Hb. by apply Hl. }
  rewrite (Hout l1), (Hout l3).
  2: { intros a b Ha Hb Es. specialize (Hx2 b a Hb Ha (eq_sym Es)). unfold apart in *. lia. }
  2: { intros a b Ha Hb. apply Hx1; [done|]. apply elem_of_app. by left. }
  rewrite (stored_read (rm_client r) c' l2 payload) by done.
  unfold splice. rewrite Hp.
  assert (len (read_data BS (view_at r) l1) = BS * len l1) as J1 by (apply len_read_data; lia).
  assert (len (read_data BS (view_at r) l2) = BS * len l2) as J2 by (apply len_read_data; lia).
  rewrite take_app_length' by (unfold len in *; lia). f_equal. f_equal.
  rewrite app_assoc, drop_app_length'; [done|]. rewrite length_app. unfold len in *. lia.
Qed.
Lemma wp_xmp_write r from payload Q : disk_ok r → block_range from (len payload) → Forall byte_ok payload →
  (∀ r', disk_ok r' → disk_bytes r' = splice (disk_bytes r) from payload → Q 0 r') →
  wp (xmp_write payload (len payload) from) r Q.
Proof.
  intros Hr (k & m & -> & Hlen & Hk & Hm & Hkm & H32) Hb HQ. rewrite Hlen in *. pose proof BLOCK_SIZE_pos.
  destruct (disk_parts r k m Hr Hk Hm Hkm) as (l1 & l2 & l3 & El & <- & <- & Hat).
  unfold xmp_write. rewrite wp_bind, wp_gets, !block_div by lia. rewrite wp_bind. unfold on_client. rewrite wp_zoom.
  pose proof (disk_usable r Hr) as Hu. rewrite El, !Forall_app in Hu. destruct Hu as (_ & Hu & _).
  eapply (wp_write_bulk_rmem Hbs _ _ l2); [apply Hr|done|lia|done|done|done|].
  intros arr c' Hal Hs. rewrite wp_bind, wp_modify, wp_ret. cbn [rm_memList put_client].
  assert (alike (rm_memList r) (take (Z.to_nat (len l1)) (rm_memList r) ++ arr)) as Hal'.
  { apply alike_parts; [|done]. rewrite dk_len by done. lia. }
  apply HQ.
  - apply (disk_ok_next r c'); [done|apply Hs| |done]. intros i x Hx. rewrite (sd_mem _ _ _ Hs). by apply stores_mapped.
  - rewrite <-(stored_disk r c' l1 l2 l3) by done. unfold disk_bytes.
    apply read_data_same; [lia|by apply alike_rows|done].
Qed.

(** bb_disk's operations behave as an array of bytes. *)
Lemma disk_is_flat : flat_device (aop chunk_addr) disk_ok disk_bytes disk_valid.
Proof.
  pose proof BLOCK_SIZE_pos. split.
  - intros [f n|f d| |f n]; simpl; try done.
    + intros (k & m & -> & -> & ? & ? & ? & ?). nia.
    + intros [(k & m & -> & -> & ? & ? & ? & ?) _]. nia.
  - intros r f n Hr (k & m & -> & -> & Hk & Hm & Hkm & _). apply len_slice; rewrite ?len_disk by done; nia.
  - eexists. split; [reflexivity|]. intros. by apply wp_xmp_read.
  - eexists. split; [reflexivity|]. intros r f l Q Hr [Hv Hb] HQ. by apply wp_xmp_write.
  - intros f r Q [= <-] Hr HQ. unfold xmp_disc. rewrite wp_ret. by apply HQ.
  - intros f r Q [= <-] Hr HQ. unfold xmp_flush. rewrite wp_ret. by apply HQ.
  - intros f r a n Q [= <-] Hr Hv HQ. unfold xmp_trim. rewrite wp_ret. by apply HQ.
Qed.
End Device.
