(* ===== verification/DiskTheorems.v ===== *)
(** * Theorems on the batched functions and the block device

    From the contracts [RemoteHosts] and [BulkHosts]: a batch of writes gets
    its acknowledgements, a bulk write is read back, the request loop serves a
    flat device, and bb_disk is one. The witnesses run on [TestBed]. *)

From S2P Require Import Prelude Types Bytes Wire RawSend RawRecv Server ServerSpec Client Remote World RMem Bulk BulkWorld BulkClient TestBed Buse BuseSpec DiskSpec.

Section BulkTheorems.
Context `{Config} `{!Calloc} {W : Type} `{!ClientNet W} `{!RemoteHosts W} `{!BulkHosts W}.
Implicit Types (c : client W).


(** C9: Bulk round trip: whatever the number of blocks (one, whole batches of
    40, a partial last batch) and however they are spread over the servers, when the blocks do not overlap,
    [read_bulk_rmem] after [write_bulk_rmem] fills the caller's buffer with
    exactly the bytes written, and no other byte of a server has changed. *)
Theorem bulk_read_after_write (c : client W) l payload p :
  BLOCK_SIZE <= MAX_PAYLOAD → client_inv c → 0 < len l → Forall (usable c BLOCK_SIZE) l → all_apart BLOCK_SIZE l →
  len payload = BLOCK_SIZE * len l → Forall byte_ok payload → len (bytes p) = len payload → len payload < 2 ^ 32 →
  0 <= base p → base p + len payload < 2 ^ 64 →
  ∃ l1 c1 l2 c2, write_bulk_rmem l (len l) payload (len payload) c = Ok (l1, 0) c1 ∧
    read_bulk_rmem l1 (len l) p (len payload) c1 = Ok (l2, inr (MkPool (base p) payload)) c2 ∧ client_inv c2 ∧
    ∀ i x, (∀ a, a ∈ l → subid a = i → ¬ (paddr a <= x < paddr a + BLOCK_SIZE)) →
      rh_mem (c_net c2) i !! x = rh_mem (c_net c) i !! x.
Proof.
  intros Hbs Hc Hl0 Hl Hap Hp Hb Hbuf H32 Hb0 Htop.
  assert (wp (write_bulk_rmem l (len l) payload (len payload)) c
    (λ x c1, alike l x.1 ∧ x.2 = 0 ∧ stored c c1 (chunked 0 l payload BLOCK_SIZE))) as Hw.
  { rewrite Hp. eapply (wp_write_bulk_rmem Hbs c l l); try done. apply addrs_at_self. }
  apply wp_ok in Hw as ([l1 z] & c1 & E1 & Hal & Hz & Hst). cbn [fst snd] in *. subst z.
  assert (Forall (usable c1 BLOCK_SIZE) l1) as Hl1 by (eapply alike_usable; [exact Hal|by eapply stored_usable]).
  pose proof (al_len _ _ Hal) as Hll.
  assert (wp (read_bulk_rmem l1 (len l) p (len payload)) c1
    (λ x c2, x.2 = inr (MkPool (base p) payload) ∧ client_inv c2 ∧ ∀ i, view_of (c_net c2) i = view_of (c_net c1) i)) as Hr.
  { rewrite Hp, <-Hll. eapply (wp_read_bulk_rmem Hbs c1 l1 l1); try done; try lia; try apply Hst; try apply addrs_at_self.
    intros arr' c2 _ Hc2 Hv _ _. cbn [snd]. split_and!; [|done|done]. do 2 f_equal.
    rewrite <-(stored_read c c1 l payload) by done. pose proof BLOCK_SIZE_pos. apply read_data_same; [lia|by apply alike_rows|done]. }
  apply wp_ok in Hr as ([l2 r] & c2 & E2 & Hr & Hc2 & Hv). cbn [snd] in Hr. subst r.
  exists l1, c1, l2, c2. split_and!; [done|done|done|]. intros i x Hx. specialize (Hv i). injection Hv as -> _.
  rewrite (sd_mem _ _ _ Hst). apply stores_out, Forall_forall. intros ad Had Es. pose proof BLOCK_SIZE_pos.
  apply chunked_elem in Had as [Hin Hla]; [|lia|lia|lia]. unfold ends_before. rewrite Hla. by apply Hx.
Qed.
End BulkTheorems.

Section BuseTheorems.
Context `{!NbdHeader} {D : Type}.

End BuseTheorems.

(** ** The whole program *)

Section BbDisk.
Context `{Config} `{!Calloc} `{!NbdHeader} {W : Type} `{!ClientNet W} `{!RemoteHosts W} `{!BulkHosts W}.
Hypothesis Hone : BLOCK_SIZE = 1.

Lemma fresh_blocks v l : Forall (λ a, rd_bytes (v (subid a)).1 (paddr a) 1 = [0]) l →
  read_data BLOCK_SIZE v l = replicate (length l) 0.
Proof.
  rewrite Hone. unfold read_data. intros Hl. induction Hl as [|a l E Hl IH]; [done|].
  rewrite fmap_cons. cbn [concat length replicate]. by rewrite E, IH.
Qed.

(** C3: bb_disk is a flat block device: with the block size of types.h, on
    hosts that keep the contracts and have room, the program allocates the
    device over the hosts, every byte zero, and serves any stream of reads,
    writes, flushes and trims inside the device as an array of [size] zeroes
    would: the answers on the socket are the array's, and at the end the
    servers hold its content. The blocks travel in the batches of the client
    library, 40 to a batch. *)
Theorem bb_disk_is_flat (fresh_chunk : Z → list Z) chunk_addr size n garbage (c : client W) rqs s :
  (∀ k, 0 <= k → len (fresh_chunk k) = k) → (∀ k, 0 <= k < 2 ^ 32 → 0 <= chunk_addr k ∧ chunk_addr k + k < 2 ^ 64) →
  client_inv c → 0 < n <= size → n <= 256 → size < 2 ^ 63 →
  (∀ i, 0 <= i < n → ∃ a, idx (hostList c) i = Some a ∧ addr_ok a ∧ is_Some (rh_server (subid a))) →
  (∀ i a, idx (hostList c) i = Some a → subid a < USHRT_MAX) →
  (∀ i j a b, idx (hostList c) i = Some a → idx (hostList c) j = Some b → subid a = subid b → i = j) →
  (∀ i a m, idx (hostList c) i = Some a → 0 < m <= size → calloc_addr (rh_blocks (c_net c) (subid a)) m ≠ 0) →
  caps_ok s → Forall (λ x, disk_valid size x.2) rqs → arrives rqs (s_in s) →
  ∃ s' r, bb_disk chunk_addr fresh_chunk size n garbage c s = Ok 0 (s', r) ∧
    s_out s' = s_out s ++ (flat_serve rqs (replicate (Z.to_nat size) 0)).1 ∧
    disk_bytes r = (flat_serve rqs (replicate (Z.to_nat size) 0)).2.
Proof.
  intros Hf Hca Hc Hn H256 Hsz Hhosts Hids Hdist Hroom Hcaps Hv Ha.
  assert (BLOCK_SIZE <= MAX_PAYLOAD) as Hbs by by rewrite Hone.
  pose proof (wp_fill_rmem Hone size n (hostList c) Hn H256 Hsz Hhosts Hdist (rh_blocks (c_net c)) Hroom
    garbage c Hc eq_refl (λ _, eq_refl)) as Hw.
  apply wp_ok in Hw as ([] & r & E & Hr & Hnb & Hz & Hsub).
  assert (disk_ok size r) as Hd.
  { split; [done|done|]. intros p a Ea. destruct (Hsub p a Ea) as (h & b & Eb & ->). by eapply Hids. }
  assert (disk_bytes r = replicate (Z.to_nat size) 0) as Hdb.
  { pose proof (dk_len size r Hd) as Hlen. unfold disk_bytes. rewrite fresh_blocks.
    - f_equal. unfold len in Hlen. lia.
    - apply Forall_lookup. intros j a Ej. destruct (disk_lookup size r j a Hd Ej) as [_ Ei].
      pose proof (idx_Some_range _ _ _ Ei). rewrite <-(Hz (Z.of_nat j)) by lia. unfold rmem_content. by rewrite Ei, Hone. }
  assert (flat_device (aop chunk_addr) (disk_ok size) disk_bytes (disk_valid size)) as Hflat.
  { apply disk_is_flat; [done|done|]. rewrite Hone. lia. }
  pose proof (wp_buse_main fresh_chunk _ _ _ _ Hf Hflat rqs s r Hcaps Hd Hv Ha) as Hb.
  apply wp_ok in Hb as (z & [s' r'] & E' & -> & Ho & Hd' & _). cbn [fst snd] in *. rewrite Hdb in Ho, Hd'. exists s', r'.
  split_and!; [|done|done]. unfold bb_disk. by rewrite Hone, Z.div_1_r, <-Hone, E.
Qed.
End BbDisk.

(** ** Witnesses *)

(** The header of Linux: packed structures, a request of 28 bytes. *)
Definition nbd_dec (l : list Z) : nbd_request :=
  MkReq (un_le (slice l 0 4)) (un_le (slice l 4 4)) (slice l 8 8) (un_le (slice l 16 8)) (un_le (slice l 24 4)).
Definition pad8 (h : list Z) : list Z := take 8 (h ++ replicate 8 0).
Definition nbd_enc (r : nbd_request) : list Z :=
  le 4 (rq_magic r) ++ le 4 (rq_type r) ++ pad8 (rq_handle r) ++ le 8 (rq_from r) ++ le 4 (rq_len r).
Lemma len_pad8 h : len (pad8 h) = 8.
Proof. unfold pad8, len. rewrite length_take, length_app, length_replicate. lia. Qed.
Lemma pad8_id h : len h = 8 → pad8 h = h.
Proof. intros Hl. unfold pad8. rewrite take_app_le by (unfold len in Hl; lia). apply take_ge. unfold len in Hl. lia. Qed.
#[refine] Definition nbd_linux : NbdHeader := {|
  NBD_REQUEST_MAGIC := 0x25609513;
  NBD_REPLY_MAGIC := 0x67446698;
  NBD_CMD_READ := 0;
  NBD_CMD_WRITE := 1;
  NBD_CMD_DISC := 2;
  NBD_CMD_FLUSH := 3;
  NBD_CMD_TRIM := 4;
  sizeof_request := 28;
  dec_request := nbd_dec;
  enc_request := nbd_enc;
  enc_reply r := le 4 (re_magic r) ++ le 4 (re_error r) ++ re_handle r;
|}.
Proof.
  - done.
  - intros r. unfold nbd_enc. rewrite !len_app, !len_le, len_pad8. lia.
  - intros [m t h f n] Hm Ht Hh Hb Hf Hn. simpl in *. unfold nbd_dec, nbd_enc. cbn [rq_magic rq_type rq_handle rq_from rq_len].
    rewrite (pad8_id h) by done. 
    assert (len (le 4 m) = 4 ∧ len (le 4 t) = 4 ∧ len (le 8 f) = 8 ∧ len (le 4 n) = 4) as (LA & LB & LC & LD) by by rewrite !len_le.
    assert (un_le (le 4 m) = m ∧ un_le (le 4 t) = t ∧ un_le (le 8 f) = f ∧ un_le (le 4 n) = n) as (UA & UB & UC & UD).
    { rewrite !un_le_le by done. done. }
    set (A := le 4 m) in *. set (B := le 4 t) in *. set (C := le 8 f) in *. set (D := le 4 n) in *.
    f_equal.
    + rewrite (slice_app_mid [] A (B ++ h ++ C ++ D)) by done. done.
    + rewrite (slice_app_mid A B (h ++ C ++ D)) by done. done.
    + rewrite app_assoc, (slice_app_mid (A ++ B) h (C ++ D)) by (rewrite ?len_app; done || lia). done.
    + rewrite !app_assoc, <-(app_assoc _ C D), (slice_app_mid ((A ++ B) ++ h) C D) by (rewrite ?len_app; lia). done.
    + rewrite !app_assoc. rewrite <-(app_nil_r ((((A ++ B) ++ h) ++ C) ++ D)), <-(app_assoc _ D []).
      rewrite (slice_app_mid (((A ++ B) ++ h) ++ C) D []) by (rewrite ?len_app; lia). done.
  - rewrite !NoDup_cons, !not_elem_of_cons. repeat split; try done; try apply not_elem_of_nil. constructor.
  - repeat constructor; done.
Defined.

(** A device in memory, without a flush, a trim and a disconnect. *)
Definition ram_read (buf : list Z) (n from : Z) : M (list Z) (Z * list Z) := l ← gets id; mret (0, slice l from n).
Definition ram_write (buf : list Z) (n from : Z) : M (list Z) Z := modify (λ l, splice l from (take (Z.to_nat n) buf));; mret 0.
Definition ram_disk : buse_operations (list Z) := MkOps (Some ram_read) (Some ram_write) None None None.
Definition ram_valid (o : nbd_op) : Prop := 0 <= op_from o ∧ 0 <= op_len o ∧ op_from o + op_len o <= 4.
Lemma ram_is_flat : flat_device ram_disk (λ l, len l = 4) id ram_valid.
Proof.
  split.
  - intros o (? & ? & ?). lia.
  - intros l f n Hl (? & ? & ?). simpl in *. apply len_slice; unfold id; lia.
  - eexists. split; [reflexivity|]. intros l buf f n Q Hl Hv Hb HQ. unfold ram_read. rewrite wp_bind, wp_gets, wp_ret. by apply HQ.
  - eexists. split; [reflexivity|]. intros l f d Q Hl (? & ? & ?) HQ. simpl in *. unfold ram_write. rewrite wp_bind, wp_modify, wp_ret.
    rewrite take_ge by (unfold len; lia). apply HQ; [|done]. rewrite len_splice; lia.
  - intros f d Q [=].
  - intros f d Q [=].
  - intros f d from n Q [=].
Qed.

Section DiskWitnesses.
#[local] Existing Instance types_h.
#[local] Existing Instance nbd_linux.
#[local] Instance bulk0 : BulkHosts world :=
  world_bulk (host 0) src_port servers0 (host_ok 0 (conj (Z.le_refl 0) eq_refl)) port0_ok servers0_ok.

Lemma client4_usable chunk a : addr_ok a → subid a = 1 → 4096 <= paddr a → paddr a + chunk <= 4100 → usable client4 chunk a.
Proof.
  intros Ha Hs Hlo Hhi. split_and!; [by rewrite Hs; apply addr_in_1|by rewrite Hs|]. rewrite Hs. intros x Hx.
  apply client4_ok. lia.
Qed.
Definition block4 (i : Z) : ip6_memaddr := Memaddr 1 0 0 (4096 + i).
Lemma block4_usable chunk i : 0 <= i → i + chunk <= 4 → 0 <= chunk → usable client4 chunk (block4 i).
Proof. intros. apply client4_usable; simpl; try lia. split; simpl; lia. Qed.


Lemma bulk_read_after_write_witness :
  ∃ l1 c1 l2 c2, write_bulk_rmem [block4 2; block4 0; block4 1] 3 [7; 8; 9] 3 client4 = Ok (l1, 0) c1 ∧
    read_bulk_rmem l1 3 (MkPool 8192 [0; 0; 0]) 3 c1 = Ok (l2, inr (MkPool 8192 [7; 8; 9])) c2.
Proof.
  destruct (bulk_read_after_write client4 [block4 2; block4 0; block4 1] [7; 8; 9] (MkPool 8192 [0; 0; 0]))
    as (l1 & c1 & l2 & c2 & E1 & E2 & _).
  - done.
  - apply client4_ok.
  - done.
  - repeat (constructor; [apply block4_usable; simpl; lia|]). constructor.
  - intros [|[|[|p]]] [|[|[|q]]] a b Ea Eb Hne _; try done; injection Ea as <-; injection Eb as <-;
      unfold apart; simpl; lia.
  - done.
  - repeat constructor; done.
  - done.
  - done.
  - done.
  - done.
  - exists l1, c1, l2, c2. split; assumption.
Defined.

Definition handle8 : list Z := [1; 2; 3; 4; 5; 6; 7; 8].
Lemma handle8_ok : handle_ok handle8.
Proof. split; [done|]. repeat constructor; done. Qed.
(** A write in two pieces, a read over its border and a disconnect. *)
Definition rqs2 : list (list Z * nbd_op) := [(handle8, NWrite 1 [7; 8]); (handle8, NRead 0 3)].
Definition sock2 : sock :=
  MkStream [raw_request NBD_CMD_WRITE handle8 1 2; [7]; [8]; raw_request NBD_CMD_READ handle8 0 3;
    raw_request NBD_CMD_DISC handle8 0 0] [5; 1] [].
Lemma sock2_arrives : arrives rqs2 (s_in sock2).
Proof.
  apply (arrives_op handle8 (NWrite 1 [7; 8]) _ [[7]; [8]]); [apply handle8_ok|done|repeat constructor; done|].
  apply (arrives_op handle8 (NRead 0 3) [] [] [_]); [apply handle8_ok|done|constructor|].
  apply arrives_disc, handle8_ok.
Qed.
Lemma sock2_caps : caps_ok sock2.
Proof. repeat constructor. Qed.
Definition chunk0 (n : Z) : list Z := replicate (Z.to_nat n) 170.
Lemma chunk0_len n : 0 <= n → len (chunk0 n) = n.
Proof. intros. by apply len_replicate. Qed.


Lemma bb_disk_is_flat_witness :
  ∃ s' (r : rmem world), bb_disk (λ _, 0) chunk0 4 2 (host 0) (client0 1) sock2 = Ok 0 (s', r) ∧
    s_out s' = answer handle8 [] ++ answer handle8 [0; 7; 8] ∧ disk_bytes r = [0; 7; 8; 0].
Proof.
  destruct (bb_disk_is_flat (W := world) (eq_refl : @BLOCK_SIZE types_h = 1) chunk0 (λ n, 0) 4 2 (host 0) (client0 1) rqs2 sock2)
    as (s' & r & E & Ho & Hd).
  - exact chunk0_len.
  - intros k Hk. lia.
  - apply client0_ok.
  - lia.
  - lia.
  - lia.
  - intros i Hi. assert (i = 0 ∨ i = 1) as [->| ->] by lia; eexists;
      (split_and!; [reflexivity|apply host_ok; simpl; lia|eexists; reflexivity]).
  - by intros i a [[_ ->]|[_ ->]]%two_hosts.
  - intros i j a b [[-> ->]|[-> ->]]%two_hosts [[-> ->]|[-> ->]]%two_hosts; done.
  - intros i a m Hi Hm. assert (rh_blocks (c_net (client0 1)) (subid a) = ∅) as ->.
    { apply two_hosts in Hi as [[-> ->]|[-> ->]]; reflexivity. }
    unfold calloc_addr, bump_calloc. change (top_of ∅) with 4096. rewrite (proj2 (Z.leb_le _ _)) by lia. done.
  - exact sock2_caps.
  - constructor; [|constructor; [|constructor]]; simpl.
    + split; [|repeat constructor; done]. exists 1, 2. by split_and!.
    + exists 0, 3. by split_and!.
  - exact sock2_arrives.
  - exists s', r. split_and!; [exact E|rewrite Ho; reflexivity|rewrite Hd; reflexivity].
Defined.
End DiskWitnesses.
