(* ===== verification/Testing.v ===== *)
(** * The test program: src/ip6/apps/testing.c

    [launch_tests]: allocate, write, read back and compare, write other data,
    read and compare again, free; block by block or in bulk ([-b]). The state
    is that of [rmem]: [rm_memList] is [r_addr], [rm_nblocks] the number of
    iterations. Printing and the measured latencies are left out; a wrong
    result ends the program with [Exit 1]. *)

From S2P Require Import Prelude Types Bytes Wire RawSend RawRecv Server ServerSpec Client Remote RMem.

(** [gen_rdm_bytestream] of utils.c; [rnd seed i] is the [i]-th value of
    [rand] after [srand(seed)]. *)
Definition gen_rdm_bytestream (rnd : Z → Z → Z) (num_bytes seed : Z) : list Z :=
  (λ i, u8 (rnd seed (Z.of_nat i))) <$> seq 0 (Z.to_nat num_bytes).
Definition bytes_eqb (a b : list Z) : bool := bool_decide (a = b).

Section Testing.
Context `{Config} `{!Calloc} {W : Type} `{!ClientNet W}.
(** [BATCHED_MODE], the address of a buffer of a size, and what [malloc] or
    the stack leave in one. *)
Variables (BATCHED_MODE : bool) (buf_addr : Z → Z) (fresh : Z → list Z).
Abbreviation MT := (M (rmem W)).

(** [length] is an [int]. *)
Definition alloc_host (split i : Z) : MT unit :=
  n ← gets num_hosts;
  iterations ← gets rm_nblocks;
  let offset := split * i in
  let length := s32 (if i =? n - 1 then iterations - offset else split) in
  a ← on_client (get_ip6_target i);
  on_client (modify (λ c, put_ctarget (MkSock a (sin6_port (c_target c))) c));;
  temp ← on_client (allocate_bulk_rmem (u64 length));
  copy_addrs offset temp.
Definition alloc_one (i : Z) : MT unit :=
  n ← gets num_hosts;
  if n =? 0 then err DivByZero else
  a ← on_client (get_ip6_target (Z.rem i n));
  on_client (modify (λ c, put_ctarget (MkSock a (sin6_port (c_target c))) c));;
  a ← on_client allocate_rmem;
  astore rm_memList put_memList i a.
Definition alloc_test : MT unit :=
  iterations ← gets rm_nblocks;
  if BATCHED_MODE then
    n ← gets num_hosts;
    if n =? 0 then err DivByZero else for_range 0 n (alloc_host (iterations / n))
  else for_range 0 iterations alloc_one.

(** [remote_mem] is a copy of the address. *)
Definition write_one (payload : list Z) (i : Z) : MT unit :=
  remote_mem ← aload rm_memList i;
  if len payload <? (i + 1) * BLOCK_SIZE then err OutOfBounds else
  _ ← on_client (write_rmem remote_mem (slice payload (i * BLOCK_SIZE) BLOCK_SIZE) (u16 BLOCK_SIZE));
  mret tt.
Definition write_test (payload : list Z) : MT unit :=
  iterations ← gets rm_nblocks;
  if BATCHED_MODE then
    r_addr ← gets rm_memList;
    '(arr, _) ← on_client (write_bulk_rmem r_addr iterations payload (BLOCK_SIZE * iterations));
    modify (put_memList arr)
  else for_range 0 iterations (write_one payload).

Definition compare_block (test expected : list Z) (i : Z) : MT unit :=
  guard_or (bytes_eqb (slice test (i * BLOCK_SIZE) BLOCK_SIZE) (slice expected (i * BLOCK_SIZE) BLOCK_SIZE)) (Exit 1).
(** The iterations share the buffer [test]. *)
Fixpoint read_loop (n : nat) (i : Z) (expected test : list Z) : MT unit :=
  match n with
  | O => mret tt
  | S n =>
      remote_mem ← aload rm_memList i;
      '(_, test, _) ← on_client (read_rmem remote_mem test (u16 BLOCK_SIZE));
      guard_or (bytes_eqb (slice test 0 BLOCK_SIZE) (slice expected (i * BLOCK_SIZE) BLOCK_SIZE)) (Exit 1);;
      read_loop n (i + 1) expected test
  end.
Definition read_test (expected : list Z) : MT unit :=
  iterations ← gets rm_nblocks;
  if BATCHED_MODE then
    let size := BLOCK_SIZE * iterations in
    r_addr ← gets rm_memList;
    '(arr, r) ← on_client (read_bulk_rmem r_addr iterations (MkPool (buf_addr size) (fresh size)) size);
    modify (put_memList arr);;
    let test := match r with inl _ => fresh size | inr p => bytes p end in
    for_range 0 iterations (compare_block test expected)
  else read_loop (Z.to_nat iterations) 0 expected (fresh BLOCK_SIZE).

Definition free_one (i : Z) : MT unit :=
  remote_mem ← aload rm_memList i;
  _ ← on_client (free_rmem remote_mem);
  mret tt.
Definition free_test : MT unit :=
  iterations ← gets rm_nblocks;
  if BATCHED_MODE then
    n ← gets num_hosts;
    if n =? 0 then err DivByZero else for_range 0 n (free_host (iterations / n))
  else for_range 0 iterations free_one.

Definition launch_tests (rnd : Z → Z → Z) (garbage : ip6_memaddr) : MT unit :=
  num_iterations ← gets rm_nblocks;
  modify (put_memList (replicate (Z.to_nat num_iterations) garbage));;
  let payload1 := gen_rdm_bytestream rnd (BLOCK_SIZE * num_iterations) 1 in
  alloc_test;;
  write_test payload1;;
  read_test payload1;;
  let payload2 := gen_rdm_bytestream rnd (BLOCK_SIZE * num_iterations) 2 in
  write_test payload2;;
  read_test payload2;;
  free_test.
End Testing.
