(* ===== verification/TestingSpec.v ===== *)
(** * The test program passes

    On hosts that keep the contracts, [launch_tests] of testing.c ends without
    a wrong result in both of its modes, and gives all the memory back that
    it allocated. *)

From S2P Require Import Prelude Types Bytes Wire RawSend RawRecv Server ServerSpec Client Remote World RMem Bulk BulkWorld BulkClient TestBed Buse BuseSpec DiskSpec Testing.

(** ** Allocations

    [claims bl0 L bl]: the live blocks [bl] are the blocks [bl0] and the
    allocations [L], an address and a size each. *)
Record claims (bl0 : Z → gmap Z Z) (L : list (ip6_memaddr * Z)) (bl : Z → gmap Z Z) : Prop := {
  cl_mine a k : (a, k) ∈ L → bl (subid a) !! paddr a = Some k ∧ bl0 (subid a) !! paddr a = None;
  cl_rest s x : (∀ a k, (a, k) ∈ L → subid a = s → paddr a ≠ x) → bl s !! x = bl0 s !! x;
}.
(** No address twice. *)
Definition once (L : list (ip6_memaddr * Z)) : Prop :=
  ∀ p q a b k m, L !! p = Some (a, k) → L !! q = Some (b, m) → subid a = subid b → paddr a = paddr b → p = q.
Lemma once_cons a k L : once ((a, k) :: L) → once L ∧ ∀ b m, (b, m) ∈ L → subid b = subid a → paddr b ≠ paddr a.
Proof.
  intros Ho. split.
  - intros p q x y i j Ex Ey Hs Hp. specialize (Ho (S p) (S q) x y i j Ex Ey Hs Hp). lia.
  - intros b m [p Ep]%list_elem_of_lookup Hs Hp. by specialize (Ho (S p) 0%nat b a m k Ep eq_refl Hs Hp).
Qed.
Lemma claims_start bl : claims bl [] bl.
Proof. split; [|done]. by intros a k ?%elem_of_nil. Qed.
Lemma claims_end bl0 bl : claims bl0 [] bl → ∀ s, bl s = bl0 s.
Proof. intros [_ Hr] s. apply map_eq. intros x. apply Hr. by intros a k ?%elem_of_nil. Qed.
Lemma claims_free bl0 a k L bl bl' : once ((a, k) :: L) → claims bl0 ((a, k) :: L) bl →
  bl' (subid a) = delete (paddr a) (bl (subid a)) → (∀ j, j ≠ subid a → bl' j = bl j) → claims bl0 L bl'.
Proof.
  intros [_ Hne]%once_cons [Hm Hr] Hd Ho. split.
  - intros b m Hb. destruct (Hm b m) as [E1 E2]; [by right|]. split; [|done].
    destruct (decide (subid b = subid a)) as [Es|]; [|by rewrite Ho].
    rewrite Es in *. rewrite Hd, lookup_delete_ne; [done|]. intros E. by apply (Hne b m Hb).
  - intros s x Hx. destruct (decide (s = subid a)) as [->|Hs].
    + rewrite Hd. destruct (decide (x = paddr a)) as [->|Hxa].
      * rewrite lookup_delete_eq. destruct (Hm a k) as [_ ->]; [left|done].
      * rewrite lookup_delete_ne by done. apply Hr. intros b m [[= <- <-]|Hb]%elem_of_cons Hsb; [done|by eapply Hx].
    + rewrite Ho by done. apply Hr. intros b m [[= <- <-]|Hb]%elem_of_cons Hsb; [done|by eapply Hx].
Qed.
Lemma claims_alloc bl0 L bl bl' a k : claims bl0 L bl → bl (subid a) !! paddr a = None →
  bl' (subid a) = <[paddr a := k]> (bl (subid a)) → (∀ j, j ≠ subid a → bl' j = bl j) → claims bl0 (L ++ [(a, k)]) bl'.
Proof.
  intros [Hm Hr] Hf Hi Ho.
  assert (∀ b m, (b, m) ∈ L → subid b = subid a → paddr b ≠ paddr a) as Hne.
  { intros b m Hb Es Ep. destruct (Hm b m Hb) as [E _]. rewrite Es, Ep in E. congruence. }
  split.
  - intros b m [Hb|[= -> ->]%list_elem_of_singleton]%elem_of_app.
    + destruct (Hm b m Hb) as [E1 E2]. split; [|done]. destruct (decide (subid b = subid a)) as [Es|]; [|by rewrite Ho].
      rewrite Es in *. rewrite Hi, lookup_insert_ne; [done|]. intros E. by apply (Hne b m Hb).
    + split; [by rewrite Hi, lookup_insert_eq|]. rewrite <-Hr; [done|]. intros b m Hb Hs. by eapply Hne.
  - intros s x Hx. assert (∀ b m, (b, m) ∈ L → subid b = s → paddr b ≠ x) as Hx'.
    { intros b m Hb. apply (Hx b m). apply elem_of_app. by left. }
    destruct (decide (s = subid a)) as [->|Hs]; [|rewrite Ho by done; by apply Hr].
    rewrite Hi, lookup_insert_ne; [by apply Hr|]. apply (Hx a k); [|done]. apply elem_of_app. right. by apply list_elem_of_singleton.
Qed.
Lemma once_alloc bl0 L bl a k : once L → claims bl0 L bl → bl (subid a) !! paddr a = None → once (L ++ [(a, k)]).
Proof.
  intros Ho [Hm _] Hf.
  assert (∀ p b m, L !! p = Some (b, m) → subid b = subid a → paddr b = paddr a → False) as Hne.
  { intros p b m Eb Es Ep. destruct (Hm b m) as [E _]; [by eapply list_elem_of_lookup_2|]. rewrite Es, Ep in E. congruence. }
  intros p q x y i j Ex Ey Hs Hp.
  apply lookup_snoc_Some in Ex as [[Hp1 Ex]|[-> [= -> ->]]]; apply lookup_snoc_Some in Ey as [[Hq1 Ey]|[-> [= -> ->]]].
  - by eapply Ho.
  - exfalso. by eapply Hne.
  - exfalso. by eapply Hne.
  - done.
Qed.

(** The allocator can serve [k] more requests for a block. *)
Fixpoint room `{Config} `{!Calloc} (k : nat) (bl : gmap Z Z) : Prop :=
  match k with
  | O => True
  | S k => calloc_addr bl BLOCK_SIZE ≠ 0 ∧ room k (<[calloc_addr bl BLOCK_SIZE := BLOCK_SIZE]> bl)
  end.
Lemma room_less `{Config} `{!Calloc} k : ∀ bl, room (S k) bl → room k bl.
Proof. induction k as [|k IH]; intros bl [Ha Hr]; [done|]. split; [done|]. by apply IH. Qed.

Section Spec.
Context `{Config} `{!Calloc} {W : Type} `{!ClientNet W} `{!RemoteHosts W} `{!BulkHosts W}.
Implicit Types (r : rmem W) (L : list (ip6_memaddr * Z)).
Abbreviation BS := BLOCK_SIZE.
Abbreviation blocks_at r := (rh_blocks (c_net (rm_client r))).

(** ** Freeing *)

Section Free.
Variable bl0 : Z → gmap Z Z.

(** The allocations from the [h]-th on, the [j]-th at the index [step * j] of [r_addr]. *)
Record to_free (step : Z) L (h : Z) r : Prop := {
  tf_client : client_inv (rm_client r);
  tf_claims : claims bl0 (drop (Z.to_nat h) L) (blocks_at r);
  tf_at j a k : h <= Z.of_nat j → L !! j = Some (a, k) →
    ∃ b, idx (rm_memList r) (step * Z.of_nat j) = Some b ∧ subid b = subid a ∧ paddr b = paddr a ∧ addr_in (subid b) b;
}.
Lemma once_drop n L : once L → once (drop n L).
Proof. intros Ho p q a b k m. rewrite !lookup_drop. intros Ea Eb Hs Hp. specialize (Ho _ _ _ _ _ _ Ea Eb Hs Hp). lia. Qed.
Lemma wp_free_next step L h r Q :
  once L → 0 <= h < len L → to_free step L h r →
  (∀ b a' c', idx (rm_memList r) (step * h) = Some b → client_inv c' →
     claims bl0 (drop (Z.to_nat (h + 1)) L) (rh_blocks (c_net c')) → Q b a' c') →
  ∃ b, idx (rm_memList r) (step * h) = Some b ∧ wp (free_rmem b) (rm_client r) (Q b).
Proof.
  intros Ho Hh [Hc Hcl Hat] HQ. destruct (L !! Z.to_nat h) as [[a k]|] eqn:E.
  2: { apply lookup_ge_None in E. unfold len in Hh. lia. }
  destruct (Hat (Z.to_nat h) a k) as (b & Eb & Hs & Hp & Hin); [lia|done|]. rewrite Z2Nat.id in Eb by lia. exists b. split; [done|].
  rewrite (drop_S _ _ _ E) in Hcl. destruct (cl_mine _ _ _ Hcl a k) as [Hk _]; [left|].
  eapply (wp_free_rmem _ (subid b)); [done|done|by rewrite Hs, Hp|]. intros c' a' Hc' _ Hbl Hoth. apply HQ; [done|done|].
  replace (Z.to_nat (h + 1)) with (S (Z.to_nat h)) by lia.
  eapply claims_free; [|exact Hcl| |].
  - rewrite <-(drop_S _ _ _ E). by apply once_drop.
  - by rewrite <-Hs, <-Hp.
  - intros j Hj. rewrite <-Hs in Hj. by destruct (Hoth j Hj).
Qed.
(** Both loops of [free_test]. *)
Lemma wp_free_hosts step L r : 0 < step → once L → to_free step L 0 r →
  wp (for_range 0 (len L) (free_host step)) r (λ _ r', ∀ i, blocks_at r' i = bl0 i).
Proof.
  intros Hst Ho Ht. eapply (wp_for_range (to_free step L)); [apply len_nonneg|done| |].
  - intros h r1 Hh Ht1. unfold free_host. rewrite wp_bind.
    destruct (wp_free_next step L h r1 (λ b a' c', idx (rm_memList r1) (step * h) = Some b ∧ client_inv c' ∧
      claims bl0 (drop (Z.to_nat (h + 1)) L) (rh_blocks (c_net c')))) as (b & Eb & Hw); [done|done|done|done|].
    eapply wp_aload; [exact Eb|]. rewrite wp_bind. unfold on_client. rewrite wp_zoom.
    eapply wp_mono; [exact Hw|]. intros a' c' (_ & Hc' & Hcl'). apply wp_astore; [by eapply idx_Some_range|].
    split; [done|done|]. intros j a k Hj E. destruct (tf_at _ _ _ _ Ht1 j a k) as (x & Ex & ?); [lia|done|]. exists x.
    split; [|done]. simpl. rewrite idx_upd, decide_False by (nia || by eapply idx_Some_range). done.
  - intros r1 [_ Hcl _]. rewrite drop_ge in Hcl by (unfold len; lia). by apply claims_end.
Qed.
Lemma wp_free_ones L r : once L → to_free 1 L 0 r →
  wp (for_range 0 (len L) free_one) r (λ _ r', ∀ i, blocks_at r' i = bl0 i).
Proof.
  intros Ho Ht. eapply (wp_for_range (to_free 1 L)); [apply len_nonneg|done| |].
  - intros h r1 Hh Ht1. unfold free_one. rewrite wp_bind.
    destruct (wp_free_next 1 L h r1 (λ b a' c', client_inv c' ∧
      claims bl0 (drop (Z.to_nat (h + 1)) L) (rh_blocks (c_net c')))) as (b & Eb & Hw); [done|done|done|done|].
    rewrite Z.mul_1_l in Eb. eapply wp_aload; [exact Eb|]. rewrite wp_bind. unfold on_client. rewrite wp_zoom.
    eapply wp_mono; [exact Hw|]. intros a' c' (Hc' & Hcl'). rewrite wp_ret. split; [done|done|].
    intros j a k Hj. apply (tf_at _ _ _ _ Ht1). lia.
  - intros r1 [_ Hcl _]. rewrite drop_ge in Hcl by (unfold len; lia). by apply claims_end.
Qed.
End Free.

(** ** Writing and reading back *)

Section Blocks.
Hypothesis Hbs : BLOCK_SIZE <= MAX_PAYLOAD.
Variable N : Z.
Hypothesis HN : 0 < N.
Abbreviation view_at r := (view_of (c_net (rm_client r))).

(** The tests leave the addresses and the allocations as they are. *)
Record kept r r' : Prop := {
  kp_ok : disk_ok N r';
  kp_list : alike (rm_memList r) (rm_memList r');
  kp_blocks i : blocks_at r' i = blocks_at r i;
  kp_hosts : num_hosts r' = num_hosts r;
}.
Lemma kept_refl r : disk_ok N r → kept r r.
Proof. intros Hr. split; [done|apply alike_refl|done|done]. Qed.
Lemma alike_trans (l1 l2 l3 : list ip6_memaddr) : alike l1 l2 → alike l2 l3 → alike l1 l3.
Proof.
  intros [L1 I1] [L2 I2]. split; [congruence|]. intros i c Ec. destruct (I2 i c Ec) as (b & Eb & S2 & P2 & O2).
  destruct (I1 i b Eb) as (a & Ea & S1 & P1 & O1). exists a. split_and!; [done|congruence|congruence|auto].
Qed.
Lemma kept_trans r1 r2 r3 : kept r1 r2 → kept r2 r3 → kept r1 r3.
Proof.
  intros [_ L1 B1 H1] [O2 L2 B2 H2]. split; [done|by eapply alike_trans| |congruence]. intros i. by rewrite B2.
Qed.
Lemma put_client_list c r : put_client c r = put_memList (rm_memList r) (put_client c r).
Proof. by destruct r. Qed.

Lemma wp_write_one payload i r Q :
  disk_ok N r → 0 <= i < N → len payload = BS * N → Forall byte_ok payload →
  (∀ r', kept r r' → disk_bytes r' = splice (disk_bytes r) (BS * i) (slice payload (BS * i) BS) → Q tt r') →
  wp (write_one payload i) r Q.
Proof.
  intros Hr Hi Hlen Hb HQ. pose proof BLOCK_SIZE_pos. destruct (block_u16 Hbs) as [Hu _].
  destruct (disk_parts N r i 1 Hr) as (l1 & l2 & l3 & El & L1 & L2 & Hat); [lia|lia|lia|].
  destruct l2 as [|a [|b l2]]; [done| |rewrite !len_cons in L2; pose proof (len_nonneg l2); lia].
  assert (idx (rm_memList r) i = Some a) as Ea.
  { apply addrs_at_cons in Hat as [Ea _]. rewrite idx_drop in Ea by lia. by rewrite Z.add_0_r in Ea. }
  unfold write_one. rewrite wp_bind. eapply wp_aload; [exact Ea|]. rewrite (proj2 (Z.ltb_ge _ _)) by nia.
  rewrite wp_bind, Hu. unfold on_client. rewrite wp_zoom. replace (i * BS) with (BS * i) by lia.
  set (d := slice payload (BS * i) BS). assert (len d = BS) as Hd by (apply len_slice; nia).
  pose proof (dk_ok _ _ Hr) as Hok.
  eapply (wp_write_rmem _ (subid a)); [apply Hok|by eapply rk_addr|done|lia|by apply slice_bytes|by eapply rk_mapped|].
  intros c' Hc' Hm Hbl Ho Hh Hn. rewrite wp_ret.
  assert (stored (rm_client r) c' (chunked 0 [a] d BS)) as Hst by by apply stored_one.
  assert (kept r (put_client c' r)) as Hk.
  { split; [|apply alike_refl| |done].
    - rewrite put_client_list. apply disk_ok_next; [done|done| |apply alike_refl].
      intros j x Hx. rewrite (sd_mem _ _ _ Hst). by apply stores_mapped.
    - intros j. apply (sd_blocks _ _ _ Hst). }
  apply HQ; [done|]. rewrite <-L1 at 1. fold d.
  apply (stored_disk Hbs N r c' l1 [a] l3 d); [done|done|rewrite Hd; change (len [a]) with 1; lia|done].
Qed.
Lemma wp_write_test (mode : bool) payload r :
  disk_ok N r → len payload = BS * N → Forall byte_ok payload →
  wp (write_test mode payload) r (λ _ r', kept r r' ∧ disk_bytes r' = payload).
Proof.
  intros Hr Hlen Hb. pose proof BLOCK_SIZE_pos. unfold write_test. rewrite wp_bind, wp_gets, (dk_nb _ _ Hr).
  pose proof (dk_len N r Hr) as Hl. destruct mode.
  - rewrite wp_bind, wp_gets, wp_bind. unfold on_client. rewrite wp_zoom. rewrite <-Hl.
    apply (wp_write_bulk_rmem Hbs _ _ (rm_memList r)); [apply (dk_ok _ _ Hr)|apply addrs_at_self|lia|by apply (disk_usable N)|
      by rewrite Hl|done|]. intros arr c' Hal Hst. rewrite wp_modify. split_and!.
    + split; [|done|apply (sd_blocks _ _ _ Hst)|done]. apply disk_ok_next; [done|apply Hst| |done].
      intros j x Hx. rewrite (sd_mem _ _ _ Hst). by apply stores_mapped.
    + unfold disk_bytes. cbn [rm_memList rm_client put_memList put_client].
      rewrite <-(stored_read (rm_client r) c' (rm_memList r) payload); [|by apply (disk_apart N)|by rewrite Hl|done].
      apply read_data_same; [lia|by apply alike_rows|done].
  - eapply (wp_for_range (λ i r', kept r r' ∧
      slice (disk_bytes r') 0 (BS * i) = slice payload 0 (BS * i))); [lia| | |].
    + split_and!; [by apply kept_refl|]. by rewrite Z.mul_0_r, !slice_0.
    + intros i r1 Hi (Hk & Hs). apply wp_write_one; [apply Hk|lia|done|done|]. intros r2 Hk2 Hd2.
      split_and!; [by eapply kept_trans|]. pose proof (len_disk Hbs N r1 (kp_ok _ _ Hk)) as Hl1.
      assert (len (slice payload (BS * i) BS) = BS) as Hls by (apply len_slice; nia).
      replace (BS * (i + 1)) with (BS * i + BS) by lia. rewrite !slice_split by nia. rewrite !Z.add_0_l, Hd2. f_equal.
      * rewrite slice_splice_ne by (rewrite ?Hls; nia). done.
      * pose proof (slice_splice_eq (disk_bytes r1) (BS * i) (slice payload (BS * i) BS)) as E. rewrite Hls in E. apply E; nia.
    + intros r1 (Hk & Hs). split_and!; [done|].
      pose proof (len_disk Hbs N r1 (kp_ok _ _ Hk)) as Hl1. unfold slice in Hs. rewrite !drop_0, !take_ge in Hs; [done|unfold len in *; lia..].
Qed.

Variables (buf_addr : Z → Z) (fresh : Z → list Z).
Hypothesis Hbuf : ∀ k, 0 <= k < 2 ^ 32 → 0 <= buf_addr k ∧ buf_addr k + k < 2 ^ 64.
Hypothesis Hfresh : ∀ k, 0 <= k → len (fresh k) = k.
Hypothesis HN32 : BS * N < 2 ^ 32.

(** A read leaves everything; an address and the memories. *)
Lemma kept_read r c' l' : disk_ok N r → client_inv c' → (∀ i, view_of (c_net c') i = view_at r i) →
  alike (rm_memList r) l' →
  kept r (put_memList l' (put_client c' r)) ∧ disk_bytes (put_memList l' (put_client c' r)) = disk_bytes r.
Proof.
  intros Hr Hc Hv Hal. pose proof BLOCK_SIZE_pos. split; [split|].
  - apply disk_ok_next; [done|done| |done]. intros i x. specialize (Hv i). injection Hv as -> _. done.
  - done.
  - intros i. specialize (Hv i). by injection Hv.
  - done.
  - unfold disk_bytes. apply read_data_same; [lia|by apply alike_rows|]. intros a x _ _. cbn [rm_client put_memList put_client]. by rewrite Hv.
Qed.
Lemma wp_read_blocks n : ∀ i test r, disk_ok N r → 0 <= i → i + Z.of_nat n = N → len test = BS →
  wp (Testing.read_loop n i (disk_bytes r) test) r (λ _ r', kept r r' ∧ disk_bytes r' = disk_bytes r).
Proof.
  pose proof BLOCK_SIZE_pos. destruct (block_u16 Hbs) as [Hu Hmax]. pose proof (u16_range BS).
  induction n as [|n IH]; intros i test r Hr Hi Hn Ht; cbn [Testing.read_loop].
  { rewrite wp_ret. split_and!; [by apply kept_refl|done]. }
  destruct (disk_parts N r i 1 Hr) as (l1 & l2 & l3 & El & L1 & L2 & Hat); [lia|lia|lia|].
  destruct l2 as [|a [|b l2]]; [done| |rewrite !len_cons in L2; pose proof (len_nonneg l2); lia].
  assert (idx (rm_memList r) i = Some a) as Ea.
  { apply addrs_at_cons in Hat as [Ea _]. rewrite idx_drop in Ea by lia. by rewrite Z.add_0_r in Ea. }
  rewrite wp_bind. eapply wp_aload; [exact Ea|]. rewrite wp_bind, Hu. unfold on_client. rewrite wp_zoom.
  pose proof (dk_ok _ _ Hr) as Hok.
  eapply (wp_read_rmem _ (subid a)); [apply Hok|by eapply rk_addr|lia|lia|lia|by eapply rk_mapped|].
  intros c' l Hc' Hm Hbl Ho _ _ Hll Htk _. rewrite take_ge in Htk by (unfold len in *; lia).
  assert (slice (disk_bytes r) (i * BS) BS = l) as Hsl.
  { destruct (slice_disk Hbs r l1 [a] l3 El) as [_ Es]. rewrite L1 in Es. change (len [a]) with 1 in Es.
    rewrite Z.mul_1_r in Es. rewrite (Z.mul_comm i), Es, Htk. unfold read_data. cbn. by rewrite app_nil_r. }
  rewrite wp_bind. apply wp_guard_or.
  { apply bool_decide_eq_true. rewrite Hsl. unfold slice. rewrite drop_0. apply take_ge. unfold len in *. lia. }
  assert (∀ j, view_of (c_net c') j = view_at r j) as Hv.
  { intros j. unfold view_of. destruct (decide (j = subid a)) as [->|Hne]; [|by destruct (Ho j Hne) as [-> ->]].
    rewrite Hbl. f_equal. apply map_eq, Hm. }
  destruct (kept_read r c' _ Hr Hc' Hv (alike_refl _)) as [Hk Hd]. rewrite <-put_client_list in Hk, Hd. rewrite <-Hd.
  eapply wp_mono; [apply IH; [apply Hk|lia|lia|lia]|]. intros [] r' (Hk' & Hd'). split_and!; [by eapply kept_trans|congruence].
Qed.
Lemma wp_read_test (mode : bool) r : disk_ok N r →
  wp (read_test mode buf_addr fresh (disk_bytes r)) r (λ _ r', kept r r' ∧ disk_bytes r' = disk_bytes r).
Proof.
  intros Hr. pose proof BLOCK_SIZE_pos. unfold read_test. rewrite wp_bind, wp_gets. pose proof (dk_len N r Hr) as Hl.
  rewrite (dk_nb _ _ Hr). destruct mode.
  2: { apply wp_read_blocks; [done|lia|lia|apply Hfresh; lia]. }
  destruct (Hbuf (BS * N)) as [Hb1 Hb2]; [nia|]. assert (0 <= BS * N) as Hnn by nia.
  rewrite wp_bind, wp_gets, wp_bind. unfold on_client. rewrite wp_zoom. rewrite <-Hl.
  apply (wp_read_bulk_rmem Hbs _ _ (rm_memList r)); cbn [base bytes]; rewrite ?Hl, ?Hfresh by done;
    [apply (dk_ok _ _ Hr)|apply addrs_at_self|lia|by apply (disk_usable N)|lia|lia|lia|lia|].
  intros arr c' Hal Hc' Hv _ _. rewrite wp_bind, wp_modify. fold (disk_bytes r).
  destruct (kept_read r c' arr Hr Hc' Hv Hal) as [Hk Hd].
  eapply (wp_for_range (λ _ r', r' = put_memList arr (put_client c' r))); [lia|done| |].
  - intros i r1 Hi ->. unfold compare_block. apply wp_guard_or; [|done]. by apply bool_decide_eq_true.
  - intros r1 ->. done.
Qed.
End Blocks.

(** ** Allocating *)

Lemma claims_ext bl0 L bl bl' : (∀ i, bl' i = bl i) → claims bl0 L bl → claims bl0 L bl'.
Proof. intros He [Hm Hr]. split; [intros a k; rewrite He; apply Hm|intros s x; rewrite He; apply Hr]. Qed.
Lemma to_free_kept N bl0 step L r r' : to_free bl0 step L 0 r → kept N r r' → to_free bl0 step L 0 r'.
Proof.
  intros [Hc Hcl Hat] [Hok Hal Hbl Hh]. split; [apply Hok|by eapply claims_ext|].
  intros j a k Hj E. destruct (Hat j a k Hj E) as (b & Eb & Sb & Pb & _).
  assert (0 <= step * Z.of_nat j < len (rm_memList r')) as [b' Eb']%idx_is_Some.
  { rewrite (al_len _ _ Hal). by eapply idx_Some_range. }
  exists b'. destruct (al_idx _ _ Hal _ _ Eb') as (b0 & E0 & S0 & P0 & _). assert (b0 = b) as -> by congruence.
  split_and!; [done|congruence|congruence|]. by eapply (rk_addr _ (dk_ok _ _ Hok)).
Qed.

Section Alloc.
Variables (N n : Z) (hosts : list ip6_memaddr) (bl0 : Z → gmap Z Z).
Hypothesis Hn : 0 < n <= N.
Hypothesis Hn256 : n <= 256.
Hypothesis HN31 : N < 2 ^ 31.
Hypothesis Hhosts : ∀ i, 0 <= i < n →
  ∃ a, idx hosts i = Some a ∧ addr_ok a ∧ is_Some (rh_server (subid a)).
Hypothesis Hdistinct : ∀ i j a b, idx hosts i = Some a → idx hosts j = Some b → subid a = subid b → i = j.
Hypothesis Hids : ∀ i a, idx hosts i = Some a → subid a < USHRT_MAX.

Record ready r : Prop := {
  rd_client : client_inv (rm_client r);
  rd_hosts : hostList (rm_client r) = hosts;
  rd_blocks i : blocks_at r i = bl0 i;
  rd_bs : rm_block_size r = BS;
  rd_nb : rm_nblocks r = N;
  rd_n : num_hosts r = n;
  rd_len : len (rm_memList r) = N;
}.

(** *** In bulk, with blocks of a byte *)

Section Batched.
Hypothesis Hone : BLOCK_SIZE = 1.
Hypothesis Hmemory : ∀ h b m, idx hosts h = Some b → 0 < m <= N → calloc_addr (bl0 (subid b)) m ≠ 0.
Abbreviation split := (N / n).

Lemma alloc_host_is_fill_host j r : 0 <= j < n → num_hosts r = n → rm_nblocks r = N → alloc_host split j r = fill_host split j r.
Proof.
  intros Hj En EN. unfold alloc_host, fill_host, mbind, mret, M_bind, gets. rewrite En, EN.
  set (m := if j =? n - 1 then _ else _).
  assert (0 <= m < 2 ^ 31) as Hm.
  { unfold m. pose proof (Z.mul_div_le N n ltac:(lia)). assert (0 <= split) by (apply Z.div_pos; lia).
    assert (split <= N) by (apply Z.div_le_upper_bound; nia). destruct (_ =? _); nia. }
  assert (u64 (s32 m) = m) as ->; [|done]. unfold s32. rewrite u32_small by lia. rewrite (proj2 (Z.ltb_lt _ _)) by lia. apply u64_small. lia.
Qed.
Definition host_claims r : list (ip6_memaddr * Z) :=
  (λ h, (default (Memaddr 0 0 0 0) (idx (rm_memList r) (split * Z.of_nat h)), upto N n (Z.of_nat h + 1) - split * Z.of_nat h)) <$> seq 0 (Z.to_nat n).
Lemma host_claims_lookup r h a k : filled N n hosts bl0 N n r → host_claims r !! h = Some (a, k) →
  ∃ b, 0 <= Z.of_nat h < n ∧ idx hosts (Z.of_nat h) = Some b ∧ idx (rm_memList r) (split * Z.of_nat h) = Some a ∧
    subid a = subid b ∧ bl0 (subid b) !! paddr a = None ∧ blocks_at r (subid b) = <[paddr a := k]> (bl0 (subid b)).
Proof.
  intros Hf E. unfold host_claims in E. apply list_lookup_fmap_Some in E as (h' & Ep & Eh).
  apply lookup_seq in Eh as [-> Hh]. simpl in Ep. assert (0 <= Z.of_nat h < n) as Hr by lia.
  destruct (Hhosts _ Hr) as (b & Eb & _). destruct (fl_owned _ _ _ _ _ _ _ Hf _ b Hr Eb) as (a' & Ea & ?).
  rewrite Ea in Ep. injection Ep as -> ->. by exists b.
Qed.
Lemma filled_claims r : filled N n hosts bl0 N n r →
  len (host_claims r) = n ∧ once (host_claims r) ∧ to_free bl0 split (host_claims r) 0 r.
Proof.
  intros Hf. split; [unfold host_claims, len; rewrite length_fmap, length_seq; lia|].
  destruct (filled_store Hone _ _ _ _ _ Hf) as (Hok & _).
  split.
  - intros p q a b k m Ea Eb Hs _. apply (host_claims_lookup r _ _ _ Hf) in Ea as (x & _ & Ex & _ & Sx & _).
    apply (host_claims_lookup r _ _ _ Hf) in Eb as (y & _ & Ey & _ & Sy & _).
    assert (Z.of_nat p = Z.of_nat q); [|lia]. eapply Hdistinct; [exact Ex|exact Ey|congruence].
  - split; [apply Hf|rewrite drop_0; split|].
    + intros a k [h E]%list_elem_of_lookup. apply (host_claims_lookup r _ _ _ Hf) in E as (b & _ & _ & _ & -> & Hfr & ->).
      by rewrite lookup_insert_eq.
    + intros s x Hx. destruct (decide (Exists (λ h, subid <$> idx hosts (Z.of_nat h) = Some s) (seq 0 (Z.to_nat n)))) as [Hex|Hno].
      * apply Exists_exists in Hex as (h & [_ Hh]%elem_of_seq & Es). destruct (host_claims r !! h) as [[a k]|] eqn:E.
        2: { apply lookup_ge_None in E. unfold host_claims in E. rewrite length_fmap, length_seq in E. lia. }
        pose proof (list_elem_of_lookup_2 _ _ _ E) as Hin. apply (host_claims_lookup r _ _ _ Hf) in E as (b & _ & Eb & _ & Sa & Hfr & Hbl).
        rewrite Eb in Es. injection Es as <-. rewrite Hbl. apply lookup_insert_ne. by eapply Hx.
      * rewrite (fl_blocks _ _ _ _ _ _ _ Hf); [done|]. intros h b Hh Eb Es. apply Hno, Exists_exists. exists (Z.to_nat h).
        rewrite Z2Nat.id, Eb by lia. split; [apply elem_of_seq; lia|]. simpl. by rewrite Es.
    + intros j a k _ E. apply (host_claims_lookup r _ _ _ Hf) in E as (b & _ & _ & Ea & _). exists a. split_and!; try done.
      by eapply rk_addr.
Qed.
Lemma wp_alloc_batched r : ready r →
  wp (alloc_test true) r (λ _ r', disk_ok N r' ∧ num_hosts r' = n ∧ ∃ L, len L = n ∧ once L ∧ to_free bl0 split L 0 r').
Proof.
  intros [Hc Hh Hb Hs Hnb Hnh Hl]. rewrite Hone in Hs. unfold alloc_test. rewrite wp_bind, wp_gets, wp_bind, wp_gets, Hnb, Hnh.
  rewrite (proj2 (Z.eqb_neq n 0)) by lia.
  eapply (wp_for_range (λ j r, filled N n hosts bl0 (upto N n j) j r)); [lia|by apply filled_start; try lia| |].
  - intros j r' Hj Hf. unfold wp. rewrite alloc_host_is_fill_host; [|done|apply Hf|apply Hf].
    apply wp_fill_host; try done; lia.
  - intros r' Hf. unfold upto in Hf. rewrite Z.eqb_refl in Hf.
    destruct (filled_store Hone _ _ _ _ _ Hf) as (Hok & Hnb' & _ & Hsub). split_and!; [|apply Hf|].
    + split; [done|done|]. intros p a Ea. destruct (Hsub p a Ea) as (h & b & Eb & ->). by eapply Hids.
    + exists (host_claims r'). by apply filled_claims.
Qed.
End Batched.

(** *** Block by block *)

Section Single.
Hypothesis Hroom : ∀ i a, idx hosts i = Some a → room (Z.to_nat N) (bl0 (subid a)).

Definition ones (k : Z) r : list (ip6_memaddr * Z) := (λ a, (a, BS)) <$> take (Z.to_nat k) (rm_memList r).
Record grown (k : Z) r : Prop := {
  gr_client : client_inv (rm_client r);
  gr_hosts : hostList (rm_client r) = hosts;
  gr_bs : rm_block_size r = BS;
  gr_nb : rm_nblocks r = N;
  gr_n : num_hosts r = n;
  gr_len : len (rm_memList r) = N;
  gr_claims : claims bl0 (ones k r) (blocks_at r);
  gr_once : once (ones k r);
  gr_addr p a : 0 <= p < k → idx (rm_memList r) p = Some a → addr_in (subid a) a ∧ subid a < USHRT_MAX;
  gr_room i a : idx hosts i = Some a → room (Z.to_nat (N - k)) (blocks_at r (subid a));
}.
Lemma ones_next k r c' a : 0 <= k < len (rm_memList r) →
  ones (k + 1) (put_memList (upd (rm_memList r) k a) (put_client c' r)) = ones k r ++ [(a, BS)].
Proof.
  intros Hk. unfold ones. cbn [rm_memList put_memList put_client]. replace (Z.to_nat (k + 1)) with (S (Z.to_nat k)) by lia.
  unfold upd. rewrite (take_S_r _ _ a).
  - by rewrite take_insert_ge, fmap_app by lia.
  - apply list_lookup_insert_eq. unfold len in Hk. lia.
Qed.
Lemma wp_alloc_one k r : 0 <= k < N → grown k r → wp (alloc_one k) r (λ _, grown (k + 1)).
Proof.
  intros Hk [Hc Hh Hbs Hnb Hnn Hl Hcl Ho Ha Hrm]. pose proof (Z.mod_pos_bound k n ltac:(lia)) as Hmod.
  pose proof BLOCK_SIZE_pos as HBS. destruct (Hhosts (k mod n) Hmod) as (ha & Eha & Hha & [srv Hsrv]).
  unfold alloc_one. rewrite wp_bind, wp_gets, Hnn. rewrite (proj2 (Z.eqb_neq n 0)) by lia.
  rewrite wp_bind. unfold on_client at 1. rewrite wp_zoom. unfold get_ip6_target.
  rewrite Z.rem_mod_nonneg, u8_small by lia. eapply wp_aload; [by rewrite Hh|].
  rewrite wp_bind. unfold on_client at 1. rewrite wp_zoom, wp_modify.
  rewrite wp_bind. unfold on_client. rewrite wp_zoom. cbn [rm_client put_client].
  set (c1 := put_ctarget _ _). assert (client_inv c1) as Hc1 by (by destruct Hc).
  eapply (wp_allocate_rmem c1 (subid ha) srv); try done. unfold allocated. change (c_net c1) with (c_net (rm_client r)).
  pose proof (Hrm _ _ Eha) as Hr1. replace (Z.to_nat (N - k)) with (S (Z.to_nat (N - (k + 1)))) in * by lia.
  destruct Hr1 as [HA Hr1]. set (A := calloc_addr _ _) in *.
  intros c' ret Hc' Hmem Hbl Hoth _ Hh' _ Hsub Hpa Hret. rewrite decide_False in Hbl by done.
  destruct (calloc_addr_ok (blocks_at r (subid ha)) BS HBS) as [?|(HA0 & HAt & HAp)]; [done|]. fold A in HA0, HAt, HAp.
  apply wp_astore; [simpl; lia|]. change (put_client c' (put_client c1 r)) with (put_client c' r).
  change (rm_memList (put_client c' r)) with (rm_memList r).
  assert (blocks_at r (subid ret) !! paddr ret = None) as Hfr.
  { rewrite Hsub, Hpa. eapply fresh_block; [|exact HBS|exact HAp]. by eapply (rh_wf _ _ (ci_net _ Hc)). }
  assert (rh_blocks (c_net c') (subid ret) = <[paddr ret := BS]> (blocks_at r (subid ret))) as Hbl' by (by rewrite Hsub, Hpa).
  assert (∀ j, j ≠ subid ret → rh_blocks (c_net c') j = blocks_at r j) as Hoth' by (intros j; rewrite Hsub; intros Hj; by apply Hoth).
  pose proof (ones_next k r c' ret ltac:(lia)) as Hon. set (r' := put_memList _ _) in *.
  change (rh_blocks (c_net c')) with (blocks_at r') in *.
  split; try done; rewrite ?Hon.
  - simpl. by rewrite Hh'.
  - simpl. by rewrite len_upd.
  - by eapply claims_alloc.
  - by eapply once_alloc.
  - intros p a Hp. unfold r'. simpl. rewrite idx_upd by lia. destruct (decide (k = p)) as [E|E]; [|intros Ea; apply (Ha p a); [lia|done]].
    intros [= <-]. split; [|rewrite Hsub; by eapply Hids]. split_and!; [done|done|]. rewrite Hsub. by eexists.
  - intros i a Ei. destruct (decide (subid a = subid ha)) as [->|Hne].
    + by rewrite Hbl.
    + rewrite Hoth' by (by rewrite Hsub). apply room_less. by eapply Hrm.
Qed.
(** A list of blocks that are claimed is a store. *)
Lemma grown_disk r : grown N r → disk_ok N r ∧ len (ones N r) = N ∧ to_free bl0 1 (ones N r) 0 r.
Proof.
  intros [Hc Hh Hbs Hnb Hnn Hl Hcl Ho Ha _]. pose proof BLOCK_SIZE_pos as HBS.
  assert (∀ p a, idx (rm_memList r) p = Some a → ones N r !! Z.to_nat p = Some (a, BS) ∧ addr_in (subid a) a ∧ subid a < USHRT_MAX) as Hat.
  { intros p a E. pose proof (idx_Some_range _ _ _ E) as Hp. split; [|apply (Ha p); [lia|done]].
    unfold ones. rewrite list_lookup_fmap, take_ge by (unfold len in *; lia). unfold idx in E.
    rewrite (proj2 (Z.leb_le 0 p)) in E by lia. by rewrite E. }
  assert (∀ p a, idx (rm_memList r) p = Some a → blocks_at r (subid a) !! paddr a = Some BS ∧
    mem_wf (rh_mem (c_net (rm_client r)) (subid a)) (blocks_at r (subid a))) as Hlive.
  { intros p a E. destruct (Hat p a E) as (E1 & (_ & _ & Hs) & _). split; [|by apply (rh_wf _ _ (ci_net _ Hc))].
    apply list_elem_of_lookup_2 in E1. by destruct (cl_mine _ _ _ Hcl a BS E1). }
  split_and!.
  - split; [split|done|intros p a E; by apply Hat with p]; try done.
    + by rewrite Hl, Hnb.
    + intros p a E. by apply Hat with p.
    + intros p a E x Hx. destruct (Hlive p a E) as [Hb Hwf]. apply (mw_dom _ _ Hwf). by exists (paddr a), BS.
    + intros p q a b Ea Eb Hne Hs. destruct (Hlive p a Ea) as [Hb1 Hwf], (Hlive q b Eb) as [Hb2 _].
      rewrite <-Hs in Hb2. apply (mw_apart _ _ Hwf); [done|done|]. intros Hp. apply Hne.
      destruct (Hat p a Ea) as [E1 _], (Hat q b Eb) as [E2 _]. specialize (Ho _ _ _ _ _ _ E1 E2 Hs Hp).
      apply idx_Some_range in Ea, Eb. lia.
  - unfold ones, len. rewrite length_fmap, length_take. unfold len in Hl. lia.
  - split; [done|by rewrite drop_0|]. intros j a k _ E. unfold ones in E. apply list_lookup_fmap_Some in E as (a' & [= -> ->] & E).
    apply lookup_take_Some in E as [E _]. exists a'. assert (idx (rm_memList r) (1 * Z.of_nat j) = Some a') as Ei.
    { unfold idx. rewrite (proj2 (Z.leb_le 0 _)) by lia. by rewrite Z.mul_1_l, Nat2Z.id. }
    split_and!; try done. by apply Hat with (1 * Z.of_nat j).
Qed.
Lemma wp_alloc_single r : ready r →
  wp (alloc_test false) r (λ _ r', disk_ok N r' ∧ num_hosts r' = n ∧ ∃ L, len L = N ∧ once L ∧ to_free bl0 1 L 0 r').
Proof.
  intros [Hc Hh Hb Hs Hnb Hnh Hl]. unfold alloc_test. rewrite wp_bind, wp_gets, Hnb.
  eapply (wp_for_range grown); [lia| | |].
  - split; try done.
    + eapply claims_ext; [|apply claims_start]. done.
    + intros. lia.
    + intros i a E. rewrite Z.sub_0_r, Hb. by eapply Hroom.
  - intros k r1 Hk. by apply wp_alloc_one.
  - intros r1 Hg. destruct (grown_disk r1 Hg) as (Hd & HL & Hf). split_and!; [done|apply Hg|]. exists (ones N r1).
    split_and!; [done|apply Hg|done].
Qed.
End Single.
End Alloc.

(** ** The program *)

Lemma rdm_bytes rnd k seed : 0 <= k → len (gen_rdm_bytestream rnd k seed) = k ∧ Forall byte_ok (gen_rdm_bytestream rnd k seed).
Proof.
  intros Hk. unfold gen_rdm_bytestream. split; [unfold len; rewrite length_fmap, length_seq; lia|].
  apply Forall_fmap, Forall_true. intros i. apply u8_range.
Qed.
Lemma wp_checked_tests mode buf_addr fresh N r (P : rmem W → Prop) payload :
  BLOCK_SIZE <= MAX_PAYLOAD → 0 < N → BS * N < 2 ^ 32 →
  (∀ k, 0 <= k < 2 ^ 32 → 0 <= buf_addr k ∧ buf_addr k + k < 2 ^ 64) → (∀ k, 0 <= k → len (fresh k) = k) →
  disk_ok N r → len payload = BS * N → Forall byte_ok payload → (∀ r', kept N r r' → P r') →
  wp (write_test mode payload;; read_test mode buf_addr fresh payload) r (λ _, P).
Proof.
  intros Hbs HN H32 Hbuf Hfresh Hr Hl Hb HP. rewrite wp_bind.
  eapply wp_mono; [by apply (wp_write_test Hbs N HN)|]. intros [] r1 [Hk1 Hd1]. rewrite <-Hd1.
  eapply wp_mono; [apply (wp_read_test Hbs N HN buf_addr fresh Hbuf Hfresh H32); apply Hk1|]. intros [] r2 [Hk2 _].
  apply HP. by eapply kept_trans.
Qed.

(** C18: testing.c passes: on hosts that keep the contracts and have room, the
    test program ends without a wrong result, block by block (any block size
    that fits a packet) and in bulk (blocks of a byte), for any random data
    and any number of iterations; and it leaves no allocation behind: every
    server has the live blocks of before. *)
Theorem launch_tests_pass (mode : bool) buf_addr fresh rnd garbage N n (c : client W) :
  BLOCK_SIZE <= MAX_PAYLOAD → (mode = true → BLOCK_SIZE = 1) → BLOCK_SIZE * N < 2 ^ 32 → 0 < n <= N → n <= 256 → N < 2 ^ 31 →
  (∀ k, 0 <= k < 2 ^ 32 → 0 <= buf_addr k ∧ buf_addr k + k < 2 ^ 64) → (∀ k, 0 <= k → len (fresh k) = k) →
  client_inv c →
  (∀ i, 0 <= i < n → ∃ a, idx (hostList c) i = Some a ∧ addr_ok a ∧ is_Some (rh_server (subid a))) →
  (∀ i a, idx (hostList c) i = Some a → subid a < USHRT_MAX) →
  (∀ i j a b, idx (hostList c) i = Some a → idx (hostList c) j = Some b → subid a = subid b → i = j) →
  (∀ i a, idx (hostList c) i = Some a → if mode
     then ∀ m, 0 < m <= N → calloc_addr (rh_blocks (c_net c) (subid a)) m ≠ 0
     else room (Z.to_nat N) (rh_blocks (c_net c) (subid a))) →
  ∃ r', launch_tests mode buf_addr fresh rnd garbage (MkRmem [] BLOCK_SIZE N n c) = Ok tt r' ∧
    ∀ i, rh_blocks (c_net (rm_client r')) i = rh_blocks (c_net c) i.
Proof.
  intros Hbs Hmode H32 Hn H256 HN Hbuf Hfresh Hc Hhosts Hids Hdist Hroom.
  assert (0 < N) as HN0 by lia. pose proof BLOCK_SIZE_pos. set (bl0 := rh_blocks (c_net c)).
  assert (0 <= BS * N) as Hnn by nia. pose proof (λ seed, rdm_bytes rnd (BS * N) seed Hnn) as Hrnd.
  assert (wp (launch_tests mode buf_addr fresh rnd garbage) (MkRmem [] BLOCK_SIZE N n c) (λ _ r', ∀ i, blocks_at r' i = bl0 i)) as Hw.
  2: { apply wp_ok in Hw as ([] & r' & E & Hb). by exists r'. }
  unfold launch_tests. rewrite wp_bind, wp_gets, wp_bind, wp_modify. cbn [rm_nblocks]. set (r0 := put_memList _ _).
  assert (ready N n (hostList c) bl0 r0) as Hr0 by (split; try done; apply len_replicate; lia).
  rewrite wp_bind. set (L0 := if mode then N / n else 1). set (cnt := if mode then n else N).
  eapply (wp_mono _ _ (λ _ r1, disk_ok N r1 ∧ num_hosts r1 = n ∧ ∃ L, len L = cnt ∧ once L ∧ to_free bl0 L0 L 0 r1)).
  { destruct mode; [eapply wp_alloc_batched|eapply wp_alloc_single]; try done; auto. intros h b m Hb. by apply (Hroom h). }
  intros [] r1 (Hd1 & Hn1 & L & HL & Ho & Hf1). rewrite wp_seq_assoc.
  apply (wp_checked_tests mode buf_addr fresh N); try done; [apply Hrnd|apply Hrnd|]. intros r2 Hk2.
  rewrite wp_seq_assoc. apply (wp_checked_tests mode buf_addr fresh N); try done; [apply Hk2|apply Hrnd|apply Hrnd|]. intros r3 Hk3.
  assert (kept N r1 r3) as Hk by by eapply kept_trans. pose proof (to_free_kept _ _ _ _ _ _ Hf1 Hk) as Hf3.
  unfold free_test. rewrite wp_bind, wp_gets, (dk_nb _ _ (kp_ok _ _ _ Hk)). unfold L0, cnt in *. destruct mode.
  - rewrite wp_bind, wp_gets, (kp_hosts _ _ _ Hk), Hn1. rewrite (proj2 (Z.eqb_neq n 0)) by lia.
    pose proof (wp_free_hosts bl0 (N / n) L r3) as Hw. rewrite HL in Hw. apply Hw; [apply Z.div_str_pos; lia|done|done].
  - rewrite <-HL. by apply wp_free_ones.
Qed.
End Spec.

(** ** Witness: both modes on the network of [TestBed] *)
Section TestingWitness.
#[local] Existing Instance types_h.
#[local] Instance bulk0 : BulkHosts world :=
  world_bulk (host 0) src_port servers0 (host_ok 0 (conj (Z.le_refl 0) eq_refl)) port0_ok servers0_ok.

Definition zeros (k : Z) : list Z := replicate (Z.to_nat k) 0.
Definition count_up (seed i : Z) : Z := seed * 100 + i.
Lemma launch_tests_pass_witness :
  (∃ r', launch_tests true (λ _, 0) zeros count_up (host 0) (MkRmem [] 1 3 2 (client0 1)) = Ok tt r' ∧
     blocks_at (c_net (rm_client r')) 1 = ∅) ∧
  ∃ r', launch_tests false (λ _, 0) zeros count_up (host 0) (MkRmem [] 1 3 2 (client0 1)) = Ok tt r' ∧
     blocks_at (c_net (rm_client r')) 1 = ∅.
Proof.
  assert (∀ mode : bool, ∃ r', launch_tests mode (λ _, 0) zeros count_up (host 0) (MkRmem [] 1 3 2 (client0 1)) = Ok tt r' ∧
    blocks_at (c_net (rm_client r')) 1 = ∅) as Hw.
  { intros mode. destruct (launch_tests_pass mode (λ _, 0) zeros count_up (host 0) 3 2 (client0 1)) as (r' & E & Hb).
    - done.
    - done.
    - done.
    - lia.
    - lia.
    - lia.
    - intros k Hk. lia.
    - intros k Hk. by apply len_replicate.
    - apply client0_ok.
    - intros i Hi. assert (i = 0 ∨ i = 1) as [->| ->] by lia; eexists;
        (split_and!; [reflexivity|apply host_ok; simpl; lia|eexists; reflexivity]).
    - by intros i a [[_ ->]|[_ ->]]%two_hosts.
    - intros i j a b [[-> ->]|[-> ->]]%two_hosts [[-> ->]|[-> ->]]%two_hosts; done.
    - intros i a Hi. assert (rh_blocks (c_net (client0 1)) (subid a) = ∅) as ->.
      { apply two_hosts in Hi as [[-> ->]|[-> ->]]; reflexivity. }
      destruct mode; [|by vm_compute]. intros m Hm.
      unfold calloc_addr, bump_calloc. change (top_of ∅) with 4096. rewrite (proj2 (Z.leb_le _ _)) by lia. done.
    - exists r'. split; [exact E|]. apply (Hb 1). }
  split; apply Hw.
Defined.
End TestingWitness.
