(* ===== verification/PageTable.v ===== *)
(** * The page table of src/ip6/lib/vmem/page_table.c

    [struct page_table], the entry operations [page_table_set_entry] and
    [page_table_get_entry], the physical frames, the MMU state that
    [remap_file_pages] and [mprotect] set, and the statement sequences the
    five fault handlers share. [coherent c V] is the invariant that makes
    paging transparent: [V] is the virtual memory the program sees, and every
    page's content is in its frame, or in the store when it is not resident. *)

From S2P Require Import Prelude Types Backends.

Definition PROT_NONE : Z := 0.
Definition PROT_READ : Z := 1.
Definition PROT_WRITE : Z := 2.
Definition PROT_RW : Z := Z.lor PROT_READ PROT_WRITE.

Record page_table := PageTable {
  npages : Z;
  nframes : Z;
  page_mapping : list Z;
  page_bits : list Z;
}.

(** The state the entry operations touch. Frame [i] of [physmem] is the
    block at [&physmem[i*BLOCK_SIZE]]; [mmu_frame] and [mmu_prot] are the
    mapping and the protection of each page of [virtmem]. [startFrame] and
    [endFrame] are the thread's. *)
Record core (D : Type) := Core {
  pt : page_table;
  physmem : list (list Z);
  dev : D;
  mmu_frame : list Z;
  mmu_prot : list Z;
  startFrame : Z;
  endFrame : Z;
  pageFaults : Z;
}.
Arguments Core {D}.
Arguments pt {D}.
Arguments physmem {D}.
Arguments dev {D}.
Arguments mmu_frame {D}.
Arguments mmu_prot {D}.
Arguments startFrame {D}.
Arguments endFrame {D}.
Arguments pageFaults {D}.

Section PageTable.
Context `{Config} {D : Type} `{!BlockDev D}.
Implicit Types (c : core D) (V : Z → list Z).

Definition put_pt (x : page_table) c : core D :=
  Core x (physmem c) (dev c) (mmu_frame c) (mmu_prot c) (startFrame c) (endFrame c) (pageFaults c).
Definition put_physmem (x : list (list Z)) c : core D :=
  Core (pt c) x (dev c) (mmu_frame c) (mmu_prot c) (startFrame c) (endFrame c) (pageFaults c).
Definition put_dev (x : D) c : core D :=
  Core (pt c) (physmem c) x (mmu_frame c) (mmu_prot c) (startFrame c) (endFrame c) (pageFaults c).
Definition put_mmu_frame (x : list Z) c : core D :=
  Core (pt c) (physmem c) (dev c) x (mmu_prot c) (startFrame c) (endFrame c) (pageFaults c).
Definition put_mmu_prot (x : list Z) c : core D :=
  Core (pt c) (physmem c) (dev c) (mmu_frame c) x (startFrame c) (endFrame c) (pageFaults c).
Definition put_pageFaults (x : Z) c : core D :=
  Core (pt c) (physmem c) (dev c) (mmu_frame c) (mmu_prot c) (startFrame c) (endFrame c) x.
Definition put_mapping (x : list Z) c : core D :=
  put_pt (PageTable (npages (pt c)) (nframes (pt c)) x (page_bits (pt c))) c.
Definition put_bits (x : list Z) c : core D :=
  put_pt (PageTable (npages (pt c)) (nframes (pt c)) (page_mapping (pt c)) x) c.

(** ** Entry operations *)

Definition page_table_set_entry (page frame bits : Z) : M (core D) unit :=
  np ← gets (λ c, npages (pt c));
  if np <=? page then err Abort else
  lo ← gets startFrame;
  hi ← gets endFrame;
  if (frame <? lo) || (hi <=? frame) then err Abort else
  astore (λ c, page_mapping (pt c)) put_mapping page frame;;
  astore (λ c, page_bits (pt c)) put_bits page bits;;
  (* remap_file_pages(virtmem + page*BLOCK_SIZE, BLOCK_SIZE, 0, frame, 0) *)
  astore mmu_frame put_mmu_frame page frame;;
  (* mprotect(virtmem + page*BLOCK_SIZE, BLOCK_SIZE, bits) *)
  astore mmu_prot put_mmu_prot page bits.

Definition page_table_get_entry (page : Z) : M (core D) (Z * Z) :=
  np ← gets (λ c, npages (pt c));
  if np <=? page then err Abort else
  frame ← aload (λ c, page_mapping (pt c)) page;
  bits ← aload (λ c, page_bits (pt c)) page;
  mret (frame, bits).

Definition page_table_get_nframes c : Z := nframes (pt c).
Definition page_table_get_npages c : Z := npages (pt c).

(** [readData(page, &pt->physmem[frame*BLOCK_SIZE])] *)
Definition readFrame (page frame : Z) : M (core D) unit :=
  buf ← aload physmem frame;
  buf ← zoom dev put_dev (bd_read page buf);
  astore physmem put_physmem frame buf.
(** [writeData(page, &pt->physmem[frame*BLOCK_SIZE])] *)
Definition writeFrame (page frame : Z) : M (core D) unit :=
  buf ← aload physmem frame;
  zoom dev put_dev (bd_write page buf).

(** The lines every handler runs when the frame [i] is free. *)
Definition installPage (page i : Z) : M (core D) unit :=
  page_table_set_entry page i PROT_READ;;
  readFrame page i.

(** The lines every handler runs once the victim [tempPage] is chosen: look
    its frame up, write it back if it is dirty, read [page] into the frame
    and switch the two entries. *)
Definition replacePage (page tempPage : Z) : M (core D) Z :=
  '(frame, bits) ← page_table_get_entry tempPage;
  when (bits =? PROT_RW) (writeFrame tempPage frame);;
  readFrame page frame;;
  page_table_set_entry page frame PROT_READ;;
  page_table_set_entry tempPage frame 0;;
  mret frame.

(** The lines [page_table_flush] runs for a page it drops. *)
Definition flushPage (tempPage : Z) : M (core D) Z :=
  '(frame, bits) ← page_table_get_entry tempPage;
  when (bits =? PROT_RW) (writeFrame tempPage frame);;
  page_table_set_entry tempPage frame PROT_NONE;;
  mret frame.

Definition bumpFaults : M (core D) unit :=
  modify (λ c, put_pageFaults (u64 (pageFaults c + 1)) c).

(** ** The invariant *)

Definition bits_of c (p : Z) : Z := default 0 (idx (page_bits (pt c)) p).
Definition map_of c (p : Z) : Z := default 0 (idx (page_mapping (pt c)) p).
Definition frame_of c (f : Z) : list Z := default [] (idx (physmem c) f).
Definition mmu_frame_of c (p : Z) : Z := default 0 (idx (mmu_frame c) p).
Definition in_range c (p : Z) : Prop := 0 <= p < npages (pt c).
Definition resident c (p : Z) : Prop := in_range c p ∧ bits_of c p ≠ 0.

(** Array sizes, the store's own invariant and MMU protection. *)
Record shaped c : Prop := {
  sh_mapping : len (page_mapping (pt c)) = npages (pt c);
  sh_bits : len (page_bits (pt c)) = npages (pt c);
  sh_mmu_frame : len (mmu_frame c) = npages (pt c);
  sh_mmu_prot : mmu_prot c = page_bits (pt c);
  sh_frames : 0 <= startFrame c ∧ endFrame c <= len (physmem c);
  sh_physmem f b : idx (physmem c) f = Some b → block_of b;
  sh_dev : bd_inv (dev c);
  sh_blocks : bd_blocks (dev c) = npages (pt c);
}.

Record coherent c V : Prop := {
  co_shape : shaped c;
  co_prot p : bits_of c p = 0 ∨ bits_of c p = PROT_READ ∨ bits_of c p = PROT_RW;
  co_frame p : resident c p → startFrame c <= map_of c p < endFrame c;
  co_mmu p : resident c p → mmu_frame_of c p = map_of c p;
  co_inj p q : resident c p → resident c q → map_of c p = map_of c q → p = q;
  co_view p : resident c p → frame_of c (map_of c p) = V p;
  co_store p : in_range c p → bits_of c p ≠ PROT_RW → bd_content (dev c) p = V p;
}.

(** What no operation on entries or frames changes. *)
Record same_env c c' : Prop := {
  se_npages : npages (pt c') = npages (pt c);
  se_nframes : nframes (pt c') = nframes (pt c);
  se_start : startFrame c' = startFrame c;
  se_end : endFrame c' = endFrame c;
  se_physmem : len (physmem c') = len (physmem c);
}.
#[export] Instance same_env_preorder : PreOrder same_env.
Proof.
  split; [by split|]. intros c1 c2 c3 [] []. split; congruence.
Qed.

Lemma in_range_env c c' p : same_env c c' → in_range c p → in_range c' p.
Proof. intros []. unfold in_range. congruence. Qed.

(** ** Specifications of the primitives *)

Lemma wp_page_table_get_entry c p Q :
  shaped c → in_range c p → Q (map_of c p, bits_of c p) c →
  wp (page_table_get_entry p) c Q.
Proof.
  intros [Hm Hb _ _ _ _ _ _] Hp HQ. unfold page_table_get_entry, map_of, bits_of in *.
  rewrite wp_bind, wp_gets. red in Hp. rewrite (proj2 (Z.leb_gt _ p)) by lia.
  assert (0 <= p < len (page_mapping (pt c))) as [f Hf]%idx_is_Some by lia.
  assert (0 <= p < len (page_bits (pt c))) as [b Hb']%idx_is_Some by lia.
  rewrite wp_bind. eapply wp_aload; [exact Hf|]. rewrite wp_bind.
  eapply wp_aload; [exact Hb'|]. rewrite wp_ret. by rewrite Hf, Hb' in HQ.
Qed.

Lemma page_table_get_entry_abort c p :
  npages (pt c) <= p → page_table_get_entry p c = Err Abort.
Proof.
  intros Hp. unfold page_table_get_entry, mbind, M_bind, gets.
  by rewrite (proj2 (Z.leb_le _ p)) by lia.
Qed.

Lemma default_idx_upd {A} (d x : A) (l : list A) i j :
  0 <= i < len l →
  default d (idx (upd l i x) j) = if decide (j = i) then x else default d (idx l j).
Proof. intros. rewrite idx_upd by done. repeat case_decide; by simplify_eq/=. Qed.

Lemma wp_page_table_set_entry c p f b Q :
  shaped c → in_range c p → startFrame c <= f < endFrame c →
  (∀ c', shaped c' → same_env c c' → physmem c' = physmem c → dev c' = dev c →
     (∀ q, bits_of c' q = if decide (q = p) then b else bits_of c q) →
     (∀ q, map_of c' q = if decide (q = p) then f else map_of c q) →
     (∀ q, mmu_frame_of c' q = if decide (q = p) then f else mmu_frame_of c q) →
     Q tt c') →
  wp (page_table_set_entry p f b) c Q.
Proof.
  intros [Hm Hb Hmf Hmp Hf Hpm Hd Hdb] Hp Hfr HQ. red in Hp. unfold page_table_set_entry.
  wp_pure. rewrite (proj2 (Z.leb_gt _ p)) by lia. wp_pure.
  rewrite (proj2 (Z.ltb_ge f _)), (proj2 (Z.leb_gt _ f)) by lia. simpl.
  wp_pure. apply wp_astore; [lia|]. wp_pure. apply wp_astore; [simpl; lia|].
  wp_pure. apply wp_astore; [simpl; lia|]. apply wp_astore; [simpl; rewrite Hmp; lia|].
  apply HQ; try done; simpl.
  - split; simpl; rewrite ?len_upd, ?Hmp; done.
  - intros q. apply default_idx_upd. lia.
  - intros q. apply default_idx_upd. lia.
  - intros q. apply default_idx_upd. lia.
Qed.

Lemma page_table_set_entry_abort c p f b :
  npages (pt c) <= p ∨ f < startFrame c ∨ endFrame c <= f →
  page_table_set_entry p f b c = Err Abort.
Proof.
  intros Hor. unfold page_table_set_entry, mbind, M_bind, gets.
  destruct (Z.leb_spec (npages (pt c)) p); [done|].
  destruct (Z.ltb_spec f (startFrame c)); [done|]. simpl.
  destruct (Z.leb_spec (endFrame c) f); [done|]. lia.
Qed.

Lemma frame_of_block c f : shaped c → 0 <= f < len (physmem c) → block_of (frame_of c f).
Proof.
  intros Hs [b Hb]%idx_is_Some. unfold frame_of. rewrite Hb. by eapply (sh_physmem _ Hs).
Qed.

(** [readFrame] and [writeFrame] leave the entries alone. *)
Record same_pt c c' : Prop := {
  sp_pt : pt c' = pt c;
  sp_mmu_frame : mmu_frame c' = mmu_frame c;
  sp_env : same_env c c';
}.

Lemma wp_readFrame c p f Q :
  shaped c → in_range c p → startFrame c <= f < endFrame c →
  (∀ c', shaped c' → same_pt c c' →
     (∀ g, frame_of c' g = if decide (g = f) then bd_content (dev c) p else frame_of c g) →
     (∀ q, in_range c q → bd_content (dev c') q = bd_content (dev c) q) →
     Q tt c') →
  wp (readFrame p f) c Q.
Proof.
  intros Hs Hp Hf HQ. pose proof Hs as [Hm Hb Hmf Hmp Hfr Hpm Hd Hdb].
  assert (0 <= f < len (physmem c)) as Hfl by lia.
  pose proof Hfl as [b Hbf]%idx_is_Some. unfold readFrame. rewrite wp_bind.
  eapply wp_aload; [exact Hbf|]. rewrite wp_bind, wp_zoom. red in Hp.
  apply bd_read_ok; [done|by rewrite Hdb|by eapply Hpm|].
  intros d' Hd' Hdb' Hc. apply wp_astore; [done|]. simpl. apply HQ.
  - split; simpl; try done; rewrite ?len_upd; try done; [|congruence].
    intros g x. rewrite idx_upd by done. case_decide; [|by apply Hpm].
    intros [= <-]. apply bd_content_block; [done|]. by rewrite Hdb.
  - split; try done. split; simpl; rewrite ?len_upd; done.
  - intros g. by apply default_idx_upd.
  - intros q Hq. apply Hc. by rewrite Hdb.
Qed.

Lemma wp_writeFrame c p f Q :
  shaped c → in_range c p → startFrame c <= f < endFrame c →
  (∀ c', shaped c' → same_pt c c' → physmem c' = physmem c →
     (∀ q, in_range c q →
        bd_content (dev c') q = if decide (q = p) then frame_of c f else bd_content (dev c) q) →
     Q tt c') →
  wp (writeFrame p f) c Q.
Proof.
  intros Hs Hp Hf HQ. pose proof Hs as [Hm Hb Hmf Hmp Hfr Hpm Hd Hdb].
  assert (0 <= f < len (physmem c)) as [b Hbf]%idx_is_Some by lia.
  unfold writeFrame. rewrite wp_bind.
  eapply wp_aload; [exact Hbf|]. rewrite wp_zoom. red in Hp.
  apply bd_write_ok; [done|by rewrite Hdb|by eapply Hpm|].
  intros d' Hd' Hdb' Hc. apply HQ; try done.
  - split; simpl; try done. congruence.
  - intros q Hq. unfold frame_of. rewrite Hbf. apply Hc. by rewrite Hdb.
Qed.

(** ** The shared sequences keep the view *)

Lemma coherent_range c V p : coherent c V → bits_of c p ≠ 0 → in_range c p.
Proof.
  intros [Hs _ _ _ _ _ _] Hb. unfold bits_of in Hb. red.
  destruct (idx (page_bits (pt c)) p) eqn:E; [|done].
  apply idx_Some_range in E. by rewrite (sh_bits _ Hs) in E.
Qed.

Lemma resident_frame_range c V p :
  coherent c V → resident c p → startFrame c <= map_of c p < endFrame c.
Proof. intros Hc. apply (co_frame _ _ Hc). Qed.

Lemma same_pt_obs c c' :
  same_pt c c' → (∀ q, bits_of c' q = bits_of c q) ∧ (∀ q, map_of c' q = map_of c q) ∧
  (∀ q, mmu_frame_of c' q = mmu_frame_of c q).
Proof. intros [Hpt Hm _]. unfold bits_of, map_of, mmu_frame_of. by rewrite Hpt, Hm. Qed.

(** The entries after [p] is switched to ([f], [b]). *)
Record entry_switch c c' (p f b : Z) : Prop := {
  es_env : same_env c c';
  es_bits q : bits_of c' q = if decide (q = p) then b else bits_of c q;
  es_map q : map_of c' q = if decide (q = p) then f else map_of c q;
}.

Lemma wp_installPage c V p i Q :
  coherent c V → in_range c p → bits_of c p = 0 → startFrame c <= i < endFrame c →
  (∀ q, resident c q → map_of c q ≠ i) →
  (∀ c', coherent c' V → entry_switch c c' p i PROT_READ → Q tt c') →
  wp (installPage p i) c Q.
Proof.
  intros Hc Hp Hb Hi Hfree HQ. pose proof Hc as [Hs Hprot Hfr Hmmu Hinj Hview Hstore].
  unfold installPage. rewrite wp_bind. apply wp_page_table_set_entry; [done..|].
  intros c1 Hs1 He1 Hpm1 Hd1 Hb1 Hm1 Hmf1.
  assert (in_range c1 p) as Hp1 by by eapply in_range_env.
  apply wp_readFrame; [done|done| |].
  { destruct He1. congruence. }
  intros c2 Hs2 Hsp2 Hf2 Hc2. pose proof (same_pt_obs _ _ Hsp2) as (Hb2 & Hm2 & Hmf2).
  assert (same_env c c2) as He2 by (etrans; [done|apply Hsp2]).
  assert (∀ q, resident c2 q → q = p ∨ (q ≠ p ∧ resident c q)) as Hres.
  { intros q [Hq Hbq]. rewrite Hb2, Hb1 in Hbq. case_decide; [by left|right].
    split; [done|]. split; [|done]. destruct He2. unfold in_range in *. congruence. }
  apply HQ; [|split; [done|by intros q; rewrite Hb2|by intros q; rewrite Hm2]].
  split; [done|..].
  - intros q. rewrite Hb2, Hb1. case_decide; [tauto|apply Hprot].
  - intros q [->|[? Hq]]%Hres; rewrite Hm2, Hm1; destruct He2 as [_ _ -> -> _].
    + by rewrite decide_True.
    + rewrite decide_False by done. by apply Hfr.
  - intros q [->|[? Hq]]%Hres; rewrite Hm2, Hm1, Hmf2, Hmf1; [by rewrite !decide_True|].
    rewrite !decide_False by done. by apply Hmmu.
  - intros q r [->|[? Hq]]%Hres [->|[? Hr]]%Hres; rewrite !Hm2, !Hm1; [done|..].
    + rewrite decide_True, decide_False by done. intros E. by destruct (Hfree r).
    + rewrite decide_False, decide_True by done. intros E. by destruct (Hfree q).
    + rewrite !decide_False by done. by apply Hinj.
  - intros q [->|[? Hq]]%Hres; rewrite Hf2, Hm2, Hm1.
    + rewrite (decide_True (P := p = p)), decide_True by done. rewrite Hd1. apply Hstore; [done|by rewrite Hb].
    + rewrite (decide_False (P := q = p)) by done.
      rewrite decide_False by by apply Hfree. unfold frame_of. rewrite Hpm1. by apply Hview.
  - intros q Hq Hbq. rewrite Hb2, Hb1 in Hbq.
    assert (in_range c q) as Hq0. { destruct He2. unfold in_range in *. congruence. }
    rewrite Hc2 by (by eapply in_range_env). rewrite Hd1.
    case_decide; subst; [apply Hstore; [done|by rewrite Hb]|by apply Hstore].
Qed.

Lemma wp_upgrade c V p Q :
  coherent c V → resident c p →
  (∀ c', coherent c' V → entry_switch c c' p (map_of c p) PROT_RW →
     physmem c' = physmem c → Q tt c') →
  wp (page_table_set_entry p (map_of c p) PROT_RW) c Q.
Proof.
  intros Hc Hp HQ. pose proof Hc as [Hs Hprot Hfr Hmmu Hinj Hview Hstore].
  apply wp_page_table_set_entry; [done|apply Hp|by apply Hfr|].
  intros c1 Hs1 He1 Hpm1 Hd1 Hb1 Hm1 Hmf1.
  assert (∀ q, map_of c1 q = map_of c q) as Hm.
  { intros q. rewrite Hm1. case_decide; congruence. }
  assert (∀ q, resident c1 q → resident c q) as Hres.
  { intros q [Hq Hbq]. destruct (decide (q = p)) as [->|]; [done|].
    rewrite Hb1, decide_False in Hbq by done. split; [|done].
    destruct He1. unfold in_range in *. congruence. }
  apply HQ; [|done|done]. split; [done|..].
  - intros q. rewrite Hb1. case_decide; [tauto|apply Hprot].
  - intros q Hq. rewrite Hm. destruct He1 as [_ _ -> -> _]. auto.
  - intros q Hq. rewrite Hm, Hmf1. case_decide; subst; [done|]. auto.
  - intros q r Hq Hr. rewrite !Hm. auto.
  - intros q Hq. unfold frame_of. rewrite Hpm1, Hm. apply Hview. auto.
  - intros q Hq Hbq. rewrite Hd1. rewrite Hb1 in Hbq. case_decide; [done|].
    apply Hstore; [|done]. destruct He1. unfold in_range in *. congruence.
Qed.

(** After the write-back the store holds the current content of [t]. *)
Lemma wp_writeback c V t Q :
  coherent c V → resident c t →
  (∀ c', shaped c' → same_pt c c' → physmem c' = physmem c →
     (∀ q, in_range c q → bits_of c q ≠ PROT_RW ∨ q = t → bd_content (dev c') q = V q) →
     Q tt c') →
  wp (when (bits_of c t =? PROT_RW) (writeFrame t (map_of c t))) c Q.
Proof.
  intros Hc Ht HQ. pose proof Hc as [Hs Hprot Hfr Hmmu Hinj Hview Hstore].
  unfold when. destruct (Z.eqb_spec (bits_of c t) PROT_RW) as [Hd|Hd].
  - apply wp_writeFrame; [done|apply Ht|by apply Hfr|]. intros c' Hs' Hsp Hpm Hct.
    apply HQ; try done. intros q Hq Hor. rewrite Hct by done. case_decide; subst.
    + by apply Hview.
    + apply Hstore; [done|]. by destruct Hor.
  - rewrite wp_ret. apply HQ; try done. intros q Hq [?| ->]; by apply Hstore.
Qed.

Record page_swap c c' (p t : Z) : Prop := {
  ps_env : same_env c c';
  ps_bits q : bits_of c' q =
    if decide (q = t) then 0 else if decide (q = p) then PROT_READ else bits_of c q;
  ps_map q : map_of c' q = if decide (q = p) then map_of c t else map_of c q;
}.

Lemma wp_replacePage c V p t Q :
  coherent c V → in_range c p → bits_of c p = 0 → resident c t →
  (∀ c', coherent c' V → page_swap c c' p t → Q (map_of c t) c') →
  wp (replacePage p t) c Q.
Proof.
  intros Hc Hp Hb Ht HQ. pose proof Hc as [Hs Hprot Hfr Hmmu Hinj Hview Hstore].
  assert (p ≠ t) as Hpt by (intros ->; destruct Ht; done).
  unfold replacePage. rewrite wp_bind. apply wp_page_table_get_entry; [done|apply Ht|].
  rewrite wp_bind. apply wp_writeback with (V := V); [done..|].
  intros c1 Hs1 Hsp1 Hpm1 Hst1. pose proof (same_pt_obs _ _ Hsp1) as (Hb1 & Hm1 & Hmf1).
  pose proof (sp_env _ _ Hsp1) as He1. pose proof (Hfr t Ht) as Hft.
  rewrite wp_bind. apply wp_readFrame; [done|by eapply in_range_env|by destruct He1; lia|].
  intros c2 Hs2 Hsp2 Hf2 Hct2. pose proof (same_pt_obs _ _ Hsp2) as (Hb2 & Hm2 & Hmf2).
  assert (same_env c c2) as He2 by (etrans; [exact He1|apply Hsp2]).
  rewrite wp_bind.
  apply wp_page_table_set_entry; [done|by eapply in_range_env|by destruct He2; lia|].
  intros c3 Hs3 He3' Hpm3 Hd3 Hb3 Hm3 Hmf3.
  assert (same_env c c3) as He3 by by etrans.
  rewrite wp_bind. apply wp_page_table_set_entry;
    [done|eapply in_range_env; [done|apply Ht]|by destruct He3; lia|].
  intros c4 Hs4 He4' Hpm4 Hd4 Hb4 Hm4 Hmf4. rewrite wp_ret.
  assert (same_env c c4) as He4 by by etrans.
  assert (∀ q, bits_of c4 q = if decide (q = t) then 0 else
    if decide (q = p) then PROT_READ else bits_of c q) as HB.
  { intros q. by rewrite Hb4, Hb3, Hb2, Hb1. }
  assert (∀ q, map_of c4 q = if decide (q = p) then map_of c t else map_of c q) as HM.
  { intros q. rewrite Hm4, Hm3, Hm2, Hm1. repeat case_decide; congruence. }
  assert (∀ q, q ≠ t → q ≠ p → mmu_frame_of c4 q = mmu_frame_of c q) as HMF.
  { intros q ??. rewrite Hmf4, Hmf3, Hmf2, Hmf1. by rewrite !decide_False. }
  assert (∀ f, f ≠ map_of c t → frame_of c4 f = frame_of c f) as HF.
  { intros f Hf. unfold frame_of in *. rewrite Hpm4, Hpm3, Hf2, Hpm1.
    by rewrite decide_False. }
  assert (∀ q, in_range c4 q → in_range c q) as HR.
  { intros q. destruct He4. unfold in_range. congruence. }
  assert (∀ q, resident c4 q → q = p ∨ (q ≠ p ∧ q ≠ t ∧ resident c q)) as Hres.
  { intros q [Hq Hbq]. rewrite HB in Hbq. repeat case_decide; try done; [by left|].
    right. split_and!; try done. split; auto. }
  apply HQ; [|by split]. split; [done|..].
  - intros q. rewrite HB. repeat case_decide; [tauto..|apply Hprot].
  - intros q [->|(?&?&Hq)]%Hres; rewrite HM; destruct He4 as [_ _ -> -> _].
    + by rewrite decide_True.
    + rewrite decide_False by done. by apply Hfr.
  - intros q [->|(?&?&Hq)]%Hres; rewrite HM.
    + rewrite Hmf4, Hmf3. by rewrite decide_False, !decide_True.
    + rewrite HMF, decide_False by done. by apply Hmmu.
  - intros q r [->|(?&?&Hq)]%Hres [->|(?&?&Hr)]%Hres; rewrite !HM; [done|..];
      rewrite ?(decide_True (P := p = p)), ?(decide_False (P := q = p)),
        ?(decide_False (P := r = p)) by done.
    + intros E. by destruct (Hinj t r).
    + intros E. by destruct (Hinj q t).
    + by apply Hinj.
  - intros q [->|(?&?&Hq)]%Hres; rewrite HM.
    + unfold frame_of in *. rewrite decide_True, Hpm4, Hpm3, Hf2, decide_True by done.
      apply Hst1; [done|]. left. by rewrite Hb.
    + rewrite decide_False by done. rewrite HF; [by apply Hview|].
      intros E. by destruct (Hinj q t).
  - intros q Hq%HR Hbq. rewrite Hd4, Hd3, Hct2 by by eapply in_range_env.
    apply Hst1; [done|]. rewrite HB in Hbq. repeat case_decide; subst; try tauto.
    left. by rewrite Hb.
Qed.

Lemma wp_flushPage c V t Q :
  coherent c V → in_range c t → startFrame c <= map_of c t < endFrame c →
  (∀ c', coherent c' V → entry_switch c c' t (map_of c t) 0 → Q (map_of c t) c') →
  wp (flushPage t) c Q.
Proof.
  intros Hc Htr Htf HQ. pose proof Hc as [Hs Hprot Hfr Hmmu Hinj Hview Hstore].
  unfold flushPage. rewrite wp_bind. apply wp_page_table_get_entry; [done..|].
  rewrite wp_bind.
  (* the write-back, or nothing when the page is not resident *)
  assert (∀ Q', (∀ c', shaped c' → same_pt c c' → physmem c' = physmem c →
     (∀ q, in_range c q → bits_of c q ≠ PROT_RW ∨ q = t → bd_content (dev c') q = V q) →
     Q' tt c') →
     wp (when (bits_of c t =? PROT_RW) (writeFrame t (map_of c t))) c Q') as Hwb.
  { intros Q' HQ'. destruct (decide (bits_of c t = 0)) as [E|E].
    - rewrite E. apply HQ'; [done|by split|done|]. intros q Hq Hor.
      apply Hstore; [done|]. destruct Hor as [?| ->]; [done|by rewrite E].
    - by apply wp_writeback with (V := V). }
  apply Hwb. intros c1 Hs1 Hsp1 Hpm1 Hst1.
  pose proof (same_pt_obs _ _ Hsp1) as (Hb1 & Hm1 & Hmf1).
  pose proof (sp_env _ _ Hsp1) as He1. rewrite wp_bind.
  apply wp_page_table_set_entry; [done|by eapply in_range_env|by destruct He1; lia|].
  intros c2 Hs2 He2' Hpm2 Hd2 Hb2 Hm2 Hmf2. rewrite wp_ret.
  assert (same_env c c2) as He2 by by etrans.
  assert (∀ q, bits_of c2 q = if decide (q = t) then 0 else bits_of c q) as HB.
  { intros q. by rewrite Hb2, Hb1. }
  assert (∀ q, map_of c2 q = map_of c q) as HM.
  { intros q. rewrite Hm2, Hm1. case_decide; congruence. }
  assert (∀ q, in_range c2 q → in_range c q) as HR.
  { intros q. destruct He2. unfold in_range. congruence. }
  assert (∀ q, resident c2 q → q ≠ t ∧ resident c q) as Hres.
  { intros q [Hq Hbq]. rewrite HB in Hbq. case_decide; [done|]. split; [done|]. split; auto. }
  apply HQ; [|split; [done|done|]; intros q; rewrite HM; case_decide; congruence].
  split; [done|..].
  - intros q. rewrite HB. case_decide; [tauto|apply Hprot].
  - intros q [? Hq]%Hres. rewrite HM. destruct He2 as [_ _ -> -> _]. auto.
  - intros q [? Hq]%Hres. rewrite HM, Hmf2, Hmf1, decide_False by done. auto.
  - intros q r [? Hq]%Hres [? Hr]%Hres. rewrite !HM. auto.
  - intros q [? Hq]%Hres. rewrite HM. unfold frame_of. rewrite Hpm2, Hpm1. by apply Hview.
  - intros q Hq%HR Hbq. rewrite Hd2. apply Hst1; [done|].
    rewrite HB in Hbq. case_decide; tauto.
Qed.
End PageTable.
