(* ===== verification/VMem.v ===== *)
(** * Virtual memory: the page-fault handlers of src/ip6/lib/vmem/page_table.c

    The five replacement policies ([LRU], [LFU], [FIFO], [RAND], [FFIFO]) with
    their [*_page_fault_handler], the victim selection of each, the signal
    handler [internal_fault_handler] and the flush [page_table_flush], over
    the page table, the hash table and the lists of the other files. *)

From S2P Require Import Prelude Types Backends PageTable Links HashTable DllList FreqList.

Definition FIFO : Z := 0.
Definition LRU : Z := 1.
Definition LFU : Z := 2.
Definition RAND : Z := 3.
Definition FFIFO : Z := 4.

(** The globals and thread-locals of page_table.c; [rcount] is [count],
    [rcalls] the number of calls of [rand()] so far. *)
Record vmem (D : Type) := VM {
  vc : core D;
  hashT : hashTable;
  dllL : dllList;
  freqL : freqList;
  frameState : list Z;
  framePage : list Z;
  rcount : Z;
  rcalls : Z;
  replacementPolicy : Z;
}.
Arguments VM {D}.
Arguments vc {D}.
Arguments hashT {D}.
Arguments dllL {D}.
Arguments freqL {D}.
Arguments frameState {D}.
Arguments framePage {D}.
Arguments rcount {D}.
Arguments rcalls {D}.
Arguments replacementPolicy {D}.

Section VMem.
Context `{Config} `{Malloc} {D : Type} `{!BlockDev D}.
(** The values [rand()] returns, by call. *)
Variable rand : Z → Z.
Implicit Types (s : vmem D).
Abbreviation MV := (M (vmem D)).

Definition put_vc (x : core D) s : vmem D :=
  VM x (hashT s) (dllL s) (freqL s) (frameState s) (framePage s) (rcount s) (rcalls s)
    (replacementPolicy s).
Definition put_hashT (x : hashTable) s : vmem D :=
  VM (vc s) x (dllL s) (freqL s) (frameState s) (framePage s) (rcount s) (rcalls s)
    (replacementPolicy s).
Definition put_dllL (x : dllList) s : vmem D :=
  VM (vc s) (hashT s) x (freqL s) (frameState s) (framePage s) (rcount s) (rcalls s)
    (replacementPolicy s).
Definition put_freqL (x : freqList) s : vmem D :=
  VM (vc s) (hashT s) (dllL s) x (frameState s) (framePage s) (rcount s) (rcalls s)
    (replacementPolicy s).
Definition put_frameState (x : list Z) s : vmem D :=
  VM (vc s) (hashT s) (dllL s) (freqL s) x (framePage s) (rcount s) (rcalls s)
    (replacementPolicy s).
Definition put_framePage (x : list Z) s : vmem D :=
  VM (vc s) (hashT s) (dllL s) (freqL s) (frameState s) x (rcount s) (rcalls s)
    (replacementPolicy s).
Definition put_rcount (x : Z) s : vmem D :=
  VM (vc s) (hashT s) (dllL s) (freqL s) (frameState s) (framePage s) x (rcalls s)
    (replacementPolicy s).
Definition put_rcalls (x : Z) s : vmem D :=
  VM (vc s) (hashT s) (dllL s) (freqL s) (frameState s) (framePage s) (rcount s) x
    (replacementPolicy s).

(** Calls into the components. *)
Definition onC {A} (m : M (core D) A) : MV A := zoom vc put_vc m.
Definition onH {A} (m : Z → M hashTable A) : MV A := λ s,
  zoom hashT put_hashT (m (nframes (pt (vc s)))) s.
Definition onD {A} (m : M dllList A) : MV A := zoom dllL put_dllL m.
Definition onF {A} (m : M freqList A) : MV A := zoom freqL put_freqL m.
Definition nframes_of s : Z := nframes (pt (vc s)).

(** ** Victim selection *)

(** [*page] is left as it was when the list is empty. *)
Definition deleteLRU (page : Z) : MV Z :=
  tail ← gets (λ s, dl_tail (dllL s));
  if is_null tail then mret page else
  n ← onD (load tail);
  onH (λ nf, deleteHashNode nf (dn_key n));;
  tail ← gets (λ s, dl_tail (dllL s));
  onD (deletedllListNode tail);;
  mret (dn_key n).

Definition deleteLFU (page : Z) : MV Z :=
  head ← gets (λ s, fl_head (freqL s));
  if is_null head then mret page else
  f ← onF (loadF head);
  n ← onF (loadL (fn_tail f));
  onH (λ nf, deleteHashNode nf (ln_key n));;
  head ← gets (λ s, fl_head (freqL s));
  f ← onF (loadF head);
  onF (deletelfuListNode (fn_tail f));;
  mret (ln_key n).

(** ** The handlers *)

Definition LRU_page_fault_handler (page : Z) : MV unit :=
  onC bumpFaults;;
  '(frame, bits) ← onC (page_table_get_entry page);
  if bits =? 0 then
    cnt ← gets (λ s, dl_count (dllL s));
    nf ← gets nframes_of;
    if cnt <? nf then
      start ← gets (λ s, startFrame (vc s));
      let i := u64 (cnt + start) in
      node ← onD (createdllListNode page);
      onH (λ nf, insertHashNode nf page node);;
      onC (installPage page i)
    else
      tempPage ← deleteLRU 0;
      _ ← onC (replacePage page tempPage);
      node ← onD (createdllListNode page);
      onH (λ nf, insertHashNode nf page node)
  else
    node ← onH (λ nf, getHashNode nf page);
    onD (moveListNodeToFront node);;
    onC (page_table_set_entry page frame PROT_RW).

Definition LFU_page_fault_handler (page : Z) : MV unit :=
  onC bumpFaults;;
  '(frame, bits) ← onC (page_table_get_entry page);
  if bits =? 0 then
    cnt ← gets (λ s, fl_count (freqL s));
    nf ← gets nframes_of;
    if cnt <? nf then
      start ← gets (λ s, startFrame (vc s));
      let i := u64 (cnt + start) in
      node ← onF (createlfuListNode page);
      onH (λ nf, insertHashNode nf page node);;
      onC (installPage page i)
    else
      tempPage ← deleteLFU 0;
      _ ← onC (replacePage page tempPage);
      node ← onF (createlfuListNode page);
      onH (λ nf, insertHashNode nf page node)
  else
    node ← onH (λ nf, getHashNode nf page);
    onF (moveNodeToNextFreq node);;
    onC (page_table_set_entry page frame PROT_RW).

(** [frameState[i]++] on a C [int]. *)
Definition age1 (i : Z) : MV unit :=
  a ← aload frameState i;
  if a =? 0 then mret tt
  else if a =? 2 ^ 31 - 1 then err Overflow
  else astore frameState put_frameState i (a + 1).
(** The first frame in [i, i + n) with [frameState] 0. *)
Fixpoint find_empty (n : nat) (i : Z) : MV (option Z) :=
  match n with
  | O => mret None
  | S n => a ← aload frameState i;
           if a =? 0 then mret (Some i) else find_empty n (i + 1)
  end.
(** The frame of the largest [frameState] above [value]. *)
Fixpoint find_oldest (n : nat) (i value frame : Z) : MV Z :=
  match n with
  | O => mret frame
  | S n => a ← aload frameState i;
           if value <? a then find_oldest n (i + 1) a i
           else find_oldest n (i + 1) value frame
  end.
(** [frameState[i] = 1; framePage[i] = page;] *)
Definition setFrame (i page : Z) : MV unit :=
  astore frameState put_frameState i 1;;
  astore framePage put_framePage i page.

Definition FIFO_page_fault_handler (page : Z) : MV unit :=
  onC bumpFaults;;
  '(frame, bits) ← onC (page_table_get_entry page);
  lo ← gets (λ s, startFrame (vc s));
  hi ← gets (λ s, endFrame (vc s));
  for_range lo hi age1;;
  if bits =? 0 then
    empty ← find_empty (Z.to_nat (hi - lo)) lo;
    match empty with
    | Some i => setFrame i page;; onC (installPage page i)
    | None =>
        frame ← find_oldest (Z.to_nat (hi - lo)) lo 0 frame;
        tempPage ← aload framePage frame;
        frame ← onC (replacePage page tempPage);
        setFrame frame page
    end
  else
    onC (page_table_set_entry page frame PROT_RW);;
    setFrame frame page.

(** [while (hashTable[randIndex].head == NULL)]: one turn visits every
    bucket, so the fuel is the number of buckets. *)
Fixpoint scanBuckets (fuel : nat) (randIndex : Z) : MV Z :=
  match fuel with
  | O => err Hang
  | S fuel =>
      b ← aload (λ s, ht_tab (hashT s)) randIndex;
      if is_null (hb_head b) then
        nf ← gets nframes_of;
        let r := u64 (randIndex + 1) in
        scanBuckets fuel (if u64 (nf - 1) <? r then 0 else r)
      else mret randIndex
  end.
(** [rand() % pt->nframes] *)
Definition randMod : MV Z :=
  k ← gets rcalls;
  modify (put_rcalls (k + 1));;
  nf ← gets nframes_of;
  if nf =? 0 then err DivByZero else mret (u64 (rand k) mod nf).

Definition RAND_page_fault_handler (page : Z) : MV unit :=
  onC bumpFaults;;
  '(frame, bits) ← onC (page_table_get_entry page);
  if bits =? 0 then
    cnt ← gets rcount;
    nf ← gets nframes_of;
    if cnt <? nf then
      start ← gets (λ s, startFrame (vc s));
      let i := u64 (cnt + start) in
      onH (λ nf, insertHashNode nf page None);;
      onC (installPage page i);;
      modify (λ s, put_rcount (u64 (rcount s + 1)) s)
    else
      r ← randMod;
      r ← scanBuckets (Z.to_nat nf) r;
      b ← aload (λ s, ht_tab (hashT s)) r;
      n ← zoom hashT put_hashT (load (hb_head b));
      let tempPage := hn_key n in
      _ ← onC (replacePage page tempPage);
      onH (λ nf, deleteHashNode nf tempPage);;
      onH (λ nf, insertHashNode nf page None)
  else
    onC (page_table_set_entry page frame PROT_RW).

Definition FFIFO_page_fault_handler (page : Z) : MV unit :=
  onC bumpFaults;;
  '(frame, bits) ← onC (page_table_get_entry page);
  if bits =? 0 then
    cnt ← gets (λ s, dl_count (dllL s));
    nf ← gets nframes_of;
    if cnt <? nf then
      start ← gets (λ s, startFrame (vc s));
      let i := u64 (cnt + start) in
      node ← onD (createdllListNode page);
      onH (λ nf, insertHashNode nf page node);;
      onC (installPage page i)
    else
      tail ← gets (λ s, dl_tail (dllL s));
      n ← onD (load tail);
      let tempPage := dn_key n in
      onH (λ nf, deleteHashNode nf tempPage);;
      tail ← gets (λ s, dl_tail (dllL s));
      onD (deletedllListNode tail);;
      _ ← onC (replacePage page tempPage);
      node ← onD (createdllListNode page);
      onH (λ nf, insertHashNode nf page node)
  else
    onC (page_table_set_entry page frame PROT_RW).

(** [pt->handler], set by [init_virtual_memory] from [replacementPolicy]. *)
Definition handler_of (policy page : Z) : MV unit :=
  if policy =? FIFO then FIFO_page_fault_handler page
  else if policy =? LRU then LRU_page_fault_handler page
  else if policy =? LFU then LFU_page_fault_handler page
  else if policy =? RAND then RAND_page_fault_handler page
  else FFIFO_page_fault_handler page.

(** [off] is [addr - pt->virtmem]. *)
Definition internal_fault_handler (handler : Z → MV unit) (off : Z) : MV unit :=
  let page := u64 (Z.quot off BLOCK_SIZE) in
  np ← gets (λ s, npages (pt (vc s)));
  if page <? np then handler page else err Abort.

(** ** Flush *)

(** [while (count > 0)]; the fuel is the length of the list. *)
Fixpoint flushLRU (fuel : nat) : MV unit :=
  cnt ← gets (λ s, dl_count (dllL s));
  if cnt <=? 0 then mret tt else
  match fuel with
  | O => err Hang
  | S fuel =>
      tempPage ← deleteLRU 0;
      _ ← onC (flushPage tempPage);
      flushLRU fuel
  end.
Fixpoint flushLFU (fuel : nat) : MV unit :=
  cnt ← gets (λ s, fl_count (freqL s));
  if cnt <=? 0 then mret tt else
  match fuel with
  | O => err Hang
  | S fuel =>
      tempPage ← deleteLFU 0;
      _ ← onC (flushPage tempPage);
      flushLFU fuel
  end.
Definition flushFIFO1 (i : Z) : MV unit :=
  tempPage ← aload framePage i;
  frame ← onC (flushPage tempPage);
  astore frameState put_frameState frame 0.
(** [while (currNode != NULL)] on bucket [i]. *)
Fixpoint flushBucket (fuel : nat) (i : Z) : MV unit :=
  b ← aload (λ s, ht_tab (hashT s)) i;
  if is_null (hb_head b) then mret tt else
  match fuel with
  | O => err Hang
  | S fuel =>
      n ← zoom hashT put_hashT (load (hb_head b));
      let tempPage := hn_key n in
      _ ← onC (flushPage tempPage);
      onH (λ nf, deleteHashNode nf tempPage);;
      flushBucket fuel i
  end.
Definition flushRAND1 (i : Z) : MV unit :=
  b ← aload (λ s, ht_tab (hashT s)) i;
  if hb_count b =? 0 then mret tt else
  fuel ← gets (λ s, size (ht_heap (hashT s)));
  flushBucket fuel i.

Definition page_table_flush : MV unit :=
  policy ← gets replacementPolicy;
  nf ← gets nframes_of;
  if policy =? FIFO then for_range 0 nf flushFIFO1
  else if (policy =? LRU) || (policy =? FFIFO) then
    fuel ← gets (λ s, Z.to_nat (dl_count (dllL s))); flushLRU fuel
  else if policy =? LFU then
    fuel ← gets (λ s, Z.to_nat (fl_count (freqL s))); flushLFU fuel
  else if policy =? RAND then for_range 0 nf flushRAND1
  else mret tt.
End VMem.
