(* ===== verification/Policies.v ===== *)
(** * The replacement policies are correct page-fault handlers

    [PolicyOk h inv] is what the paging theorems need of a handler: a fault on
    a page that is not resident makes it readable, a fault on a readable page
    makes it writable, the view of virtual memory is unchanged and the
    policy's own invariant is kept. Each handler of
    src/ip6/lib/vmem/page_table.c is shown to be an instance. *)

From S2P Require Import Prelude Types Backends PageTable Links HashTable DllList FreqList VMem.

(** ** The hash table as the index of a list of nodes *)

Definition lmap (l : list (loc * Z)) : gmap Z ptr := list_to_map ((λ x, (x.2, Some x.1)) <$> l).

Section lmap.
Implicit Types (l : list (loc * Z)).

Lemma lmap_keys l : ((λ x : loc * Z, (x.2, Some x.1)) <$> l).*1 = l.*2.
Proof. by rewrite <-list_fmap_compose. Qed.
Lemma lmap_cons x l : lmap (x :: l) = <[x.2 := Some x.1]> (lmap l).
Proof. reflexivity. Qed.
Lemma lmap_lookup l x : NoDup l.*2 → x ∈ l → lmap l !! x.2 = Some (Some x.1).
Proof.
  intros Hnd Hx. apply elem_of_list_to_map_1; [by rewrite lmap_keys|].
  apply list_elem_of_fmap. eauto.
Qed.
Lemma lmap_None l k : k ∉ l.*2 → lmap l !! k = None.
Proof. intros Hk. apply not_elem_of_list_to_map_1. by rewrite lmap_keys. Qed.
Lemma lmap_perm l l' : NoDup l.*2 → l ≡ₚ l' → lmap l = lmap l'.
Proof.
  intros Hnd Hp. apply list_to_map_proper; [by rewrite lmap_keys|]. by rewrite Hp.
Qed.
Lemma lmap_delete l1 x l2 :
  NoDup (l1 ++ x :: l2).*2 → delete x.2 (lmap (l1 ++ x :: l2)) = lmap (l1 ++ l2).
Proof.
  intros Hnd. assert (l1 ++ x :: l2 ≡ₚ x :: l1 ++ l2) as Hp by by rewrite Permutation_middle.
  rewrite (lmap_perm _ _ Hnd Hp), lmap_cons. rewrite Hp, fmap_cons, NoDup_cons in Hnd.
  by rewrite delete_insert_id by (apply lmap_None, Hnd).
Qed.
End lmap.

Section Policies.
Context `{Config} `{Malloc} {D : Type} `{!BlockDev D}.
Implicit Types (s : vmem D) (c : core D) (V : Z → list Z).
Abbreviation MV := (M (vmem D)).

(** The access bits after a fault. *)
Definition next_bits (b : Z) : Z := if b =? 0 then PROT_READ else PROT_RW.

(** [inv n] holds in the states from which [n] more faults are fine. *)
Class PolicyOk (h : Z → MV unit) (inv : Z → vmem D → Prop) : Prop := {
  po_mono n m s : m <= n → inv n s → inv m s;
  po_stable n s m : inv n s → len m = len (physmem (vc s)) →
    inv n (put_vc (put_physmem m (vc s)) s);
  po_handler s V n page Q :
    coherent (vc s) V → inv (n + 1) s → 0 <= n → in_range (vc s) page →
    bits_of (vc s) page ≠ PROT_RW →
    (∀ s', coherent (vc s') V → inv n s' → same_env (vc s) (vc s') →
       bits_of (vc s') page = next_bits (bits_of (vc s) page) → Q tt s') →
    wp (h page) s Q;
}.

(** ** The resident pages *)

(** [K] lists the resident pages; with fewer than [nframes] of them, the
    frames from [startFrame + len K] on are free. *)
Record tracked c (K : list Z) : Prop := {
  tk_nframes : 0 < nframes (pt c);
  tk_end : endFrame c = startFrame c + nframes (pt c);
  tk_u64 : endFrame c < 2 ^ 64;
  tk_nodup : NoDup K;
  tk_resident p : resident c p ↔ p ∈ K;
  tk_len : len K <= nframes (pt c);
}.
Definition compact c (K : list Z) : Prop := ∀ p, p ∈ K → map_of c p < startFrame c + len K.

Lemma tracked_perm c K K' : tracked c K → K ≡ₚ K' → tracked c K'.
Proof.
  intros [] Hp. split; try done.
  - by rewrite <-Hp.
  - intros p. rewrite <-Hp. done.
  - unfold len. rewrite <-Hp. done.
Qed.
Lemma compact_perm c K K' : compact c K → K ≡ₚ K' → compact c K'.
Proof. intros Hc Hp p. unfold len. rewrite <-Hp. apply Hc. Qed.

Lemma resident_env c c' p : same_env c c' → resident c' p ↔ in_range c p ∧ bits_of c' p ≠ 0.
Proof. intros He. unfold resident, in_range. by rewrite (se_npages _ _ He). Qed.
Lemma resident_bits c p : in_range c p → bits_of c p ≠ 0 → resident c p.
Proof. by split. Qed.

Lemma tracked_install c c' K page i :
  tracked c K → compact c K → in_range c page → bits_of c page = 0 →
  len K < nframes (pt c) → i = startFrame c + len K →
  entry_switch c c' page i PROT_READ → tracked c' (page :: K) ∧ compact c' (page :: K).
Proof.
  intros [Hnf Hend Hu Hnd Hres Hlen] Hcm Hp Hb Hlt -> [He Hbits Hmap].
  assert (page ∉ K) as Hn by (rewrite <-Hres; intros []; done).
  split; [split|].
  - by rewrite (se_nframes _ _ He).
  - by rewrite (se_nframes _ _ He), (se_start _ _ He), (se_end _ _ He).
  - by rewrite (se_end _ _ He).
  - by constructor.
  - intros p. rewrite (resident_env _ _ _ He), Hbits, elem_of_cons, <-Hres. unfold resident.
    case_decide as E; [subst; split; [by left|done]|tauto].
  - rewrite (se_nframes _ _ He). len_lia.
  - intros p Hin. rewrite Hmap, (se_start _ _ He), len_cons. case_decide; [lia|].
    apply elem_of_cons in Hin as [->|Hin]; [done|]. specialize (Hcm p Hin). lia.
Qed.

Lemma tracked_swap c c' K t page V :
  coherent c V → tracked c (t :: K) → len (t :: K) = nframes (pt c) →
  in_range c page → bits_of c page = 0 →
  page_swap c c' page t → tracked c' (page :: K) ∧ compact c' (page :: K).
Proof.
  intros Hc [Hnf Hend Hu Hnd Hres Hlen] Hfull Hp Hb [He Hbits Hmap].
  assert (page ∉ t :: K) as Hn by (rewrite <-Hres; intros []; done).
  apply not_elem_of_cons in Hn as [Hpt Hn]. apply NoDup_cons in Hnd as [HtK Hnd].
  split; [split|].
  - by rewrite (se_nframes _ _ He).
  - by rewrite (se_nframes _ _ He), (se_start _ _ He), (se_end _ _ He).
  - by rewrite (se_end _ _ He).
  - by constructor.
  - intros p. rewrite (resident_env _ _ _ He), Hbits, elem_of_cons.
    specialize (Hres p). rewrite elem_of_cons in Hres. unfold resident in Hres.
    destruct (decide (p = t)) as [->|Ht]; [split; [by intros []|by intros [->|?]]|].
    destruct (decide (p = page)) as [->|Hpp]; [split; [by left|done]|].
    rewrite Hres. tauto.
  - rewrite (se_nframes _ _ He). len_lia.
  - intros p Hin. rewrite Hmap, (se_start _ _ He).
    replace (len (page :: K)) with (nframes (pt c)) by len_lia. rewrite <-Hend.
    case_decide.
    + apply (co_frame _ _ Hc), Hres. left.
    + apply elem_of_cons in Hin as [->|Hin]; [done|]. apply (co_frame _ _ Hc), Hres. by right.
Qed.

Lemma tracked_upgrade c c' K page :
  tracked c K → resident c page →
  entry_switch c c' page (map_of c page) PROT_RW →
  tracked c' K ∧ (compact c K → compact c' K).
Proof.
  intros [Hnf Hend Hu Hnd Hres Hlen] Hp [He Hbits Hmap]. split; [split|]; try done.
  - by rewrite (se_nframes _ _ He).
  - by rewrite (se_nframes _ _ He), (se_start _ _ He), (se_end _ _ He).
  - by rewrite (se_end _ _ He).
  - intros p. rewrite (resident_env _ _ _ He), Hbits, <-Hres. unfold resident.
    case_decide; subst; [|done]. by destruct Hp.
  - by rewrite (se_nframes _ _ He).
  - intros Hcm p Hin. rewrite Hmap, (se_start _ _ He). specialize (Hcm p Hin).
    case_decide; subst; done.
Qed.

(** ** Calls into the components *)

Lemma wp_onC {A} (m : M (core D) A) s Q :
  wp (onC m) s Q = wp m (vc s) (λ a c, Q a (put_vc c s)).
Proof. apply wp_zoom. Qed.
Lemma wp_onD {A} (m : M dllList A) s Q :
  wp (onD m) s Q = wp m (dllL s) (λ a d, Q a (put_dllL d s)).
Proof. apply wp_zoom. Qed.
Lemma wp_onF {A} (m : M freqList A) s Q :
  wp (onF m) s Q = wp m (freqL s) (λ a d, Q a (put_freqL d s)).
Proof. apply wp_zoom. Qed.
Lemma wp_onH {A} (m : Z → M hashTable A) s Q :
  wp (onH m) s Q = wp (m (nframes_of s)) (hashT s) (λ a h, Q a (put_hashT h s)).
Proof. unfold onH. apply wp_zoom. Qed.

Lemma coherent_faults c V x : coherent c V → coherent (put_pageFaults x c) V.
Proof. intros [[] ? ? ? ? ? ?]. split; try done. Qed.
Lemma tracked_faults c K x : tracked c K → tracked (put_pageFaults x c) K.
Proof. intros []. by split. Qed.

(** The first lines of every handler: count the fault, look the page up. *)
Lemma wp_fault {A} s V page (k : Z * Z → MV A) Q :
  coherent (vc s) V → in_range (vc s) page →
  wp (k (map_of (vc s) page, bits_of (vc s) page))
     (put_vc (put_pageFaults (u64 (pageFaults (vc s) + 1)) (vc s)) s) Q →
  wp (onC bumpFaults;; x ← onC (page_table_get_entry page); k x) s Q.
Proof.
  intros Hc Hp HQ. rewrite wp_bind, wp_onC. unfold bumpFaults at 1. rewrite wp_modify.
  rewrite wp_bind, wp_onC. apply wp_page_table_get_entry; [|done|by destruct s].
  apply (co_shape _ _ (coherent_faults _ _ _ Hc)).
Qed.

Lemma fault_eq {A} s V page (k : Z * Z → MV A) :
  coherent (vc s) V → in_range (vc s) page →
  (onC bumpFaults;; x ← onC (page_table_get_entry page); k x) s =
  k (map_of (vc s) page, bits_of (vc s) page)
    (put_vc (put_pageFaults (u64 (pageFaults (vc s) + 1)) (vc s)) s).
Proof.
  intros Hc Hp. pose proof (co_shape _ _ Hc) as [Hm Hb _ _ _ _ _ _]. red in Hp.
  assert (0 <= page < len (page_mapping (pt (vc s)))) as [f Hf]%idx_is_Some by (by rewrite Hm).
  assert (0 <= page < len (page_bits (pt (vc s)))) as [b Hbb]%idx_is_Some by (by rewrite Hb).
  unfold map_of, bits_of. rewrite Hf, Hbb. destruct s as [c h dl fl fs fp rc rl po]. simpl in *.
  unfold mbind, M_bind, onC, zoom, bumpFaults, page_table_get_entry, modify, gets, aload,
    mbind, M_bind, mret, M_ret. simpl.
  rewrite (proj2 (Z.leb_gt _ page)) by lia. cbn [pt put_pageFaults]. rewrite Hf. cbn [pt put_pageFaults]. by rewrite Hbb.
Qed.

(** A handler is the common prefix and a body [k]; the body may assume the
    fault is counted and the entry read. *)
Lemma policy_intro (h : Z → MV unit) (inv : Z → vmem D → Prop) (k : Z → Z * Z → MV unit) :
  (∀ page, h page = (onC bumpFaults;; x ← onC (page_table_get_entry page); k page x)) →
  (∀ n m s, m <= n → inv n s → inv m s) →
  (∀ n s m, inv n s → len m = len (physmem (vc s)) →
     inv n (put_vc (put_physmem m (vc s)) s)) →
  (∀ n s x, inv n s → inv n (put_vc (put_pageFaults x (vc s)) s)) →
  (∀ s V n page Q,
    coherent (vc s) V → inv (n + 1) s → 0 <= n → in_range (vc s) page →
    bits_of (vc s) page ≠ PROT_RW →
    (∀ s', coherent (vc s') V → inv n s' → same_env (vc s) (vc s') →
       bits_of (vc s') page = next_bits (bits_of (vc s) page) → Q tt s') →
    wp (k page (map_of (vc s) page, bits_of (vc s) page)) s Q) →
  PolicyOk h inv.
Proof.
  intros Hh Hmono Hphys Hfaults Hk. split; [done..|]. intros s V n page Q Hc Hi Hn Hp Hb HQ.
  rewrite Hh. eapply wp_fault; [done..|].
  set (x := u64 (pageFaults (vc s) + 1)).
  apply (Hk (put_vc (put_pageFaults x (vc s)) s) V n page Q); try done.
  - by apply coherent_faults.
  - by apply Hfaults.
  - intros s' ? ? [] ?. by apply HQ.
Qed.

(** ** LRU and FFIFO: the recency list *)

(** [l] lists the nodes, front first. *)
Record dll_tracks s (l : list (loc * Z)) : Prop := {
  dt_dll : dll_rep (dllL s) l;
  dt_hash : ht_models (nframes_of s) (hashT s) (lmap l);
}.
Definition lru_at s (l : list (loc * Z)) : Prop :=
  dll_tracks s l ∧ tracked (vc s) l.*2 ∧ compact (vc s) l.*2.
Definition lru_inv (_ : Z) s : Prop := ∃ l, lru_at s l.

Lemma len_fmap2 (l : list (loc * Z)) : len l.*2 = len l.
Proof. unfold len. by rewrite length_fmap. Qed.

(** [insertHashNode(page, createdllListNode(page))] *)
Lemma wp_dll_new s l page Q :
  dll_tracks s l → len l + 1 < 2 ^ 64 → page ∉ l.*2 →
  (∀ p d' h', let s' := put_hashT h' (put_dllL d' s) in
     dll_tracks s' ((p, page) :: l) → Q tt s') →
  wp (node ← onD (createdllListNode page); onH (λ nf, insertHashNode nf page node)) s Q.
Proof.
  intros [Hd Hh] Hlen Hp HQ. rewrite wp_bind, wp_onD.
  eapply wp_createdllListNode; [done|done|]. intros p d' Hpl Hd'. rewrite wp_onH.
  eapply wp_insertHashNode; [exact Hh|by apply lmap_None|]. intros h' Hh'.
  apply (HQ p d' h'). by split.
Qed.

(** The victim is the last node of the list: [deleteHashNode] and
    [deletedllListNode] on [dllList->tail]. *)
Lemma wp_dll_evict {A} s l x (k : MV A) Q :
  dll_tracks s (l ++ [x]) → NoDup (l ++ [x]).*2 → len (l ++ [x]) < 2 ^ 64 →
  (∀ d' h', let s' := put_dllL d' (put_hashT h' s) in dll_tracks s' l → wp k s' Q) →
  wp (onH (λ nf, deleteHashNode nf x.2);;
      tail ← gets (λ s, dl_tail (dllL s)); onD (deletedllListNode tail);; k) s Q.
Proof.
  intros [Hd Hh] Hnd Hlen HQ. rewrite wp_bind, wp_onH.
  eapply wp_deleteHashNode; [exact Hh|]. intros h' Hh'.
  rewrite lmap_delete, app_nil_r in Hh' by done.
  rewrite wp_bind, wp_gets. simpl. rewrite (dr_tail _ _ Hd), last_ptr_app. simpl.
  rewrite wp_bind, wp_onD. eapply wp_deletedllListNode; [exact Hd|done|].
  rewrite app_nil_r. intros d' Hd'. apply HQ. by split.
Qed.

Lemma dll_tail_node s l x :
  dll_rep (dllL s) (l ++ [x]) →
  dl_tail (dllL s) = Some x.1 ∧ ∃ n p, dl_heap (dllL s) !! x.1 = Some (DllNode x.2 n p).
Proof.
  intros Hd. split; [by rewrite (dr_tail _ _ Hd), last_ptr_app|].
  pose proof (dseg_mid _ _ _ _ _ _ (dr_seg _ _ Hd)) as Hx. eauto.
Qed.

Lemma wp_deleteLRU s l x q Q :
  dll_tracks s (l ++ [x]) → NoDup (l ++ [x]).*2 → len (l ++ [x]) < 2 ^ 64 →
  (∀ d' h', let s' := put_dllL d' (put_hashT h' s) in dll_tracks s' l → Q x.2 s') →
  wp (deleteLRU q) s Q.
Proof.
  intros Ht Hnd Hlen HQ. pose proof (dll_tail_node _ _ _ (dt_dll _ _ Ht)) as [Etl (n & p & Hx)].
  unfold deleteLRU. rewrite wp_bind, wp_gets, Etl. simpl. rewrite wp_bind, wp_onD.
  eapply wp_load; [exact Hx|]. replace (put_dllL (dllL s) s) with s by by destruct s.
  simpl. by eapply wp_dll_evict.
Qed.

(** The branch for a free frame and the branch for a full memory. *)
Lemma wp_lru_install s V l page Q :
  coherent (vc s) V → dll_tracks s l → tracked (vc s) l.*2 → compact (vc s) l.*2 →
  in_range (vc s) page → bits_of (vc s) page = 0 → len l < nframes_of s →
  (∀ s' p, coherent (vc s') V → lru_at s' ((p, page) :: l) → same_env (vc s) (vc s') →
     bits_of (vc s') page = PROT_READ → Q tt s') →
  wp (node ← onD (createdllListNode page);
      onH (λ nf, insertHashNode nf page node);;
      onC (installPage page (u64 (dl_count (dllL s) + startFrame (vc s))))) s Q.
Proof.
  intros Hc Hd Ht Hcm Hp Hb Hlt HQ. rewrite (dr_count _ _ (dt_dll _ _ Hd)).
  pose proof (len_nonneg l). pose proof (sh_frames _ (co_shape _ _ Hc)) as [??].
  pose proof (tk_u64 _ _ Ht). pose proof (tk_end _ _ Ht). unfold nframes_of in *.
  assert (page ∉ l.*2) as Hn by (rewrite <-(tk_resident _ _ Ht); by intros []).
  rewrite u64_small by lia.
  pose proof (wp_dll_new s l page (λ _ s', wp (onC (installPage page (len l + startFrame (vc s)))) s' Q)) as Hnew.
  rewrite wp_bind in Hnew |- *. eapply wp_mono; [apply Hnew; [done|lia|done|]|].
  - intros p d' h' s' Hd'. rewrite wp_onC. simpl. apply wp_installPage with (V := V); [done..|lia| |].
    + intros q Hq%(tk_resident _ _ Ht). specialize (Hcm q Hq). rewrite len_fmap2 in Hcm. lia.
    + intros c' Hc' Hsw. pose proof (es_env _ _ _ _ _ Hsw) as He.
      apply (HQ _ p); simpl; [done| |done|by rewrite (es_bits _ _ _ _ _ Hsw), decide_True].
      destruct Hd' as [Hd' Hh']. unfold lru_at. rewrite fmap_cons. cbn [snd]. split.
      * split; [done|]. unfold nframes_of in *. simpl in *. by rewrite (se_nframes _ _ He).
      * apply (tracked_install (vc s) c' l.*2 page (len l + startFrame (vc s)));
          rewrite ?len_fmap2; try done; lia.
  - intros node s' Hs'. rewrite wp_bind. exact Hs'.
Qed.

Lemma wp_lru_replace s V l x page Q :
  coherent (vc s) V → dll_tracks s l → tracked (vc s) (x :: l.*2) →
  in_range (vc s) page → bits_of (vc s) page = 0 → len l + 1 = nframes_of s →
  (∀ s' p, coherent (vc s') V → lru_at s' ((p, page) :: l) → same_env (vc s) (vc s') →
     bits_of (vc s') page = PROT_READ → Q tt s') →
  wp (_ ← onC (replacePage page x);
      node ← onD (createdllListNode page);
      onH (λ nf, insertHashNode nf page node)) s Q.
Proof.
  intros Hc Hd Ht Hp Hb Hfull HQ. pose proof (sh_frames _ (co_shape _ _ Hc)) as [??].
  pose proof (tk_u64 _ _ Ht). pose proof (tk_end _ _ Ht). unfold nframes_of in *.
  assert (page ∉ x :: l.*2) as Hn by (rewrite <-(tk_resident _ _ Ht); by intros []).
  assert (resident (vc s) x) as Hx by (apply (tk_resident _ _ Ht); left).
  rewrite wp_bind, wp_onC. apply wp_replacePage with (V := V); [done..|].
  intros c' Hc' Hsw. pose proof (ps_env _ _ _ _ Hsw) as He.
  apply wp_dll_new with (l := l).
  - destruct Hd. split; [done|]. unfold nframes_of in *. simpl. by rewrite (se_nframes _ _ He).
  - pose proof (se_nframes _ _ He). lia.
  - by apply not_elem_of_cons in Hn as [_ ?].
  - intros p d' h' s' Hd'. apply (HQ _ p); simpl; [done| |done|].
    + unfold lru_at. rewrite fmap_cons. cbn [snd]. split; [done|].
      apply (tracked_swap (vc s) c' l.*2 x page V); try done.
      rewrite len_cons, len_fmap2. lia.
    + rewrite (ps_bits _ _ _ _ Hsw), decide_False, decide_True; [done..|].
      by apply not_elem_of_cons in Hn as [? _].
Qed.

Lemma lru_at_faults s l x : lru_at s l → lru_at (put_vc (put_pageFaults x (vc s)) s) l.
Proof.
  intros ([Hd Hh] & Ht & Hcm). split; [by split|]. split; [|done]. by apply tracked_faults.
Qed.
Lemma lru_inv_physmem n s m : lru_inv n s → lru_inv n (put_vc (put_physmem m (vc s)) s).
Proof.
  intros (l & [Hd Hh] & [] & Hcm). exists l. split; [by split|]. split; [|done]. by split.
Qed.

(** A full recency list has a last node, and its page is resident. *)
Lemma lru_full s l :
  tracked (vc s) l.*2 → ¬ len l < nframes_of s →
  ∃ l' (x : loc * Z), l = l' ++ [x] ∧ tracked (vc s) (x.2 :: l'.*2) ∧ len l' + 1 = nframes_of s.
Proof.
  intros Ht Hge. pose proof (tk_nframes _ _ Ht) as Hnf. pose proof (tk_len _ _ Ht) as Hlen.
  rewrite len_fmap2 in Hlen. unfold nframes_of in *.
  destruct l as [|x l _] using rev_ind; [rewrite len_nil in *; lia|].
  exists l, x. split; [done|]. split; [|len_lia].
  eapply tracked_perm; [exact Ht|]. by rewrite fmap_app, Permutation_app_comm.
Qed.

Lemma tracked_range s V p :
  coherent (vc s) V → bits_of (vc s) p ≠ 0 → in_range (vc s) p → resident (vc s) p.
Proof. by split. Qed.

Lemma dll_tracks_env s l c' :
  dll_tracks s l → same_env (vc s) c' → dll_tracks (put_vc c' s) l.
Proof.
  intros [Hd Hh] He. split; [done|]. unfold nframes_of. simpl.
  by rewrite (se_nframes _ _ He).
Qed.

(** The upgrade to writable, after the list was reordered to [l]. *)
Lemma wp_lru_upgrade s V l page Q :
  coherent (vc s) V → dll_tracks s l → tracked (vc s) l.*2 → compact (vc s) l.*2 →
  resident (vc s) page →
  (∀ s', coherent (vc s') V → lru_at s' l → same_env (vc s) (vc s') →
     bits_of (vc s') page = PROT_RW → Q tt s') →
  wp (onC (page_table_set_entry page (map_of (vc s) page) PROT_RW)) s Q.
Proof.
  intros Hc Hd Ht Hcm Hp HQ. rewrite wp_onC. apply wp_upgrade with (V := V); [done..|].
  intros c' Hc' Hsw _. pose proof (es_env _ _ _ _ _ Hsw) as He.
  apply HQ; simpl; [done| |done|by rewrite (es_bits _ _ _ _ _ Hsw), decide_True].
  destruct (tracked_upgrade (vc s) c' l.*2 page) as [Ht' Hcm']; [done..|].
  split; [by apply dll_tracks_env|]. split; [done|by apply Hcm'].
Qed.

(** The abstract policies, on the list of resident pages. LRU moves a page
    to the front when it is used (that is, when it faults); FFIFO does not.
    Both drop the last page when the memory is full. *)
Definition push_page (nf : Z) (K : list Z) (page : Z) : list Z :=
  if len K <? nf then page :: K else page :: removelast K.
Definition lru_step (nf : Z) (K : list Z) (page : Z) : list Z :=
  if decide (page ∈ K) then page :: filter (λ k, k ≠ page) K else push_page nf K page.
Definition ffifo_step (nf : Z) (K : list Z) (page : Z) : list Z :=
  if decide (page ∈ K) then K else push_page nf K page.

Lemma push_page_room nf (l : list (loc * Z)) p page :
  len l < nf → ((p, page) :: l).*2 = push_page nf l.*2 page.
Proof.
  intros Hlt. unfold push_page. rewrite len_fmap2, (proj2 (Z.ltb_lt _ _)) by lia. done.
Qed.
Lemma push_page_full nf (l : list (loc * Z)) x p page :
  nf <= len (l ++ [x]) → ((p, page) :: l).*2 = push_page nf (l ++ [x]).*2 page.
Proof.
  intros Hge. unfold push_page. rewrite len_fmap2, (proj2 (Z.ltb_ge _ _)) by lia.
  rewrite fmap_app. change ([x].*2) with [x.2]. by rewrite removelast_last.
Qed.
Lemma filter_all (P : Z → Prop) `{!∀ x, Decision (P x)} (K : list Z) :
  (∀ k, k ∈ K → P k) → filter P K = K.
Proof.
  induction K as [|k K IH]; intros HK; [done|].
  rewrite filter_cons_True by (apply HK; left). f_equal. apply IH. intros j Hj. apply HK. by right.
Qed.
Lemma filter_mid (l1 : list (loc * Z)) x l2 :
  NoDup (l1 ++ x :: l2).*2 → filter (λ k, k ≠ x.2) (l1 ++ x :: l2).*2 = (l1 ++ l2).*2.
Proof.
  intros Hnd. rewrite !fmap_app, fmap_cons in *.
  apply NoDup_app in Hnd as (_ & Hd & [Hx _]%NoDup_cons).
  rewrite filter_app, filter_cons_False by tauto. f_equal; apply filter_all.
  - intros k Hk ->. apply (Hd _ Hk). left.
  - by intros k Hk ->.
Qed.

Lemma resident_tracked s V K page :
  coherent (vc s) V → tracked (vc s) K → in_range (vc s) page →
  page ∈ K ↔ bits_of (vc s) page ≠ 0.
Proof. intros Hc Ht Hp. rewrite <-(tk_resident _ _ Ht). unfold resident. tauto. Qed.

(** The common prefix, for a handler of the recency list. *)
Lemma wp_fault_at s V l step page (k : Z * Z → MV unit) Q :
  coherent (vc s) V → lru_at s l → in_range (vc s) page →
  (∀ s' l', coherent (vc s') V → lru_at s' l' → same_env (vc s) (vc s') →
     bits_of (vc s') page = next_bits (bits_of (vc s) page) →
     l'.*2 = step (nframes_of s) l.*2 page → Q tt s') →
  (∀ s, coherent (vc s) V → lru_at s l → in_range (vc s) page →
     (∀ s' l', coherent (vc s') V → lru_at s' l' → same_env (vc s) (vc s') →
        bits_of (vc s') page = next_bits (bits_of (vc s) page) →
        l'.*2 = step (nframes_of s) l.*2 page → Q tt s') →
     wp (k (map_of (vc s) page, bits_of (vc s) page)) s Q) →
  wp (onC bumpFaults;; x ← onC (page_table_get_entry page); k x) s Q.
Proof.
  intros Hc Hat Hp HQ Hk. eapply wp_fault; [done..|].
  apply (Hk (put_vc (put_pageFaults _ (vc s)) s)); [by apply coherent_faults| |done|].
  - by apply lru_at_faults.
  - intros s' l' ? ? [] ? ?. by apply (HQ s' l').
Qed.

Lemma wp_FFIFO_handler s V l page Q :
  coherent (vc s) V → lru_at s l → in_range (vc s) page →
  (∀ s' l', coherent (vc s') V → lru_at s' l' → same_env (vc s) (vc s') →
     bits_of (vc s') page = next_bits (bits_of (vc s) page) →
     l'.*2 = ffifo_step (nframes_of s) l.*2 page → Q tt s') →
  wp (FFIFO_page_fault_handler page) s Q.
Proof.
  intros Hc0 Hat0 Hp0 HQ0. eapply wp_fault_at; [done..|]. clear s Hc0 Hat0 Hp0 HQ0.
  intros s Hc (Hd & Ht & Hcm) Hp HQ. unfold next_bits, ffifo_step in HQ. cbn beta iota.
  pose proof (resident_tracked _ _ _ _ Hc Ht Hp) as Hin.
  destruct (Z.eqb_spec (bits_of (vc s) page) 0) as [Hb|Hb].
  2: { rewrite decide_True in HQ by tauto. eapply wp_lru_upgrade; try done. intros; by eapply HQ. }
  rewrite decide_False in HQ by tauto.
  rewrite wp_bind, wp_gets, wp_bind, wp_gets, (dr_count _ _ (dt_dll _ _ Hd)).
  destruct (Z.ltb_spec (len l) (nframes_of s)) as [Hlt|Hge].
  - rewrite wp_bind, wp_gets, <-(dr_count _ _ (dt_dll _ _ Hd)). eapply wp_lru_install; try done.
    intros s' p ? ? ? ?. eapply HQ; try done. by apply push_page_room.
  - destruct (lru_full _ _ Ht) as (l' & y & -> & Ht' & Hlen); [lia|].
    pose proof (dll_tail_node _ _ _ (dt_dll _ _ Hd)) as [Etl (nx & pv & Hx)].
    rewrite wp_bind, wp_gets, Etl, wp_bind, wp_onD. eapply wp_load; [exact Hx|].
    replace (put_dllL (dllL s) s) with s by by destruct s. cbn [dn_key mkn dll_node].
    pose proof (tk_u64 _ _ Ht). pose proof (tk_end _ _ Ht).
    pose proof (sh_frames _ (co_shape _ _ Hc)). unfold nframes_of in *.
    eapply wp_dll_evict; [done|apply Ht|len_lia|]. intros d' h' s' Hd'.
    eapply (wp_lru_replace s' V l' y.2 page); try done.
    intros s'' p ? ? ? ?. eapply HQ; try done. by apply push_page_full.
Qed.

Lemma wp_LRU_handler s V l page Q :
  coherent (vc s) V → lru_at s l → in_range (vc s) page →
  (∀ s' l', coherent (vc s') V → lru_at s' l' → same_env (vc s) (vc s') →
     bits_of (vc s') page = next_bits (bits_of (vc s) page) →
     l'.*2 = lru_step (nframes_of s) l.*2 page → Q tt s') →
  wp (LRU_page_fault_handler page) s Q.
Proof.
  intros Hc0 Hat0 Hp0 HQ0. eapply wp_fault_at; [done..|]. clear s Hc0 Hat0 Hp0 HQ0.
  intros s Hc (Hd & Ht & Hcm) Hp HQ. unfold next_bits, lru_step in HQ. cbn beta iota.
  pose proof (resident_tracked _ _ _ _ Hc Ht Hp) as Hin.
  destruct (Z.eqb_spec (bits_of (vc s) page) 0) as [Hb|Hb].
  - rewrite decide_False in HQ by tauto.
    rewrite wp_bind, wp_gets, wp_bind, wp_gets, (dr_count _ _ (dt_dll _ _ Hd)).
    destruct (Z.ltb_spec (len l) (nframes_of s)) as [Hlt|Hge].
    + rewrite wp_bind, wp_gets, <-(dr_count _ _ (dt_dll _ _ Hd)). eapply wp_lru_install; try done.
      intros s' p ? ? ? ?. eapply HQ; try done. by apply push_page_room.
    + destruct (lru_full _ _ Ht) as (l' & y & -> & Ht' & Hlen); [lia|]. rewrite wp_bind.
      pose proof (tk_u64 _ _ Ht). pose proof (tk_end _ _ Ht).
      pose proof (sh_frames _ (co_shape _ _ Hc)). unfold nframes_of in *.
      eapply wp_deleteLRU; [done|apply Ht|len_lia|]. intros d' h' s' Hd'.
      eapply (wp_lru_replace s' V l' y.2 page); try done.
      intros s'' p ? ? ? ?. eapply HQ; try done. by apply push_page_full.
  - rewrite decide_True in HQ by tauto.
    assert (page ∈ l.*2) as (y & -> & Hx)%list_elem_of_fmap by tauto.
    rewrite wp_bind, wp_onH. eapply wp_getHashNode; [apply Hd|by apply lmap_lookup, Hx; apply Ht|].
    replace (put_hashT (hashT s) s) with s by by destruct s.
    apply list_elem_of_split in Hx as (l1 & l2 & ->).
    rewrite wp_bind, wp_onD. eapply wp_moveListNodeToFront; [apply Hd|]. intros d' Hd'.
    assert (l1 ++ y :: l2 ≡ₚ y :: l1 ++ l2) as Hperm by by rewrite Permutation_middle.
    apply (wp_lru_upgrade (put_dllL d' s) V (y :: l1 ++ l2) y.2); simpl; try done.
    + split; [done|]. simpl. destruct Hd as [_ Hh].
      by rewrite (lmap_perm _ _ (tk_nodup _ _ Ht) Hperm) in Hh.
    + eapply tracked_perm; [exact Ht|]. by rewrite Hperm.
    + eapply compact_perm; [exact Hcm|]. by rewrite Hperm.
    + intros s' ? ? ? ?. eapply HQ; try done.
      by rewrite fmap_cons, filter_mid by apply Ht.
Qed.

#[export] Instance FFIFO_policy : PolicyOk FFIFO_page_fault_handler lru_inv.
Proof.
  split; [done|by intros; apply lru_inv_physmem|].
  intros s V n page Q Hc (l & Hat) _ Hp _ HQ. eapply wp_FFIFO_handler; try done.
  intros s' l' ? ? ? ? _. apply HQ; try done. by exists l'.
Qed.
#[export] Instance LRU_policy : PolicyOk LRU_page_fault_handler lru_inv.
Proof.
  split; [done|by intros; apply lru_inv_physmem|].
  intros s V n page Q Hc (l & Hat) _ Hp _ HQ. eapply wp_LRU_handler; try done.
  intros s' l' ? ? ? ? _. apply HQ; try done. by exists l'.
Qed.

(** ** LFU: the frequency list *)

(** Faults are the only uses the handler sees: a resident page is counted 0
    until it is first written, and 1 afterwards. *)
Definition use_of c (p : Z) : Z := if bits_of c p =? PROT_READ then 0 else 1.

Record lfu_tracks s (G : list group) : Prop := {
  lt_freq : freq_rep (freqL s) G;
  lt_hash : ht_models (nframes_of s) (hashT s) (lmap (counted G).*1);
}.
Definition uses_ok c (L : list (loc * Z * Z)) : Prop :=
  ∀ x u, (x, u) ∈ L → u = use_of c x.2.
Definition lfu_inv (_ : Z) s : Prop :=
  ∃ G, lfu_tracks s G ∧ tracked (vc s) (counted G).*1.*2 ∧ compact (vc s) (counted G).*1.*2 ∧
    uses_ok (vc s) (counted G).

Lemma len_fmap12 (l : list (loc * Z * Z)) : len l.*1.*2 = len l.
Proof. unfold len. by rewrite !length_fmap. Qed.

Lemma freq_count (s : freqList) G : freq_rep s G → fl_count s = len (counted G).
Proof. intros [_ -> _ _ _]. by rewrite len_counted. Qed.

Lemma wp_lfu_new s G page Q :
  lfu_tracks s G → NoDup (counted G).*1.*2 → len (counted G) + 1 < 2 ^ 64 →
  page ∉ (counted G).*1.*2 →
  (∀ p f' h' G', let s' := put_hashT h' (put_freqL f' s) in
     lfu_tracks s' G' → counted G' ≡ₚ ((p, page), 0) :: counted G → Q tt s') →
  wp (node ← onF (createlfuListNode page); onH (λ nf, insertHashNode nf page node)) s Q.
Proof.
  intros [Hf Hh] Hnd Hlen Hp HQ. rewrite wp_bind, wp_onF.
  eapply wp_createlfuListNode; [done|done|]. intros p f' G' Hf' HG'. rewrite wp_onH.
  eapply wp_insertHashNode; [exact Hh|by apply lmap_None|]. intros h' Hh'.
  apply (HQ p f' h' G'); [|done]. split; [done|]. simpl.
  rewrite (lmap_perm _ (((p, page), 0) :: counted G).*1); [done| |by rewrite HG'].
  rewrite HG', !fmap_cons. by constructor.
Qed.

(** [deleteLFU] evicts a page of least use count. *)
Lemma wp_deleteLFU s G q Q :
  lfu_tracks s G → NoDup (counted G).*1.*2 → counted G ≠ [] → len (counted G) < 2 ^ 64 →
  (∀ f' h' x u G', let s' := put_freqL f' (put_hashT h' s) in
     lfu_tracks s' G' → counted G ≡ₚ (x, u) :: counted G' →
     (∀ y v, (y, v) ∈ counted G → u <= v) → Q x.2 s') →
  wp (deleteLFU q) s Q.
Proof.
  intros [Hf Hh] Hnd Hne Hlen HQ.
  destruct (freq_rep_victim _ _ Hf Hne)
    as (f & u & c1 & x & G2 & -> & Hhd & (nx & pv & hd & Hfn) & (nx' & pv' & pr & Hln) & Hmin).
  unfold deleteLFU, loadF, loadL. rewrite wp_bind, wp_gets, Hhd. simpl.
  rewrite wp_bind, wp_onF. eapply wp_load; [exact Hfn|].
  replace (put_freqL (freqL s) s) with s by by destruct s. simpl.
  rewrite wp_bind, wp_onF. eapply wp_load; [exact Hln|].
  replace (put_freqL (freqL s) s) with s by by destruct s. simpl.
  rewrite wp_bind, wp_onH. eapply wp_deleteHashNode; [exact Hh|]. intros h' Hh'.
  rewrite wp_bind, wp_gets. simpl. rewrite Hhd, wp_bind, wp_onF. eapply wp_load; [exact Hfn|].
  simpl. rewrite wp_bind, wp_onF. simpl. eapply wp_deletelfuListNode; [exact Hf|done|].
  intros f' G' Hf' HG'. rewrite wp_ret. eapply (HQ f' h' x u G'); [|done|done].
  split; [done|]. simpl. pose proof Hnd as Hnd'. rewrite HG', !fmap_cons in Hnd'.
  rewrite (lmap_perm _ ((x, u) :: counted G').*1) in Hh'; [|done|by rewrite HG'].
  rewrite fmap_cons, lmap_cons, delete_insert_id in Hh'; [done|].
  apply lmap_None. by apply NoDup_cons in Hnd' as [? _].
Qed.

Lemma lfu_inv_faults n s x : lfu_inv n s → lfu_inv n (put_vc (put_pageFaults x (vc s)) s).
Proof.
  intros (G & [Hd Hh] & Ht & Hcm & Hu). exists G. split; [by split|]. split_and!; [|done..].
  by apply tracked_faults.
Qed.
Lemma lfu_inv_physmem n s m : lfu_inv n s → lfu_inv n (put_vc (put_physmem m (vc s)) s).
Proof.
  intros (G & [Hd Hh] & [] & Hcm & Hu). exists G. split; [by split|]. split_and!; [|done..].
  by split.
Qed.

(** The use counts after a new page came in. *)
Lemma uses_ok_new c c' L L' p page :
  uses_ok c L → L' ≡ₚ ((p, page), 0) :: L → bits_of c' page = PROT_READ →
  (∀ x, x ∈ L.*1.*2 → bits_of c' x = bits_of c x) → uses_ok c' L'.
Proof.
  intros Hu HL Hb Hsame x u Hin. rewrite HL in Hin. unfold use_of.
  apply elem_of_cons in Hin as [[= -> ->]|Hin]; [simpl; by rewrite Hb|].
  rewrite Hsame; [by apply Hu|]. apply list_elem_of_fmap. exists x. split; [done|].
  apply list_elem_of_fmap. by exists (x, u).
Qed.

Lemma wp_lfu_install s V G page Q :
  coherent (vc s) V → lfu_tracks s G → tracked (vc s) (counted G).*1.*2 →
  compact (vc s) (counted G).*1.*2 → uses_ok (vc s) (counted G) →
  in_range (vc s) page → bits_of (vc s) page = 0 → len (counted G) < nframes_of s →
  (∀ s', coherent (vc s') V → lfu_inv 0 s' → same_env (vc s) (vc s') →
     bits_of (vc s') page = PROT_READ → Q tt s') →
  wp (node ← onF (createlfuListNode page);
      onH (λ nf, insertHashNode nf page node);;
      onC (installPage page (u64 (fl_count (freqL s) + startFrame (vc s))))) s Q.
Proof.
  intros Hc Hd Ht Hcm Hu Hp Hb Hlt HQ. rewrite (freq_count _ _ (lt_freq _ _ Hd)).
  pose proof (len_nonneg (counted G)). pose proof (sh_frames _ (co_shape _ _ Hc)) as [??].
  pose proof (tk_u64 _ _ Ht). pose proof (tk_end _ _ Ht). unfold nframes_of in *.
  assert (page ∉ (counted G).*1.*2) as Hn by (rewrite <-(tk_resident _ _ Ht); by intros []).
  rewrite u64_small by lia.
  pose proof (wp_lfu_new s G page (λ _ s',
    wp (onC (installPage page (len (counted G) + startFrame (vc s)))) s' Q)) as Hnew.
  rewrite wp_bind in Hnew |- *. eapply wp_mono; [apply Hnew; [done|apply Ht|lia|done|]|].
  - intros p f' h' G' s' Hd' HG'. rewrite wp_onC. simpl.
    apply wp_installPage with (V := V); [done..|lia| |].
    + intros q Hq%(tk_resident _ _ Ht). specialize (Hcm q Hq). rewrite len_fmap12 in Hcm. lia.
    + intros c' Hc' Hsw. pose proof (es_env _ _ _ _ _ Hsw) as He.
      pose proof (es_bits _ _ _ _ _ Hsw) as Hbits.
      apply HQ; simpl; [done| |done|by rewrite Hbits, decide_True].
      destruct (tracked_install (vc s) c' (counted G).*1.*2 page
        (len (counted G) + startFrame (vc s))) as [Ht' Hcm']; rewrite ?len_fmap12; try done;
        [lia|].
      assert (page :: (counted G).*1.*2 ≡ₚ (counted G').*1.*2) as Hperm by by rewrite HG'.
      exists G'. split_and!.
      * destruct Hd' as [? Hh']. split; [done|]. unfold nframes_of in *. simpl in *.
        by rewrite (se_nframes _ _ He).
      * by eapply tracked_perm.
      * by eapply compact_perm.
      * eapply uses_ok_new; [exact Hu|exact HG'|by rewrite Hbits, decide_True|].
        intros x Hx. rewrite Hbits, decide_False; [done|]. by intros ->.
  - intros node s' Hs'. rewrite wp_bind. exact Hs'.
Qed.

Lemma wp_lfu_replace s V G x page Q :
  coherent (vc s) V → lfu_tracks s G → tracked (vc s) (x :: (counted G).*1.*2) →
  uses_ok (vc s) (counted G) →
  in_range (vc s) page → bits_of (vc s) page = 0 → len (counted G) + 1 = nframes_of s →
  (∀ s', coherent (vc s') V → lfu_inv 0 s' → same_env (vc s) (vc s') →
     bits_of (vc s') page = PROT_READ → Q tt s') →
  wp (_ ← onC (replacePage page x);
      node ← onF (createlfuListNode page);
      onH (λ nf, insertHashNode nf page node)) s Q.
Proof.
  intros Hc Hd Ht Hu Hp Hb Hfull HQ. pose proof (sh_frames _ (co_shape _ _ Hc)) as [??].
  pose proof (tk_u64 _ _ Ht). pose proof (tk_end _ _ Ht). unfold nframes_of in *.
  assert (page ∉ x :: (counted G).*1.*2) as Hn by (rewrite <-(tk_resident _ _ Ht); by intros []).
  apply not_elem_of_cons in Hn as [Hpx Hn]. pose proof (tk_nodup _ _ Ht) as [HxG Hnd]%NoDup_cons.
  assert (resident (vc s) x) as Hx by (apply (tk_resident _ _ Ht); left).
  rewrite wp_bind, wp_onC. apply wp_replacePage with (V := V); [done..|].
  intros c' Hc' Hsw. pose proof (ps_env _ _ _ _ Hsw) as He.
  pose proof (ps_bits _ _ _ _ Hsw) as Hbits.
  apply wp_lfu_new with (G := G); [|done|pose proof (se_nframes _ _ He); lia|done|].
  - destruct Hd. split; [done|]. unfold nframes_of in *. simpl. by rewrite (se_nframes _ _ He).
  - intros p f' h' G' s' Hd' HG'.
    assert (page :: (counted G).*1.*2 ≡ₚ (counted G').*1.*2) as Hperm by by rewrite HG'.
    destruct (tracked_swap (vc s) c' (counted G).*1.*2 x page V) as [Ht' Hcm']; try done.
    { rewrite len_cons, len_fmap12. lia. }
    apply HQ; simpl; [done| |done|by rewrite Hbits, decide_False, decide_True].
    exists G'. split_and!; [done|by eapply tracked_perm|by eapply compact_perm|].
    eapply uses_ok_new; [exact Hu|exact HG'|by simpl; rewrite Hbits, decide_False, decide_True|].
    intros y Hy. simpl. rewrite Hbits, !decide_False; [done|by intros ->..].
Qed.

Lemma wp_lfu_upgrade s V G page Q :
  coherent (vc s) V → lfu_tracks s G → tracked (vc s) (counted G).*1.*2 →
  compact (vc s) (counted G).*1.*2 → uses_ok (vc s) (counted G) →
  bits_of (vc s) page = PROT_READ → resident (vc s) page →
  (∀ s', coherent (vc s') V → lfu_inv 0 s' → same_env (vc s) (vc s') →
     bits_of (vc s') page = PROT_RW → Q tt s') →
  wp (node ← onH (λ nf, getHashNode nf page); onF (moveNodeToNextFreq node);;
      onC (page_table_set_entry page (map_of (vc s) page) PROT_RW)) s Q.
Proof.
  intros Hc Hd Ht Hcm Hu Hb Hp HQ.
  assert (page ∈ (counted G).*1.*2) as Hin by by apply (tk_resident _ _ Ht).
  apply list_elem_of_fmap in Hin as (x & -> & Hin).
  pose proof Hin as (y & -> & Hy)%list_elem_of_fmap. destruct y as [x u]. simpl in *.
  assert (u = 0) as -> by (rewrite (Hu _ _ Hy); unfold use_of; by rewrite Hb).
  rewrite wp_bind, wp_onH. eapply wp_getHashNode; [apply Hd|by apply lmap_lookup, Hin; apply Ht|].
  replace (put_hashT (hashT s) s) with s by by destruct s.
  rewrite wp_bind, wp_onF. eapply wp_moveNodeToNextFreq; [apply Hd|exact Hy|done|].
  intros f' G' R Hf' HR HR'. rewrite wp_onC. apply wp_upgrade with (V := V); [done..|].
  intros c' Hc' Hsw _. pose proof (es_env _ _ _ _ _ Hsw) as He.
  pose proof (es_bits _ _ _ _ _ Hsw) as Hbits.
  apply HQ; simpl; [done| |done|by rewrite Hbits, decide_True].
  destruct (tracked_upgrade (vc s) c' (counted G).*1.*2 x.2) as [Ht' Hcm']; [done..|].
  assert ((counted G).*1 ≡ₚ (counted G').*1) as Hperm by by rewrite HR, HR'.
  exists G'. split_and!.
  - split; [done|]. destruct Hd as [_ Hh]. unfold nframes_of in *. simpl.
    rewrite (se_nframes _ _ He). by rewrite (lmap_perm _ _ (tk_nodup _ _ Ht) Hperm) in Hh.
  - eapply tracked_perm; [exact Ht'|]. by rewrite Hperm.
  - eapply compact_perm; [by apply Hcm'|]. by rewrite Hperm.
  - intros y v Hyv. rewrite HR' in Hyv. unfold use_of. simpl. rewrite Hbits.
    apply elem_of_cons in Hyv as [[= -> ->]|Hyv]; [by rewrite decide_True|].
    rewrite decide_False.
    + apply Hu. rewrite HR. by right.
    + intros E. pose proof (tk_nodup _ _ Ht) as Hnd. rewrite HR, !fmap_cons in Hnd.
      apply NoDup_cons in Hnd as [Hnx _]. apply Hnx. cbn [fst]. rewrite <-E.
      apply list_elem_of_fmap. exists y. split; [done|].
      apply list_elem_of_fmap. by exists (y, v).
Qed.

#[export] Instance LFU_policy : PolicyOk LFU_page_fault_handler lfu_inv.
Proof.
  eapply policy_intro; [reflexivity|done|by intros; apply lfu_inv_physmem|apply lfu_inv_faults|].
  intros s V n page Q Hc (G & Hd & Ht & Hcm & Hu) _ Hp Hrw HQ. unfold next_bits in HQ.
  destruct (Z.eqb_spec (bits_of (vc s) page) 0) as [Hb|Hb].
  - rewrite wp_bind, wp_gets, wp_bind, wp_gets, (freq_count _ _ (lt_freq _ _ Hd)).
    destruct (Z.ltb_spec (len (counted G)) (nframes_of s)) as [Hlt|Hge].
    + rewrite wp_bind, wp_gets, <-(freq_count _ _ (lt_freq _ _ Hd)). by eapply wp_lfu_install.
    + pose proof (tk_u64 _ _ Ht). pose proof (tk_end _ _ Ht).
      pose proof (sh_frames _ (co_shape _ _ Hc)). unfold nframes_of in *.
      pose proof (tk_nframes _ _ Ht). pose proof (tk_len _ _ Ht) as Hlen.
      rewrite len_fmap12 in Hlen. rewrite wp_bind.
      eapply wp_deleteLFU; [done|apply Ht| |lia|].
      { intros E. rewrite E in Hge. by apply Z.le_ngt in Hge. }
      intros f' h' x u G' s' Hd' HG' _.
      assert ((counted G).*1.*2 ≡ₚ x.2 :: (counted G').*1.*2) as Hperm by by rewrite HG'.
      apply (wp_lfu_replace s' V G' x.2 page); try done.
      * by eapply tracked_perm.
      * intros y v Hyv. apply Hu. rewrite HG'. by right.
      * unfold nframes_of. simpl. rewrite (len_perm _ _ HG') in *. rewrite len_cons in *. lia.
  - destruct (co_prot _ _ Hc page) as [?|[?|?]]; try done.
    eapply wp_lfu_upgrade; [exact Hc|exact Hd|done..].
Qed.

(** ** RAND: the buckets of the hash table *)

Definition kmap (K : list Z) : gmap Z ptr := gset_to_gmap None (list_to_set K : gset Z).
Lemma kmap_lookup K k v : kmap K !! k = Some v ↔ k ∈ K ∧ v = None.
Proof. unfold kmap. rewrite lookup_gset_to_gmap_Some, elem_of_list_to_set. naive_solver. Qed.
Lemma kmap_None K k : k ∉ K → kmap K !! k = None.
Proof. intros Hk. apply lookup_gset_to_gmap_None. by rewrite elem_of_list_to_set. Qed.
Lemma kmap_cons k K : kmap (k :: K) = <[k := None]> (kmap K).
Proof. unfold kmap. by rewrite list_to_set_cons, gset_to_gmap_union_singleton. Qed.
Lemma kmap_perm K K' : K ≡ₚ K' → kmap K = kmap K'.
Proof. intros Hp. unfold kmap. by rewrite Hp. Qed.

Record rand_tracks s (K : list Z) : Prop := {
  rt_hash : ht_models (nframes_of s) (hashT s) (kmap K);
  rt_count : rcount s = len K;
}.
Definition rand_inv (_ : Z) s : Prop :=
  ∃ K, rand_tracks s K ∧ tracked (vc s) K ∧ compact (vc s) K.

Lemma rand_inv_faults n s x : rand_inv n s → rand_inv n (put_vc (put_pageFaults x (vc s)) s).
Proof.
  intros (K & [Hd Hh] & Ht & Hcm). exists K. split; [by split|]. split; [|done].
  by apply tracked_faults.
Qed.
Lemma rand_inv_physmem n s m : rand_inv n s → rand_inv n (put_vc (put_physmem m (vc s)) s).
Proof.
  intros (K & [Hd Hh] & [] & Hcm). exists K. split; [by split|]. split; [|done]. by split.
Qed.

(** The scan stops at a non-empty bucket [j] after at most one turn. *)
Lemma wp_scanBuckets s m j bj qj d fuel r Q :
  ht_models (nframes_of s) (hashT s) m → nframes_of s < 2 ^ 64 →
  idx (ht_tab (hashT s)) j = Some bj → hb_head bj = Some qj →
  0 <= r < nframes_of s → 0 <= j < nframes_of s → j = (r + Z.of_nat d) mod nframes_of s →
  (d < fuel)%nat →
  (∀ r b q, idx (ht_tab (hashT s)) r = Some b → hb_head b = Some q → Q r s) →
  wp (scanBuckets fuel r) s Q.
Proof.
  intros Hh Hnf Hj Hqj Hr Hjr. revert fuel r Hr.
  induction d as [|d IH]; intros [|fuel] r Hr Hd Hlt HQ; try lia; simpl; rewrite wp_bind.
  - assert (j = r) as <- by (rewrite Hd, Z.add_0_r, Z.mod_small; lia).
    eapply wp_aload; [exact Hj|]. rewrite Hqj. simpl. rewrite wp_ret. by eapply HQ.
  - pose proof (ht_models_tab _ _ _ Hh) as [Hlen _].
    assert (0 <= r < len (ht_tab (hashT s))) as [b Hb]%idx_is_Some by lia.
    eapply wp_aload; [exact Hb|]. destruct (hb_head b) as [q|] eqn:Eq; simpl.
    { rewrite wp_ret. by eapply HQ. }
    rewrite wp_bind, wp_gets. rewrite (u64_small (nframes_of s - 1)) by lia.
    rewrite (u64_small (r + 1)) by lia. destruct (Z.ltb_spec (nframes_of s - 1) (r + 1)).
    + apply IH; try lia; [|done]. rewrite Hd. replace r with (nframes_of s - 1) by lia.
      rewrite <-(Z_mod_plus_full (0 + Z.of_nat d) 1). f_equal. lia.
    + apply IH; try lia; [|done]. rewrite Hd. f_equal. lia.
Qed.

Lemma wp_scan s K r Q :
  ht_models (nframes_of s) (hashT s) (kmap K) → nframes_of s < 2 ^ 64 → K ≠ [] →
  0 <= r < nframes_of s →
  (∀ r b q, idx (ht_tab (hashT s)) r = Some b → hb_head b = Some q → Q r s) →
  wp (scanBuckets (Z.to_nat (nframes_of s)) r) s Q.
Proof.
  intros Hh Hnf HK Hr HQ. destruct K as [|k K]; [done|].
  destruct (ht_models_nonempty _ _ _ k None Hh) as (bj & qj & Hj & Hqj).
  { apply kmap_lookup. split; [left|done]. }
  set (N := nframes_of s) in *. set (j := k mod N) in *.
  assert (0 <= j < N) as Hjr by (apply Z.mod_pos_bound; lia).
  assert (0 <= (j - r) mod N < N) as Hd by (apply Z.mod_pos_bound; lia).
  eapply (wp_scanBuckets s _ j bj qj (Z.to_nat ((j - r) mod N))); try done; [|lia].
  rewrite Z2Nat.id by lia. rewrite Zplus_mod_idemp_r.
  replace (r + (j - r)) with j by lia. by rewrite Z.mod_small.
Qed.

Lemma wp_rand_install s V K page Q :
  coherent (vc s) V → rand_tracks s K → tracked (vc s) K → compact (vc s) K →
  in_range (vc s) page → bits_of (vc s) page = 0 → len K < nframes_of s →
  (∀ s', coherent (vc s') V → rand_inv 0 s' → same_env (vc s) (vc s') →
     bits_of (vc s') page = PROT_READ → Q tt s') →
  wp (onH (λ nf, insertHashNode nf page None);;
      onC (installPage page (u64 (rcount s + startFrame (vc s))));;
      modify (λ s, put_rcount (u64 (rcount s + 1)) s)) s Q.
Proof.
  intros Hc [Hh Hcnt] Ht Hcm Hp Hb Hlt HQ. rewrite Hcnt.
  pose proof (len_nonneg K). pose proof (sh_frames _ (co_shape _ _ Hc)) as [??].
  pose proof (tk_u64 _ _ Ht). pose proof (tk_end _ _ Ht). unfold nframes_of in *.
  assert (page ∉ K) as Hn by (rewrite <-(tk_resident _ _ Ht); by intros []).
  rewrite u64_small by lia. rewrite wp_bind, wp_onH.
  eapply wp_insertHashNode; [exact Hh|by apply kmap_None|]. intros h' Hh'.
  rewrite wp_bind, wp_onC. simpl. apply wp_installPage with (V := V); [done..|lia| |].
  { intros q Hq%(tk_resident _ _ Ht). specialize (Hcm q Hq). lia. }
  intros c' Hc' Hsw. pose proof (es_env _ _ _ _ _ Hsw) as He. rewrite wp_modify.
  apply HQ; simpl; [done| |done|by rewrite (es_bits _ _ _ _ _ Hsw), decide_True].
  exists (page :: K). split.
  - split; simpl.
    + unfold nframes_of in *. simpl. by rewrite (se_nframes _ _ He), kmap_cons.
    + rewrite Hcnt, u64_small; len_lia.
  - apply (tracked_install (vc s) c' K page (len K + startFrame (vc s))); try done. lia.
Qed.

Lemma wp_rand_replace s V K k page Q :
  coherent (vc s) V → rand_tracks s (k :: K) → tracked (vc s) (k :: K) →
  in_range (vc s) page → bits_of (vc s) page = 0 → len (k :: K) = nframes_of s →
  (∀ s', coherent (vc s') V → rand_inv 0 s' → same_env (vc s) (vc s') →
     bits_of (vc s') page = PROT_READ → Q tt s') →
  wp (_ ← onC (replacePage page k);
      onH (λ nf, deleteHashNode nf k);;
      onH (λ nf, insertHashNode nf page None)) s Q.
Proof.
  intros Hc [Hh Hcnt] Ht Hp Hb Hfull HQ. unfold nframes_of in *.
  assert (page ∉ k :: K) as Hn by (rewrite <-(tk_resident _ _ Ht); by intros []).
  apply not_elem_of_cons in Hn as [Hpk Hn]. pose proof (tk_nodup _ _ Ht) as [HkK Hnd]%NoDup_cons.
  assert (resident (vc s) k) as Hk by (apply (tk_resident _ _ Ht); left).
  rewrite wp_bind, wp_onC. apply wp_replacePage with (V := V); [done..|].
  intros c' Hc' Hsw. pose proof (ps_env _ _ _ _ Hsw) as He.
  rewrite <-(se_nframes _ _ He) in Hh.
  rewrite wp_bind, wp_onH. eapply wp_deleteHashNode; [exact Hh|]. intros h1 Hh1.
  rewrite kmap_cons, delete_insert_id in Hh1 by by apply kmap_None.
  rewrite wp_onH. eapply wp_insertHashNode; [exact Hh1|by apply kmap_None|]. intros h2 Hh2.
  apply HQ; simpl; [done| |done|].
  - exists (page :: K). split.
    + split; simpl; [by rewrite kmap_cons|]. rewrite Hcnt. len_lia.
    + by apply (tracked_swap (vc s) c' K k page V).
  - by rewrite (ps_bits _ _ _ _ Hsw), decide_False, decide_True.
Qed.

#[export] Instance RAND_policy (rand : Z → Z) : PolicyOk (RAND_page_fault_handler rand) rand_inv.
Proof.
  eapply policy_intro; [reflexivity|done|by intros; apply rand_inv_physmem|apply rand_inv_faults|].
  intros s V n page Q Hc (K & Hd & Ht & Hcm) _ Hp _ HQ. unfold next_bits in HQ.
  destruct (Z.eqb_spec (bits_of (vc s) page) 0) as [Hb|Hb].
  - rewrite wp_bind, wp_gets, wp_bind, wp_gets.
    destruct (Z.ltb_spec (rcount s) (nframes_of s)) as [Hlt|Hge].
    + rewrite wp_bind, wp_gets. eapply wp_rand_install; try done.
      by rewrite <-(rt_count _ _ Hd).
    + pose proof (tk_u64 _ _ Ht). pose proof (tk_end _ _ Ht). pose proof (tk_nframes _ _ Ht).
      pose proof (sh_frames _ (co_shape _ _ Hc)). pose proof (tk_len _ _ Ht).
      rewrite (rt_count _ _ Hd) in Hge. fold (nframes_of s) in *.
      unfold randMod. wp_pure. unfold nframes_of at 1. simpl. fold (nframes_of s).
      rewrite (proj2 (Z.eqb_neq _ 0)) by lia. rewrite wp_ret, wp_bind.
      set (s1 := put_rcalls (rcalls s + 1) s).
      change (nframes_of s) with (nframes_of s1). eapply wp_scan; [apply Hd|subst s1; simpl..|].
      * unfold nframes_of in *. simpl. lia.
      * intros ->. rewrite len_nil in Hge. lia.
      * apply Z.mod_pos_bound. unfold nframes_of in *. simpl. lia.
      * intros r b q Hr Hq. rewrite wp_bind. eapply wp_aload; [exact Hr|].
        destruct (ht_models_head _ _ _ _ _ _ (rt_hash _ _ Hd) Hr Hq)
          as (k & nx & v & Hk & [HkK _]%kmap_lookup & _).
        rewrite wp_bind, wp_zoom, Hq. eapply wp_load; [exact Hk|]. simpl.
        apply list_elem_of_split in HkK as (K1 & K2 & ->).
        assert (K1 ++ k :: K2 ≡ₚ k :: K1 ++ K2) as Hperm by by rewrite Permutation_middle.
        eapply (wp_rand_replace _ V (K1 ++ K2) k page); simpl; try done.
        -- destruct Hd as [Hh Hcnt]. rewrite (kmap_perm _ _ Hperm) in Hh. split; [done|].
           simpl. by rewrite Hcnt, (len_perm _ _ Hperm).
        -- by eapply tracked_perm.
        -- rewrite <-(len_perm _ _ Hperm). unfold nframes_of in *. simpl. lia.
  - rewrite wp_onC. apply wp_upgrade with (V := V); [done|by split|].
    intros c' Hc' Hsw _. pose proof (es_env _ _ _ _ _ Hsw) as He.
    apply HQ; simpl; [done| |done|by rewrite (es_bits _ _ _ _ _ Hsw), decide_True].
    destruct (tracked_upgrade (vc s) c' K page) as [Ht' Hcm']; [done|by split|done|].
    exists K. split; [|split; [done|by apply Hcm']]. destruct Hd. split; [|done].
    unfold nframes_of. simpl. by rewrite (se_nframes _ _ He).
Qed.

(** ** FIFO: the frame arrays *)

Definition st_of (fs : list Z) (i : Z) : Z := default 0 (idx fs i).
Definition in_frames c (i : Z) : Prop := startFrame c <= i < endFrame c.

(** A frame's state is 0 when it is free; otherwise it is the age of the
    page [fp[i]] it holds, at most [2^31 - 1 - n]. *)
Record fifo_ok c (fs fp : list Z) (n : Z) : Prop := {
  ff_fs : endFrame c <= len fs;
  ff_fp : endFrame c <= len fp;
  ff_some : startFrame c < endFrame c;
  ff_budget : n + 1 < 2 ^ 31;
  ff_age i : in_frames c i → 0 <= st_of fs i ∧ st_of fs i + n < 2 ^ 31;
  ff_free i : in_frames c i → st_of fs i = 0 → ∀ q, resident c q → map_of c q ≠ i;
  ff_used i : in_frames c i → st_of fs i ≠ 0 →
    resident c (st_of fp i) ∧ map_of c (st_of fp i) = i;
  ff_pages i : in_frames c i →
    in_range c (st_of fp i) ∧ in_frames c (map_of c (st_of fp i));
}.
Definition fifo_inv (n : Z) s : Prop := fifo_ok (vc s) (frameState s) (framePage s) n.

Lemma fifo_inv_mono n m s : m <= n → fifo_inv n s → fifo_inv m s.
Proof.
  intros Hle []. split; try done; [lia|]. intros i Hi. destruct (ff_age0 i Hi). lia.
Qed.
Lemma fifo_inv_faults n s x : fifo_inv n s → fifo_inv n (put_vc (put_pageFaults x (vc s)) s).
Proof. by intros []; split. Qed.
Lemma fifo_inv_physmem n s m : fifo_inv n s → fifo_inv n (put_vc (put_physmem m (vc s)) s).
Proof. by intros []; split. Qed.

(** The frame [i] now holds [page]; the other frames are as before. *)
Lemma fifo_set c c' fs fp n i page :
  shaped c → fifo_ok c fs fp n → in_frames c i → same_env c c' →
  resident c' page → map_of c' page = i →
  (∀ q, q ≠ page → resident c' q → resident c q ∧ map_of c' q = map_of c q ∧ map_of c q ≠ i) →
  (∀ q, resident c q → map_of c q ≠ i → resident c' q ∧ map_of c' q = map_of c q) →
  (∀ q, q ≠ page → map_of c' q = map_of c q) →
  fifo_ok c' (upd fs i 1) (upd fp i page) n.
Proof.
  intros Hsh [Hfs Hfp Hsome Hbud Hage Hfree Hused Hpages] Hi He Hrp Hmp Hnew Hold Hmap.
  pose proof (sh_frames _ Hsh) as [Hs0 _]. unfold in_frames in *.
  assert (∀ j, st_of (upd fs i 1) j = if decide (j = i) then 1 else st_of fs j) as Hst.
  { intros j. apply default_idx_upd. lia. }
  assert (∀ j, st_of (upd fp i page) j = if decide (j = i) then page else st_of fp j) as Hpg.
  { intros j. apply default_idx_upd. lia. }
  pose proof He as [_ _ Es Ee _].
  split; unfold in_frames; rewrite ?len_upd, ?Es, ?Ee; try done.
  - intros j Hj. rewrite Hst. case_decide; [lia|]. by apply Hage.
  - intros j Hj. rewrite Hst. case_decide; [done|]. intros Hz q Hq Hm.
    destruct (decide (q = page)) as [->|Hne]; [congruence|].
    destruct (Hnew q Hne Hq) as (Hq0 & Em & _). apply (Hfree j Hj Hz q Hq0). congruence.
  - intros j Hj. rewrite Hst, Hpg. case_decide; [by subst|]. intros Hz.
    destruct (Hused j Hj Hz) as [Hr Hm]. destruct (Hold _ Hr); [congruence|].
    split; [done|congruence].
  - intros j Hj. rewrite Hpg. case_decide; [subst; by destruct Hrp|].
    destruct (Hpages j Hj) as [Hr Hf]. split; [by eapply in_range_env|].
    destruct (decide (st_of fp j = page)) as [->|Hne]; [by rewrite Hmp|by rewrite Hmap].
Qed.

(** Every fault ages the frames in use by one. *)
Lemma wp_age s n Q :
  0 <= startFrame (vc s) → fifo_inv (n + 1) s → 0 <= n →
  (∀ fs, fifo_inv n (put_frameState fs s) → Q tt (put_frameState fs s)) →
  wp (for_range (startFrame (vc s)) (endFrame (vc s)) age1) s Q.
Proof.
  intros Hs0 Hok Hn HQ. pose proof Hok as [Hfs Hfp Hsome Hbud Hage Hfree Hused Hpages].
  set (lo := startFrame (vc s)) in *. set (hi := endFrame (vc s)) in *.
  apply (wp_for_range (λ j s', ∃ fs, s' = put_frameState fs s ∧ len fs = len (frameState s) ∧
    ∀ i, st_of fs i = if decide (lo <= i < j ∧ st_of (frameState s) i ≠ 0)
           then st_of (frameState s) i + 1 else st_of (frameState s) i)).
  - lia.
  - exists (frameState s). split_and!; [by destruct s|done|]. intros i. by case_decide; [lia|].
  - intros j s' Hj (fs & -> & Hl & Hst). unfold age1. rewrite wp_bind.
    assert (0 <= j < len fs) as Hjl by lia. pose proof Hjl as [a Ha]%idx_is_Some.
    assert (a = st_of (frameState s) j) as Ea.
    { specialize (Hst j). unfold st_of at 1 in Hst. rewrite Ha in Hst. simpl in Hst.
      by rewrite decide_False in Hst by lia. }
    eapply wp_aload; [exact Ha|]. pose proof (Hage j) as Hagej. fold lo hi in Hagej.
    unfold in_frames in Hagej. fold lo hi in Hagej. rewrite <-Ea in Hagej.
    assert (0 <= a ∧ a + (n + 1) < 2 ^ 31) as [??] by auto.
    destruct (Z.eqb_spec a 0) as [->|Ha0].
    + rewrite wp_ret. exists fs. split_and!; [done..|]. intros i. rewrite Hst.
      destruct (decide (i = j)) as [->|]; repeat case_decide; lia.
    + rewrite (proj2 (Z.eqb_neq a _)) by lia. apply wp_astore; [done|]. simpl.
      exists (upd fs j (a + 1)). split_and!; [done|by rewrite len_upd|]. intros i.
      unfold st_of at 1. rewrite default_idx_upd by lia. fold (st_of fs i). rewrite Hst.
      destruct (decide (i = j)) as [->|]; repeat case_decide; lia.
  - intros s' (fs & -> & Hl & Hst). apply HQ. split; simpl; fold lo hi; try done; try lia.
    + intros i Hi. rewrite Hst. specialize (Hage i Hi). case_decide; lia.
    + intros i Hi. rewrite Hst. specialize (Hage i Hi). case_decide; [lia|]. by apply Hfree.
    + intros i Hi. rewrite Hst. case_decide as Hc; [|by apply Hused].
      intros _. apply Hused; [done|]. by destruct Hc.
Qed.

Lemma wp_find_empty s n : ∀ lo Q,
  0 <= lo → lo + Z.of_nat n <= len (frameState s) →
  (∀ i, lo <= i < lo + Z.of_nat n → st_of (frameState s) i = 0 → Q (Some i) s) →
  ((∀ i, lo <= i < lo + Z.of_nat n → st_of (frameState s) i ≠ 0) → Q None s) →
  wp (find_empty n lo) s Q.
Proof.
  induction n as [|n IH]; intros lo Q Hlo Hlen Hsome Hnone; simpl.
  { rewrite wp_ret. apply Hnone. lia. }
  rewrite wp_bind. assert (0 <= lo < len (frameState s)) as [a Ha]%idx_is_Some by lia.
  eapply wp_aload; [exact Ha|]. assert (st_of (frameState s) lo = a) as Ea.
  { unfold st_of. by rewrite Ha. }
  destruct (Z.eqb_spec a 0) as [->|Ha0]; [rewrite wp_ret; apply Hsome; [lia|done]|].
  apply IH; [lia|lia| |].
  - intros i Hi. apply Hsome. lia.
  - intros Hall. apply Hnone. intros i Hi. destruct (decide (i = lo)) as [->|]; [congruence|].
    apply Hall. lia.
Qed.

(** The result is the given frame, or a frame older than [value] and than
    all others. *)
Lemma wp_find_oldest s n : ∀ lo value frame Q,
  0 <= lo → lo + Z.of_nat n <= len (frameState s) →
  (∀ f, (f = frame ∧ (∀ i, lo <= i < lo + Z.of_nat n → st_of (frameState s) i <= value)) ∨
        (lo <= f < lo + Z.of_nat n ∧ value < st_of (frameState s) f ∧
         ∀ i, lo <= i < lo + Z.of_nat n → st_of (frameState s) i <= st_of (frameState s) f) →
     Q f s) →
  wp (find_oldest n lo value frame) s Q.
Proof.
  induction n as [|n IH]; intros lo value frame Q Hlo Hlen HQ; simpl.
  { rewrite wp_ret. apply HQ. left. split; [done|lia]. }
  rewrite wp_bind. assert (0 <= lo < len (frameState s)) as [a Ha]%idx_is_Some by lia.
  eapply wp_aload; [exact Ha|]. assert (st_of (frameState s) lo = a) as Ea.
  { unfold st_of. by rewrite Ha. }
  assert (∀ i, lo <= i < lo + Z.of_nat (S n) → i = lo ∨ lo + 1 <= i < lo + 1 + Z.of_nat n)
    as Hsplit by lia.
  destruct (Z.ltb_spec value a) as [Hlt|Hge]; (apply IH; [lia|lia|]); intros f Hf; apply HQ;
    destruct Hf as [[-> Hall]|(Hfr & Hgt & Hall)].
  - right. split_and!; [lia..|]. intros i [->|Hi]%Hsplit; [lia|]. rewrite Ea. auto.
  - right. split_and!; [lia..|]. intros i [->|Hi]%Hsplit; [lia|]. auto.
  - left. split; [done|]. intros i [->|Hi]%Hsplit; [lia|]. auto.
  - right. split_and!; [lia..|]. intros i [->|Hi]%Hsplit; [lia|]. auto.
Qed.

Lemma wp_setFrame s i page Q :
  0 <= i < len (frameState s) → 0 <= i < len (framePage s) →
  Q tt (put_framePage (upd (framePage s) i page) (put_frameState (upd (frameState s) i 1) s)) →
  wp (setFrame i page) s Q.
Proof.
  intros Hi Hi' HQ. unfold setFrame. rewrite wp_bind. apply wp_astore; [done|].
  by apply wp_astore.
Qed.

Section fifo_branches.
Context (s : vmem D) (V : Z → list Z) (n page : Z) (Q : unit → vmem D → Prop).
Hypothesis Hc : coherent (vc s) V.
Hypothesis Hok : fifo_inv n s.
Hypothesis Hp : in_range (vc s) page.
Hypothesis HQ : ∀ s', coherent (vc s') V → fifo_inv n s' → same_env (vc s) (vc s') →
  bits_of (vc s') page = next_bits (bits_of (vc s) page) → Q tt s'.

Lemma fifo_frame_range i : in_frames (vc s) i →
  0 <= i < len (frameState s) ∧ 0 <= i < len (framePage s).
Proof.
  pose proof (sh_frames _ (co_shape _ _ Hc)) as [? _].
  pose proof (ff_fs _ _ _ _ Hok). pose proof (ff_fp _ _ _ _ Hok). unfold in_frames. lia.
Qed.

Lemma wp_fifo_install i :
  bits_of (vc s) page = 0 → in_frames (vc s) i → st_of (frameState s) i = 0 →
  wp (setFrame i page;; onC (installPage page i)) s Q.
Proof.
  intros Hb Hi Hst. destruct (fifo_frame_range i Hi) as [Hi1 Hi2]. rewrite wp_bind.
  apply wp_setFrame; [done..|]. rewrite wp_onC. simpl.
  pose proof (ff_free _ _ _ _ Hok i Hi Hst) as Hfree.
  apply wp_installPage with (V := V); try done.
  intros c' Hc' [He Hbits Hmap].
  assert (bits_of c' page = PROT_READ) as Hb' by by rewrite Hbits, decide_True.
  assert (∀ q, q ≠ page → resident c' q ↔ resident (vc s) q) as Hres.
  { intros q Hq. rewrite (resident_env _ _ _ He), Hbits, decide_False by done. done. }
  apply HQ; simpl; [done| |done|by rewrite Hb', Hb].
  eapply (fifo_set (vc s)); [apply Hc|exact Hok|done|done|..].
  - apply (resident_env _ _ _ He). by rewrite Hb'.
  - by rewrite Hmap, decide_True.
  - intros q Hq Hrq%Hres; [|done]. rewrite Hmap, decide_False by done. eauto.
  - intros q Hrq Hm. assert (q ≠ page) by (intros ->; by destruct Hrq).
    rewrite Hres, Hmap, decide_False by done. done.
  - intros q Hq. by rewrite Hmap, decide_False.
Qed.

Lemma wp_fifo_replace f :
  bits_of (vc s) page = 0 → in_frames (vc s) f → st_of (frameState s) f ≠ 0 →
  wp (tempPage ← aload framePage f; frame ← onC (replacePage page tempPage);
      setFrame frame page) s Q.
Proof.
  intros Hb Hf Hst. destruct (fifo_frame_range f Hf) as [Hf1 Hf2].
  destruct (ff_used _ _ _ _ Hok f Hf Hst) as [Hrt Hmt].
  pose proof Hf2 as [t Ht]%idx_is_Some. rewrite wp_bind. eapply wp_aload; [exact Ht|].
  unfold st_of in Hrt, Hmt. rewrite Ht in Hrt, Hmt. simpl in Hrt, Hmt.
  assert (page ≠ t) by (intros ->; by destruct Hrt).
  rewrite wp_bind, wp_onC. apply wp_replacePage with (V := V); try done.
  intros c' Hc' [He Hbits Hmap]. rewrite Hmt. apply wp_setFrame; [done..|].
  assert (bits_of c' page = PROT_READ) as Hb'.
  { by rewrite Hbits, decide_False, decide_True. }
  apply HQ; simpl; [done| |done|by rewrite Hb', Hb].
  eapply (fifo_set (vc s)); [apply Hc|exact Hok|done|done|..].
  - apply (resident_env _ _ _ He). by rewrite Hb'.
  - by rewrite Hmap, decide_True.
  - intros q Hq Hrq%(resident_env _ _ _ He). rewrite Hbits in Hrq.
    case_decide; [by destruct Hrq|]. rewrite decide_False in Hrq by done.
    rewrite Hmap, decide_False by done. split_and!; [done..|]. intros Em.
    by destruct (co_inj _ _ Hc q t); [..|congruence|].
  - intros q Hrq Hm. assert (q ≠ page) by (intros ->; by destruct Hrq).
    assert (q ≠ t) by congruence.
    rewrite (resident_env _ _ _ He), Hbits, Hmap, !decide_False by done. done.
  - intros q Hq. by rewrite Hmap, decide_False.
Qed.

Lemma wp_fifo_upgrade :
  bits_of (vc s) page ≠ 0 →
  wp (onC (page_table_set_entry page (map_of (vc s) page) PROT_RW);;
      setFrame (map_of (vc s) page) page) s Q.
Proof.
  intros Hb. assert (resident (vc s) page) as Hr by by split.
  pose proof (co_frame _ _ Hc page Hr) as Hf. destruct (fifo_frame_range _ Hf) as [Hf1 Hf2].
  rewrite wp_bind, wp_onC. apply wp_upgrade with (V := V); [done..|].
  intros c' Hc' [He Hbits Hmap] _. apply wp_setFrame; [done..|].
  assert (∀ q, map_of c' q = map_of (vc s) q) as Hm.
  { intros q. rewrite Hmap. case_decide; by subst. }
  assert (∀ q, resident c' q ↔ resident (vc s) q) as Hres.
  { intros q. rewrite (resident_env _ _ _ He), Hbits. case_decide; [subst|done].
    split; [by split|by split]. }
  apply HQ; simpl; [done| |done|].
  - eapply (fifo_set (vc s)); [apply Hc|exact Hok|done|done|..].
    + by apply Hres.
    + by rewrite Hm.
    + intros q Hq Hrq%Hres. rewrite Hm. split_and!; [done..|]. intros Em.
      by destruct (co_inj _ _ Hc q page).
    + intros q Hrq _. by rewrite Hres, Hm.
    + intros q _. apply Hm.
  - rewrite Hbits, decide_True by done. unfold next_bits.
    by rewrite (proj2 (Z.eqb_neq _ 0)).
Qed.
End fifo_branches.

#[export] Instance FIFO_policy : PolicyOk FIFO_page_fault_handler fifo_inv.
Proof.
  eapply policy_intro; [reflexivity|apply fifo_inv_mono|by intros; apply fifo_inv_physmem|apply fifo_inv_faults|].
  intros s V n page Q Hc Hok Hn Hp _ HQ. pose proof (sh_frames _ (co_shape _ _ Hc)) as [Hs0 _].
  rewrite wp_bind, wp_gets, wp_bind, wp_gets, wp_bind.
  eapply wp_age; [done|exact Hok|done|]. intros fs Hok'.
  set (s1 := put_frameState fs s) in *.
  change (coherent (vc s1) V) in Hc. change (in_range (vc s1) page) in Hp.
  change (vc s) with (vc s1) in *. clearbody s1. clear Hok s fs.
  pose proof Hok' as [Hfs Hfp Hsome Hbud Hage Hfree Hused Hpages].
  assert (Z.of_nat (Z.to_nat (endFrame (vc s1) - startFrame (vc s1))) =
    endFrame (vc s1) - startFrame (vc s1)) as Elen by lia.
  destruct (Z.eqb_spec (bits_of (vc s1) page) 0) as [Hb|Hb]; [|by eapply wp_fifo_upgrade].
  rewrite wp_bind. apply wp_find_empty; [done|lia|..]; rewrite Elen.
  - intros i Hi Hst. eapply wp_fifo_install; try done. unfold in_frames. lia.
  - intros Hall. rewrite wp_bind. apply wp_find_oldest; [done|lia|]. rewrite Elen.
    intros f [[-> Hle]|(Hf & Hpos & _)].
    + specialize (Hle (startFrame (vc s1)) ltac:(lia)).
      specialize (Hall (startFrame (vc s1)) ltac:(lia)).
      destruct (Hage (startFrame (vc s1))); [unfold in_frames; lia|lia].
    + eapply wp_fifo_replace; try done; [unfold in_frames; lia|lia].
Qed.
End Policies.
