(* ===== verification/Flush.v ===== *)
(** * [page_table_flush] writes everything back

    After [page_table_flush] of src/ip6/lib/vmem/page_table.c no page is
    resident and the store holds the whole virtual memory, for each policy.
    The random policy does not reset [count], which the last section shows to
    make its next fault loop for ever when the memory was full. *)

From S2P Require Import Prelude Types Backends PageTable Links HashTable DllList FreqList VMem Policies.

Section Flush.
Context `{Config} `{Malloc} {D : Type} `{!BlockDev D}.
Implicit Types (s : vmem D) (c : core D) (V : Z → list Z).
Abbreviation MV := (M (vmem D)).

Lemma tracked_drop c c' t K :
  tracked c (t :: K) → entry_switch c c' t (map_of c t) 0 → tracked c' K.
Proof.
  intros [Hnf Hend Hu Hnd Hres Hlen] [He Hbits Hmap]. apply NoDup_cons in Hnd as [Ht Hnd].
  split; try done.
  - by rewrite (se_nframes _ _ He).
  - by rewrite (se_nframes _ _ He), (se_start _ _ He), (se_end _ _ He).
  - by rewrite (se_end _ _ He).
  - intros p. rewrite (resident_env _ _ _ He), Hbits. specialize (Hres p).
    rewrite elem_of_cons in Hres. case_decide as E; [subst; split; [by intros []|done]|].
    unfold resident in Hres. rewrite Hres. tauto.
  - rewrite (se_nframes _ _ He). len_lia.
Qed.

Lemma wp_flush_tracked s V t K (Q : Z → vmem D → Prop) :
  coherent (vc s) V → tracked (vc s) (t :: K) →
  (∀ c', coherent c' V → tracked c' K → same_env (vc s) c' → Q (map_of (vc s) t) (put_vc c' s)) →
  wp (onC (flushPage t)) s Q.
Proof.
  intros Hc Ht HQ. rewrite wp_onC.
  assert (resident (vc s) t) as Hr by (apply (tk_resident _ _ Ht); left).
  apply wp_flushPage with (V := V); [done|apply Hr|by apply (co_frame _ _ Hc)|].
  intros c' Hc' Hsw. apply HQ; [done|by eapply tracked_drop|apply Hsw].
Qed.

(** The state a flush leaves: the view is unchanged, no page is resident. *)
Record flushed s s' V : Prop := {
  fd_coherent : coherent (vc s') V;
  fd_env : same_env (vc s) (vc s');
  fd_none p : ¬ resident (vc s') p;
}.

Lemma flushed_store s s' V p :
  flushed s s' V → in_range (vc s') p → bd_content (dev (vc s')) p = V p.
Proof.
  intros [Hc He Hn] Hp. apply (co_store _ _ Hc); [done|]. intros Hb. apply (Hn p).
  split; [done|by rewrite Hb].
Qed.

(** ** LRU and FFIFO *)

Lemma wp_flushLRU fuel : ∀ s V l Q,
  coherent (vc s) V → dll_tracks s l → tracked (vc s) l.*2 → (length l <= fuel)%nat →
  (∀ s', flushed s s' V → lru_inv 0 s' → Q tt s') →
  wp (flushLRU fuel) s Q.
Proof.
  induction fuel as [|fuel IH]; intros s V l Q Hc Hd Ht Hfuel HQ; simpl;
    rewrite wp_bind, wp_gets, (dr_count _ _ (dt_dll _ _ Hd));
    (destruct l as [|x l _] using rev_ind;
     [rewrite len_nil; simpl; rewrite wp_ret; apply HQ;
      [split; [done..|]; intros p Hp%(tk_resident _ _ Ht); by apply elem_of_nil in Hp
      |exists []; split_and!; [done..|]; intros p Hp; by apply elem_of_nil in Hp]|]).
  { rewrite length_app in Hfuel. simpl in Hfuel. lia. }
  rewrite (proj2 (Z.leb_gt _ 0)) by len_lia.
  pose proof (tk_u64 _ _ Ht). pose proof (tk_end _ _ Ht). pose proof (tk_len _ _ Ht) as Hlen.
  pose proof (sh_frames _ (co_shape _ _ Hc)). rewrite len_fmap2 in Hlen.
  rewrite wp_bind. eapply wp_deleteLRU; [done|apply Ht|lia|]. intros d' h' s' Hd'.
  assert (tracked (vc s') (x.2 :: l.*2)) as Ht'.
  { eapply tracked_perm; [exact Ht|]. by rewrite fmap_app, Permutation_app_comm. }
  rewrite wp_bind. eapply wp_flush_tracked; [done|exact Ht'|].
  intros c' Hc' Htc He. eapply (IH _ V l); [done|by apply dll_tracks_env|done| |].
  { rewrite length_app in Hfuel. simpl in Hfuel. lia. }
  intros s'' [? ? ?] Hinv. apply HQ; [|done]. split; [done| |done]. by etrans.
Qed.

(** ** LFU *)

Lemma wp_flushLFU fuel : ∀ s V G Q,
  coherent (vc s) V → lfu_tracks s G → tracked (vc s) (counted G).*1.*2 →
  (length (counted G) <= fuel)%nat →
  (∀ s', flushed s s' V → lfu_inv 0 s' → Q tt s') →
  wp (flushLFU fuel) s Q.
Proof.
  induction fuel as [|fuel IH]; intros s V G Q Hc Hd Ht Hfuel HQ; simpl;
    rewrite wp_bind, wp_gets, (freq_count _ _ (lt_freq _ _ Hd));
    (destruct (counted G) as [|y L] eqn:EG;
     [rewrite len_nil; simpl; rewrite wp_ret; apply HQ;
      [split; [done..|]; intros p Hp%(tk_resident _ _ Ht); by apply elem_of_nil in Hp
      |exists G; rewrite EG; split_and!;
       [done..|intros p Hp; by apply elem_of_nil in Hp|intros p u Hp; by apply elem_of_nil in Hp]]
     |rewrite <-EG in *]).
  { rewrite EG in Hfuel. simpl in Hfuel. lia. }
  rewrite (proj2 (Z.leb_gt _ 0)) by (rewrite EG; len_lia).
  pose proof (tk_u64 _ _ Ht). pose proof (tk_end _ _ Ht). pose proof (tk_len _ _ Ht) as Hlen.
  pose proof (sh_frames _ (co_shape _ _ Hc)). rewrite len_fmap12 in Hlen.
  rewrite wp_bind. eapply wp_deleteLFU; [done|apply Ht|by rewrite EG|lia|].
  intros f' h' x u G' s' Hd' HG' _.
  assert (tracked (vc s') (x.2 :: (counted G').*1.*2)) as Ht'.
  { eapply tracked_perm; [exact Ht|]. by rewrite HG'. }
  rewrite wp_bind. eapply wp_flush_tracked; [done|exact Ht'|].
  intros c' Hc' Htc He. eapply (IH _ V G'); [done| |done| |].
  { destruct Hd'. split; [done|]. unfold nframes_of in *. simpl in *.
    by rewrite (se_nframes _ _ He). }
  { rewrite HG' in Hfuel. simpl in Hfuel. lia. }
  intros s'' [? ? ?] Hinv. apply HQ; [|done]. split; [done| |done]. by etrans.
Qed.

(** ** RAND *)

Lemma wp_flushBucket fuel : ∀ s V K i Q,
  coherent (vc s) V → ht_models (nframes_of s) (hashT s) (kmap K) → tracked (vc s) K →
  0 <= i < nframes_of s → (length K <= fuel)%nat →
  (∀ s' K', coherent (vc s') V → same_env (vc s) (vc s') → rcount s' = rcount s →
     ht_models (nframes_of s') (hashT s') (kmap K') → tracked (vc s') K' →
     (∀ k, k ∈ K' → k ∈ K ∧ k mod nframes_of s ≠ i) → Q tt s') →
  wp (flushBucket fuel i) s Q.
Proof.
  induction fuel as [|fuel IH]; intros s V K i Q Hc Hh Ht Hi Hfuel HQ; simpl; rewrite wp_bind;
    pose proof (ht_models_tab _ _ _ Hh) as [Hlen _];
    (assert (0 <= i < len (ht_tab (hashT s))) as [b Hb]%idx_is_Some by lia);
    (eapply wp_aload; [exact Hb|]); destruct (hb_head b) as [q|] eqn:Eq; simpl.
  - destruct K as [|k K]; [|simpl in Hfuel; lia].
    destruct (ht_models_head _ _ _ _ _ _ Hh Hb Eq) as (k & _ & v & _ & [Hk _]%kmap_lookup & _).
    by apply elem_of_nil in Hk.
  - rewrite wp_ret. eapply (HQ s K); try done. intros k Hk. split; [done|]. intros E.
    destruct (ht_models_nonempty _ _ _ k None Hh) as (b' & q & Hb' & Hq);
      [by apply kmap_lookup|]. rewrite E in Hb'. congruence.
  - destruct (ht_models_head _ _ _ _ _ _ Hh Hb Eq)
      as (k & nx & v & Hq & [HkK _]%kmap_lookup & _).
    apply list_elem_of_split in HkK as (K1 & K2 & ->).
    assert (K1 ++ k :: K2 ≡ₚ k :: K1 ++ K2) as Hp by by rewrite Permutation_middle.
    rewrite (kmap_perm _ _ Hp) in Hh. apply (tracked_perm _ _ _ Ht) in Hp as Ht'.
    rewrite wp_bind, wp_zoom. eapply wp_load; [exact Hq|].
    replace (put_hashT (hashT s) s) with s by by destruct s. simpl.
    rewrite wp_bind. eapply wp_flush_tracked; [done|exact Ht'|]. intros c' Hc' Htc He.
    rewrite wp_bind, wp_onH. unfold nframes_of in *. rewrite <-(se_nframes _ _ He) in Hh.
    eapply wp_deleteHashNode; [exact Hh|]. intros h' Hh'.
    pose proof (tk_nodup _ _ Ht') as [HkK Hnd]%NoDup_cons.
    rewrite kmap_cons, delete_insert_id in Hh' by by apply kmap_None.
    eapply (IH _ V (K1 ++ K2)); simpl; try done.
    + by rewrite (se_nframes _ _ He).
    + rewrite Hp in Hfuel. simpl in Hfuel. lia.
    + intros s'' K'' Hc'' He'' Hr'' Hh'' Ht'' Hk''. eapply (HQ s'' K''); try done.
      * by etrans.
      * intros k' Hk'. destruct (Hk'' k' Hk') as [Hin Hm].
        rewrite (se_nframes _ _ He) in Hm. split; [|done]. rewrite Hp. by right.
  - rewrite wp_ret. eapply (HQ s K); try done. intros k Hk. split; [done|]. intros E.
    destruct (ht_models_nonempty _ _ _ k None Hh) as (b' & q & Hb' & Hq);
      [by apply kmap_lookup|]. rewrite E in Hb'. congruence.
Qed.

Lemma wp_flushRAND s V K Q :
  coherent (vc s) V → rand_tracks s K → tracked (vc s) K →
  (∀ s', flushed s s' V → rcount s' = rcount s →
     ht_models (nframes_of s') (hashT s') ∅ → Q tt s') →
  wp (for_range 0 (nframes_of s) flushRAND1) s Q.
Proof.
  intros Hc [Hh Hcnt] Ht HQ. pose proof (tk_nframes _ _ Ht) as Hnf.
  apply (wp_for_range (λ j s', ∃ K', coherent (vc s') V ∧ same_env (vc s) (vc s') ∧
    rcount s' = rcount s ∧ ht_models (nframes_of s') (hashT s') (kmap K') ∧
    tracked (vc s') K' ∧ ∀ k, k ∈ K' → j <= k mod nframes_of s)).
  - unfold nframes_of. lia.
  - exists K. split_and!; try done. intros k _. apply Z.mod_pos_bound. exact Hnf.
  - intros j s' Hj (K' & Hc' & He & Hr & Hh' & Ht' & Hge). unfold flushRAND1.
    assert (nframes_of s' = nframes_of s) as En by apply He.
    pose proof (ht_models_tab _ _ _ Hh') as [Hlen _].
    assert (0 <= j < len (ht_tab (hashT s'))) as [b Hb]%idx_is_Some by lia.
    rewrite wp_bind. eapply wp_aload; [exact Hb|].
    destruct (Z.eqb_spec (hb_count b) 0) as [E0|E0].
    + rewrite wp_ret. exists K'. split_and!; try done. intros k Hk. specialize (Hge k Hk).
      assert (k mod nframes_of s ≠ j); [|lia]. intros E.
      destruct (ht_models_nonempty _ _ _ k None Hh') as (b' & q & Hb' & Hq);
        [by apply kmap_lookup|]. rewrite En, E in Hb'.
      pose proof (ht_models_count0 _ _ _ _ _ Hh' Hb E0). congruence.
    + rewrite wp_bind, wp_gets. eapply (wp_flushBucket _ s' V K'); try done; [lia| |].
      * eapply ht_models_size; [exact Hh'|apply Ht'|]. intros k Hk. exists None.
        by apply kmap_lookup.
      * intros s'' K'' Hc'' He'' Hr'' Hh'' Ht'' Hk''. exists K''.
        split_and!; try done; [by etrans|congruence|]. intros k Hk.
        destruct (Hk'' k Hk) as [Hin Hne]. rewrite En in Hne. specialize (Hge k Hin). lia.
  - intros s' (K' & Hc' & He & Hr & Hh' & Ht' & Hge).
    assert (K' = []) as ->.
    { destruct K' as [|k K']; [done|]. specialize (Hge k ltac:(left)).
      assert (0 <= k mod nframes_of s < nframes_of s) by by apply Z.mod_pos_bound. lia. }
    apply HQ; [|done|done]. split; [done..|].
    intros p Hp%(tk_resident _ _ Ht'). by apply elem_of_nil in Hp.
Qed.

(** [count] still says that every frame is in use, and no bucket holds a
    page: the scan for a victim never ends. *)
Lemma scanBuckets_empty s fuel : ∀ r,
  ht_models (nframes_of s) (hashT s) ∅ → 0 <= r < nframes_of s → nframes_of s < 2 ^ 64 →
  scanBuckets fuel r s = Err Hang.
Proof.
  induction fuel as [|fuel IH]; intros r Hh Hr Hnf; [done|]. simpl.
  pose proof (ht_models_tab _ _ _ Hh) as [Hlen _].
  assert (0 <= r < len (ht_tab (hashT s))) as [b Hb]%idx_is_Some by lia.
  unfold mbind, M_bind, aload, gets. rewrite Hb.
  destruct (hb_head b) as [q|] eqn:Eq; simpl.
  { destruct (ht_models_head _ _ _ _ _ _ Hh Hb Eq) as (k & _ & v & _ & Hk & _).
    by rewrite lookup_empty in Hk. }
  rewrite (u64_small (nframes_of s - 1)), (u64_small (r + 1)) by lia.
  apply IH; [done| |done]. destruct (Z.ltb_spec (nframes_of s - 1) (r + 1)); lia.
Qed.

(** ** FIFO *)

(** After the frames below [j]. *)
Record fifo_flushing s0 (n j : Z) V s : Prop := {
  fl_coherent : coherent (vc s) V;
  fl_env : same_env (vc s0) (vc s);
  fl_fp : framePage s = framePage s0;
  fl_len : len (frameState s) = len (frameState s0);
  fl_above q : resident (vc s) q → j <= map_of (vc s) q ∧
    st_of (framePage s) (map_of (vc s) q) = q;
  fl_pages i : in_frames (vc s) i → in_range (vc s) (st_of (framePage s) i) ∧
    in_frames (vc s) (map_of (vc s) (st_of (framePage s) i));
  fl_used i : in_frames (vc s) i → st_of (frameState s) i ≠ 0 →
    resident (vc s) (st_of (framePage s) i) ∧ map_of (vc s) (st_of (framePage s) i) = i;
  fl_age i : in_frames (vc s) i →
    0 <= st_of (frameState s) i ∧ st_of (frameState s) i + n < 2 ^ 31;
}.

Lemma fifo_resident_page c fs fp n V q :
  coherent c V → fifo_ok c fs fp n → resident c q → st_of fp (map_of c q) = q.
Proof.
  intros Hc Hok Hq. pose proof (co_frame _ _ Hc q Hq) as Hf.
  destruct (decide (st_of fs (map_of c q) = 0)) as [E|E].
  - by destruct (ff_free _ _ _ _ Hok _ Hf E q Hq).
  - destruct (ff_used _ _ _ _ Hok _ Hf E) as [Hr Hm]. by apply (co_inj _ _ Hc).
Qed.

Lemma wp_flushFIFO1 s0 n j V s Q :
  fifo_flushing s0 n j V s → in_frames (vc s) j → n < 2 ^ 31 →
  endFrame (vc s) <= len (frameState s) → endFrame (vc s) <= len (framePage s) →
  (∀ s', fifo_flushing s0 n (j + 1) V s' → Q tt s') →
  wp (flushFIFO1 j) s Q.
Proof.
  intros [Hc He Hfp Hlen Habove Hpages Hused Hage] Hj Hn Hfs Hfpl HQ.
  pose proof (sh_frames _ (co_shape _ _ Hc)) as [Hs0 _]. unfold in_frames in Hj.
  assert (0 <= j < len (framePage s)) as [t Ht]%idx_is_Some by lia.
  destruct (Hpages j Hj) as [Htr Htf]. assert (st_of (framePage s) j = t) as Et.
  { unfold st_of. by rewrite Ht. }
  rewrite Et in Htr, Htf. unfold flushFIFO1. rewrite wp_bind. eapply wp_aload; [exact Ht|].
  rewrite wp_bind, wp_onC. apply wp_flushPage with (V := V); [done..|].
  intros c' Hc' [He' Hbits Hmap]. unfold in_frames in Htf. apply wp_astore; [simpl; lia|].
  assert (∀ q, map_of c' q = map_of (vc s) q) as Hm.
  { intros q. rewrite Hmap. case_decide; by subst. }
  assert (∀ q, resident c' q ↔ q ≠ t ∧ resident (vc s) q) as Hres.
  { intros q. rewrite (resident_env _ _ _ He'), Hbits. unfold resident.
    case_decide; [subst; naive_solver|naive_solver]. }
  assert (∀ i, in_frames c' i ↔ in_frames (vc s) i) as Hfr.
  { intros i. unfold in_frames. by rewrite (se_start _ _ He'), (se_end _ _ He'). }
  assert (∀ i, st_of (upd (frameState s) (map_of (vc s) t) 0) i =
    if decide (i = map_of (vc s) t) then 0 else st_of (frameState s) i) as Hst.
  { intros i. apply default_idx_upd. lia. }
  apply HQ. split; simpl; try done.
  - by etrans.
  - by rewrite len_upd.
  - intros q [Hqt Hq]%Hres. rewrite Hm. destruct (Habove q Hq) as [Hle Eq]. split; [|done].
    assert (map_of (vc s) q ≠ j); [|lia]. intros E. rewrite E in Eq. congruence.
  - intros i Hi%Hfr. rewrite Hm, Hfr. destruct (Hpages i Hi). split; [|done].
    by eapply in_range_env.
  - intros i Hi%Hfr. rewrite Hst, Hm, Hres. case_decide; [done|]. intros Hz.
    destruct (Hused i Hi Hz). split_and!; [congruence|done..].
  - intros i Hi%Hfr. rewrite Hst. case_decide; [lia|]. by apply Hage.
Qed.

Lemma wp_flushFIFO s V n Q :
  coherent (vc s) V → fifo_inv n s → startFrame (vc s) = 0 → endFrame (vc s) = nframes_of s →
  (∀ s', flushed s s' V → fifo_inv n s' → Q tt s') →
  wp (for_range 0 (nframes_of s) flushFIFO1) s Q.
Proof.
  intros Hc Hok Hs0 Hend HQ. pose proof Hok as [Hfs Hfp Hsome Hbud Hage Hfree Hused Hpages].
  apply (wp_for_range (λ j, fifo_flushing s n j V)).
  - lia.
  - split; try done. intros q Hq. split; [|by eapply fifo_resident_page].
    pose proof (co_frame _ _ Hc q Hq). lia.
  - intros j s' Hj Hfl. pose proof (fl_env _ _ _ _ _ Hfl) as He.
    eapply wp_flushFIFO1; [exact Hfl|..].
    + unfold in_frames. rewrite (se_start _ _ He), (se_end _ _ He). lia.
    + lia.
    + rewrite (se_end _ _ He), (fl_len _ _ _ _ _ Hfl). done.
    + rewrite (se_end _ _ He), (fl_fp _ _ _ _ _ Hfl). done.
    + done.
  - intros s' [Hc' He Efp Hlen Habove Hpg Hus Hag].
    assert (∀ q, ¬ resident (vc s') q) as Hnone.
    { intros q Hq. destruct (Habove q Hq) as [Hle _]. pose proof (co_frame _ _ Hc' q Hq).
      rewrite (se_end _ _ He) in *. lia. }
    apply HQ; [by split|]. split; try done.
    + by rewrite (se_end _ _ He), Hlen.
    + by rewrite (se_end _ _ He), Efp.
    + by rewrite (se_start _ _ He), (se_end _ _ He).
    + intros i _ _ q Hq. by destruct (Hnone q).
Qed.

(** ** All policies *)

Section policies.
Variable rand : Z → Z.

(** The invariant of the selected policy; [handler_of] picks the handler
    in the same way. *)
Definition policy_inv (policy : Z) : Z → vmem D → Prop :=
  if policy =? FIFO then fifo_inv
  else if policy =? LRU then lru_inv
  else if policy =? LFU then lfu_inv
  else if policy =? RAND then rand_inv
  else lru_inv.

#[export] Instance handler_policy policy : PolicyOk (handler_of rand policy) (policy_inv policy).
Proof.
  pose proof FIFO_policy. pose proof LRU_policy. pose proof LFU_policy.
  pose proof (RAND_policy rand). pose proof FFIFO_policy.
  unfold policy_inv.
  destruct (policy =? FIFO) eqn:E0; [|destruct (policy =? LRU) eqn:E1;
    [|destruct (policy =? LFU) eqn:E2; [|destruct (policy =? RAND) eqn:E3]]];
    (split;
     [apply po_mono|apply po_stable|unfold handler_of; rewrite ?E0, ?E1, ?E2, ?E3; apply po_handler]).
Qed.

(** The states a flush may be called in. *)
Record flushable n s : Prop := {
  fb_policy : 0 <= replacementPolicy s <= 4;
  fb_inv : policy_inv (replacementPolicy s) n s;
  fb_start : startFrame (vc s) = 0;
  fb_end : endFrame (vc s) = nframes_of s;
}.

Lemma wp_page_table_flush s V n Q :
  coherent (vc s) V → flushable n s →
  (∀ s', flushed s s' V → (replacementPolicy s ≠ RAND → policy_inv (replacementPolicy s) n s') →
     Q tt s') →
  wp page_table_flush s Q.
Proof.
  intros Hc [Hp Hi Hs Hend] HQ. unfold page_table_flush.
  rewrite wp_bind, wp_gets, wp_bind, wp_gets. unfold policy_inv in *.
  destruct (Z.eqb_spec (replacementPolicy s) FIFO) as [E0|E0].
  { eapply wp_flushFIFO; try done. intros s' Hf Hi'. by apply HQ. }
  destruct (Z.eqb_spec (replacementPolicy s) LRU) as [E1|E1]; simpl.
  { rewrite wp_bind, wp_gets. destruct Hi as (l & Hd & Ht & Hcm).
    eapply (wp_flushLRU _ s V l); try done.
    - rewrite (dr_count _ _ (dt_dll _ _ Hd)). unfold len. lia.
    - intros s' Hf Hi'. by apply HQ. }
  destruct (Z.eqb_spec (replacementPolicy s) LFU) as [E2|E2].
  { assert ((replacementPolicy s =? FFIFO) = false) as -> by (rewrite E2; done).
    rewrite wp_bind, wp_gets. destruct Hi as (G & Hd & Ht & Hcm & Hu).
    eapply (wp_flushLFU _ s V G); try done.
    - rewrite (freq_count _ _ (lt_freq _ _ Hd)). unfold len. lia.
    - intros s' Hf Hi'. by apply HQ. }
  destruct (Z.eqb_spec (replacementPolicy s) RAND) as [E3|E3].
  { assert ((replacementPolicy s =? FFIFO) = false) as -> by (rewrite E3; done).
    destruct Hi as (K & Hd & Ht & Hcm). eapply (wp_flushRAND s V K); try done.
    intros s' Hf _ _. by apply HQ. }
  assert ((replacementPolicy s =? FFIFO) = true) as ->.
  { unfold FIFO, LRU, LFU, RAND, FFIFO in *. lia. }
  rewrite wp_bind, wp_gets. destruct Hi as (l & Hd & Ht & Hcm).
  eapply (wp_flushLRU _ s V l); try done.
  - rewrite (dr_count _ _ (dt_dll _ _ Hd)). unfold len. lia.
  - intros s' Hf Hi'. by apply HQ.
Qed.
End policies.
End Flush.
