(* ===== verification/Paging.v ===== *)
(** * Paged memory is memory

    A load or a store through [pt->virtmem] reaches a frame when the MMU
    allows it and raises SIGSEGV otherwise; [internal_fault_handler] of
    src/ip6/lib/vmem/page_table.c then runs and the access is retried. This
    file models the access with the retry, the set-up of
    [init_virtual_memory] and [page_table_create], and shows, for any policy
    that satisfies [PolicyOk], that the program sees a flat memory. *)

From stdpp Require Import strings.
From S2P Require Import Prelude Types Backends PageTable Links HashTable DllList FreqList VMem Policies.

Section Access.
Context `{Config} `{Malloc} {D : Type} `{!BlockDev D}.
Implicit Types (s : vmem D) (c : core D) (V : Z → list Z).
Abbreviation MV := (M (vmem D)).
Variable handler : Z → MV unit.

Definition page_of (a : Z) : Z := a / BLOCK_SIZE.
Definition off_of (a : Z) : Z := a mod BLOCK_SIZE.

(** The protection set by [mprotect]: bit 0 allows loads, bit 1 stores. *)
Definition allows (bit : Z) s (a : Z) : bool :=
  Z.testbit (default 0 (idx (mmu_prot (vc s)) (page_of a))) bit.

(** A load of the byte at [virtmem + a]: one fault may come first. *)
Fixpoint vload (fuel : nat) (a : Z) : MV Z :=
  match fuel with
  | O => err Hang
  | S fuel =>
      ok ← gets (λ s, allows 0 s a);
      if (ok : bool) then
        f ← aload (λ s, mmu_frame (vc s)) (page_of a);
        b ← aload (λ s, physmem (vc s)) f;
        aload (λ _, b) (off_of a)
      else internal_fault_handler handler a;; vload fuel a
  end.
(** A store: two faults may come first, one to bring the page in and one to
    make it writable. *)
Fixpoint vstore (fuel : nat) (a x : Z) : MV unit :=
  match fuel with
  | O => err Hang
  | S fuel =>
      ok ← gets (λ s, allows 1 s a);
      if (ok : bool) then
        f ← aload (λ s, mmu_frame (vc s)) (page_of a);
        b ← aload (λ s, physmem (vc s)) f;
        (* the byte is inside the frame *)
        _ ← aload (λ _, b) (off_of a);
        astore (λ s, physmem (vc s)) (λ m s, put_vc (put_physmem m (vc s)) s) f
          (upd b (off_of a) (u8 x))
      else internal_fault_handler handler a;; vstore fuel a x
  end.

Inductive vop := Load (a : Z) | Store (a x : Z).

Fixpoint run (ops : list vop) : MV (list Z) :=
  match ops with
  | [] => mret []
  | Load a :: ops => x ← vload 2 a; xs ← run ops; mret (x :: xs)
  | Store a x :: ops => vstore 3 a x;; run ops
  end.

(** ** The specification: a flat memory, by pages *)

Definition flat_load V (a : Z) : Z := default 0 (idx (V (page_of a)) (off_of a)).
Definition flat_store V (a x : Z) : Z → list Z := λ p,
  if decide (p = page_of a) then upd (V p) (off_of a) (u8 x) else V p.
Fixpoint flat_run (ops : list vop) V : list Z * (Z → list Z) :=
  match ops with
  | [] => ([], V)
  | Load a :: ops => let '(xs, V') := flat_run ops V in (flat_load V a :: xs, V')
  | Store a x :: ops => flat_run ops (flat_store V a x)
  end.

Definition op_addr (o : vop) : Z := match o with Load a => a | Store a _ => a end.
(** The addresses of the mapping. *)
Definition valid_addr c (a : Z) : Prop := 0 <= a < npages (pt c) * BLOCK_SIZE.

(** ** Refinement *)

Context (inv : Z → vmem D → Prop) `{!PolicyOk handler inv}.

Lemma valid_addr_page c a :
  valid_addr c a → npages (pt c) < 2 ^ 64 →
  in_range c (page_of a) ∧ 0 <= off_of a < BLOCK_SIZE ∧
  u64 (Z.quot a BLOCK_SIZE) = page_of a.
Proof.
  intros Ha Hnp. pose proof BLOCK_SIZE_pos. unfold valid_addr, in_range, page_of, off_of in *.
  assert (0 <= a / BLOCK_SIZE < npages (pt c)).
  { split; [apply Z.div_pos; lia|]. apply Z.div_lt_upper_bound; lia. }
  split; [done|]. split; [by apply Z.mod_pos_bound|].
  rewrite Z.quot_div_nonneg by lia. apply u64_small. lia.
Qed.

Lemma wp_fault_handler s V n a Q :
  coherent (vc s) V → inv (n + 1) s → 0 <= n → npages (pt (vc s)) < 2 ^ 64 →
  valid_addr (vc s) a → bits_of (vc s) (page_of a) ≠ PROT_RW →
  (∀ s', coherent (vc s') V → inv n s' → same_env (vc s) (vc s') →
     bits_of (vc s') (page_of a) = next_bits (bits_of (vc s) (page_of a)) → Q tt s') →
  wp (internal_fault_handler handler a) s Q.
Proof.
  intros Hc Hi Hn Hnp Ha Hb HQ. destruct (valid_addr_page _ _ Ha Hnp) as (Hp & _ & Eu).
  unfold internal_fault_handler. rewrite wp_bind, wp_gets, Eu.
  rewrite (proj2 (Z.ltb_lt _ _)) by (unfold in_range in Hp; lia). by eapply po_handler.
Qed.

(** The protection is that of the page table entry. *)
Lemma allows_bits s V bit a :
  coherent (vc s) V → allows bit s a = Z.testbit (bits_of (vc s) (page_of a)) bit.
Proof. intros Hc. unfold allows, bits_of. by rewrite (sh_mmu_prot _ (co_shape _ _ Hc)). Qed.

Lemma mmu_lookup s V p :
  coherent (vc s) V → resident (vc s) p →
  idx (mmu_frame (vc s)) p = Some (map_of (vc s) p) ∧
  idx (physmem (vc s)) (map_of (vc s) p) = Some (V p) ∧ len (V p) = BLOCK_SIZE.
Proof.
  intros Hc Hr. pose proof Hc as [Hs _ Hfr Hmmu _ Hview _]. pose proof Hr as [Hp _].
  assert (0 <= p < len (mmu_frame (vc s))) as [f Hf]%idx_is_Some.
  { rewrite (sh_mmu_frame _ Hs). exact Hp. }
  specialize (Hmmu p Hr). unfold mmu_frame_of in Hmmu. rewrite Hf in Hmmu. simpl in Hmmu.
  pose proof (Hfr p Hr). pose proof (sh_frames _ Hs) as [??].
  assert (0 <= map_of (vc s) p < len (physmem (vc s))) as [b Hb]%idx_is_Some by lia.
  specialize (Hview p Hr). unfold frame_of in Hview. rewrite Hb in Hview. simpl in Hview.
  subst. split_and!; [done..|]. by eapply bo_len, (sh_physmem _ Hs).
Qed.

(** Writing a byte into a writable page changes the view at that byte. *)
Lemma coherent_store c V p o x :
  coherent c V → resident c p → bits_of c p = PROT_RW → 0 <= o < BLOCK_SIZE → byte_ok x →
  coherent (put_physmem (upd (physmem c) (map_of c p) (upd (V p) o x)) c)
    (λ q, if decide (q = p) then upd (V q) o x else V q).
Proof.
  intros Hc Hr Hb Ho Hx. pose proof Hc as [Hs Hprot Hfr Hmmu Hinj Hview Hstore].
  pose proof (Hfr p Hr). pose proof (sh_frames _ Hs) as [??].
  assert (block_of (V p)) as HVp.
  { rewrite <-Hview by done. apply frame_of_block; [done|lia]. }
  split; simpl; try done.
  - destruct Hs. split; simpl; rewrite ?len_upd; try done.
    intros f b. rewrite idx_upd by lia. case_decide; [|by apply sh_physmem].
    intros [= <-]. split; [by rewrite len_upd; apply HVp|]. apply Forall_insert; [apply HVp|done].
  - intros q Hq. unfold frame_of. simpl. rewrite default_idx_upd by lia.
    change (resident c q) in Hq. change (map_of (put_physmem _ c) q) with (map_of c q).
    destruct (decide (map_of c q = map_of c p)) as [E|E].
    + rewrite (Hinj q p) by done. by rewrite decide_True.
    + rewrite decide_False by congruence. by apply Hview.
  - intros q Hq Hbq. change (bits_of c q ≠ PROT_RW) in Hbq. rewrite decide_False by congruence.
    by apply Hstore.
Qed.

Lemma vload_unfold fuel a :
  vload (S fuel) a = (ok ← gets (λ s, allows 0 s a);
      if (ok : bool) then
        f ← aload (λ s, mmu_frame (vc s)) (page_of a);
        b ← aload (λ s, physmem (vc s)) f;
        aload (λ _, b) (off_of a)
      else internal_fault_handler handler a;; vload fuel a).
Proof. reflexivity. Qed.

Lemma vload_hit s V a fuel Q :
  coherent (vc s) V → resident (vc s) (page_of a) → 0 <= off_of a < BLOCK_SIZE →
  Q (flat_load V a) s → wp (vload (S fuel) a) s Q.
Proof.
  intros Hc Hr Ho HQ. rewrite vload_unfold, wp_bind, wp_gets. rewrite (allows_bits _ _ _ _ Hc).
  assert (Z.testbit (bits_of (vc s) (page_of a)) 0 = true) as ->.
  { destruct Hr as [_ Hr]. by destruct (co_prot _ _ Hc (page_of a)) as [?|[->| ->]]. }
  destruct (mmu_lookup _ _ _ Hc Hr) as (Hf & Hb & Hl).
  rewrite wp_bind. eapply wp_aload; [exact Hf|]. rewrite wp_bind. eapply wp_aload; [exact Hb|].
  assert (0 <= off_of a < len (V (page_of a))) as [x Hx]%idx_is_Some by lia.
  eapply wp_aload; [exact Hx|]. unfold flat_load in HQ. by rewrite Hx in HQ.
Qed.

(** A load takes at most one fault and reads the flat memory. *)
Lemma wp_vload s V n a Q :
  coherent (vc s) V → inv (n + 1) s → 0 <= n → npages (pt (vc s)) < 2 ^ 64 →
  valid_addr (vc s) a →
  (∀ s', coherent (vc s') V → inv n s' → same_env (vc s) (vc s') → Q (flat_load V a) s') →
  wp (vload 2 a) s Q.
Proof.
  intros Hc Hi Hn Hnp Ha HQ. destruct (valid_addr_page _ _ Ha Hnp) as (Hp & Ho & _).
  destruct (decide (bits_of (vc s) (page_of a) = 0)) as [Hb|Hb].
  - rewrite vload_unfold, wp_bind, wp_gets. rewrite (allows_bits _ _ _ _ Hc), Hb. simpl (Z.testbit 0 0). cbn iota.
    rewrite wp_bind. eapply wp_fault_handler; try done; [by rewrite Hb|].
    intros s' Hc' Hi' He Hb'. rewrite Hb in Hb'. apply vload_hit with (V := V); [done| |done|auto].
    split; [by eapply in_range_env|by rewrite Hb'].
  - apply vload_hit with (V := V); [done|by split|done|]. apply HQ; [done| |done].
    eapply po_mono; [|exact Hi]. lia.
Qed.

Lemma vstore_unfold fuel a x :
  vstore (S fuel) a x = (ok ← gets (λ s, allows 1 s a);
      if (ok : bool) then
        f ← aload (λ s, mmu_frame (vc s)) (page_of a);
        b ← aload (λ s, physmem (vc s)) f;
        _ ← aload (λ _, b) (off_of a);
        astore (λ s, physmem (vc s)) (λ m s, put_vc (put_physmem m (vc s)) s) f
          (upd b (off_of a) (u8 x))
      else internal_fault_handler handler a;; vstore fuel a x).
Proof. reflexivity. Qed.

Lemma vstore_hit s V n a x fuel Q :
  coherent (vc s) V → inv n s → in_range (vc s) (page_of a) →
  bits_of (vc s) (page_of a) = PROT_RW → 0 <= off_of a < BLOCK_SIZE →
  (∀ s', coherent (vc s') (flat_store V a x) → inv n s' → same_env (vc s) (vc s') → Q tt s') →
  wp (vstore (S fuel) a x) s Q.
Proof.
  intros Hc Hi Hp Hb Ho HQ. rewrite vstore_unfold, wp_bind, wp_gets. rewrite (allows_bits _ _ _ _ Hc), Hb.
  assert (resident (vc s) (page_of a)) as Hr by (split; [done|by rewrite Hb]).
  destruct (mmu_lookup _ _ _ Hc Hr) as (Hf & Hbk & Hl). cbn iota.
  change (Z.testbit PROT_RW 1) with true. cbn iota.
  rewrite wp_bind. eapply wp_aload; [exact Hf|]. rewrite wp_bind. eapply wp_aload; [exact Hbk|].
  assert (0 <= off_of a < len (V (page_of a))) as [y Hy]%idx_is_Some by lia.
  rewrite wp_bind. eapply wp_aload; [exact Hy|].
  apply wp_astore; [by eapply idx_Some_range|]. apply HQ; simpl.
  - apply coherent_store; try done. apply u8_range.
  - apply po_stable; [done|]. by rewrite len_upd.
  - split; simpl; by rewrite ?len_upd.
Qed.

Lemma allows1_false s V a :
  coherent (vc s) V → bits_of (vc s) (page_of a) ≠ PROT_RW → allows 1 s a = false.
Proof.
  intros Hc Hb. rewrite (allows_bits _ _ _ _ Hc).
  by destruct (co_prot _ _ Hc (page_of a)) as [->|[->|?]].
Qed.

(** A store takes at most two faults and writes the flat memory. *)
Lemma wp_vstore s V n a x Q :
  coherent (vc s) V → inv (n + 2) s → 0 <= n → npages (pt (vc s)) < 2 ^ 64 →
  valid_addr (vc s) a →
  (∀ s', coherent (vc s') (flat_store V a x) → inv n s' → same_env (vc s) (vc s') → Q tt s') →
  wp (vstore 3 a x) s Q.
Proof.
  intros Hc Hi Hn Hnp Ha HQ. destruct (valid_addr_page _ _ Ha Hnp) as (Hp & Ho & _).
  (* from a readable page *)
  assert (∀ s fuel Q, coherent (vc s) V → inv (n + 1) s → npages (pt (vc s)) < 2 ^ 64 →
    valid_addr (vc s) a → bits_of (vc s) (page_of a) ≠ 0 →
    (∀ s', coherent (vc s') (flat_store V a x) → inv n s' → same_env (vc s) (vc s') → Q tt s') →
    wp (vstore (S (S fuel)) a x) s Q) as Hread.
  { clear s Hc Hi Hp Ha Hnp Q HQ. intros s fuel Q Hc Hi Hnp Ha Hb HQ.
    destruct (valid_addr_page _ _ Ha Hnp) as (Hp & _ & _).
    destruct (decide (bits_of (vc s) (page_of a) = PROT_RW)) as [Hrw|Hrw].
    - apply vstore_hit with (V := V) (n := n); try done. eapply po_mono; [|exact Hi]. lia.
    - rewrite vstore_unfold, wp_bind, wp_gets. rewrite (allows1_false _ V) by done. cbn iota.
      rewrite wp_bind. eapply wp_fault_handler; try done. intros s' Hc' Hi' He Hb'.
      apply vstore_hit with (V := V) (n := n); try done; [by eapply in_range_env| |].
      + rewrite Hb'. unfold next_bits. by rewrite (proj2 (Z.eqb_neq _ 0)).
      + intros s'' ? ? ?. apply HQ; [done..|by etrans]. }
  destruct (decide (bits_of (vc s) (page_of a) = 0)) as [Hb|Hb].
  - rewrite vstore_unfold, wp_bind, wp_gets. rewrite (allows1_false _ V) by (try done; by rewrite Hb).
    cbn iota. rewrite wp_bind. replace (n + 2) with (n + 1 + 1) in Hi by lia.
    eapply wp_fault_handler; try done; [lia|by rewrite Hb|].
    intros s' Hc' Hi' He Hb'. rewrite Hb in Hb'. destruct He as [En ? ? ? ?] eqn:EHe.
    apply Hread; try done.
    + by rewrite En.
    + unfold valid_addr in *. by rewrite En.
    + by rewrite Hb'.
    + intros s'' ? ? ?. apply HQ; [done..|by etrans].
  - apply Hread; try done. eapply po_mono; [|exact Hi]. lia.
Qed.

(** Any program of loads and stores computes what it computes on a flat
    memory. *)
Lemma wp_run ops : ∀ s V n Q,
  coherent (vc s) V → inv (n + 2 * len ops) s → 0 <= n → npages (pt (vc s)) < 2 ^ 64 →
  Forall (λ o, valid_addr (vc s) (op_addr o)) ops →
  (∀ s', coherent (vc s') (flat_run ops V).2 → inv n s' → same_env (vc s) (vc s') →
     Q (flat_run ops V).1 s') →
  wp (run ops) s Q.
Proof.
  induction ops as [|o ops IH]; intros s V n Q Hc Hi Hn Hnp Hv HQ.
  { simpl. rewrite wp_ret. apply HQ; [done| |done]. eapply po_mono; [|exact Hi]. len_lia. }
  apply Forall_cons in Hv as [Ha Hv]. pose proof (len_nonneg ops) as Hl.
  rewrite len_cons in Hi.
  destruct o as [a|a x]; simpl; rewrite wp_bind.
  - eapply (wp_vload s V (n + 2 * len ops)); [done| |lia|done|done|].
    { eapply po_mono; [|exact Hi]. lia. }
    intros s' Hc' Hi' He. rewrite wp_bind. pose proof (se_npages _ _ He) as En.
    apply (IH s' V n); [done|done|done|by rewrite En|by unfold valid_addr in *; rewrite En|].
    intros s'' Hc'' Hi'' He''. rewrite wp_ret. simpl in HQ.
    destruct (flat_run ops V) as [xs V']. apply HQ; [done..|by etrans].
  - eapply (wp_vstore s V (n + 2 * len ops)); [done| |lia|done|done|].
    { eapply po_mono; [|exact Hi]. lia. }
    intros s' Hc' Hi' He. pose proof (se_npages _ _ He) as En.
    apply (IH s' (flat_store V a x) n);
      [done|done|done|by rewrite En|by unfold valid_addr in *; rewrite En|].
    intros s'' Hc'' Hi'' He''. apply HQ; [done..|by etrans].
Qed.
End Access.

(** ** The handlers do not change the policy *)

Section policy_kept.
Context `{Config} `{Malloc} {D : Type} `{!BlockDev D}.
Variable rand : Z → Z.
Abbreviation kept := (keeps (@replacementPolicy D)).

Lemma kept_onC {A} (m : M (core D) A) : kept (onC m).
Proof. unfold onC. auto with keeps. Qed.
Lemma kept_onD {A} (m : M dllList A) : kept (onD m).
Proof. unfold onD. auto with keeps. Qed.
Lemma kept_onF {A} (m : M freqList A) : kept (onF m).
Proof. unfold onF. auto with keeps. Qed.
Lemma kept_onH {A} (m : Z → M hashTable A) : kept (onH m).
Proof.
  intros s a s' Hs. unfold onH in Hs. revert Hs. apply keeps_zoom. reflexivity.
Qed.
#[local] Hint Resolve kept_onC kept_onD kept_onF kept_onH : keeps.

Lemma kept_find_empty n i : kept (find_empty n i).
Proof. revert i. induction n; intros i; simpl; keeps_tac. Qed.
Lemma kept_find_oldest n i v fr : kept (find_oldest n i v fr).
Proof. revert i v fr. induction n; intros i v fr; simpl; keeps_tac. Qed.
Lemma kept_scanBuckets n r : kept (scanBuckets n r).
Proof. revert r. induction n; intros r; simpl; keeps_tac. Qed.
#[local] Hint Resolve kept_find_empty kept_find_oldest kept_scanBuckets : keeps.

Lemma kept_handler policy page : kept (handler_of rand policy page).
Proof.
  unfold handler_of, FIFO_page_fault_handler, LRU_page_fault_handler, LFU_page_fault_handler,
    RAND_page_fault_handler, FFIFO_page_fault_handler, deleteLRU, deleteLFU, setFrame, age1,
    randMod. keeps_tac.
Qed.
#[local] Hint Resolve kept_handler : keeps.

Lemma kept_run policy ops : kept (run (handler_of rand policy) ops).
Proof.
  assert (∀ fuel a, kept (vload (handler_of rand policy) fuel a)).
  { intros fuel a. induction fuel; simpl; unfold internal_fault_handler; keeps_tac. }
  assert (∀ fuel a x, kept (vstore (handler_of rand policy) fuel a x)).
  { intros fuel a x. induction fuel; simpl; unfold internal_fault_handler; keeps_tac. }
  induction ops as [|[a|a x] ops IH]; simpl; keeps_tac.
Qed.
End policy_kept.
