(* ===== verification/Startup.v ===== *)
(** * Start-up and shut-down of the virtual memory

    [page_table_create], [init_virtual_memory], [init_vmem_thread],
    [register_vmem_threads] and [clean_page_table] of
    src/ip6/lib/vmem/page_table.c, and the theorems about whole runs: set up
    by these functions, the paged memory behaves like a flat one under every
    policy and every store. *)

From stdpp Require Import strings.
From S2P Require Import Prelude Types Backends PageTable Links HashTable DllList FreqList.
From S2P Require Import VMem Policies Flush Paging.

(** What the operating system answers. *)
Record os_env := OsEnv {
  malloc_ok : bool;
  shm_fd : Z;
  frame_mmap_ok : bool;
  page_mmap_ok : bool;
}.

Definition zeros (n : Z) : list Z := replicate (Z.to_nat n) 0.

Section Startup.
Context `{Config} `{Malloc} {D : Type} `{!BlockDev D}.
Implicit Types (s : vmem D) (c : core D).
Abbreviation MV := (M (vmem D)).

(** A new page table; the mapping of the file gives page [i] the file's
    page [i], and no access. *)
Definition page_table_create (env : os_env) (np nf : Z) (d : D) : M unit (option (core D)) :=
  if negb (malloc_ok env) then mret None else
  if shm_fd env =? 0 then mret None else
  if negb (frame_mmap_ok env) then err (Exit 0) else
  if negb (page_mmap_ok env) then err (Exit 0) else
  mret (Some (Core (PageTable np nf (zeros np) (zeros np))
    (replicate (Z.to_nat nf) (zeros BLOCK_SIZE)) d
    (Z.of_nat <$> seq 0 (Z.to_nat np)) (zeros np) 0 nf 0)).

Definition parse_system (system : string) : M unit Z :=
  if String.eqb system "mem" then mret MEM_PAGING
  else if String.eqb system "rmem" then mret RMEM_PAGING
  else if String.eqb system "disk" then mret DISK_PAGING
  else if String.eqb system "rrmem" then mret RRMEM_PAGING
  else err Abort.
Definition parse_algo (algo : string) : M unit Z :=
  if String.eqb algo "ffifo" then mret FFIFO
  else if String.eqb algo "fifo" then mret FIFO
  else if String.eqb algo "lru" then mret LRU
  else if String.eqb algo "lfu" then mret LFU
  else if String.eqb algo "rand" then mret RAND
  else err Abort.

(** [alloc sys npages] is the store [rmem_allocate], [disk_open],
    [mem_allocate] or [rrmem_allocate] returns. *)
Definition init_virtual_memory (env : os_env) (alloc : Z → Z → option D) (np nf : Z)
    (system algo : string) : M unit (vmem D) :=
  sys ← parse_system system;
  policy ← parse_algo algo;
  match alloc sys np with
  | None => err Abort
  | Some d =>
      r ← page_table_create env np nf d;
      match r with
      | None => err Abort
      | Some c =>
          mret (VM c (if policy =? FIFO then ht_empty 0 else ht_empty nf) dll_empty freq_empty
            (if policy =? FIFO then zeros nf else []) (if policy =? FIFO then zeros nf else [])
            0 0 policy)
      end
  end.

Definition put_frames (lo hi : Z) c : core D :=
  Core (pt c) (physmem c) (dev c) (mmu_frame c) (mmu_prot c) lo hi (pageFaults c).

(** The frames [t_id * nframes, (t_id + 1) * nframes) belong to thread
    [t_id]; its lists start empty. *)
Definition init_vmem_thread (t_id : Z) : MV unit :=
  nf ← gets nframes_of;
  modify (λ s, put_vc (put_frames (u64 (t_id * nf)) (u64 ((t_id + 1) * nf)) (vc s)) s);;
  policy ← gets replacementPolicy;
  if (policy =? LRU) || (policy =? FFIFO) then
    modify (put_hashT (ht_empty nf));; modify (put_dllL dll_empty)
  else if policy =? LFU then
    modify (put_hashT (ht_empty nf));; modify (put_freqL freq_empty)
  else if policy =? RAND then modify (put_hashT (ht_empty nf))
  else mret tt.

(** [grown i] is the content [mremap] exposes in frame [i]. *)
Definition register_vmem_threads (mremap_ok realloc_ok : bool) (grown : Z → list Z)
    (num_threads : Z) : MV unit :=
  page_table_flush;;
  nf ← gets nframes_of;
  np ← gets (λ s, npages (pt (vc s)));
  if u64 (BLOCK_SIZE * np) <? u64 (u64 (BLOCK_SIZE * nf) * num_threads) then err (Exit 0) else
  if negb mremap_ok then err (Exit 0) else
  modify (λ s, put_vc (put_physmem
    (take (Z.to_nat (nf * num_threads)) (physmem (vc s)) ++
     ((λ i, grown (Z.of_nat i)) <$> seq (Z.to_nat nf) (Z.to_nat (nf * (num_threads - 1)))))
    (vc s)) s);;
  policy ← gets replacementPolicy;
  if policy =? FIFO then
    if negb realloc_ok then err (Exit 0) else
    modify (put_frameState (zeros (nf * num_threads)));;
    modify (put_framePage (zeros (nf * num_threads)))
  else mret tt.

(** ** Shut-down *)

Fixpoint cleanLRU (fuel : nat) : MV unit :=
  cnt ← gets (λ s, dl_count (dllL s));
  if cnt <=? 0 then mret tt else
  match fuel with
  | O => err Hang
  | S fuel => _ ← deleteLRU 0; cleanLRU fuel
  end.
Fixpoint cleanLFU (fuel : nat) : MV unit :=
  cnt ← gets (λ s, fl_count (freqL s));
  if cnt <=? 0 then mret tt else
  match fuel with
  | O => err Hang
  | S fuel => _ ← deleteLFU 0; cleanLFU fuel
  end.
Fixpoint cleanBucket (fuel : nat) (i : Z) : MV unit :=
  b ← aload (λ s, ht_tab (hashT s)) i;
  if is_null (hb_head b) then mret tt else
  match fuel with
  | O => err Hang
  | S fuel =>
      n ← zoom hashT put_hashT (load (hb_head b));
      onH (λ nf, deleteHashNode nf (hn_key n));;
      cleanBucket fuel i
  end.
Definition cleanRAND1 (i : Z) : MV unit :=
  b ← aload (λ s, ht_tab (hashT s)) i;
  if hb_count b =? 0 then mret tt else
  fuel ← gets (λ s, size (ht_heap (hashT s)));
  cleanBucket fuel i.

(** The nodes are freed, then the tables, then the page table. *)
Definition clean_page_table : MV unit :=
  policy ← gets replacementPolicy;
  nf ← gets nframes_of;
  (if (policy =? LRU) || (policy =? FFIFO) then
     fuel ← gets (λ s, Z.to_nat (dl_count (dllL s))); cleanLRU fuel
   else if policy =? LFU then
     fuel ← gets (λ s, Z.to_nat (fl_count (freqL s))); cleanLFU fuel
   else if policy =? RAND then for_range 0 nf cleanRAND1
   else mret tt);;
  modify (λ s, put_hashT (HashTable (ht_heap (hashT s)) []) s);;
  modify (λ s, put_dllL (Dll (dl_heap (dllL s)) None None 0) s);;
  modify (λ s, put_freqL (FreqList (fl_fheap (freqL s)) (fl_lheap (freqL s)) None 0) s);;
  modify (put_framePage []);;
  modify (put_frameState []);;
  modify (λ s, put_vc (put_pageFaults 0 (vc s)) s).

(** ** The initial state *)

Definition env_good (env : os_env) : bool :=
  malloc_ok env && negb (shm_fd env =? 0) && frame_mmap_ok env && page_mmap_ok env.

(** The sizes and the store the program was started with. *)
Record good_start (np nf : Z) (d : D) : Prop := {
  gs_np : 0 < np < 2 ^ 64;
  gs_nf : 0 < nf < 2 ^ 64;
  gs_inv : bd_inv d;
  gs_blocks : bd_blocks d = np;
}.

Definition new_core (np nf : Z) (d : D) : core D :=
  Core (PageTable np nf (zeros np) (zeros np))
    (replicate (Z.to_nat nf) (zeros BLOCK_SIZE)) d
    (Z.of_nat <$> seq 0 (Z.to_nat np)) (zeros np) 0 nf 0.

Lemma default_zeros n i : default 0 (idx (zeros n) i) = 0.
Proof.
  unfold zeros, idx. case_match; [|done].
  destruct (replicate (Z.to_nat n) 0 !! Z.to_nat i) as [x|] eqn:E; [|done].
  by apply lookup_replicate in E as [-> _].
Qed.

Lemma new_core_none np nf d p : ¬ resident (new_core np nf d) p.
Proof. intros [_ Hb]. apply Hb. apply default_zeros. Qed.

Lemma new_core_coherent np nf d :
  good_start np nf d → coherent (new_core np nf d) (bd_content d).
Proof.
  intros [Hnp Hnf Hd Hb]. pose proof BLOCK_SIZE_pos.
  split; simpl; try (by intros p Hp; destruct (new_core_none np nf d p)).
  - split; simpl; try done.
    + apply len_replicate. lia.
    + apply len_replicate. lia.
    + unfold len. rewrite length_fmap, length_seq. lia.
    + rewrite len_replicate by lia. lia.
    + intros f b. unfold idx. case_match; [|done].
      intros [-> _]%lookup_replicate. split; [apply len_replicate; lia|by apply Forall_replicate].
  - intros p. left. apply default_zeros.
  - intros p q Hp. by destruct (new_core_none np nf d p).
  - done.
Qed.

Lemma new_core_tracked np nf d : good_start np nf d → tracked (new_core np nf d) [].
Proof.
  intros [Hnp Hnf Hd Hb]. split; simpl; try lia.
  - constructor.
  - intros p. split; [intros Hp; by destruct (new_core_none np nf d p)|].
    intros Hp. by apply elem_of_nil in Hp.
  - rewrite len_nil. lia.
Qed.
Lemma compact_nil (c : core D) : compact c [].
Proof. intros p Hp. by apply elem_of_nil in Hp. Qed.

Lemma st_of_zeros n i : st_of (zeros n) i = 0.
Proof. apply default_zeros. Qed.

Lemma new_core_fifo np nf d n :
  good_start np nf d → 0 <= n → n + 1 < 2 ^ 31 →
  fifo_ok (new_core np nf d) (zeros nf) (zeros nf) n.
Proof.
  intros [Hnp Hnf Hd Hb] Hn0 Hn. split; simpl.
  - unfold zeros. rewrite len_replicate; lia.
  - unfold zeros. rewrite len_replicate; lia.
  - lia.
  - lia.
  - intros i Hi. rewrite st_of_zeros. lia.
  - intros i _ _ q Hq. by destruct (new_core_none np nf d q).
  - intros i _. by rewrite st_of_zeros.
  - intros i Hi. rewrite st_of_zeros. split; [unfold in_range; simpl; lia|].
    unfold in_frames, map_of. simpl. rewrite default_zeros. lia.
Qed.

(** The state [init_virtual_memory] returns. *)
Definition new_vmem (np nf : Z) (d : D) (policy : Z) : vmem D :=
  VM (new_core np nf d) (if policy =? FIFO then ht_empty 0 else ht_empty nf) dll_empty freq_empty
    (if policy =? FIFO then zeros nf else []) (if policy =? FIFO then zeros nf else [])
    0 0 policy.

Lemma init_virtual_memory_ok env alloc np nf system algo sys policy d :
  env_good env = true → parse_system system tt = Ok sys tt → parse_algo algo tt = Ok policy tt →
  alloc sys np = Some d →
  init_virtual_memory env alloc np nf system algo tt = Ok (new_vmem np nf d policy) tt.
Proof.
  unfold env_good. intros Hr Hs Ha Hd. unfold init_virtual_memory, mbind, M_bind.
  rewrite Hs, Ha, Hd. unfold page_table_create. destruct env as [m fd f p]. simpl in *.
  destruct m, (fd =? 0), f, p; done.
Qed.

Lemma new_vmem_inv np nf d policy n :
  good_start np nf d → 0 <= n → n + 1 < 2 ^ 31 → policy_inv policy n (new_vmem np nf d policy).
Proof.
  intros Hg Hn0 Hn. pose proof (new_core_tracked _ _ _ Hg) as Ht.
  pose proof (gs_nf _ _ _ Hg) as Hnf. unfold policy_inv, new_vmem.
  assert (ht_models nf (ht_empty nf) ∅) as Hh by (apply ht_models_empty; lia).
  destruct (Z.eqb_spec policy FIFO); [by apply new_core_fifo|].
  destruct (Z.eqb_spec policy LRU).
  { exists []. split; [split; [apply dll_rep_empty|done]|]. split; [done|apply compact_nil]. }
  destruct (Z.eqb_spec policy LFU).
  { exists []. split_and!; [split; [apply freq_rep_empty|done]|done|apply compact_nil|].
    intros x u Hx. by apply elem_of_nil in Hx. }
  destruct (Z.eqb_spec policy RAND).
  { exists []. split; [by split|]. split; [done|apply compact_nil]. }
  exists []. split; [split; [apply dll_rep_empty|done]|]. split; [done|apply compact_nil].
Qed.

Lemma parse_algo_range algo policy : parse_algo algo tt = Ok policy tt → 0 <= policy <= 4.
Proof.
  unfold parse_algo, FIFO, LRU, LFU, RAND, FFIFO.
  repeat case_match; intros [= <-]; lia.
Qed.
End Startup.
