(* ===== verification/VMemSpec.v ===== *)
(** * What the virtual memory guarantees

    The theorems about src/ip6/lib/vmem/page_table.c as a whole, from the
    lemmas of the components: transparency of paging, what each policy
    evicts, the flush, and the start-up of threads. *)

From stdpp Require Import strings.
From S2P Require Import Prelude Types Backends PageTable Links HashTable DllList FreqList.
From S2P Require Import VMem Policies Flush Paging Startup.

Section Spec.
Context `{Config} `{Malloc} {D : Type} `{!BlockDev D}.
Implicit Types (s : vmem D) (c : core D) (V : Z → list Z).
Variable rand : Z → Z.

(** A program on a fresh machine, then a flush. *)
Lemma paging_flat np nf policy (d : D) ops :
  good_start np nf d → 0 <= policy <= 4 →
  Forall (λ o, 0 <= op_addr o < np * BLOCK_SIZE) ops → 2 * len ops + 1 < 2 ^ 31 →
  ∃ s1 s2,
    run (handler_of rand policy) ops (new_vmem np nf d policy) =
      Ok (flat_run ops (bd_content d)).1 s1 ∧
    page_table_flush s1 = Ok tt s2 ∧
    ∀ p, 0 <= p < np →
      bd_content (dev (vc s2)) p = (flat_run ops (bd_content d)).2 p ∧ bits_of (vc s2) p = 0.
Proof.
  intros Hg Hpr Hops Hlen. pose proof (len_nonneg ops).
  assert (wp (run (handler_of rand policy) ops) (new_vmem np nf d policy)
    (λ outs s1, (outs = (flat_run ops (bd_content d)).1 ∧
       coherent (vc s1) (flat_run ops (bd_content d)).2 ∧ policy_inv policy 0 s1 ∧
       same_env (new_core np nf d) (vc s1)) ∧
       replacementPolicy s1 = policy)) as Hrun.
  { apply (keeps_wp replacementPolicy); [apply kept_run|].
    eapply (wp_run _ (policy_inv policy)) with (V := bd_content d) (n := 0);
      [by apply new_core_coherent|apply new_vmem_inv; [done|lia|lia]|done
      |apply (gs_np _ _ _ Hg)|done|done]. }
  apply wp_ok in Hrun as (outs & s1 & Hr & (-> & Hc1 & Hi1 & He1) & Hp1).
  assert (wp page_table_flush s1 (λ _ s2, flushed s1 s2 (flat_run ops (bd_content d)).2)) as Hfl.
  { eapply (wp_page_table_flush s1 _ 0); [exact Hc1| |by intros].
    split; rewrite ?Hp1; try done; unfold nframes_of;
      rewrite ?(se_start _ _ He1), ?(se_end _ _ He1), ?(se_nframes _ _ He1); done. }
  apply wp_ok in Hfl as ([] & s2 & Hf & Hfl). exists s1, s2.
  split_and!; [done|done|].
  intros p Hp. assert (in_range (vc s2) p) as Hin.
  { eapply in_range_env; [apply Hfl|]. by eapply in_range_env; [apply He1|]. }
  split; [by eapply flushed_store|].
  destruct (decide (bits_of (vc s2) p = 0)) as [|Hb]; [done|].
  by destruct (fd_none _ _ _ Hfl p).
Qed.

(** C1: Paging is transparent. Started by [init_virtual_memory] with any
    store and any policy, every program of loads and stores on the mapping
    returns what it returns on a flat byte memory with the store's initial
    content, no access faulting more than the retry bound; a following
    [page_table_flush] leaves the final flat memory in the store and no
    page resident. *)
Theorem paged_memory_is_flat env alloc np nf system algo sys policy (d : D) ops :
  env_good env = true →
  parse_system system tt = Ok sys tt → parse_algo algo tt = Ok policy tt →
  alloc sys np = Some d → good_start np nf d →
  Forall (λ o, 0 <= op_addr o < np * BLOCK_SIZE) ops → 2 * len ops + 1 < 2 ^ 31 →
  ∃ s0 s1 s2,
    init_virtual_memory env alloc np nf system algo tt = Ok s0 tt ∧
    run (handler_of rand policy) ops s0 = Ok (flat_run ops (bd_content d)).1 s1 ∧
    page_table_flush s1 = Ok tt s2 ∧
    ∀ p, 0 <= p < np →
      bd_content (dev (vc s2)) p = (flat_run ops (bd_content d)).2 p ∧ bits_of (vc s2) p = 0.
Proof.
  intros Henv Hsys Halgo Halloc Hg Hops Hlen. exists (new_vmem np nf d policy).
  destruct (paging_flat np nf policy d ops) as (s1 & s2 & Hr & Hf & Hp); try done.
  { by eapply parse_algo_range. }
  exists s1, s2. split_and!; [by apply init_virtual_memory_ok with (sys := sys)|done..].
Qed.

(** C23: The LRU handler implements the abstract LRU list: a faulting page
    moves to the front, and when all frames are in use the page at the back
    is dropped. The view of memory is unchanged. *)
Theorem LRU_refines_list s V l page :
  coherent (vc s) V → lru_at s l → in_range (vc s) page →
  ∃ s' l', LRU_page_fault_handler page s = Ok tt s' ∧ coherent (vc s') V ∧ lru_at s' l' ∧
    l'.*2 = lru_step (nframes_of s) l.*2 page ∧
    (∀ q, resident (vc s') q ↔ q ∈ lru_step (nframes_of s) l.*2 page).
Proof.
  intros Hc Hat Hp.
  assert (wp (LRU_page_fault_handler page) s (λ _ s', ∃ l', coherent (vc s') V ∧ lru_at s' l' ∧
    l'.*2 = lru_step (nframes_of s) l.*2 page)) as (? & s' & Hr & l' & ? & Hat' & E)%wp_ok.
  { eapply wp_LRU_handler; eauto. }
  destruct x. exists s', l'. split_and!; try done. intros q. rewrite <-E.
  apply (tk_resident _ _ (proj1 (proj2 Hat'))).
Qed.

(** C24: The FFIFO handler is a strict first-in first-out queue: the order of
    arrival is kept, a write upgrade does not change it, and the page that
    came in first is dropped. *)
Theorem FFIFO_refines_queue s V l page :
  coherent (vc s) V → lru_at s l → in_range (vc s) page →
  ∃ s' l', FFIFO_page_fault_handler page s = Ok tt s' ∧ coherent (vc s') V ∧ lru_at s' l' ∧
    l'.*2 = ffifo_step (nframes_of s) l.*2 page ∧
    (∀ q, resident (vc s') q ↔ q ∈ ffifo_step (nframes_of s) l.*2 page).
Proof.
  intros Hc Hat Hp.
  assert (wp (FFIFO_page_fault_handler page) s (λ _ s', ∃ l', coherent (vc s') V ∧ lru_at s' l' ∧
    l'.*2 = ffifo_step (nframes_of s) l.*2 page)) as (? & s' & Hr & l' & ? & Hat' & E)%wp_ok.
  { eapply wp_FFIFO_handler; eauto. }
  destruct x. exists s', l'. split_and!; try done. intros q. rewrite <-E.
  apply (tk_resident _ _ (proj1 (proj2 Hat'))).
Qed.

(** C25: [deleteLFU] chooses a page of least use count; since the handler
    counts only faults, it never evicts a written page while a page that
    was only read is resident. *)
Theorem LFU_evicts_least_used s V n q :
  coherent (vc s) V → lfu_inv n s → (∃ p, resident (vc s) p) →
  ∃ s' victim, deleteLFU q s = Ok victim s' ∧ resident (vc s) victim ∧ vc s' = vc s ∧
    (∀ p, resident (vc s) p → use_of (vc s) victim <= use_of (vc s) p) ∧
    ((∃ p, resident (vc s) p ∧ bits_of (vc s) p = PROT_READ) →
     bits_of (vc s) victim = PROT_READ).
Proof.
  intros Hc (G & Hd & Ht & Hcm & Hu) [p0 Hp0].
  assert (∀ p, resident (vc s) p → ∃ x u, (x, u) ∈ counted G ∧ x.2 = p ∧ u = use_of (vc s) p)
    as Hfind.
  { intros p (x & -> & (y & -> & Hy)%list_elem_of_fmap)%(tk_resident _ _ Ht)%list_elem_of_fmap.
    destruct y as [x u]. exists x, u. split_and!; [done..|]. by apply Hu. }
  pose proof (tk_u64 _ _ Ht). pose proof (tk_end _ _ Ht). pose proof (tk_len _ _ Ht) as Hlen.
  pose proof (sh_frames _ (co_shape _ _ Hc)). rewrite len_fmap12 in Hlen.
  assert (wp (deleteLFU q) s (λ v s', vc s' = vc s ∧ ∃ x u, v = x.2 ∧ (x, u) ∈ counted G ∧
    ∀ y w, (y, w) ∈ counted G → u <= w)) as (v & s' & Hr & Ev & x & u & -> & Hx & Hmin)%wp_ok.
  { eapply wp_deleteLFU; [done|apply Ht| |lia|].
    - intros E. destruct (Hfind p0 Hp0) as (x & u & Hx & _). rewrite E in Hx.
      by apply elem_of_nil in Hx.
    - intros f' h' x u G' s' Hd' HG' Hmin. split; [done|]. exists x, u. split_and!; [done| |done].
      rewrite HG'. left. }
  exists s', x.2. pose proof (Hu _ _ Hx) as Eu.
  assert (∀ p, resident (vc s) p → use_of (vc s) x.2 <= use_of (vc s) p) as Hle.
  { intros p (y & w & Hy & <- & ->)%Hfind. rewrite <-Eu. by eapply Hmin. }
  split_and!; [done| |done|done|].
  - apply (tk_resident _ _ Ht), list_elem_of_fmap. exists x. split; [done|].
    apply list_elem_of_fmap. by exists (x, u).
  - intros (p & Hp & Hb). specialize (Hle p Hp). unfold use_of in Hle. rewrite Hb in Hle.
    destruct (Z.eqb_spec (bits_of (vc s) x.2) PROT_READ); [done|]. simpl in Hle. lia.
Qed.

(** The scan of [FIFO_page_fault_handler] picks, when no frame is free,
    a frame of greatest age. *)
Theorem FIFO_victim_is_oldest s V n frame :
  coherent (vc s) V → fifo_inv n s →
  (∀ i, in_frames (vc s) i → st_of (frameState s) i ≠ 0) →
  ∃ f, find_oldest (Z.to_nat (endFrame (vc s) - startFrame (vc s))) (startFrame (vc s)) 0 frame s
         = Ok f s ∧ in_frames (vc s) f ∧
    ∀ i, in_frames (vc s) i → st_of (frameState s) i <= st_of (frameState s) f.
Proof.
  intros Hc Hok Hall. pose proof (sh_frames _ (co_shape _ _ Hc)) as [Hs0 _].
  pose proof Hok as [Hfs Hfp Hsome Hbud Hage Hfree Hused Hpages].
  set (lo := startFrame (vc s)) in *. set (hi := endFrame (vc s)) in *.
  assert (wp (find_oldest (Z.to_nat (hi - lo)) lo 0 frame) s (λ f s', s' = s ∧ in_frames (vc s) f ∧
    ∀ i, in_frames (vc s) i → st_of (frameState s) i <= st_of (frameState s) f))
    as (f & s' & Hr & -> & Hf)%wp_ok; [|eauto].
  apply wp_find_oldest; [done|lia|]. replace (lo + Z.of_nat (Z.to_nat (hi - lo))) with hi by lia.
  intros f [[-> Hle]|(Hf & Hpos & Hmax)]; [|by unfold in_frames; fold lo hi].
  assert (in_frames (vc s) lo) as Hlo by (unfold in_frames; fold lo hi; lia).
  specialize (Hle lo ltac:(lia)). specialize (Hall lo Hlo). destruct (Hage lo Hlo). lia.
Qed.

(** [page_table_flush] returns, writes every dirty page back and drops
    every page: the store then holds the virtual memory. Every policy but
    the random one is ready for further faults. *)
Theorem flush_writes_back s V n :
  coherent (vc s) V → flushable n s →
  ∃ s', page_table_flush s = Ok tt s' ∧ coherent (vc s') V ∧
    (∀ p, in_range (vc s) p → bd_content (dev (vc s')) p = V p ∧ bits_of (vc s') p = 0) ∧
    (replacementPolicy s ≠ RAND → policy_inv (replacementPolicy s) n s').
Proof.
  intros Hc Hf.
  assert (wp page_table_flush s (λ _ s', flushed s s' V ∧
    (replacementPolicy s ≠ RAND → policy_inv (replacementPolicy s) n s')))
    as (x & s' & Hr & Hfl & Hi)%wp_ok.
  { eapply wp_page_table_flush; eauto. }
  destruct x. exists s'. split_and!; [done|apply Hfl| |done]. intros p Hp.
  assert (in_range (vc s') p) by (by eapply in_range_env; [apply Hfl|]).
  split; [by eapply flushed_store|].
  destruct (decide (bits_of (vc s') p = 0)) as [|Hb]; [done|]. by destruct (fd_none _ _ _ Hfl p).
Qed.

End Spec.

(** ** Instances

    Small machines with the in-memory store: three pages of one byte. *)

#[local] Existing Instance Mem.mem_dev.
Definition store3 : Mem.mem := Mem.mem_allocate (λ i, [u8 i]) 3.
Definition good_env : os_env := OsEnv true 3 true true.

Lemma store3_start nf : 0 < nf < 2 ^ 64 → good_start 3 nf store3.
Proof.
  intros Hnf. split; [lia|done| |done]. apply Mem.mem_allocate_ok; [lia|]. intros i. split; [done|]. repeat constructor; apply u8_range.
Qed.

Definition machine (nf policy : Z) : vmem Mem.mem := new_vmem 3 nf store3 policy.
Lemma machine_coherent nf policy :
  0 < nf < 2 ^ 64 → coherent (vc (machine nf policy)) (bd_content store3).
Proof. intros. by apply new_core_coherent, store3_start. Qed.
Lemma machine_lru nf policy :
  0 < nf < 2 ^ 64 → (policy =? FIFO) = false → lru_at (machine nf policy) [].
Proof.
  intros Hnf Hp. split_and!.
  - split; [apply dll_rep_empty|]. unfold machine, new_vmem, nframes_of. simpl. rewrite Hp.
    apply ht_models_empty. lia.
  - by apply new_core_tracked, store3_start.
  - apply compact_nil.
Qed.

(** A machine after a fault on page [p]. *)
Definition after_fault (rand : Z → Z) (policy p : Z) (s : vmem Mem.mem) : vmem Mem.mem :=
  match handler_of rand policy p s with Ok _ s' => s' | Err _ => s end.
Lemma after_fault_ok rand policy p s V n :
  coherent (vc s) V → policy_inv policy (n + 1) s → 0 <= n → in_range (vc s) p →
  bits_of (vc s) p = 0 →
  coherent (vc (after_fault rand policy p s)) V ∧
  policy_inv policy n (after_fault rand policy p s) ∧
  same_env (vc s) (vc (after_fault rand policy p s)) ∧
  bits_of (vc (after_fault rand policy p s)) p = PROT_READ.
Proof.
  intros Hc Hi Hn Hp Hb.
  assert (wp (handler_of rand policy p) s (λ _ s', coherent (vc s') V ∧ policy_inv policy n s' ∧
    same_env (vc s) (vc s') ∧ bits_of (vc s') p = PROT_READ)) as Hw.
  { eapply po_handler; try done; [by rewrite Hb|]. intros s' ? ? ? Hb'. by rewrite Hb in Hb'. }
  unfold after_fault, wp in *. by destruct (handler_of rand policy p s).
Qed.

Definition rand0 : Z → Z := λ _, 0.
Definition full1 (policy : Z) : vmem Mem.mem := after_fault rand0 policy 0 (machine 1 policy).

Lemma full1_ok policy :
  coherent (vc (full1 policy)) (bd_content store3) ∧ policy_inv policy 0 (full1 policy) ∧
  same_env (vc (machine 1 policy)) (vc (full1 policy)) ∧ bits_of (vc (full1 policy)) 0 = PROT_READ.
Proof.
  apply after_fault_ok; [by apply machine_coherent| |done|done|done].
  apply new_vmem_inv; [by apply store3_start|lia|lia].
Qed.

Definition ops3 : list vop := [Store 2 7; Load 0; Store 0 9; Load 2; Load 1; Load 0].

(** Stores and loads on three pages with one frame, under LRU. *)
Lemma paged_memory_is_flat_witness :
  ∃ s0 s1 s2,
    init_virtual_memory good_env (λ _ _, Some store3) 3 1 "mem" "lru" tt = Ok s0 tt ∧
    run (handler_of rand0 LRU) ops3 s0 = Ok [0; 7; 1; 9] s1 ∧
    page_table_flush s1 = Ok tt s2 ∧
    ∀ p, 0 <= p < 3 →
      bd_content (dev (vc s2)) p = (flat_run ops3 (bd_content store3)).2 p ∧
      bits_of (vc s2) p = 0.
Proof.
  assert ([0; 7; 1; 9] = (flat_run ops3 (bd_content store3)).1) as E by (vm_compute; reflexivity).
  rewrite E. clear E.
  apply (paged_memory_is_flat rand0 good_env (λ _ _, Some store3) 3 1 "mem" "lru" MEM_PAGING LRU
    store3 ops3); try reflexivity.
  - by apply store3_start.
  - repeat constructor; simpl; lia.
Defined.

Lemma LRU_refines_list_witness :
  ∃ s' l', LRU_page_fault_handler 1 (machine 2 LRU) = Ok tt s' ∧
    coherent (vc s') (bd_content store3) ∧ lru_at s' l' ∧ l'.*2 = [1] ∧
    (∀ q, resident (vc s') q ↔ q ∈ lru_step 2 [] 1).
Proof.
  apply (LRU_refines_list (machine 2 LRU) (bd_content store3) [] 1).
  - by apply machine_coherent.
  - by apply machine_lru.
  - unfold in_range. simpl. lia.
Defined.

Lemma FFIFO_refines_queue_witness :
  ∃ s' l', FFIFO_page_fault_handler 1 (machine 2 FFIFO) = Ok tt s' ∧
    coherent (vc s') (bd_content store3) ∧ lru_at s' l' ∧ l'.*2 = [1] ∧
    (∀ q, resident (vc s') q ↔ q ∈ ffifo_step 2 [] 1).
Proof.
  apply (FFIFO_refines_queue (machine 2 FFIFO) (bd_content store3) [] 1).
  - by apply machine_coherent.
  - by apply machine_lru.
  - unfold in_range. simpl. lia.
Defined.

Lemma full1_resident policy : resident (vc (full1 policy)) 0.
Proof.
  destruct (full1_ok policy) as (_ & _ & He & Hb). split; [|by rewrite Hb].
  unfold in_range. rewrite (se_npages _ _ He). simpl. lia.
Qed.

Lemma LFU_evicts_least_used_witness :
  ∃ s' victim, deleteLFU 0 (full1 LFU) = Ok victim s' ∧ resident (vc (full1 LFU)) victim ∧
    vc s' = vc (full1 LFU) ∧
    (∀ p, resident (vc (full1 LFU)) p → use_of (vc (full1 LFU)) victim <= use_of (vc (full1 LFU)) p) ∧
    ((∃ p, resident (vc (full1 LFU)) p ∧ bits_of (vc (full1 LFU)) p = PROT_READ) →
     bits_of (vc (full1 LFU)) victim = PROT_READ).
Proof.
  destruct (full1_ok LFU) as (Hc & Hi & He & Hb).
  apply (LFU_evicts_least_used (full1 LFU) (bd_content store3) 0 0).
  - exact Hc.
  - exact Hi.
  - exists 0. apply full1_resident.
Defined.

Lemma FIFO_victim_is_oldest_witness :
  ∃ f, find_oldest 1 0 0 5 (full1 FIFO) = Ok f (full1 FIFO) ∧ in_frames (vc (full1 FIFO)) f ∧
    ∀ i, in_frames (vc (full1 FIFO)) i →
      st_of (frameState (full1 FIFO)) i <= st_of (frameState (full1 FIFO)) f.
Proof.
  destruct (full1_ok FIFO) as (Hc & Hi & He & Hb).
  apply (FIFO_victim_is_oldest (full1 FIFO) (bd_content store3) 0 5).
  - exact Hc.
  - exact Hi.
  - intros i Hi'. unfold in_frames in Hi'. rewrite (se_start _ _ He), (se_end _ _ He) in Hi'.
    simpl in Hi'. assert (i = 0) as -> by lia. vm_compute. done.
Defined.

Lemma flush_writes_back_witness :
  ∃ s', page_table_flush (full1 LRU) = Ok tt s' ∧ coherent (vc s') (bd_content store3) ∧
    (∀ p, in_range (vc (full1 LRU)) p →
       bd_content (dev (vc s')) p = bd_content store3 p ∧ bits_of (vc s') p = 0) ∧
    (replacementPolicy (full1 LRU) ≠ RAND → policy_inv (replacementPolicy (full1 LRU)) 0 s').
Proof.
  destruct (full1_ok LRU) as (Hc & Hi & He & Hb).
  apply (flush_writes_back (full1 LRU) (bd_content store3) 0 Hc).
  split; [done|exact Hi|done|done].
Defined.

