(* ===== verification/Programs.v ===== *)
(** * Programs on paged memory: src/ip6/apps/rmem_test.c

    The scan and the word-count program, written against the loads and stores
    of [Paging], and what they compute on any store and with any replacement
    policy. [flat_state] is the interface between the paging and a program:
    the memory as a function, and how many faults are still in the budget. *)

From stdpp Require Import strings.
From S2P Require Import Prelude Types Backends PageTable Links HashTable DllList FreqList.
From S2P Require Import VMem Policies Flush Paging Startup VMemSpec.

Section Programs.
Context `{Config} `{Malloc} {D : Type} `{!BlockDev D}.
Abbreviation MV := (M (vmem D)).
Variable handler : Z → MV unit.
Abbreviation load := (vload handler 2).
Abbreviation store := (vstore handler 3).

(** ** scan_program *)

Definition scan_write (length : Z) : MV unit := for_range 0 length (λ i, store i (i mod 256)).
Fixpoint scan_sum (n : nat) (i total : Z) : MV Z :=
  match n with
  | O => mret total
  | S n => x ← load i; scan_sum n (i + 1) (u32 (total + x))
  end.
Fixpoint scan_rounds (k : nat) (length total : Z) : MV Z :=
  match k with
  | O => mret total
  | S k => total ← scan_sum (Z.to_nat length) 0 total; scan_rounds k length total
  end.
(** The value printed. *)
Definition scan_program (length : Z) : MV Z :=
  scan_write length;;
  scan_rounds 10 length 0.

(** ** wc_program *)

(** [isspace] and [isgraph] in the C locale. *)
Definition isspace (c : Z) : bool := ((9 <=? c) && (c <=? 13)) || (c =? 32).
Definition isgraph (c : Z) : bool := (33 <=? c) && (c <=? 126).
Definition isWord (prev cur : Z) : bool := isspace cur && isgraph prev.
(** The file is copied up to its end or a byte 255, which is [EOF] in the
    [char] symbol; the result is the number of bytes. *)
Fixpoint read_file (file : list Z) (i : Z) : MV Z :=
  match file with
  | [] => mret i
  | b :: file => if b =? 255 then mret i else store i b;; read_file file (u64 (i + 1))
  end.
Fixpoint count_words (n : nat) (index prev count : Z) : MV Z :=
  match n with
  | O => mret count
  | S n =>
      c ← load index;
      count_words n (index + 1) c (if isWord prev c then u64 (count + 1) else count)
  end.
(** [None] is a file that cannot be opened; the value printed. *)
Definition wc_program (input : option (list Z)) : MV Z :=
  fsize ← match input with Some file => read_file file 0 | None => mret 0 end;
  count_words (Z.to_nat fsize) 0 32 0.
End Programs.

(** The value that [main] of rmem_test.c prints for the programs above;
    [length] is an [int]. *)
Inductive answer := Printed (x : Z) | UnknownProgram.
Section Main.
Context `{Config} `{Malloc} {D : Type} `{!BlockDev D}.
Variable rand : Z → Z.
Definition run_program (program : string) (npages : Z) (input : option (list Z)) : M (vmem D) answer :=
  policy ← gets replacementPolicy;
  let handler := handler_of rand policy in
  if String.eqb program "scan" then
    x ← scan_program handler (u32 (s32 (npages * BLOCK_SIZE))); mret (Printed x)
  else if String.eqb program "wc" then
    x ← wc_program handler input; mret (Printed x)
  else mret UnknownProgram.
End Main.

(** ** A program's view of the memory *)

Section View.
Context `{Config} `{Malloc} {D : Type} `{!BlockDev D}.
Implicit Types (s : vmem D) (m : Z → Z).
Variable handler : Z → M (vmem D) unit.
Context (inv : Z → vmem D → Prop) `{!PolicyOk handler inv}.
Abbreviation load := (vload handler 2).
Abbreviation store := (vstore handler 3).

(** The memory is [m] on the addresses below [size], and [n] faults are left. *)
Record flat_state (size n : Z) m s : Prop := {
  fs_view : ∃ V, coherent (vc s) V ∧ ∀ a, 0 <= a < size → flat_load V a = m a;
  fs_inv : inv n s;
  fs_size : npages (pt (vc s)) * BLOCK_SIZE = size;
  fs_np : npages (pt (vc s)) < 2 ^ 64;
}.
Definition put_byte m (a x : Z) : Z → Z := λ b, if decide (b = a) then u8 x else m b.

Lemma flat_load_store V a b x size : 0 <= a → 0 <= b → len (V (page_of a)) = size → size = BLOCK_SIZE →
  flat_load (flat_store V a x) b = if decide (b = a) then u8 x else flat_load V b.
Proof.
  intros Ha Hb Hl ->. pose proof BLOCK_SIZE_pos as HB. unfold flat_load, flat_store.
  pose proof (Z.mod_pos_bound a BLOCK_SIZE HB). pose proof (Z.mod_pos_bound b BLOCK_SIZE HB).
  destruct (decide (page_of b = page_of a)) as [E|E].
  - rewrite E, idx_upd by (unfold off_of; lia). destruct (decide (off_of a = off_of b)) as [Eo|Eo].
    + assert (b = a) as ->; [|by rewrite decide_True]. unfold page_of, off_of in *.
      rewrite (Z.div_mod b BLOCK_SIZE), (Z.div_mod a BLOCK_SIZE), E, Eo by lia. done.
    + rewrite decide_False by congruence. done.
  - rewrite decide_False by congruence. done.
Qed.
Lemma view_len s V p : coherent (vc s) V → in_range (vc s) p → len (V p) = BLOCK_SIZE.
Proof.
  intros Hc Hp. pose proof (co_shape _ _ Hc) as Hs. destruct (decide (bits_of (vc s) p = PROT_RW)) as [Hb|Hb].
  - assert (resident (vc s) p) as Hr by (split; [done|by rewrite Hb]).
    by destruct (mmu_lookup s V p Hc Hr) as (_ & _ & ?).
  - rewrite <-(co_store _ _ Hc p Hp Hb). apply bo_len, bd_content_block; [apply Hs|]. rewrite (sh_blocks _ Hs). apply Hp.
Qed.
Lemma wp_vload_at size n m s a Q : flat_state size (n + 1) m s → 0 <= n → 0 <= a < size →
  (∀ s', flat_state size n m s' → Q (m a) s') → wp (load a) s Q.
Proof.
  intros [(V & Hc & HV) Hi Hsz Hnp] Hn Ha HQ. eapply (wp_vload handler inv s V n); [done|done|done|done|unfold valid_addr; lia|].
  intros s' Hc' Hi' He. rewrite HV by done. apply HQ. pose proof (se_npages _ _ He) as En.
  split; [by exists V|done|by rewrite En|by rewrite En].
Qed.
Lemma wp_vstore_at size n m s a x Q : flat_state size (n + 2) m s → 0 <= n → 0 <= a < size →
  (∀ s', flat_state size n (put_byte m a x) s' → Q tt s') → wp (store a x) s Q.
Proof.
  intros [(V & Hc & HV) Hi Hsz Hnp] Hn Ha HQ. assert (valid_addr (vc s) a) as Hva by (unfold valid_addr; lia).
  eapply (wp_vstore handler inv s V n); [done|done|done|done|done|].
  intros s' Hc' Hi' He. apply HQ. pose proof (se_npages _ _ He) as En.
  split; [|done|by rewrite En|by rewrite En]. exists (flat_store V a x). split; [done|]. intros b Hb.
  assert (len (V (page_of a)) = BLOCK_SIZE) as Hl.
  { destruct (valid_addr_page _ _ Hva Hnp) as (Hp & _). by eapply view_len. }
  rewrite (flat_load_store V a b x BLOCK_SIZE) by (done || lia). unfold put_byte. case_decide; [done|]. by apply HV.
Qed.
Lemma flat_state_less size n n' m s : n' <= n → flat_state size n m s → flat_state size n' m s.
Proof. intros Hn [Hv Hi Hs Hp]. split; [done|by eapply po_mono|done|done]. Qed.
Lemma flat_state_ext size n m m' s : (∀ a, 0 <= a < size → m' a = m a) → flat_state size n m s → flat_state size n m' s.
Proof. intros Hm [(V & Hc & HV) Hi Hs Hp]. split; [|done|done|done]. exists V. split; [done|]. intros a Ha. by rewrite Hm, HV. Qed.

(** ** The scan *)

(** The sum of the [n] bytes from [i] on. *)
Fixpoint sum_from m (i : Z) (n : nat) : Z :=
  match n with O => 0 | S n => m i + sum_from m (i + 1) n end.
Lemma wp_scan_sum size m n : ∀ i total k s Q,
  flat_state size (k + Z.of_nat n) m s → 0 <= k → 0 <= i → i + Z.of_nat n <= size →
  (∀ s', flat_state size k m s' → Q (match n with O => total | _ => u32 (total + sum_from m i n) end) s') →
  wp (scan_sum handler n i total) s Q.
Proof.
  induction n as [|n IH]; intros i total k s Q Hs Hk Hi Hsz HQ; cbn [scan_sum].
  { rewrite wp_ret. apply HQ. by replace (k + Z.of_nat 0) with k in Hs by lia. }
  rewrite wp_bind. eapply (wp_vload_at size (k + Z.of_nat n)); [by replace (k + Z.of_nat n + 1) with (k + Z.of_nat (S n)) by lia|lia|lia|].
  intros s1 Hs1. apply (IH (i + 1) _ k); [done|done|lia|lia|]. intros s2 Hs2. specialize (HQ s2 Hs2). cbn [sum_from] in HQ.
  destruct n as [|n]; [by rewrite Z.add_0_r in HQ|]. unfold u32 in *. rewrite Zplus_mod_idemp_l.
  by replace (total + m i + sum_from m (i + 1) (S n)) with (total + (m i + sum_from m (i + 1) (S n))) by lia.
Qed.
Lemma wp_scan_rounds size m r : ∀ total k s Q,
  0 < size → flat_state size (k + size * Z.of_nat r) m s → 0 <= k → total = u32 total →
  (∀ s', flat_state size k m s' → Q (u32 (total + Z.of_nat r * sum_from m 0 (Z.to_nat size))) s') →
  wp (scan_rounds handler r size total) s Q.
Proof.
  induction r as [|r IH]; intros total k s Q Hsz Hs Hk Ht HQ; cbn [scan_rounds].
  { rewrite wp_ret. rewrite Z.mul_0_l, Z.add_0_r, <-Ht in HQ. apply HQ. by replace (k + size * Z.of_nat 0) with k in Hs by lia. }
  rewrite wp_bind. eapply (wp_scan_sum size m _ 0 total (k + size * Z.of_nat r)); [|nia|lia|lia|].
  { by replace (k + size * Z.of_nat r + Z.of_nat (Z.to_nat size)) with (k + size * Z.of_nat (S r)) by nia. }
  intros s1 Hs1. destruct (Z.to_nat size) as [|z] eqn:Ez; [lia|]. rewrite <-Ez in *.
  assert (∀ x, u32 (u32 x) = u32 x) as Huu by (intros x; unfold u32; by rewrite Zmod_mod).
  apply (IH _ k); [done|done|done|by rewrite Huu|]. intros s2 Hs2. specialize (HQ s2 Hs2).
  replace (u32 (u32 (total + sum_from m 0 (Z.to_nat size)) + Z.of_nat r * sum_from m 0 (Z.to_nat size)))
    with (u32 (total + Z.of_nat (S r) * sum_from m 0 (Z.to_nat size))); [done|].
  unfold u32. rewrite Zplus_mod_idemp_l. f_equal. lia.
Qed.
Lemma wp_scan_program size m k s Q :
  0 < size → flat_state size (k + 12 * size) m s → 0 <= k →
  (∀ s', flat_state size k (λ a, a mod 256) s' → Q (u32 (10 * sum_from (λ a, a mod 256) 0 (Z.to_nat size))) s') →
  wp (scan_program handler size) s Q.
Proof.
  intros Hsz Hs Hk HQ. unfold scan_program, scan_write. rewrite wp_bind.
  eapply (wp_for_range (λ i, flat_state size (k + 10 * size + 2 * (size - i)) (λ a, if decide (a < i) then a mod 256 else m a))); [lia| | |].
  - replace (k + 10 * size + 2 * (size - 0)) with (k + 12 * size) by lia. eapply flat_state_ext; [|exact Hs].
    intros a Ha. cbv beta. by rewrite decide_False by lia.
  - intros i s1 Hi Hs1. eapply (wp_vstore_at size (k + 10 * size + 2 * (size - (i + 1)))); [|lia|lia|].
    { by replace (k + 10 * size + 2 * (size - (i + 1)) + 2) with (k + 10 * size + 2 * (size - i)) by lia. }
    intros s2 Hs2. eapply flat_state_ext; [|exact Hs2]. intros a Ha. unfold put_byte. cbv beta.
    destruct (decide (a = i)) as [->|Hne].
    + rewrite decide_True by lia. rewrite u8_small; [done|]. apply Z.mod_pos_bound. lia.
    + repeat case_decide; try lia; done.
  - intros s1 Hs1. eapply (wp_scan_rounds size (λ a, a mod 256) 10 0 k); [done| |done|done|exact HQ].
    replace (k + 10 * size + 2 * (size - size)) with (k + size * Z.of_nat 10) in Hs1 by lia.
    eapply flat_state_ext; [|exact Hs1]. intros a Ha. cbv beta. by rewrite decide_True by lia.
Qed.

(** ** The word count *)

(** What the copy of the file stops at. *)
Fixpoint upto_255 (l : list Z) : list Z :=
  match l with [] => [] | b :: l => if b =? 255 then [] else b :: upto_255 l end.
(** A word ends where a blank follows a visible character. *)
Definition word_ends (l : list Z) : Z := len (filter (λ x, isWord x.1 x.2 = true) (zip l (tail l))).

Lemma upto_255_len l : len (upto_255 l) <= len l.
Proof. induction l as [|b l IH]; simpl; [done|]. pose proof (len_nonneg l). destruct (b =? 255); rewrite ?len_cons; [change (len (@nil Z)) with 0|]; lia. Qed.
Lemma no_byte (x : Z) : idx (@nil Z) x = None.
Proof. apply idx_None. change (len (@nil Z)) with 0. lia. Qed.
Lemma wp_read_file size l : ∀ i m k s Q,
  flat_state size (k + 2 * len l) m s → 0 <= k → 0 <= i → i + len l <= size → size < 2 ^ 64 → Forall byte_ok l →
  (∀ s', flat_state size k (λ a, if decide (i <= a) then default (m a) (idx (upto_255 l) (a - i)) else m a) s' →
     Q (i + len (upto_255 l)) s') →
  wp (read_file handler l i) s Q.
Proof.
  induction l as [|b l IH]; intros i m k s Q Hs Hk Hi Hsz H64 Hb HQ; cbn [read_file upto_255] in *.
  { rewrite wp_ret. change (len (@nil Z)) with 0 in *. rewrite Z.add_0_r in HQ. apply HQ.
    eapply flat_state_less; [|eapply flat_state_ext; [|exact Hs]]; [lia|]. intros a Ha. cbv beta. rewrite no_byte. by case_decide. }
  apply Forall_cons in Hb as [Hb Hbs]. rewrite len_cons in *. pose proof (len_nonneg l).
  destruct (Z.eqb_spec b 255) as [->|Hne].
  { rewrite wp_ret. change (len (@nil Z)) with 0 in *. rewrite Z.add_0_r in HQ. apply HQ.
    eapply flat_state_less; [|eapply flat_state_ext; [|exact Hs]]; [lia|]. intros a Ha. cbv beta. rewrite no_byte. by case_decide. }
  rewrite wp_bind. eapply (wp_vstore_at size (k + 2 * len l)); [|lia|lia|].
  { by replace (k + 2 * len l + 2) with (k + 2 * (len l + 1)) by lia. }
  intros s1 Hs1. rewrite u64_small by lia. apply (IH _ (put_byte m i b) k); [done|done|lia|lia|done|done|].
  intros s2 Hs2. rewrite len_cons in HQ. replace (i + 1 + len (upto_255 l)) with (i + (len (upto_255 l) + 1)) by lia. apply HQ.
  eapply flat_state_ext; [|exact Hs2]. intros a Ha. unfold put_byte. cbv beta.
  destruct (decide (i <= a)) as [Hia|Hia].
  - assert (idx (b :: upto_255 l) (a - i) = if decide (a = i) then Some b else idx (upto_255 l) (a - (i + 1))) as ->.
    { unfold idx. rewrite (proj2 (Z.leb_le 0 (a - i))) by lia. destruct (decide (a = i)) as [->|E]; [by rewrite Z.sub_diag|].
      rewrite (proj2 (Z.leb_le 0 _)) by lia. replace (Z.to_nat (a - i)) with (S (Z.to_nat (a - (i + 1)))) by lia. done. }
    destruct (decide (a = i)) as [E|E].
    + rewrite decide_False by lia. simpl. symmetry. apply u8_small. exact Hb.
    + by rewrite decide_True by lia.
  - rewrite !decide_False by lia. done.
Qed.
Lemma wp_count_words size m n : ∀ i prev count k s Q,
  flat_state size (k + Z.of_nat n) m s → 0 <= k → 0 <= i → i + Z.of_nat n <= size → 0 <= count → count + Z.of_nat n < 2 ^ 64 →
  (∀ s', flat_state size k m s' →
     let l := (λ j, m (i + Z.of_nat j)) <$> seq 0 n in Q (count + word_ends (prev :: l)) s') →
  wp (count_words handler n i prev count) s Q.
Proof.
  induction n as [|n IH]; intros i prev count k s Q Hs Hk Hi Hsz Hc H64 HQ; cbn [count_words].
  { rewrite wp_ret. specialize (HQ s). cbn in HQ. change (word_ends [prev]) with 0 in HQ. rewrite Z.add_0_r in HQ. apply HQ.
    by replace (k + Z.of_nat 0) with k in Hs by lia. }
  rewrite wp_bind. eapply (wp_vload_at size (k + Z.of_nat n)); [by replace (k + Z.of_nat n + 1) with (k + Z.of_nat (S n)) by lia|lia|lia|].
  intros s1 Hs1. apply (IH (i + 1) (m i) _ k); [done|done|lia|lia|destruct (isWord _ _); rewrite ?u64_small; lia|
    destruct (isWord _ _); rewrite ?u64_small; lia|]. intros s2 Hs2. cbv zeta. specialize (HQ s2 Hs2). cbv zeta in HQ.
  cbn [seq fmap list_fmap] in HQ. rewrite Z.add_0_r in HQ. rewrite <-fmap_S_seq, <-list_fmap_compose in HQ.
  replace ((λ j, m (i + 1 + Z.of_nat j)) <$> seq 0 n) with ((λ j, m (i + Z.of_nat j)) ∘ S <$> seq 0 n).
  2: { apply list_fmap_ext. intros j x _. unfold compose. f_equal. lia. }
  set (l := _ <$> seq 0 n) in *.
  replace ((if isWord prev (m i) then u64 (count + 1) else count) + word_ends (m i :: l)) with (count + word_ends (prev :: m i :: l)); [done|].
  unfold word_ends. cbn [tail zip zip_with]. rewrite (filter_cons _ (prev, m i)). cbn [fst snd].
  destruct (isWord prev (m i)); [|by rewrite decide_False].
  rewrite decide_True, len_cons, u64_small by (done || lia). lia.
Qed.
Lemma wp_wc_program size m file k s Q :
  flat_state size (k + 3 * len file) m s → 0 <= k → len file <= size → size < 2 ^ 63 → Forall byte_ok file →
  (∀ s' m', flat_state size k m' s' → Q (word_ends (upto_255 file)) s') →
  wp (wc_program handler (Some file)) s Q.
Proof.
  intros Hs Hk Hsz H63 Hb HQ. pose proof (upto_255_len file). pose proof (len_nonneg (upto_255 file)). unfold wc_program. rewrite wp_bind.
  apply (wp_read_file size file 0 m (k + len file)); [by replace (k + len file + 2 * len file) with (k + 3 * len file) by lia|lia|lia|lia|lia|done|].
  rewrite Z.add_0_l. intros s1 Hs1.
  eapply (wp_count_words size _ _ 0 32 0 (k + len file - len (upto_255 file))); [|lia|lia|lia|lia|lia|].
  { by replace (k + len file - len (upto_255 file) + Z.of_nat (Z.to_nat (len (upto_255 file)))) with (k + len file) by lia. }
  intros s2 Hs2. cbv zeta. set (l := _ <$> seq 0 _).
  assert (l = upto_255 file) as ->.
  { unfold l. apply list_eq. intros j. rewrite list_lookup_fmap. destruct (decide (j < length (upto_255 file))%nat) as [Hj|Hj].
    - rewrite lookup_seq_lt by (unfold len; lia). simpl. rewrite Z.add_0_l, decide_True, Z.sub_0_r by lia.
      unfold idx. rewrite (proj2 (Z.leb_le 0 _)) by lia. rewrite Nat2Z.id.
      destruct (lookup_lt_is_Some_2 (upto_255 file) j Hj) as [x ->]. done.
    - rewrite lookup_seq_ge by (unfold len; lia). simpl. symmetry. apply lookup_ge_None. lia. }
  assert (word_ends (32 :: upto_255 file) = word_ends (upto_255 file)) as ->.
  { unfold word_ends. destruct (upto_255 file) as [|x f]; [done|]. cbn [tail zip zip_with]. rewrite filter_cons. cbn [fst snd].
    unfold isWord. rewrite andb_false_r. by rewrite decide_False. }
  rewrite Z.add_0_l. eapply HQ. eapply flat_state_less; [|exact Hs2]. lia.
Qed.
End View.

Section Theorems.
Context `{Config} `{Malloc} {D : Type} `{!BlockDev D}.
Variable rand : Z → Z.

(** C19: The programs of rmem_test.c compute on paged memory what they compute
    on memory: started by [init_virtual_memory] with any store and any
    replacement policy, the scan prints ten times the sum of the bytes
    [i % 256] of the mapping, modulo 2^32, and the word count of a file that
    fits the mapping prints how often a blank follows a visible character in
    the file, up to its first byte 255. *)
Theorem programs_on_paged_memory env alloc np nf system algo sys policy (d : D) file :
  env_good env = true →
  parse_system system tt = Ok sys tt → parse_algo algo tt = Ok policy tt →
  alloc sys np = Some d → good_start np nf d → 12 * (np * BLOCK_SIZE) + 1 < 2 ^ 31 →
  len file <= np * BLOCK_SIZE → Forall byte_ok file →
  ∃ s0 s1 s2, init_virtual_memory env alloc np nf system algo tt = Ok s0 tt ∧
    run_program rand "scan" np None s0 =
      Ok (Printed (u32 (10 * sum_from (λ a, a mod 256) 0 (Z.to_nat (np * BLOCK_SIZE))))) s1 ∧
    run_program rand "wc" np (Some file) s0 = Ok (Printed (word_ends (upto_255 file))) s2.
Proof.
  intros Henv Hsys Halgo Halloc Hg Hbud Hfile Hb. pose proof (gs_np _ _ _ Hg) as Hnp. pose proof BLOCK_SIZE_pos.
  assert (0 < np * BLOCK_SIZE) as Hpos by nia. set (size := np * BLOCK_SIZE) in *. set (s0 := new_vmem np nf d policy).
  assert (flat_state (policy_inv policy) size (12 * size) (flat_load (bd_content d)) s0) as Hs0.
  { split; [|apply new_vmem_inv; [done|lia|lia]|done|apply Hnp]. exists (bd_content d). split; [by apply new_core_coherent|done]. }
  assert (wp (run_program rand "scan" np None) s0
    (λ x _, x = Printed (u32 (10 * sum_from (λ a, a mod 256) 0 (Z.to_nat size))))) as Hscan.
  { unfold run_program. rewrite wp_bind, wp_gets. cbn [String.eqb Ascii.eqb Bool.eqb]. rewrite wp_bind. fold size.
    assert (u32 (s32 size) = size) as ->.
    { unfold s32. rewrite (u32_small size) by lia. rewrite (proj2 (Z.ltb_lt _ _)) by lia. apply u32_small. lia. }
    eapply (wp_scan_program _ (policy_inv policy) size _ 0); [done|exact Hs0|done|]. intros s' _. by rewrite wp_ret. }
  assert (wp (run_program rand "wc" np (Some file)) s0 (λ x _, x = Printed (word_ends (upto_255 file)))) as Hwc.
  { unfold run_program. rewrite wp_bind, wp_gets. cbn [String.eqb Ascii.eqb Bool.eqb]. rewrite wp_bind.
    pose proof (len_nonneg file).
    eapply (wp_wc_program _ (policy_inv policy) size _ file 0); [|done|done|lia|done|intros s' m' _; by rewrite wp_ret].
    apply (flat_state_less (handler_of rand policy) (policy_inv policy) size (12 * size)); [lia|exact Hs0]. }
  apply wp_ok in Hscan as (x & s1 & E1 & ->). apply wp_ok in Hwc as (y & s2 & E2 & ->). exists s0, s1, s2.
  split_and!; [by apply init_virtual_memory_ok with (sys := sys)|done|done].
Qed.
End Theorems.

(** ** Witness: three pages, one frame, under LRU *)
Section ProgramsWitness.
#[local] Existing Instance Mem.mem_dev.
Lemma programs_on_paged_memory_witness :
  ∃ s0 s1 s2, init_virtual_memory good_env (λ _ _, Some store3) 3 1 "mem" "lru" tt = Ok s0 tt ∧
    run_program rand0 "scan" 3 None s0 = Ok (Printed 30) s1 ∧
    run_program rand0 "wc" 3 (Some [97; 98; 32]) s0 = Ok (Printed 1) s2.
Proof.
  destruct (programs_on_paged_memory rand0 good_env (λ _ _, Some store3) 3 1 "mem" "lru" MEM_PAGING LRU store3 [97; 98; 32])
    as (s0 & s1 & s2 & E0 & E1 & E2).
  - reflexivity.
  - reflexivity.
  - reflexivity.
  - reflexivity.
  - by apply store3_start.
  - reflexivity.
  - done.
  - repeat constructor; done.
  - assert (u32 (10 * sum_from (λ a, a mod 256) 0 (Z.to_nat (3 * BLOCK_SIZE))) = 30) as Hs by (vm_compute; reflexivity).
    assert (word_ends (upto_255 [97; 98; 32]) = 1) as Hw by (vm_compute; reflexivity).
    rewrite Hs in E1. rewrite Hw in E2. exists s0, s1, s2. split_and!; assumption.
Defined.
End ProgramsWitness.
