(* ===== verification/ConfFile.v ===== *)
(** * The configuration file: src/ip6/lib/config.c

    [set_bb_config] reads six lines [KEY=value] (interface, hosts, server
    port, source port, source address, debug) into the structure [config].
    Strings are lists of bytes; [line] is the buffer of 1024 bytes that
    [fgets] fills. Not modelled: [set_interface_ip], which is [ioctl]s only. *)

From S2P Require Import Prelude Types Bytes.

(** ** C strings *)

(** Up to the terminator. *)
Fixpoint cstring (l : list Z) : list Z :=
  match l with [] => [] | b :: l => if b =? 0 then [] else b :: cstring l end.
(** The index of the first byte [c]. *)
Fixpoint find_byte (c : Z) (l : list Z) : option Z :=
  match l with
  | [] => None
  | b :: l => if b =? c then Some 0 else Z.succ <$> find_byte c l
  end.
(** [strtok] in a loop: the tokens between the separators, none empty. *)
Fixpoint tokens (sep : Z) (l cur : list Z) : list (list Z) :=
  match l with
  | [] => if cur is [] then [] else [cur]
  | b :: l => if b =? sep then (if cur is [] then tokens sep l [] else cur :: tokens sep l []) else tokens sep l (cur ++ [b])
  end.
Definition strtok_all (sep : Z) (l : list Z) : list (list Z) := tokens sep l [].

Definition is_blank (c : Z) : bool := ((9 <=? c) && (c <=? 13)) || (c =? 32).
Definition is_digit (c : Z) : bool := (48 <=? c) && (c <=? 57).
Fixpoint skip_blanks (l : list Z) : list Z :=
  match l with b :: l' => if is_blank b then skip_blanks l' else l | [] => [] end.
Fixpoint digits (l : list Z) (v : Z) : Z :=
  match l with b :: l => if is_digit b then digits l (10 * v + (b - 48)) else v | [] => v end.
(** [strtol] clamps to a [long], [atoi] converts it to an [int]. *)
Definition atoi (l : list Z) : Z :=
  match skip_blanks l with
  | 45 :: l => s32 (Z.max (- digits l 0) (- 2 ^ 63))
  | 43 :: l => s32 (Z.min (digits l 0) (2 ^ 63 - 1))
  | l => s32 (Z.min (digits l 0) (2 ^ 63 - 1))
  end.

(** ** The structure *)

Record config := MkConf {
  cf_interface : list Z;
  cf_server_port : list Z;
  cf_src_port : Z;
  cf_src_addr : list Z;
  cf_debug : Z;
  cf_num_hosts : Z;
  cf_hosts : list (list Z);
}.
Definition put_interface x c := MkConf x (cf_server_port c) (cf_src_port c) (cf_src_addr c) (cf_debug c) (cf_num_hosts c) (cf_hosts c).
Definition put_server_port x c := MkConf (cf_interface c) x (cf_src_port c) (cf_src_addr c) (cf_debug c) (cf_num_hosts c) (cf_hosts c).
Definition put_src_port x c := MkConf (cf_interface c) (cf_server_port c) x (cf_src_addr c) (cf_debug c) (cf_num_hosts c) (cf_hosts c).
Definition put_src_addr x c := MkConf (cf_interface c) (cf_server_port c) (cf_src_port c) x (cf_debug c) (cf_num_hosts c) (cf_hosts c).
Definition put_debug x c := MkConf (cf_interface c) (cf_server_port c) (cf_src_port c) (cf_src_addr c) x (cf_num_hosts c) (cf_hosts c).
Definition put_hosts n x c := MkConf (cf_interface c) (cf_server_port c) (cf_src_port c) (cf_src_addr c) (cf_debug c) n x.
(** [bb_config] at the start of the program. A [server_port] of five digits
    ends at the zero byte that pads the structure in front of [src_port]. *)
Definition no_config : config :=
  MkConf (replicate 20 0) (replicate 5 0) 0 (replicate 16 0) 0 0 (replicate 40 (replicate 16 0)).

Record reader := MkReader { rd_file : list Z; rd_line : list Z; rd_conf : config }.
Definition put_file x r := MkReader x (rd_line r) (rd_conf r).
Definition put_line x r := MkReader (rd_file r) x (rd_conf r).
Definition put_conf x r := MkReader (rd_file r) (rd_line r) x.
Abbreviation MR := (M reader).
Definition on_conf (f : config → config) : MR unit := modify (λ r, put_conf (f (rd_conf r)) r).

Definition LINE_SIZE : Z := 1024.
(** What one call of [fgets] takes: at most [n] bytes, through the newline. *)
Fixpoint take_line (n : nat) (l : list Z) : list Z :=
  match n, l with
  | O, _ | _, [] => []
  | S n, b :: l => if b =? 10 then [b] else b :: take_line n l
  end.
Definition fgets : MR bool :=
  file ← gets rd_file;
  line ← gets rd_line;
  let got := take_line (Z.to_nat (LINE_SIZE - 1)) file in
  match got with
  | [] => mret false
  | _ =>
      modify (put_file (drop (length got) file));;
      modify (put_line (got ++ 0 :: drop (S (length got)) line));;
      mret true
  end.
(** [cfline]: an offset into [line], behind the first [=]; the newline is cut. *)
Definition cut_value : MR Z :=
  line ← gets rd_line;
  match find_byte 61 (cstring line) with
  | None => err BadPointer
  | Some k =>
      let o := k + 1 in
      let v := cstring (drop (Z.to_nat o) line) in
      let e := default (len v) (find_byte 10 v) in
      modify (put_line (upd line (o + e) 0));;
      mret o
  end.

Section Parse.
(** [inet_pton], which writes the address only when it returns 1, and the port
    [getsockname] gives for a new socket, if the calls succeed. *)
Variables (inet_pton : list Z → option (list Z)) (sockname : option Z) (isServer : bool).

Definition EXIT_FAILURE : Z := 1.
Definition set_source_port (src_port : list Z) : MR Z :=
  c ← gets rd_conf;
  let port := if isServer then atoi (cstring (cf_server_port c))
              else if atoi src_port =? 0 then 0 else atoi src_port in
  if port =? 0 then
    match sockname with
    | None => mret EXIT_FAILURE
    | Some p => on_conf (put_src_port (htons p));; mret 0
    end
  else on_conf (put_src_port (htons (u16 port)));; mret 0.

Fixpoint set_hosts (toks : list (list Z)) (j : Z) : MR unit :=
  match toks with
  | [] => on_conf (λ c, put_hosts j (cf_hosts c) c)
  | t :: toks =>
      c ← gets rd_conf;
      if len (cf_hosts c) <=? j then err OutOfBounds else
      match inet_pton t with
      | Some a => on_conf (λ c, put_hosts (cf_num_hosts c) (upd (cf_hosts c) j a) c)
      | None => mret tt
      end;;
      set_hosts toks (j + 1)
  end.

Definition set_value (i o : Z) : MR unit :=
  line ← gets rd_line;
  let cfline := cstring (drop (Z.to_nat o) line) in
  if i =? 0 then
    if o + 20 <=? LINE_SIZE then on_conf (put_interface (slice line o 20)) else err OutOfBounds
  else if i =? 1 then set_hosts (strtok_all 44 cfline) 0
  else if i =? 2 then
    c ← gets rd_conf;
    if len cfline <=? len (cf_server_port c)
    then on_conf (put_server_port (cfline ++ drop (length cfline) (cf_server_port c)))
    else err OutOfBounds
  else if i =? 3 then set_source_port cfline;; mret tt
  else if i =? 4 then
    match inet_pton cfline with Some a => on_conf (put_src_addr a) | None => mret tt end
  else if i =? 5 then on_conf (put_debug (atoi cfline))
  else mret tt.

Definition set_line (i : Z) : MR unit := o ← cut_value; set_value i o.
(** Every line takes a byte of the file. *)
Fixpoint set_lines (fuel : nat) (i : Z) : MR unit :=
  match fuel with
  | O => err Hang
  | S fuel =>
      more ← fgets;
      if (more : bool) then set_line i;; set_lines fuel (i + 1) else mret tt
  end.
(** [None] is a file that cannot be opened. *)
Definition set_bb_config (file : option (list Z)) (line : list Z) (c : config) : res reader unit :=
  match file with
  | Some l => set_lines (S (length l)) 0 (MkReader l line c)
  | None => Err (Exit 1)
  end.
End Parse.

(** ** The text of a configuration *)

Definition conf_line (key v : list Z) : list Z := key ++ 61 :: v ++ [10].
Fixpoint join (sep : Z) (l : list (list Z)) : list Z :=
  match l with
  | [] => []
  | [t] => t
  | t :: l => t ++ sep :: join sep l
  end.
(** No byte of [l] is one of [bad]. *)
Definition free_of (bad l : list Z) : Prop := Forall (λ b, b ∉ bad) l.
Lemma free_of_app bad l1 l2 : free_of bad (l1 ++ l2) ↔ free_of bad l1 ∧ free_of bad l2.
Proof. apply Forall_app. Qed.
Lemma free_of_sub bad bad' l : bad' ⊆ bad → free_of bad l → free_of bad' l.
Proof. intros Hs Hl. apply (Forall_impl _ _ _ Hl). set_solver. Qed.

Lemma cstring_app v t : free_of [0] v → cstring (v ++ 0 :: t) = v.
Proof.
  intros Hv. induction Hv as [|b v Hb Hv IH]; [done|]. simpl. rewrite (proj2 (Z.eqb_neq b 0)) by set_solver. by rewrite IH.
Qed.
Lemma find_byte_app c v t : free_of [c] v → find_byte c (v ++ c :: t) = Some (len v).
Proof.
  intros Hv. induction Hv as [|b v Hb Hv IH]; simpl; [by rewrite Z.eqb_refl|].
  rewrite (proj2 (Z.eqb_neq b c)) by set_solver. rewrite IH. simpl. by rewrite len_cons.
Qed.
Lemma find_byte_none c v : free_of [c] v → find_byte c v = None.
Proof. intros Hv. induction Hv as [|b v Hb Hv IH]; simpl; [done|]. rewrite (proj2 (Z.eqb_neq b c)) by set_solver. by rewrite IH. Qed.
Lemma take_line_app v t n : free_of [10] v → (length v < n)%nat → take_line n (v ++ 10 :: t) = v ++ [10].
Proof.
  intros Hv. revert n. induction Hv as [|b v Hb Hv IH]; intros [|n] Hn; simpl in *; try lia; [done|].
  rewrite (proj2 (Z.eqb_neq b 10)) by set_solver. by rewrite IH by lia.
Qed.
Lemma tokens_word sep t l cur : free_of [sep] t → tokens sep (t ++ l) cur = tokens sep l (cur ++ t).
Proof.
  intros Ht. revert cur. induction Ht as [|b t Hb Ht IH]; intros cur; simpl; [by rewrite app_nil_r|].
  rewrite (proj2 (Z.eqb_neq b sep)) by set_solver. rewrite IH. by rewrite <-app_assoc.
Qed.
Lemma strtok_join sep ts : Forall (λ t, t ≠ [] ∧ free_of [sep] t) ts → strtok_all sep (join sep ts) = ts.
Proof.
  unfold strtok_all. induction 1 as [|t ts [Hne Hf] Hts IH]; [done|]. cbn [join]. destruct ts as [|t' ts].
  - rewrite <-(app_nil_r t) at 1. rewrite tokens_word by done. simpl. by destruct t.
  - rewrite tokens_word by done. cbn [tokens]. rewrite Z.eqb_refl, app_nil_l. destruct t; [done|]. by rewrite IH.
Qed.

(** ** One line *)

Lemma wp_fgets r key v rest Q :
  rd_file r = conf_line key v ++ rest → free_of [10] key → free_of [10] v → len key + len v + 2 < LINE_SIZE →
  (∀ r', rd_file r' = rest → rd_conf r' = rd_conf r →
     rd_line r' = key ++ 61 :: v ++ 10 :: 0 :: drop (S (length (conf_line key v))) (rd_line r) → Q true r') →
  wp fgets r Q.
Proof.
  intros Hf Hk Hv Hl HQ. unfold fgets. rewrite wp_bind, wp_gets, wp_bind, wp_gets, Hf.
  assert (conf_line key v ++ rest = (key ++ 61 :: v) ++ 10 :: rest) as -> by (unfold conf_line; by rewrite <-!app_assoc; simpl; rewrite <-app_assoc).
  assert (free_of [10] (key ++ 61 :: v)) as Hfree by (apply free_of_app; split; [done|constructor; [set_solver|done]]).
  rewrite take_line_app; [|done|unfold len, LINE_SIZE in *; rewrite length_app; simpl; lia].
  destruct ((key ++ 61 :: v) ++ [10]) as [|b g] eqn:E; [by destruct key|]. rewrite <-E. clear b g E.
  rewrite wp_bind, wp_modify, wp_bind, wp_modify, wp_ret. apply HQ; cbn [rd_file rd_conf rd_line put_file put_line].
  - change (10 :: rest) with ([10] ++ rest). rewrite app_assoc. apply drop_app_length.
  - done.
  - assert ((key ++ 61 :: v) ++ [10] = conf_line key v) as -> by (unfold conf_line; by rewrite <-app_assoc).
    unfold conf_line at 1. rewrite <-app_assoc. simpl. by rewrite <-app_assoc.
Qed.
Lemma wp_cut_value r key v t Q :
  rd_line r = key ++ 61 :: v ++ 10 :: 0 :: t → free_of [0; 10; 61] key → free_of [0; 10] v →
  (∀ r', rd_file r' = rd_file r → rd_conf r' = rd_conf r → rd_line r' = key ++ 61 :: v ++ 0 :: 0 :: t → Q (len key + 1) r') →
  wp cut_value r Q.
Proof.
  intros Hl Hk Hv HQ. unfold cut_value. rewrite wp_bind, wp_gets, Hl.
  assert (free_of [0] v ∧ free_of [10] v) as [Hv0 Hv10] by (split; eapply free_of_sub; [|exact Hv| |exact Hv]; set_solver).
  assert (cstring (key ++ 61 :: v ++ 10 :: 0 :: t) = key ++ 61 :: v ++ [10]) as ->.
  { replace (key ++ 61 :: v ++ 10 :: 0 :: t) with ((key ++ 61 :: v ++ [10]) ++ 0 :: t) by (rewrite <-!app_assoc; simpl; by rewrite <-app_assoc).
    apply cstring_app. apply free_of_app. split; [eapply free_of_sub; [|exact Hk]; set_solver|].
    constructor; [set_solver|]. apply free_of_app. split; [done|]. constructor; [set_solver|constructor]. }
  rewrite find_byte_app by (eapply free_of_sub; [|exact Hk]; set_solver).
  assert (drop (Z.to_nat (len key + 1)) (key ++ 61 :: v ++ 10 :: 0 :: t) = v ++ 10 :: 0 :: t) as ->.
  { change (61 :: v ++ 10 :: 0 :: t) with ([61] ++ v ++ 10 :: 0 :: t). rewrite app_assoc, drop_app_length'; [done|].
    rewrite length_app. unfold len. simpl. lia. }
  assert (cstring (v ++ 10 :: 0 :: t) = v ++ [10]) as ->.
  { replace (v ++ 10 :: 0 :: t) with ((v ++ [10]) ++ 0 :: t) by (by rewrite <-app_assoc). apply cstring_app, free_of_app.
    split; [done|]. constructor; [set_solver|constructor]. }
  rewrite find_byte_app by done. simpl. rewrite wp_bind, wp_modify, wp_ret. apply HQ; [done|done|]. simpl.
  unfold upd. replace (Z.to_nat (len key + 1 + len v)) with (length (key ++ 61 :: v)) by (rewrite length_app; unfold len; simpl; lia).
  replace (key ++ 61 :: v ++ 10 :: 0 :: t) with ((key ++ 61 :: v) ++ 10 :: 0 :: t) by (by rewrite <-app_assoc).
  rewrite insert_app_r_alt by lia. rewrite Nat.sub_diag. simpl. by rewrite <-app_assoc.
Qed.

Section RoundTrip.
Variables (inet_pton : list Z → option (list Z)) (sockname : option Z) (isServer : bool).
Abbreviation set_value' := (set_value inet_pton sockname isServer).
Abbreviation set_lines' := (set_lines inet_pton sockname isServer).

(** A line that can be read: it fits the buffer. *)
Record line_ok (key v : list Z) : Prop := {
  lo_key : free_of [0; 10; 61] key;
  lo_val : free_of [0; 10] v;
  lo_len : len key + len v + 22 < LINE_SIZE;
}.
(** After a line the value is at [len key + 1] in the buffer. *)
Record at_value (key v : list Z) (r : reader) : Prop := {
  av_line : ∃ t, rd_line r = key ++ 61 :: v ++ 0 :: t;
  av_len : len (rd_line r) = LINE_SIZE;
}.
Lemma wp_line fuel i key v rest r (Q : unit → reader → Prop) :
  line_ok key v → rd_file r = conf_line key v ++ rest → len (rd_line r) = LINE_SIZE →
  (∀ r1, at_value key v r1 → rd_file r1 = rest → rd_conf r1 = rd_conf r →
     wp (set_value' i (len key + 1);; set_lines' fuel (i + 1)) r1 Q) →
  wp (set_lines' (S fuel) i) r Q.
Proof.
  intros [Hk Hv Hl] Hf Hlen HQ. cbn [set_lines]. rewrite wp_bind.
  eapply (wp_fgets r key v rest); [done|eapply free_of_sub; [|exact Hk]; set_solver|eapply free_of_sub; [|exact Hv]; set_solver|lia|].
  intros r1 Hf1 Hc1 Hl1. cbn iota. unfold set_line. rewrite wp_bind, wp_bind.
  eapply (wp_cut_value r1 key v); [exact Hl1|done|done|]. intros r2 Hf2 Hc2 Hl2.
  specialize (HQ r2). rewrite wp_bind in HQ. apply HQ; [|congruence|congruence].
  split; [by eexists|]. rewrite Hl2. unfold conf_line, len, LINE_SIZE in *. rewrite length_app. simpl.
  rewrite length_app. simpl. rewrite length_drop, length_app. simpl. rewrite length_app. simpl. lia.
Qed.
Lemma value_at key v r : at_value key v r → free_of [0] v →
  cstring (drop (Z.to_nat (len key + 1)) (rd_line r)) = v.
Proof.
  intros [[t ->] _] Hv.
  assert (drop (Z.to_nat (len key + 1)) (key ++ 61 :: v ++ 0 :: t) = v ++ 0 :: t) as ->; [|by apply cstring_app].
  change (61 :: v ++ 0 :: t) with ([61] ++ v ++ 0 :: t). rewrite app_assoc, drop_app_length'; [done|].
  rewrite length_app. unfold len. simpl. lia.
Qed.
Lemma wp_set_hosts toks addrs : ∀ j r Q, Forall2 (λ t a, inet_pton t = Some a) toks addrs →
  0 <= j → j + len addrs <= len (cf_hosts (rd_conf r)) →
  (∀ r', rd_file r' = rd_file r → rd_line r' = rd_line r →
     rd_conf r' = put_hosts (j + len addrs) (take (Z.to_nat j) (cf_hosts (rd_conf r)) ++ addrs ++
       drop (Z.to_nat (j + len addrs)) (cf_hosts (rd_conf r))) (rd_conf r) → Q tt r') →
  wp (set_hosts inet_pton toks j) r Q.
Proof.
  intros j r Q Ht. revert j r Q. induction Ht as [|t a toks addrs Hta Ht IH]; intros j r Q Hj Hfit HQ; cbn [set_hosts].
  { unfold on_conf. rewrite wp_modify. apply HQ; [done|done|]. simpl. change (len (@nil (list Z))) with 0. by rewrite Z.add_0_r, take_drop. }
  rewrite len_cons in *. pose proof (len_nonneg addrs). rewrite wp_bind, wp_gets. rewrite (proj2 (Z.leb_gt _ _)) by lia.
  rewrite Hta, wp_bind. unfold on_conf. rewrite wp_modify. set (r1 := put_conf _ r).
  assert (cf_hosts (rd_conf r1) = upd (cf_hosts (rd_conf r)) j a) as Eh by done.
  apply IH; [lia|rewrite Eh, len_upd; lia|]. intros r2 Hf2 Hl2 Hc2. apply HQ; [done|done|]. rewrite Hc2, Eh.
  unfold put_hosts, r1. cbn [rd_conf put_conf put_hosts cf_interface cf_server_port cf_src_port cf_src_addr cf_debug cf_num_hosts cf_hosts].
  f_equal; [lia|]. unfold upd. replace (Z.to_nat (j + 1)) with (S (Z.to_nat j)) by lia.
  rewrite (take_S_r _ _ a) by (apply list_lookup_insert_eq; unfold len in *; lia). rewrite take_insert_ge by lia.
  rewrite <-app_assoc. simpl. do 3 f_equal. rewrite drop_insert_lt by lia. f_equal. lia.
Qed.

(** The lines of a file: a key for each and the texts of the values. *)
Record conf_text := MkText {
  ct_keys : list (list Z);
  ct_interface : list Z;
  ct_hosts : list (list Z);
  ct_server_port : list Z;
  ct_src_port : list Z;
  ct_src_addr : list Z;
  ct_debug : list Z;
}.
Definition ct_values (t : conf_text) : list (list Z) :=
  [ct_interface t; join 44 (ct_hosts t); ct_server_port t; ct_src_port t; ct_src_addr t; ct_debug t].
Definition conf_file (t : conf_text) : list Z := concat (zip_with conf_line (ct_keys t) (ct_values t)).
(** What [set_source_port] settles on. *)
Definition chosen_port (t : conf_text) (sock : Z) : Z :=
  let port := atoi (if isServer then ct_server_port t else ct_src_port t) in
  if port =? 0 then htons sock else htons (u16 port).

(** Reading one value after the other. *)
Lemma wp_values_interface key v r Q : line_ok key v → at_value key v r → len v < 20 →
  (∀ x r', cstring x = v → rd_file r' = rd_file r → rd_line r' = rd_line r → rd_conf r' = put_interface x (rd_conf r) → Q tt r') →
  wp (set_value' 0 (len key + 1)) r Q.
Proof.
  intros [Hk Hv Hl] Ha Hv20 HQ. pose proof (len_nonneg v). unfold set_value. rewrite wp_bind, wp_gets. cbn iota.
  change (0 =? 0) with true. cbn iota. rewrite (proj2 (Z.leb_le _ _)) by lia. unfold on_conf. rewrite wp_modify.
  eapply HQ; [|done|done|done]. destruct Ha as [[t ->] _]. unfold slice.
  assert (drop (Z.to_nat (len key + 1)) (key ++ 61 :: v ++ 0 :: t) = v ++ 0 :: t) as ->.
  { change (61 :: v ++ 0 :: t) with ([61] ++ v ++ 0 :: t). rewrite app_assoc, drop_app_length'; [done|].
    rewrite length_app. unfold len. simpl. lia. }
  rewrite take_app_ge by (unfold len in *; lia). destruct (Z.to_nat 20 - length v)%nat as [|z] eqn:E; [unfold len in *; lia|].
  simpl. apply cstring_app. eapply free_of_sub; [|exact Hv]. set_solver.
Qed.
Lemma wp_values_server key v r Q : line_ok key v → at_value key v r → len v <= 5 → cf_server_port (rd_conf r) = replicate 5 0 →
  (∀ x r', cstring x = v → rd_file r' = rd_file r → rd_line r' = rd_line r → rd_conf r' = put_server_port x (rd_conf r) → Q tt r') →
  wp (set_value' 2 (len key + 1)) r Q.
Proof.
  intros [Hk Hv Hl] Ha Hv5 H0 HQ. assert (free_of [0] v) as Hv0 by (eapply free_of_sub; [|exact Hv]; set_solver).
  unfold set_value. rewrite wp_bind, wp_gets, (value_at key v) by done. cbn iota.
  change (2 =? 0) with false. change (2 =? 1) with false. change (2 =? 2) with true. cbn iota.
  rewrite wp_bind, wp_gets, H0. change (len (replicate 5 0)) with 5. rewrite (proj2 (Z.leb_le _ _)) by lia.
  unfold on_conf. rewrite wp_modify. eapply HQ; [|done|done|done].
  rewrite drop_replicate. destruct (5 - length v)%nat as [|z] eqn:E; simpl; [|by apply cstring_app].
  rewrite app_nil_r. clear -Hv0. induction Hv0 as [|b v Hb Hv IH]; [done|]. simpl. rewrite (proj2 (Z.eqb_neq b 0)) by set_solver. by rewrite IH.
Qed.
Lemma wp_values_hosts key ts addrs r Q : line_ok key (join 44 ts) → at_value key (join 44 ts) r →
  Forall (λ t, t ≠ [] ∧ free_of [44] t) ts → Forall2 (λ t a, inet_pton t = Some a) ts addrs →
  len addrs <= len (cf_hosts (rd_conf r)) →
  (∀ r', rd_file r' = rd_file r → rd_line r' = rd_line r →
     rd_conf r' = put_hosts (len addrs) (addrs ++ drop (length addrs) (cf_hosts (rd_conf r))) (rd_conf r) → Q tt r') →
  wp (set_value' 1 (len key + 1)) r Q.
Proof.
  intros [Hk Hv Hl] Ha Hts Hpt Hfit HQ. unfold set_value. rewrite wp_bind, wp_gets.
  rewrite (value_at key (join 44 ts)) by (done || (eapply free_of_sub; [|exact Hv]; set_solver)).
  change (1 =? 0) with false. change (1 =? 1) with true. cbn iota. rewrite strtok_join by done.
  eapply (wp_set_hosts ts addrs 0); [done|lia|lia|]. intros r' Hf Hln Hc. apply HQ; [done|done|].
  rewrite Hc. change (Z.to_nat 0) with 0%nat. cbn [take app]. rewrite Z.add_0_l. by replace (Z.to_nat (len addrs)) with (length addrs) by (unfold len; lia).
Qed.
Lemma wp_values_source key v r sock Q : line_ok key v → at_value key v r → sockname = Some sock →
  (∀ r', rd_file r' = rd_file r → rd_line r' = rd_line r →
     rd_conf r' = put_src_port (let port := atoi (if isServer then cstring (cf_server_port (rd_conf r)) else v) in
       if port =? 0 then htons sock else htons (u16 port)) (rd_conf r) → Q tt r') →
  wp (set_value' 3 (len key + 1)) r Q.
Proof.
  intros [Hk Hv Hl] Ha Hs HQ. unfold set_value. rewrite wp_bind, wp_gets.
  rewrite (value_at key v) by (done || (eapply free_of_sub; [|exact Hv]; set_solver)).
  change (3 =? 0) with false. change (3 =? 1) with false. change (3 =? 2) with false. change (3 =? 3) with true. cbn iota.
  rewrite wp_bind. unfold set_source_port. rewrite wp_bind, wp_gets, Hs.
  set (port := if isServer then _ else _).
  assert (port = atoi (if isServer then cstring (cf_server_port (rd_conf r)) else v)) as Ep.
  { unfold port. destruct isServer; [done|]. by destruct (Z.eqb_spec (atoi v) 0). }
  rewrite Ep. cbv zeta in HQ. unfold on_conf.
  destruct (_ =? 0); rewrite wp_bind, wp_modify, wp_ret, wp_ret; by apply HQ.
Qed.
Lemma wp_values_addr key v a r Q : line_ok key v → at_value key v r → inet_pton v = Some a →
  (∀ r', rd_file r' = rd_file r → rd_line r' = rd_line r → rd_conf r' = put_src_addr a (rd_conf r) → Q tt r') →
  wp (set_value' 4 (len key + 1)) r Q.
Proof.
  intros [Hk Hv Hl] Ha Hs HQ. unfold set_value. rewrite wp_bind, wp_gets.
  rewrite (value_at key v) by (done || (eapply free_of_sub; [|exact Hv]; set_solver)).
  cbn [Z.eqb Pos.eqb]. rewrite Hs. unfold on_conf. rewrite wp_modify. by apply HQ.
Qed.
Lemma wp_values_debug key v r Q : line_ok key v → at_value key v r →
  (∀ r', rd_file r' = rd_file r → rd_line r' = rd_line r → rd_conf r' = put_debug (atoi v) (rd_conf r) → Q tt r') →
  wp (set_value' 5 (len key + 1)) r Q.
Proof.
  intros [Hk Hv Hl] Ha HQ. unfold set_value. rewrite wp_bind, wp_gets.
  rewrite (value_at key v) by (done || (eapply free_of_sub; [|exact Hv]; set_solver)).
  cbn [Z.eqb Pos.eqb]. unfold on_conf. rewrite wp_modify. by apply HQ.
Qed.

(** Between two lines: what is left of the file and what is set so far. *)
Definition reading (rest : list Z) (c : config) (r : reader) : Prop :=
  rd_file r = rest ∧ len (rd_line r) = LINE_SIZE ∧ rd_conf r = c.
Lemma wp_next fuel i key v rest c r (Q : unit → reader → Prop) :
  line_ok key v → reading (conf_line key v ++ rest) c r →
  (∀ r1, at_value key v r1 → rd_conf r1 = c →
     wp (set_value' i (len key + 1)) r1 (λ _ r2, rd_file r2 = rd_file r1 ∧ rd_line r2 = rd_line r1 ∧
       ∀ r3, reading rest (rd_conf r2) r3 → wp (set_lines' fuel (i + 1)) r3 Q)) →
  wp (set_lines' (S fuel) i) r Q.
Proof.
  intros Hok (Hf & Hl & Hc) HQ. eapply (wp_line fuel i key v rest); [done..|]. intros r1 Ha Hf1 Hc1.
  rewrite wp_bind. eapply wp_mono; [apply HQ; [done|congruence]|]. intros [] r2 (Hf2 & Hl2 & HQ2). apply HQ2.
  split; [congruence|]. split; [|done]. rewrite Hl2. by destruct Ha.
Qed.
Lemma wp_last fuel i c r (Q : unit → reader → Prop) : reading [] c r → Q tt r → wp (set_lines' (S fuel) i) r Q.
Proof.
  intros (Hf & _ & _) HQ. cbn [set_lines]. unfold fgets. rewrite !wp_bind, wp_gets, wp_bind, wp_gets, Hf.
  destruct (Z.to_nat (LINE_SIZE - 1)); cbn [take_line]; by rewrite wp_ret, wp_ret.
Qed.

Ltac next_line Hr r Hc := eapply wp_next; [|exact Hr|]; [eassumption|]; clear Hr; intros r ?Ha Hc.
Ltac line_set Hr Hc' Hc := split; [done|]; split; [done|]; intros ?q Hr; rewrite Hc', Hc in Hr.
(** C22: A configuration file is read back: from the text of six lines (any
    keys, values without newlines, lines that fit the buffer, up to 40 hosts)
    [set_bb_config] fills the structure with the interface, the addresses
    of the hosts in their order, the server port, the source address and the
    debug level that the text says, and chooses the source port as documented:
    the server's port for a server, the given port for a client, and a free
    one when it is 0. *)
Theorem config_is_read_back t addrs addr sock line :
  len line = LINE_SIZE → length (ct_keys t) = 6%nat → Forall2 line_ok (ct_keys t) (ct_values t) →
  len (ct_interface t) < 20 → len (ct_server_port t) <= 5 → len addrs <= 40 →
  Forall (λ h, h ≠ [] ∧ free_of [44] h) (ct_hosts t) → Forall2 (λ h a, inet_pton h = Some a) (ct_hosts t) addrs →
  inet_pton (ct_src_addr t) = Some addr → sockname = Some sock →
  ∃ r, set_bb_config inet_pton sockname isServer (Some (conf_file t)) line no_config = Ok tt r ∧
    let c := rd_conf r in
    cstring (cf_interface c) = ct_interface t ∧ cf_num_hosts c = len addrs ∧
    take (Z.to_nat (cf_num_hosts c)) (cf_hosts c) = addrs ∧ cstring (cf_server_port c) = ct_server_port t ∧
    cf_src_port c = chosen_port t sock ∧ cf_src_addr c = addr ∧ cf_debug c = atoi (ct_debug t).
Proof.
  intros Hline Hkeys Hok Hif Hsp Hnh Hts Hpt Ha Hs. destruct t as [keys ifn hosts sp cp sa db].
  cbn [ct_keys ct_interface ct_hosts ct_server_port ct_src_port ct_src_addr ct_debug] in *.
  unfold ct_values in Hok. cbn in Hok.
  do 6 (destruct keys as [|? keys]; [done|]). destruct keys; [|done].
  repeat (apply Forall2_cons in Hok as [? Hok]).
  set (file := conf_file _).
  assert (∃ n, length file = (6 + n)%nat) as [n Hn].
  { exists (length file - 6)%nat. unfold file, conf_file, ct_values, conf_line. simpl. repeat (rewrite ?length_app; simpl). lia. }
  cut (wp (set_lines' (S (length file)) 0) (MkReader file line no_config) (λ _ r, let c := rd_conf r in
    cstring (cf_interface c) = ifn ∧ cf_num_hosts c = len addrs ∧ take (Z.to_nat (cf_num_hosts c)) (cf_hosts c) = addrs ∧
    cstring (cf_server_port c) = sp ∧ cf_src_port c = chosen_port (MkText [] ifn hosts sp cp sa db) sock ∧ cf_src_addr c = addr ∧ cf_debug c = atoi db)).
  { intros Hw. apply wp_ok in Hw as ([] & r & E & Hr). exists r. split; [exact E|exact Hr]. }
  rewrite Hn. cbn [Nat.add].
  assert (reading file no_config (MkReader file line no_config)) as Hr by done.
  revert Hr. generalize (MkReader file line no_config). intros r0 Hr.
  unfold file, conf_file, ct_values in Hr. cbn [ct_keys zip_with concat ct_interface ct_hosts ct_server_port ct_src_port ct_src_addr ct_debug] in Hr.
  next_line Hr r1 Hc1.
  eapply wp_values_interface; [eassumption..|]. intros xi r1' Hxi Hf1 Hl1 Hc1'. line_set Hr Hc1' Hc1.
  next_line Hr r2 Hc2.
  eapply wp_values_hosts; [eassumption..|by rewrite Hc2|]. intros r2' Hf2 Hl2 Hc2'. line_set Hr Hc2' Hc2.
  next_line Hr r3 Hc3.
  eapply wp_values_server; [eassumption..|by rewrite Hc3|]. intros xs r3' Hxs Hf3 Hl3 Hc3'. line_set Hr Hc3' Hc3.
  next_line Hr r4 Hc4.
  eapply wp_values_source; [eassumption..|]. intros r4' Hf4 Hl4 Hc4'. line_set Hr Hc4' Hc4.
  next_line Hr r5 Hc5.
  eapply wp_values_addr; [eassumption..|]. intros r5' Hf5 Hl5 Hc5'. line_set Hr Hc5' Hc5.
  next_line Hr r6 Hc6.
  eapply wp_values_debug; [eassumption..|]. intros r6' Hf6 Hl6 Hc6'. line_set Hr Hc6' Hc6.
  eapply wp_last; [exact Hr|]. destruct Hr as (_ & _ & ->).
  cbn [put_interface put_hosts put_server_port put_src_port put_src_addr put_debug cf_interface cf_server_port cf_src_port cf_src_addr cf_debug cf_num_hosts cf_hosts].
  unfold chosen_port. rewrite Hxs. split_and!; try done.
  rewrite take_app_ge by (unfold len; lia). unfold len. rewrite Nat2Z.id, Nat.sub_diag. by rewrite take_0, app_nil_r.
Qed.

End RoundTrip.

(** A file of six lines for a client, with the two hosts [a] and [b]. *)
Definition sample : conf_text :=
  MkText [[73; 70]; [72]; [83; 80]; [67; 80]; [83; 65]; [68]] [101; 116; 104; 48] [[97]; [98]] [53; 48; 48; 48] [48] [97] [49].
Definition sample_pton (l : list Z) : option (list Z) :=
  if decide (l = [97]) then Some (replicate 16 1) else if decide (l = [98]) then Some (replicate 16 2) else None.
Lemma config_is_read_back_witness :
  ∃ r, set_bb_config sample_pton (Some 0) false (Some (conf_file sample)) (replicate 1024 7) no_config = Ok tt r ∧
    let c := rd_conf r in
    cstring (cf_interface c) = [101; 116; 104; 48] ∧ cf_num_hosts c = 2 ∧
    take (Z.to_nat (cf_num_hosts c)) (cf_hosts c) = [replicate 16 1; replicate 16 2] ∧
    cstring (cf_server_port c) = [53; 48; 48; 48] ∧
    cf_src_port c = chosen_port false sample 0 ∧ cf_src_addr c = replicate 16 1 ∧ cf_debug c = 1.
Proof.
  apply (config_is_read_back sample_pton (Some 0) false sample [replicate 16 1; replicate 16 2] (replicate 16 1) 0 (replicate 1024 7));
    try (vm_compute; done).
  - repeat (apply Forall2_cons; split; [split; [by repeat (constructor; [set_solver|])..|done]|]). by constructor.
  - repeat (constructor; [split; [done|]; repeat (constructor; [set_solver|]); by constructor|]). by constructor.
  - repeat (constructor; [done|]). by constructor.
Defined.
