(* ===== verification/Rpc.v ===== *)
(** * Remote procedure calls on arrays: src/ip6/apps/thrift

    The service [SimpleArrComp] in its two implementations: by value
    (tcp_simple_arr_comp_server.c), where the arrays travel in the call, and by
    shared pointer (ddc_simple_arr_comp_server.c), where the call carries 16
    bytes that point to the servers' memories; the service [RemoteMemTest]
    (remote_mem_test_server.c); and the calls of ddc_client.c, tcp_client.c and
    mem_tests.c.
    The stubs of the client are generated by Thrift: they are parameters.
    A [GByteArray] is the list of its bytes. Not modelled: the set-up of GLib
    and Thrift, timing and the files of results. *)

From S2P Require Import Prelude Types Bytes Wire RawSend RawRecv Client Programs.

(** ** By value *)

(** The functions of tcp_simple_arr_comp_server.c; reading past the end of an
    array is [None]. *)
Definition tcp_increment_array (arr : list Z) (value length : Z) : option (list Z) :=
  mapM (λ i, x ← arr !! i; Some (u8 (schar x + value))) (seq 0 (Z.to_nat length)).
Definition tcp_add_arrays (array1 array2 : list Z) (length : Z) : option (list Z) :=
  mapM (λ i, x ← array1 !! i; y ← array2 !! i; Some (u8 (schar x + schar y))) (seq 0 (Z.to_nat length)).
(** The sum, not the product, of the elements. *)
Definition dot_prod_helper (x y : list Z) (m : Z) : option Z :=
  foldl (λ res i, res ← res; a ← x !! i; b ← y !! i; Some (schar (res + (schar a + schar b))))
    (Some 0) (seq 0 (Z.to_nat m)).
(** [Some None] is the result [FALSE]: the exception for it is assigned to the
    parameter [ouch] and lost. The returned array holds [gint8]s. *)
Definition tcp_mat_multiply (array : list Z) (matrix : list (list Z)) (length n m : Z) : option (option (list Z)) :=
  if negb (length =? m) then Some None else
  Some <$> mapM (λ i, row ← matrix !! i; dot_prod_helper row array m) (seq 0 (Z.to_nat n)).
Fixpoint count_loop (n : nat) (story : list Z) (prev wordcount : Z) : option Z :=
  match n, story with
  | O, _ => Some wordcount
  | S n, [] => None
  | S n, c :: story => count_loop n story c (if isspace c && isgraph prev then s32 (wordcount + 1) else wordcount)
  end.
Definition tcp_word_count (story : list Z) (length : Z) : option Z := count_loop (Z.to_nat length) story 32 0.
Definition tcp_no_op (num_array : list Z) (length : Z) : option (list Z) :=
  if len num_array <? length then None else Some (take (Z.to_nat length) num_array).

(** ** thrift_utils.c *)

Definition UINT8_MAX : Z := 255.
(** [rnd] is [rand] when the numbers are random. *)
Fixpoint populate_loop (rnd : option (Z → Z)) (n : nat) (i num : Z) : list Z :=
  match n with
  | O => []
  | S n =>
      num :: populate_loop rnd n (i + 1)
        (match rnd with None => u8 (num + 1) mod UINT8_MAX | Some rnd => u8 (rnd i) mod UINT8_MAX end)
  end.
Definition populate_array (rnd : option (Z → Z)) (array_len start_num : Z) : list Z :=
  populate_loop rnd (Z.to_nat array_len) 0 start_num.

(** ** tcp_client.c

    The tests report every wrong index; a call that fails leaves the result
    NULL, and reading it is [None]. *)
Section ByValue.
Variables (if_increment_array : list Z → Z → Z → option (list Z)) (if_add_arrays : list Z → list Z → Z → option (list Z))
  (if_no_op : list Z → Z → option (list Z)).
Definition tcp_test_increment_array (size : Z) : option (list Z) :=
  let incr_val := 1 in
  let arr := populate_array None size 0 in
  result_arr ← if_increment_array arr incr_val size;
  Some (filter (λ i, idx result_arr i ≠ (λ x, x + incr_val) <$> idx arr i) (seqZ 0 size)).
(** A failed call is only reported. *)
Definition tcp_test_add_arrays (rnd1 rnd2 : Z → Z) (size : Z) : list Z :=
  let temp1 := populate_array (Some rnd1) size 3 in
  let temp2 := populate_array (Some rnd2) size 5 in
  match if_add_arrays temp1 temp2 size with
  | None => []
  | Some result_arr => filter (λ i, idx result_arr i ≠ idx (zip_with (λ x y, u8 (x + y)) temp1 temp2) i) (seqZ 0 size)
  end.
Definition tcp_no_op_rpc (size : Z) : option (list Z) := if_no_op (populate_array None size 0) size.
End ByValue.

(** ** Pointers *)

Definition marshall_shmem_ptr (ptr : list Z) (addr : ip6_memaddr) : list Z :=
  ptr ++ le 2 (subid addr) ++ le 2 (cmd addr) ++ le 4 (args addr) ++ le 8 (paddr addr).

Section Shared.
Context `{Config} {W : Type} `{!ClientNet W}.
Abbreviation MC := (M (client W)).

Definition unmarshall_shmem_ptr (result_ptr : list Z) : MC ip6_memaddr :=
  if len result_ptr <? IPV6_SIZE then err OutOfBounds else mret (dec_addr (slice result_ptr 0 IPV6_SIZE)).
(** [num_ptrs] is an [int]; [rand] what [rand()] returned. *)
Definition get_pointer (rand size : Z) : MC ip6_memaddr_block :=
  a ← gen_rdm_ip6_target rand;
  let num_ptrs := s32 (if size =? 0 then 1 else u64 (size + BLOCK_SIZE - 1) / BLOCK_SIZE) in
  modify (λ c, put_ctarget (MkSock a (sin6_port (c_target c))) c);;
  allocate_uniform_rmem (u64 num_ptrs).

(** The address of a buffer of a size, what [malloc] leaves in it, and what
    the stack leaves in the members of an [ip6_memaddr_block] that are not
    set: [offset], and in [no_op] also [length]. *)
Variables (buf_addr : Z → Z) (fresh : Z → list Z) (stale_offset stale_length : Z).

Definition blocks_of_length (length : Z) : Z := u64 (if length =? 0 then 1 else 1 + Z.quot (length - 1) BLOCK_SIZE).
Definition read_buffer (b : ip6_memaddr_block) (length : Z) : MC (list Z) :=
  '(_, p) ← read_uniform_rmem b (MkPool (buf_addr length) (fresh length)) (u64 length);
  mret (bytes p).

(** *** ddc_simple_arr_comp_server.c *)

Definition increment_array (rand : Z) (pointer : list Z) (value length : Z) : MC (list Z) :=
  result_addr ← get_pointer rand (u64 length);
  a ← unmarshall_shmem_ptr pointer;
  int_arr ← read_buffer (MemaddrBlock a (blocks_of_length length) stale_offset) length;
  let int_arr := (λ x, u8 (x + value)) <$> int_arr in
  write_uniform_rmem result_addr int_arr (u64 length);;
  mret (marshall_shmem_ptr [] (memaddr result_addr) ++ enc_addr (memaddr result_addr)).
Definition add_arrays (rand : Z) (array1 array2 : list Z) (length : Z) : MC (list Z) :=
  result_addr ← get_pointer rand (u64 length);
  a1 ← unmarshall_shmem_ptr array1;
  a2 ← unmarshall_shmem_ptr array2;
  arr1 ← read_buffer (MemaddrBlock a1 (blocks_of_length length) stale_offset) length;
  arr2 ← read_buffer (MemaddrBlock a2 (blocks_of_length length) stale_offset) length;
  write_uniform_rmem result_addr (zip_with (λ x y, u8 (x + y)) arr1 arr2) (u64 length);;
  mret (marshall_shmem_ptr [] (memaddr result_addr)).
(** Stubs of the source: they print their arguments. *)
Definition mat_multiply : MC unit := mret tt.
Definition word_count : MC Z := mret (-1).
Definition sort_array : MC (list Z) := mret [].
Definition no_op (rand : Z) (num_array : list Z) (length : Z) : MC (list Z) :=
  result_addr ← get_pointer rand (u64 length);
  let _return := marshall_shmem_ptr [] (memaddr result_addr) in
  let result_addr := MemaddrBlock (memaddr result_addr) (u64 length) (offset result_addr) in
  a ← unmarshall_shmem_ptr num_array;
  int_arr ← read_buffer (MemaddrBlock a stale_length stale_offset) length;
  write_uniform_rmem result_addr int_arr (u64 length);;
  mret _return.

(** *** remote_mem_test_server.c *)

Definition ping : MC unit := mret tt.
Definition allocate_mem (rand size : Z) : MC (list Z) :=
  result_addr ← get_pointer rand (u64 size);
  mret (marshall_shmem_ptr [] (memaddr result_addr)).
Definition read_mem (pointer : list Z) : MC unit :=
  a ← unmarshall_shmem_ptr pointer;
  _ ← read_rmem a (fresh BLOCK_SIZE) (u16 BLOCK_SIZE);
  mret tt.
(** [message] without its terminator. *)
Definition write_mem (pointer message : list Z) : MC unit :=
  a ← unmarshall_shmem_ptr pointer;
  if BLOCK_SIZE <? len message then err OutOfBounds else
  _ ← write_rmem a (message ++ drop (length message) (fresh BLOCK_SIZE)) (u16 BLOCK_SIZE);
  mret tt.
Definition free_mem (pointer : list Z) : MC unit :=
  a ← unmarshall_shmem_ptr pointer;
  _ ← free_rmem a;
  mret tt.

(** ** ddc_client.c and mem_tests.c *)

(** The stubs of the client; [None] is an error or an exception of the call. *)
Variables (if_increment_array : list Z → Z → Z → MC (option (list Z)))
  (if_add_arrays : list Z → list Z → Z → MC (option (list Z)))
  (if_no_op : list Z → Z → MC (option (list Z))).

(** The result is the list of indices that are reported as wrong. *)
Definition test_increment_array (rand size : Z) : MC (list Z) :=
  let incr_val := 1 in
  args_addr ← get_pointer rand (u64 size);
  let arr := populate_array None size 0 in
  write_uniform_rmem args_addr arr (u64 size);;
  let args_ptr := marshall_shmem_ptr [] (memaddr args_addr) in
  result_ptr ← if_increment_array args_ptr incr_val size;
  match result_ptr with
  | None => err NullDeref
  | Some result_ptr =>
      a ← unmarshall_shmem_ptr result_ptr;
      result_arr ← read_buffer (MemaddrBlock a (blocks_of_length size) stale_offset) size;
      let wrong := filter (λ i, idx result_arr i ≠ (λ x, x + incr_val) <$> idx arr i) (seqZ 0 size) in
      free_rmem (memaddr args_addr);;
      free_rmem a;;
      mret wrong
  end.
(** The first index that is wrong is reported. *)
Definition test_add_arrays (rand1 rand2 : Z) (rnd1 rnd2 : Z → Z) (size : Z) : MC (option Z) :=
  arg1_addr ← get_pointer rand1 (u64 size);
  arg2_addr ← get_pointer rand2 (u64 size);
  let arr1 := populate_array (Some rnd1) size 3 in
  let arr2 := populate_array (Some rnd2) size 5 in
  write_uniform_rmem arg1_addr arr1 (u64 size);;
  write_uniform_rmem arg2_addr arr2 (u64 size);;
  let arg1_ptr := marshall_shmem_ptr [] (memaddr arg1_addr) in
  let arg2_ptr := marshall_shmem_ptr [] (memaddr arg2_addr) in
  result_ptr ← if_add_arrays arg1_ptr arg2_ptr size;
  wrong ← match result_ptr with
    | None => mret None
    | Some result_ptr =>
        a ← unmarshall_shmem_ptr result_ptr;
        result_arr ← read_buffer (MemaddrBlock a (blocks_of_length size) stale_offset) size;
        let expected := zip_with (λ x y, u8 (x + y)) arr1 arr2 in
        free_rmem a;;
        mret (head (filter (λ i, idx result_arr i ≠ idx expected i) (seqZ 0 size)))
    end;
  free_rmem (memaddr arg1_addr);;
  free_rmem (memaddr arg2_addr);;
  mret wrong.
(** The array that is read back. *)
Definition no_op_rpc (rand size : Z) : MC (list Z) :=
  args_addr ← get_pointer rand (u64 size);
  write_uniform_rmem args_addr (populate_array None size 0) (u64 size);;
  let args_ptr := marshall_shmem_ptr [] (memaddr args_addr) in
  result_ptr ← if_no_op args_ptr size;
  match result_ptr with
  | None => err NullDeref
  | Some result_ptr =>
      a ← unmarshall_shmem_ptr result_ptr;
      result_arr ← read_buffer (MemaddrBlock a (blocks_of_length size) stale_offset) size;
      free_rmem (memaddr args_addr);;
      free_rmem a;;
      mret result_arr
  end.
Definition test_shared_pointer_rpc (rand rand1 rand2 : Z) (rnd1 rnd2 : Z → Z) : MC (list Z * option Z) :=
  x ← test_increment_array rand BLOCK_SIZE;
  y ← test_add_arrays rand1 rand2 rnd1 rnd2 BLOCK_SIZE;
  mret (x, y).

(** The stubs of [RemoteMemTest]; [res] is NULL when the allocation failed. *)
Variables (if_ping : MC bool) (if_allocate_mem : Z → MC (option (list Z)))
  (if_write_mem : option (list Z) → list Z → MC bool) (if_read_mem if_free_mem : option (list Z) → MC bool).

(** HELLO WORLD! How are you? *)
Definition greeting : list Z :=
  [72; 69; 76; 76; 79; 32; 87; 79; 82; 76; 68; 33; 32; 72; 111; 119; 32; 97; 114; 101; 32; 121; 111; 117; 63].
(** [snprintf] writes the text and its terminator to a buffer of a block. *)
Definition test_server_write (res : option (list Z)) : MC bool :=
  if BLOCK_SIZE <? len greeting + 1 then err OutOfBounds else if_write_mem res greeting.
Definition test_server_functionality : MC unit :=
  _ ← if_ping;
  res ← if_allocate_mem BLOCK_SIZE;
  _ ← test_server_write res;
  _ ← if_read_mem res;
  _ ← if_free_mem res;
  mret tt.
End Shared.
