(* ===== verification/RpcSpec.v ===== *)
(** * Calls by shared pointer compute what calls by value compute

    With blocks of one byte, as types.h has it: the handlers of
    ddc_simple_arr_comp_server.c put the array that the handlers of
    tcp_simple_arr_comp_server.c would return behind the pointer they return,
    in fresh memory, and the tests of ddc_client.c report no wrong element and
    free what they and the server allocated. *)

From S2P Require Import Prelude Types Bytes Wire RawSend RawRecv Server ServerSpec Client Remote World RMem Bulk BulkWorld BulkClient TestBed Buse BuseSpec DiskSpec Testing TestingSpec Programs Rpc.

(** ** The services by value *)

Lemma u8_schar_add x y : u8 (schar x + y) = u8 (x + y).
Proof.
  unfold schar, u8. destruct (x mod 2 ^ 8 <? 128); [by rewrite Zplus_mod_idemp_l|].
  replace (x mod 2 ^ 8 - 256 + y) with (x mod 2 ^ 8 + y + (-1) * 2 ^ 8) by lia. by rewrite Z_mod_plus_full, Zplus_mod_idemp_l.
Qed.
Lemma mapM_seq {A} (f : nat → option A) (l : list A) n : length l = n → (∀ i x, l !! i = Some x → f i = Some x) →
  mapM f (seq 0 n) = Some l.
Proof.
  intros Hl Hf. apply mapM_Some, Forall2_same_length_lookup. rewrite length_seq. split; [done|].
  intros i j x Ej Ex. apply lookup_seq in Ej as [-> _]. by apply Hf.
Qed.
Lemma tcp_increment arr value n : n = len arr → tcp_increment_array arr value n = Some ((λ x, u8 (x + value)) <$> arr).
Proof.
  intros ->. apply mapM_seq; [rewrite length_fmap; unfold len; lia|]. intros i y Ey. rewrite list_lookup_fmap in Ey.
  destruct (arr !! i) as [x|]; [|done]. simpl in *. by rewrite u8_schar_add.
Qed.
Lemma tcp_add arr1 arr2 n : n = len arr1 → n = len arr2 → tcp_add_arrays arr1 arr2 n = Some (zip_with (λ x y, u8 (x + y)) arr1 arr2).
Proof.
  intros -> E2. apply mapM_seq; [rewrite length_zip_with; unfold len in *; lia|].
  intros i z Ez. apply lookup_zip_with_Some in Ez as (x & y & -> & -> & ->). simpl. by rewrite u8_schar_add, Z.add_comm, u8_schar_add, Z.add_comm.
Qed.
Lemma tcp_no_op_eq arr n : n = len arr → tcp_no_op arr n = Some arr.
Proof. intros ->. unfold tcp_no_op. rewrite Z.ltb_irrefl, take_ge; [done|unfold len; lia]. Qed.

Lemma populate_range rnd n : ∀ i num, 0 <= num < 255 → Forall (λ x, 0 <= x < 255) (populate_loop rnd n i num).
Proof.
  induction n as [|n IH]; intros i num Hnum; cbn [populate_loop]; constructor; [done|]. apply IH.
  destruct rnd; apply Z.mod_pos_bound; done.
Qed.
Lemma len_populate rnd n start : 0 <= n → len (populate_array rnd n start) = n.
Proof.
  intros Hn. unfold populate_array, len. replace (length _) with (Z.to_nat n); [lia|].
  generalize 0 start. induction (Z.to_nat n) as [|k IH]; intros i num; [done|]. cbn [populate_loop length]. by rewrite <-IH.
Qed.
Lemma populate_bytes rnd n start : 0 <= start < 255 → Forall byte_ok (populate_array rnd n start).
Proof. intros Hs. eapply Forall_impl; [by apply populate_range|]. unfold byte_ok. lia. Qed.

(** ** Allocations in any order *)

Lemma claims_set bl0 L L' bl : (∀ x, x ∈ L ↔ x ∈ L') → claims bl0 L bl → claims bl0 L' bl.
Proof. intros HL [Hm Hr]. split; [intros a k Hin; by apply Hm, HL|]. intros s x Hx. apply Hr. intros a k Hin. by apply (Hx a k), HL. Qed.
Lemma once_front L x : once (L ++ [x]) → once (x :: L).
Proof.
  intros Ho. set (f := λ p, match p with O => length L | S p => p end).
  assert (∀ p y, (x :: L) !! p = Some y → (L ++ [x]) !! f p = Some y) as Hf.
  { intros [|p] y E; simpl in *; [|by apply lookup_app_l_Some]. injection E as <-. by rewrite lookup_app_r, Nat.sub_diag by lia. }
  intros p q a b k m Ea Eb Hs Hp. pose proof (Ho _ _ _ _ _ _ (Hf _ _ Ea) (Hf _ _ Eb) Hs Hp) as E.
  destruct p as [|p], q as [|q]; simpl in *; [done| | |by f_equal].
  - apply lookup_lt_Some in Eb. lia.
  - apply lookup_lt_Some in Ea. lia.
Qed.

Section Arrays.
Context `{Config} `{!Calloc} {W : Type} `{!ClientNet W} `{!RemoteHosts W} `{!BulkHosts W}.
Hypothesis Hone : BLOCK_SIZE = 1.
Implicit Types (c : client W).
Abbreviation mem_at c := (rh_mem (c_net c)).
Abbreviation blocks_at c := (rh_blocks (c_net c)).

(** ** Arrays in the servers' memories *)

(** The bytes [l] are at the address [a]. *)
Definition array_at (mem : Z → gmap Z Z) (a : ip6_memaddr) (l : list Z) : Prop :=
  ∀ i, 0 <= i < len l → mem (subid a) !! (paddr a + i) = idx l i.
Definition in_array (a : ip6_memaddr) (n i x : Z) : Prop := i = subid a ∧ paddr a <= x < paddr a + n.

Lemma array_mapped mem a l : array_at mem a l → mapped (mem (subid a)) (paddr a) (len l).
Proof. intros Ha x Hx. replace x with (paddr a + (x - paddr a)) by lia. rewrite Ha by lia. apply idx_is_Some. lia. Qed.

Lemma block_row a n j : 0 <= paddr a → paddr a + n <= 2 ^ 64 → 0 <= n →
  block_addrs a n !! j = if decide (Z.of_nat j < n) then Some (set_paddr (paddr a + Z.of_nat j) a) else None.
Proof.
  intros Ha Hn Hn0. unfold block_addrs. rewrite Hone. rewrite list_lookup_fmap. case_decide as Hj.
  - rewrite lookup_seq_lt by lia. simpl. do 2 f_equal. rewrite Z.mul_1_r. apply u64_small. lia.
  - rewrite lookup_seq_ge by lia. done.
Qed.
Lemma len_row a n : 0 <= n → len (block_addrs a n) = n.
Proof. intros Hn. unfold block_addrs, len. rewrite length_fmap, length_seq. lia. Qed.
Lemma row_apart a n : 0 <= paddr a → paddr a + n <= 2 ^ 64 → 0 <= n → all_apart 1 (block_addrs a n).
Proof.
  intros Ha Hn Hn0 p q x y Ex Ey Hne _. rewrite block_row in Ex, Ey by done.
  repeat case_decide; simplify_eq. unfold apart. simpl. lia.
Qed.

(** [n] bytes of live memory at [a]. *)
Definition shared c (a : ip6_memaddr) (n : Z) : Prop :=
  addr_in (subid a) a ∧ subid a < USHRT_MAX ∧ mapped (mem_at c (subid a)) (paddr a) n.
Lemma shared_range c a n : client_inv c → shared c a n → 0 < n → 0 < paddr a ∧ paddr a + n <= 2 ^ 64.
Proof.
  intros Hc ((Ha & _ & Hs) & _ & Hm) Hn. pose proof (rh_wf _ _ (ci_net _ Hc) Hs) as Hwf.
  assert (∀ x, paddr a <= x < paddr a + n → 0 < x < 2 ^ 64) as Hr.
  { intros x Hx. apply Hm, (mw_dom _ _ Hwf) in Hx as (b & k & Eb & Hb). pose proof (mw_block _ _ Hwf _ _ Eb). lia. }
  pose proof (Hr (paddr a)). pose proof (Hr (paddr a + n - 1)). lia.
Qed.
Lemma shared_row c a n : client_inv c → shared c a n → 0 < n → Forall (usable c 1) (block_addrs a n).
Proof.
  intros Hc Hs Hn. destruct (shared_range c a n Hc Hs Hn) as [Hlo Hhi]. destruct Hs as ((Ha & _ & Hsrv) & Hu & Hm).
  apply Forall_lookup. intros j x E. rewrite block_row in E by lia. case_decide; simplify_eq.
  split_and!; [|done|].
  - split_and!; [|done|done]. destruct Ha. split; simpl; try done. lia.
  - intros y Hy. simpl in *. apply Hm. lia.
Qed.

(** The servers' memories are the same but for the [n] bytes at [a]. *)
Record touched c c' (a : ip6_memaddr) (n : Z) : Prop := {
  tc_client : client_inv c';
  tc_mem i x : ¬ in_array a n i x → mem_at c' i !! x = mem_at c i !! x;
  tc_mapped i x : is_Some (mem_at c i !! x) → is_Some (mem_at c' i !! x);
  tc_blocks i : blocks_at c' i = blocks_at c i;
  tc_hosts : hostList c' = hostList c;
  tc_nhosts : nhosts c' = nhosts c;
}.
Lemma wp_write_array c a l (Q : Z → client W → Prop) : client_inv c → shared c a (len l) → 0 < len l → Forall byte_ok l →
  (∀ c', touched c c' a (len l) → array_at (mem_at c') a l → Q 0 c') →
  wp (write_uniform_rmem (MemaddrBlock a (len l) 0) l (len l)) c Q.
Proof.
  intros Hc Hs Hl Hb HQ. destruct (shared_range c a _ Hc Hs Hl) as [Hlo Hhi].
  assert (Forall (usable c 1) (block_addrs a (len l))) as Hus by by apply shared_row.
  assert (len (block_addrs a (len l)) = len l) as Hrow by (apply len_row; lia).
  unfold write_uniform_rmem, uniform_addrs. cbn [memaddr length_ offset]. change (Z.to_nat 0) with 0%nat. rewrite drop_0, Z.sub_0_r.
  rewrite u64_small by lia. rewrite wp_bind.
  replace (len l) with (BLOCK_SIZE * len (block_addrs a (len l))) at 3 by (rewrite Hone; lia).
  eapply wp_write_bulk_rmem; [rewrite Hone; done|done|apply addrs_at_self|lia|by rewrite Hone|by rewrite Hone, Hrow, Z.mul_1_l|done|].
  intros arr' c' _ [Hc' Hm Hbl Hh Hnh]. rewrite Hone in Hm. rewrite wp_ret. apply HQ.
  - split; try done.
    + intros i x Hx. rewrite Hm. apply stores_out, Forall_forall. intros ad Had Es.
      apply chunked_elem in Had as [[j E]%list_elem_of_lookup Hlen]; [|done|done|rewrite Hrow; lia].
      rewrite block_row in E by lia. case_decide; [|done]. unfold ends_before, in_array in *. rewrite Hlen.
      injection E as E. rewrite <-E in *. simpl in *. intros Hx'. apply Hx. split; [done|]. lia.
    + intros i x Hx. rewrite Hm. by apply stores_mapped.
  - intros i Hi. rewrite Hm.
    pose proof (stores_here l 1 ltac:(done) (block_addrs a (len l)) 0 (λ i x, mem_at c i !! x) (Z.to_nat i)
      (set_paddr (paddr a + i) a) 0) as Hst. simpl in Hst. rewrite Z.add_0_r in Hst. rewrite Hst; [|by apply row_apart; lia|done|lia| |lia].
    + rewrite Z2Nat.id by lia. rewrite Z.add_0_l. unfold slice. change (Z.to_nat 1) with 1%nat.
      apply idx_is_Some in Hi as [x Ex]. rewrite Ex. unfold idx in Ex |- *. simpl.
      rewrite lookup_take_lt, lookup_drop by lia. destruct (0 <=? i); [|done]. rewrite <-Ex. f_equal. lia.
    + rewrite block_row, decide_True by lia. by rewrite Z2Nat.id by lia.
Qed.
Lemma array_row c a l : 0 <= paddr a → paddr a + len l <= 2 ^ 64 → array_at (mem_at c) a l →
  read_data 1 (view_of (c_net c)) (block_addrs a (len l)) = l.
Proof.
  intros Hlo Hhi Ha. pose proof (len_nonneg l).
  rewrite (read_data_slices 1 _ _ l 0); rewrite ?len_row by done; [|lia|lia|lia|].
  - unfold slice. rewrite drop_0. apply take_ge. unfold len. lia.
  - intros j x E. rewrite block_row in E by lia. case_decide; [|done]. injection E as <-. cbn [subid paddr set_paddr view_of fst].
    apply rd_bytes_eq; [apply len_slice; lia|]. intros i Hi. assert (i = 0) as -> by lia. rewrite Z.add_0_r, Ha by lia.
    unfold idx, slice. change (0 <=? 0) with true. change (Z.to_nat 0) with 0%nat. rewrite (proj2 (Z.leb_le _ _)) by lia.
    cbn iota. rewrite lookup_take_lt, lookup_drop by lia. f_equal. lia.
Qed.

(** Nothing of the servers changes. *)
Record unchanged c c' : Prop := {
  un_client : client_inv c';
  un_mem i x : mem_at c' i !! x = mem_at c i !! x;
  un_blocks i : blocks_at c' i = blocks_at c i;
  un_hosts : hostList c' = hostList c;
  un_nhosts : nhosts c' = nhosts c;
}.
(** Buffers of the process: as long as asked for, inside the address space. *)
Definition buffers_ok (buf_addr : Z → Z) (fresh : Z → list Z) : Prop :=
  (∀ k, 0 <= k < 2 ^ 32 → 0 <= buf_addr k ∧ buf_addr k + k < 2 ^ 64) ∧ ∀ k, 0 <= k → len (fresh k) = k.
Lemma wp_read_array buf_addr fresh c a l n m (Q : list Z → client W → Prop) : buffers_ok buf_addr fresh → client_inv c → shared c a n →
  n = len l → 0 < n < 2 ^ 31 → n <= m → paddr a + m <= 2 ^ 64 → array_at (mem_at c) a l → (∀ c', unchanged c c' → Q l c') →
  wp (read_buffer buf_addr fresh (MemaddrBlock a m 0) n) c Q.
Proof.
  intros [Hb Hf] Hc Hs -> Hl Hlm Htop Ha HQ. destruct (shared_range c a _ Hc Hs ltac:(lia)) as [Hlo Hhi].
  assert (Forall (usable c 1) (block_addrs a (len l))) as Hus by (apply shared_row; [done|done|lia]).
  assert (len (block_addrs a (len l)) = len l) as Hrow by (apply len_row; lia).
  unfold read_buffer, read_uniform_rmem, uniform_addrs. cbn [memaddr length_ offset]. change (Z.to_nat 0) with 0%nat. rewrite drop_0, Z.sub_0_r.
  rewrite !u64_small by lia. rewrite wp_bind, wp_bind. destruct (Hb (len l)) as [Hb0 Hb1]; [lia|]. pose proof (Hf (len l) ltac:(lia)) as Hfl.
  assert (BLOCK_SIZE * len (block_addrs a (len l)) = len l) as Hsz by (rewrite Hone; lia). rewrite <-Hsz at 3.
  assert (BLOCK_SIZE <= MAX_PAYLOAD) as Hbs by by rewrite Hone.
  eapply (wp_read_bulk_rmem Hbs _ _ (block_addrs a (len l))); cbn [base bytes]; rewrite ?Hone, ?Hrow, ?Hfl, ?Z.mul_1_l; [done| |lia|done|done|done|lia|lia|].
  { intros j x E. rewrite block_row in E by lia. case_decide; [|done]. unfold idx. rewrite (proj2 (Z.leb_le _ _)) by lia.
    rewrite Z.add_0_l, Nat2Z.id, block_row by lia. by rewrite decide_True by lia. }
  intros arr' c' _ Hc' Hv Hh Hnh. rewrite wp_ret. cbn beta iota. rewrite wp_ret. cbn [bytes]. rewrite array_row by (done || lia). apply HQ.
  split; try done; intros; specialize (Hv i); unfold view_of in Hv; congruence.
Qed.

(** ** Allocation on a random host *)

Record hosts_ok c : Prop := {
  ho_count : 0 < nhosts c <= 256;
  ho_host i : 0 <= i < nhosts c →
    ∃ a, idx (hostList c) i = Some a ∧ addr_ok a ∧ is_Some (rh_server (subid a)) ∧ subid a < USHRT_MAX;
}.
(** The server's allocator can serve [k] requests for [n] bytes. *)
Fixpoint roomy (n : Z) (k : nat) (bl : gmap Z Z) : Prop :=
  match k with
  | O => True
  | S k => calloc_addr bl n ≠ 0 ∧ roomy n k (<[calloc_addr bl n := n]> bl)
  end.
Lemma roomy_less n k : ∀ bl, roomy n (S k) bl → roomy n k bl.
Proof. induction k as [|k IH]; intros bl [Ha Hr]; [done|]. split; [done|]. by apply IH. Qed.
Definition all_roomy (n : Z) (k : nat) c : Prop := ∀ i, is_Some (rh_server i) → roomy n k (blocks_at c i).

(** One block of [n] bytes more, at [r]; everything else is as before. *)
Record grown c c' (r : ip6_memaddr) (n : Z) : Prop := {
  gr_client : client_inv c';
  gr_shared : shared c' r n;
  gr_keep i x : is_Some (mem_at c i !! x) → mem_at c' i !! x = mem_at c i !! x;
  gr_new x : paddr r <= x < paddr r + n → mem_at c (subid r) !! x = None;
  gr_free : blocks_at c (subid r) !! paddr r = None;
  gr_block : blocks_at c' (subid r) = <[paddr r := n]> (blocks_at c (subid r));
  gr_others i : i ≠ subid r → blocks_at c' i = blocks_at c i;
  gr_addr : paddr r = calloc_addr (blocks_at c (subid r)) n;
  gr_hosts : hostList c' = hostList c;
  gr_nhosts : nhosts c' = nhosts c;
}.
Lemma wp_get_pointer c rand n (Q : ip6_memaddr_block → client W → Prop) : client_inv c → hosts_ok c → all_roomy n 1 c →
  0 <= rand → 0 < n < 2 ^ 31 →
  (∀ r c', grown c c' r n → Q (MemaddrBlock r n 0) c') →
  wp (get_pointer rand n) c Q.
Proof.
  intros Hc [Hn Hh] Hroom Hr Hsz HQ. unfold get_pointer, gen_rdm_ip6_target. rewrite wp_bind, wp_bind, wp_gets.
  rewrite (proj2 (Z.eqb_neq (nhosts c) 0)) by lia.
  assert (0 <= Z.rem rand (nhosts c) < nhosts c) as Hrem by (apply Z.rem_bound_pos; lia).
  rewrite u8_small by lia. destruct (Hh _ Hrem) as (h & Eh & Hok & [srv Hsrv] & Hu).
  eapply wp_aload; [exact Eh|]. rewrite wp_bind, wp_modify. rewrite (proj2 (Z.eqb_neq n 0)) by lia. rewrite Hone, Z.div_1_r.
  replace (n + 1 - 1) with n by lia. rewrite (u64_small n) by lia.
  assert (u64 (s32 n) = n) as ->. { unfold s32. rewrite u32_small by lia. rewrite (proj2 (Z.ltb_lt _ _)) by lia. apply u64_small. lia. }
  unfold allocate_uniform_rmem. rewrite wp_bind. set (c1 := put_ctarget _ c). assert (client_inv c1) as Hc1 by by destruct Hc.
  eapply (wp_allocate_bulk c1 (subid h) srv); try done; [lia|]. unfold allocated. cbv zeta.
  set (A := calloc_addr (blocks_at c (subid h)) n). change (calloc_addr (blocks_at c1 (subid h)) n) with A.
  intros c' r Hc' Hm Hb Ho _ Hh' Hn' Hs Hp Hra. rewrite wp_ret.
  destruct (Hroom (subid h)) as [HA _]; [by eexists|]. fold A in HA. rewrite decide_False in Hb by done.
  destruct (calloc_addr_ok (blocks_at c (subid h)) n ltac:(lia)) as [?|(HA0 & HAt & HAp)]; [done|]. fold A in HA0, HAt, HAp.
  pose proof (rh_wf _ _ (ci_net _ Hc) (mk_is_Some _ _ Hsrv)) as Hwf.
  assert (∀ x, A <= x < A + n → mem_at c (subid h) !! x = None) as Hnew.
  { intros x Hx. destruct (mem_at c (subid h) !! x) as [y|] eqn:E; [|done]. exfalso.
    assert (owned (blocks_at c (subid h)) x) as (b & k & Eb & Hb') by (apply (mw_dom _ _ Hwf); by eexists).
    specialize (HAp _ _ Eb). unfold apart in HAp. lia. }
  apply HQ. split; rewrite ?Hs, ?Hp; try done.
  - split_and!; rewrite ?Hs, ?Hp; [split_and!; [done|done|by eexists]|done|].
    intros x Hx. rewrite Hm, decide_True by (split; [done|lia]). by eexists.
  - intros i x Hx. destruct (decide (i = subid h)) as [->|Hne]; [|by destruct (Ho i Hne) as [-> _]].
    rewrite Hm, decide_False; [done|]. intros [_ Hin]. rewrite Hnew in Hx by done. by destruct Hx.
  - by eapply fresh_block; [exact Hwf|exact (proj1 Hsz)|].
  - intros i Hi. by destruct (Ho i Hi).
Qed.
Lemma grown_touched c c1 c2 r n : grown c c1 r n → touched c1 c2 r n → grown c c2 r n.
Proof.
  intros [G1 G2 G3 G4 G5 G6 G7 G8 G9 G10] [T1 T2 T3 T4 T5 T6]. split; rewrite ?T4; try done; [| | |congruence|congruence].
  - destruct G2 as (Ha & Hu & Hm). split_and!; [done|done|]. intros x Hx. apply T3. by apply Hm.
  - intros i x Hx. rewrite T2; [by apply G3|]. intros [-> Hr]. rewrite G4 in Hx by done. by destruct Hx.
  - intros i Hi. rewrite T4. by apply G7.
Qed.
Lemma grown_unchanged c c1 c2 r n : grown c c1 r n → unchanged c1 c2 → grown c c2 r n.
Proof.
  intros HG [U1 U2 U3 U4 U5]. eapply grown_touched; [exact HG|]. split; try done. intros i x Hx. by rewrite U2.
Qed.
Lemma shared_kept c c' r n a m : grown c c' r n → shared c a m → shared c' a m.
Proof. intros HG (Ha & Hu & Hm). split_and!; [done|done|]. intros x Hx. rewrite (gr_keep _ _ _ _ HG) by by apply Hm. by apply Hm. Qed.
Lemma array_kept c c' r n a l : grown c c' r n → array_at (mem_at c) a l → array_at (mem_at c') a l.
Proof. intros HG Ha i Hi. rewrite (gr_keep _ _ _ _ HG) by (rewrite Ha by done; by apply idx_is_Some). by apply Ha. Qed.
Lemma shared_unchanged c c' a m : unchanged c c' → shared c a m → shared c' a m.
Proof. intros HU (Ha & Hu & Hm). split_and!; [done|done|]. intros x Hx. rewrite (un_mem _ _ HU). by apply Hm. Qed.
Lemma array_unchanged c c' a l : unchanged c c' → array_at (mem_at c) a l → array_at (mem_at c') a l.
Proof. intros HU Ha i Hi. rewrite (un_mem _ _ HU). by apply Ha. Qed.

Lemma grown_roomy c c' r n k : grown c c' r n → all_roomy n (S k) c → all_roomy n k c'.
Proof.
  intros HG Hr i Hi. specialize (Hr i Hi). destruct (decide (i = subid r)) as [->|Hne].
  - rewrite (gr_block _ _ _ _ HG), (gr_addr _ _ _ _ HG). apply Hr.
  - rewrite (gr_others _ _ _ _ HG) by done. by apply roomy_less.
Qed.
Lemma grown_hosts c c' r n : grown c c' r n → hosts_ok c → hosts_ok c'.
Proof. intros HG [Hn Hh]. split; rewrite ?(gr_hosts _ _ _ _ HG), ?(gr_nhosts _ _ _ _ HG); done. Qed.
Lemma grown_claims c c' r n bl0 L : grown c c' r n → once L → claims bl0 L (blocks_at c) →
  once (L ++ [(r, n)]) ∧ claims bl0 (L ++ [(r, n)]) (blocks_at c').
Proof.
  intros HG Ho Hcl. split; [eapply once_alloc; [done|done|apply HG]|]. eapply claims_alloc; [done|by apply HG|by apply HG|]. by apply HG.
Qed.
Lemma wp_free_claim c a n bl0 L (Q : client W → Prop) : client_inv c → addr_in (subid a) a → once ((a, n) :: L) →
  claims bl0 ((a, n) :: L) (blocks_at c) → (∀ c', client_inv c' → claims bl0 L (blocks_at c') → Q c') →
  wp (free_rmem a) c (λ _, Q).
Proof.
  intros Hc Ha Ho Hcl HQ. destruct (cl_mine _ _ _ Hcl a n) as [Hn _]; [left|].
  eapply (wp_free_rmem _ (subid a)); [done|done|done|]. intros c' a' Hc' _ Hbl Hoth. apply HQ; [done|].
  eapply claims_free; [done|done|done|]. intros j Hj. by destruct (Hoth j Hj).
Qed.

(** ** Pointers in a call *)

Lemma wp_unmarshall a t c (Q : ip6_memaddr → client W → Prop) : addr_ok a → Q a c → wp (unmarshall_shmem_ptr (enc_addr a ++ t)) c Q.
Proof.
  intros Ha HQ. unfold unmarshall_shmem_ptr. rewrite (proj2 (Z.ltb_ge _ _)).
  2: { rewrite len_app, len_enc_addr. pose proof (len_nonneg t). unfold IPV6_SIZE. lia. }
  rewrite wp_ret. unfold slice. change (Z.to_nat 0) with 0%nat. rewrite drop_0.
  pose proof (len_enc_addr a) as Hl. rewrite take_app_le by (unfold len, IPV6_SIZE in *; lia).
  rewrite take_ge by (unfold len, IPV6_SIZE in *; lia). by rewrite dec_enc_addr.
Qed.
Lemma marshall_enc a : marshall_shmem_ptr [] a = enc_addr a.
Proof. reflexivity. Qed.
Lemma blocks_of_small n : 0 < n < 2 ^ 31 → blocks_of_length n = n.
Proof.
  intros Hn. unfold blocks_of_length. rewrite Hone, Z.quot_1_r, (proj2 (Z.eqb_neq n 0)) by lia. rewrite u64_small; lia.
Qed.

(** ** The handlers *)

Section Handlers.
Variables (buf_addr : Z → Z) (fresh : Z → list Z).
Hypothesis Hbuf : buffers_ok buf_addr fresh.

(** The server can work on calls for [n] bytes. *)
Record serving (n : Z) c : Prop := {
  sv_client : client_inv c;
  sv_hosts : hosts_ok c;
  sv_room : all_roomy n 1 c;
}.
(** The end of every handler: the result is written to the new block. *)
Lemma wp_return c c1 r n l ret (Q : list Z → client W → Prop) : grown c c1 r n → len l = n → 0 < n < 2 ^ 31 → Forall byte_ok l →
  (∀ c', grown c c' r n → array_at (mem_at c') r l → Q ret c') →
  wp (write_uniform_rmem (MemaddrBlock r n 0) l n;; mret ret) c1 Q.
Proof.
  intros HG El Hn Hb HQ. rewrite wp_bind, <-El. eapply wp_write_array; [apply HG|rewrite El; apply HG|lia|done|].
  intros c2 HT Ha. rewrite wp_ret. apply HQ; [|done]. rewrite El in HT. by eapply grown_touched.
Qed.
Lemma wp_increment_array c rand a arr value t n (Q : list Z → client W → Prop) :
  serving n c → 0 <= rand → shared c a n → array_at (mem_at c) a arr → n = len arr → 0 < n < 2 ^ 31 →
  (∀ r c', grown c c' r n → array_at (mem_at c') r ((λ x, u8 (x + value)) <$> arr) → Q (enc_addr r ++ enc_addr r) c') →
  wp (increment_array buf_addr fresh 0 rand (enc_addr a ++ t) value n) c Q.
Proof.
  intros [Hc Hh Hroom] Hr Hs Ha En Hn HQ. unfold increment_array. rewrite u64_small by lia. rewrite wp_bind.
  apply wp_get_pointer; try done. intros r c1 HG. rewrite wp_bind.
  pose proof (shared_kept _ _ _ _ _ _ HG Hs) as Hs1. pose proof (array_kept _ _ _ _ _ _ HG Ha) as Ha1. pose proof (gr_client _ _ _ _ HG) as Hc1.
  apply wp_unmarshall; [apply Hs|]. rewrite wp_bind, blocks_of_small by done.
  destruct (shared_range c1 a n Hc1 Hs1 ltac:(lia)) as [_ Htop].
  eapply (wp_read_array _ _ c1 a arr n n); try done. intros c2 HU. pose proof (grown_unchanged _ _ _ _ _ HG HU) as HG2.
  eapply (wp_return c); [done|unfold len; rewrite length_fmap; by rewrite En|done| |].
  - apply Forall_fmap, Forall_true. intros x. apply u8_range.
  - intros c' HG' Ha'. cbn [memaddr]. rewrite marshall_enc. by apply HQ.
Qed.
Lemma wp_add_arrays c rand a1 a2 arr1 arr2 t1 t2 n (Q : list Z → client W → Prop) :
  serving n c → 0 <= rand → shared c a1 n → shared c a2 n → array_at (mem_at c) a1 arr1 → array_at (mem_at c) a2 arr2 →
  n = len arr1 → n = len arr2 → 0 < n < 2 ^ 31 →
  (∀ r c', grown c c' r n → array_at (mem_at c') r (zip_with (λ x y, u8 (x + y)) arr1 arr2) → Q (enc_addr r) c') →
  wp (add_arrays buf_addr fresh 0 rand (enc_addr a1 ++ t1) (enc_addr a2 ++ t2) n) c Q.
Proof.
  intros [Hc Hh Hroom] Hr Hs1 Hs2 Ha1 Ha2 En1 En2 Hn HQ. unfold add_arrays. rewrite u64_small by lia. rewrite wp_bind.
  apply wp_get_pointer; try done. intros r c1 HG. rewrite wp_bind.
  apply wp_unmarshall; [apply Hs1|]. rewrite wp_bind. apply wp_unmarshall; [apply Hs2|]. rewrite blocks_of_small by done.
  pose proof (shared_kept _ _ _ _ _ _ HG Hs1) as Hs1'. pose proof (shared_kept _ _ _ _ _ _ HG Hs2) as Hs2'.
  destruct (shared_range c1 a1 n (gr_client _ _ _ _ HG) Hs1' ltac:(lia)) as [_ Htop1].
  destruct (shared_range c1 a2 n (gr_client _ _ _ _ HG) Hs2' ltac:(lia)) as [_ Htop2].
  rewrite wp_bind. eapply (wp_read_array _ _ c1 a1 arr1 n n); try done; [by apply HG|by eapply array_kept|]. intros c2 HU2.
  rewrite wp_bind. eapply (wp_read_array _ _ c2 a2 arr2 n n); try done;
    [by apply HU2|by eapply shared_unchanged|eapply array_unchanged; [done|by eapply array_kept]|]. intros c3 HU3.
  eapply (wp_return c); [eapply grown_unchanged; [eapply grown_unchanged; [exact HG|exact HU2]|exact HU3]| |done| |].
  - unfold len. rewrite length_zip_with. unfold len in *. lia.
  - apply Forall_lookup. intros i x Hx. apply lookup_zip_with_Some in Hx as (? & ? & -> & _). apply u8_range.
  - intros c' HG' Ha'. cbn [memaddr]. rewrite marshall_enc. by apply HQ.
Qed.
Lemma wp_no_op c rand a arr t n m (Q : list Z → client W → Prop) :
  serving n c → 0 <= rand → shared c a n → array_at (mem_at c) a arr → Forall byte_ok arr → n = len arr → 0 < n < 2 ^ 31 →
  n <= m → paddr a + m <= 2 ^ 64 →
  (∀ r c', grown c c' r n → array_at (mem_at c') r arr → Q (enc_addr r) c') →
  wp (no_op buf_addr fresh 0 m rand (enc_addr a ++ t) n) c Q.
Proof.
  intros [Hc Hh Hroom] Hr Hs Ha Hb En Hn Hm Htop HQ. unfold no_op. rewrite u64_small by lia. rewrite wp_bind.
  apply wp_get_pointer; try done. intros r c1 HG. cbn [memaddr offset]. rewrite wp_bind.
  apply wp_unmarshall; [apply Hs|]. rewrite wp_bind.
  eapply (wp_read_array _ _ c1 a arr n m); try done; [apply HG|by eapply shared_kept|by eapply array_kept|]. intros c2 HU.
  eapply (wp_return c); [by eapply grown_unchanged|done|done|done|]. intros c' HG' Ha'. rewrite marshall_enc. by apply HQ.
Qed.

Lemma answers c n (m : M (client W) (list Z)) enc l :
  wp m c (λ ret c', ∃ r, ret = enc r ∧ grown c c' r n ∧ array_at (mem_at c') r l) →
  ∃ r c' l', m c = Ok (enc r) c' ∧ grown c c' r n ∧ Some l = Some l' ∧ array_at (mem_at c') r l'.
Proof. intros (ret & c' & E & r & -> & HG & Ha)%wp_ok. by exists r, c', l. Qed.

End Handlers.
End Arrays.

(** [test_server_functionality] writes past a buffer of one block unless a
    block has 26 bytes; the default block has one. *)
Lemma server_tests_overflow `{Config} {W} (ping : M (client W) bool) alloc write read free c b c1 r c2 :
  BLOCK_SIZE < 26 → ping c = Ok b c1 → alloc BLOCK_SIZE c1 = Ok r c2 →
  test_server_functionality ping alloc write read free c = Err OutOfBounds.
Proof.
  intros Hb Ep Ea. unfold test_server_functionality, mbind, M_bind. rewrite Ep, Ea. unfold test_server_write.
  by rewrite (proj2 (Z.ltb_lt _ _)) by done.
Qed.

(** ** Witness: a server on the network of [TestBed] with four zero bytes *)
Section RpcWitness.
#[local] Existing Instance types_h.
#[local] Instance bulk0 : BulkHosts world :=
  world_bulk (host 0) src_port servers0 (host_ok 0 (conj (Z.le_refl 0) eq_refl)) port0_ok servers0_ok.

Lemma zeros_ok : buffers_ok (λ _, 0) zeros.
Proof. split; [intros k Hk; lia|]. intros k Hk. by apply len_replicate. Qed.
Lemma two_hosts_ok c : hostList c = [host 1; host 2] → nhosts c = 2 → hosts_ok c.
Proof.
  intros Hh Hn. split; rewrite ?Hh, ?Hn; [lia|]. intros i Hi. assert (i = 0 ∨ i = 1) as [->| ->] by lia; eexists;
    (split_and!; [reflexivity|apply host_ok; simpl; lia|eexists; reflexivity|done]).
Qed.
Lemma two_servers i : is_Some (rh_server i) → i = 1 ∨ i = 2.
Proof. by intros [a [Hi _]%servers0_inv]. Qed.
Definition at4 (i : Z) : ip6_memaddr := Memaddr 1 0 0 (4096 + i).
Lemma client4_serving : serving 2 client4 ∧ ∀ i, 0 <= i < 4 → rh_mem (c_net client4) 1 !! (4096 + i) = Some 0.
Proof.
  assert (wp (allocate_bulk 4) (client0 1) (λ _ c, serving 2 c ∧ ∀ i, 0 <= i < 4 → rh_mem (c_net c) 1 !! (4096 + i) = Some 0)) as Hw.
  { eapply (wp_allocate_bulk (client0 1) 1 (MkSock (host 1) src_port) 4);
      [apply client0_ok|reflexivity|reflexivity|apply host_ok; lia|lia|].
    intros c' ret Hc' Hm Hb Ho _ Hh Hn _ _ _. split; [split; [done|by apply two_hosts_ok|]|].
    - intros i [->| ->]%two_servers; [rewrite Hb|destruct (Ho 2) as [_ ->]; [done|]]; by vm_compute.
    - intros i Hi. rewrite Hm. change (calloc_addr _ 4) with 4096. by rewrite decide_True by lia. }
  by destruct (wp_state_of _ _ (client0 1) _ Hw) as (? & _ & ?).
Qed.
Lemma at4_shared i : 0 <= i <= 2 → shared client4 (at4 i) 2 ∧ array_at (rh_mem (c_net client4)) (at4 i) [0; 0].
Proof.
  intros Hi. destruct client4_serving as [_ Hz]. split; [split_and!|].
  - apply addr_in_1; [|done]. split; simpl; lia.
  - done.
  - intros x Hx. cbn [subid paddr at4] in *. replace x with (4096 + (x - 4096)) by lia. rewrite Hz by lia. by eexists.
  - intros j Hj. change (len [0; 0]) with 2 in Hj. cbn [subid paddr at4]. rewrite <-Z.add_assoc, Hz by lia.
    by assert (j = 0 ∨ j = 1) as [->| ->] by lia.
Qed.
End RpcWitness.
