(* ===== verification/RpcClient.v ===== *)
(** * The client of the shared-pointer service

    ddc_client.c on one machine and the server on another: two clients of the
    same memory servers. The stub that Thrift generates runs the handler in
    the server's process, on the memory as the client left it ([delivers]).
    Then the tests of ddc_client.c report nothing wrong. *)

From S2P Require Import Prelude Types Bytes Wire RawSend RawRecv Server ServerSpec Client Remote World RMem Bulk BulkWorld BulkClient TestBed Buse BuseSpec DiskSpec Testing TestingSpec Programs Rpc RpcSpec.

Lemma filter_nothing {A} (P : A → Prop) `{∀ x, Decision (P x)} l : (∀ x, x ∈ l → ¬ P x) → filter P l = [].
Proof.
  induction l as [|x l IH]; intros Hl; [done|]. rewrite filter_cons_False by (apply Hl; left). apply IH.
  intros y Hy. apply Hl. by right.
Qed.

(** The tests of the service by value, on its handlers. *)
Lemma increment_no_wrong arr n : Forall (λ x, 0 <= x < 255) arr →
  filter (λ i, idx ((λ x, u8 (x + 1)) <$> arr) i ≠ (λ x, x + 1) <$> idx arr i) (seqZ 0 n) = [].
Proof.
  intros Hlt. apply filter_nothing. intros i _ Hi. apply Hi. unfold idx. destruct (0 <=? i); [|done]. rewrite list_lookup_fmap.
  destruct (arr !! Z.to_nat i) as [x|] eqn:Ex; [|done]. simpl. f_equal. apply u8_small.
  eapply Forall_lookup_1 in Hlt; [|exact Ex]. cbn in Hlt. lia.
Qed.
Lemma tcp_tests_succeed rnd1 rnd2 n : 0 <= n →
  tcp_test_increment_array tcp_increment_array n = Some [] ∧ tcp_test_add_arrays tcp_add_arrays rnd1 rnd2 n = [] ∧
  tcp_no_op_rpc tcp_no_op n = Some (populate_array None n 0).
Proof.
  intros Hn. pose proof (len_populate None n 0 Hn). pose proof (len_populate (Some rnd1) n 3 Hn). pose proof (len_populate (Some rnd2) n 5 Hn).
  unfold tcp_test_increment_array, tcp_test_add_arrays, tcp_no_op_rpc. rewrite tcp_increment, tcp_add, tcp_no_op_eq by done. split_and!; [|by apply filter_nothing; auto|done].
  simpl. by rewrite increment_no_wrong by (apply populate_range; lia).
Qed.

Section Calls.
Context `{Config} `{!Calloc} {W : Type}.
(** The network as the server and as the client have it. *)
Context (NS : ClientNet W) (RS : RemoteHosts W) (BS : BulkHosts W).
Context (NU : ClientNet W) (RU : @RemoteHosts _ _ W NU) (BU : @BulkHosts _ _ W NU RU).
Implicit Types (c : client W).
Abbreviation mem_at c := (@rh_mem _ _ _ _ RU (c_net c)).
Abbreviation blocks_at c := (@rh_blocks _ _ _ _ RU (c_net c)).

(** Both reach the same servers. *)
Record same_servers : Prop := {
  ss_inv w : @rh_inv _ _ _ _ RS w ↔ @rh_inv _ _ _ _ RU w;
  ss_mem w i : @rh_mem _ _ _ _ RS w i = @rh_mem _ _ _ _ RU w i;
  ss_blocks w i : @rh_blocks _ _ _ _ RS w i = @rh_blocks _ _ _ _ RU w i;
  ss_server i : @rh_server _ _ _ _ RS i = @rh_server _ _ _ _ RU i;
}.
(** The server has been started: it knows its hosts and their port. *)
Record started (cs : client W) : Prop := {
  st_hosts : @hosts_ok _ _ _ NS RS cs;
  st_port i a : @rh_server _ _ _ _ RS i = Some a → sin6_port a = sin6_port (c_target cs);
}.
(** A call runs the handler once, in a server that has been started. *)
Definition delivers (stub : M (client W) (option (list Z))) (handler : M (client W) (list Z)) : Prop :=
  ∀ c (Q : option (list Z) → client W → Prop),
    (∀ cs, c_net cs = c_net c → started cs → wp handler cs (λ ret cs', Q (Some ret) (put_net (c_net cs') c))) → wp stub c Q.

Hypothesis Hsame : same_servers.

Lemma grown_seen c cs cs' r n : c_net cs = c_net c → client_inv c → @grown _ _ _ NS RS cs cs' r n →
  @grown _ _ _ NU RU c (put_net (c_net cs') c) r n.
Proof.
  intros En Hc [G1 (Ha & Hu & Hm) G3 G4 G5 G6 G7 G8 _ _]. destruct Hsame as [Si Sm Sb Ss].
  assert (∀ w i, @rh_mem _ _ _ _ RU w i = @rh_mem _ _ _ _ RS w i) as Sm' by (intros; by rewrite Sm).
  assert (∀ w i, @rh_blocks _ _ _ _ RU w i = @rh_blocks _ _ _ _ RS w i) as Sb' by (intros; by rewrite Sb).
  split; cbn [put_net c_net hostList nhosts]; rewrite ?Sm', ?Sb', <-?En; try done.
  - destruct Hc as [_ Hp]. split; [apply Si; apply G1|exact Hp].
  - split_and!; [|done|by cbn [c_net put_net]; rewrite Sm'].
    destruct Ha as (Ha & Hsub & Hs). split_and!; [done|done|by rewrite <-Ss].
  - intros i x. rewrite !Sm'. apply G3.
  - intros i. rewrite !Sb'. apply G7.
Qed.
(** A call, whatever the handler does with the array. *)
Lemma wp_call c n stub handler enc l (Q : option (list Z) → client W → Prop) :
  delivers stub handler → client_inv c → all_roomy n 1 c →
  (∀ cs, c_net cs = c_net c → @serving _ _ _ NS RS n cs →
     wp handler cs (λ ret cs', ∃ r, ret = enc r ∧ @grown _ _ _ NS RS cs cs' r n ∧ array_at (@rh_mem _ _ _ _ RS (c_net cs')) r l)) →
  (∀ r c', grown c c' r n → array_at (mem_at c') r l → Q (Some (enc r)) c') → wp stub c Q.
Proof.
  intros Hd Hc Hroom Hh HQ. apply Hd. intros cs En [Hho Hp].
  assert (@serving _ _ _ NS RS n cs) as Hsv.
  { split; [split; [|done]|done|].
    - apply (ss_inv Hsame). rewrite En. apply Hc.
    - intros i Hi. rewrite En, (ss_blocks Hsame). apply Hroom. by rewrite <-(ss_server Hsame). }
  eapply wp_mono; [by apply Hh|]. intros ret cs' (r & -> & HG & Ha). apply HQ; [by eapply grown_seen|].
  intros i Hi. cbn [c_net put_net]. rewrite <-(ss_mem Hsame). by apply Ha.
Qed.

(** ** Arguments and results *)

Lemma touched_shared c c' a n b m : touched c c' a n → shared c b m → shared c' b m.
Proof. intros HT (Hb & Hu & Hm). split_and!; [done|done|]. intros x Hx. apply (tc_mapped _ _ _ _ HT). by apply Hm. Qed.
Lemma touched_array c c' b n a l : touched c c' b n → (∀ i, 0 <= i < len l → ¬ in_array b n (subid a) (paddr a + i)) →
  array_at (mem_at c) a l → array_at (mem_at c') a l.
Proof. intros HT Hd Ha i Hi. rewrite (tc_mem _ _ _ _ HT) by by apply Hd. by apply Ha. Qed.
Lemma touched_roomy c c' a n m k : touched c c' a n → all_roomy m k c → all_roomy m k c'.
Proof. intros HT Hr i Hi. rewrite (tc_blocks _ _ _ _ HT). by apply Hr. Qed.
Lemma touched_claims c c' a n bl0 L : touched c c' a n → claims bl0 L (blocks_at c) → claims bl0 L (blocks_at c').
Proof. intros HT [Hm Hr]. split; intros; rewrite (tc_blocks _ _ _ _ HT); [by apply Hm|by apply Hr]. Qed.
(** A block that is not in use yet meets no array. *)
Lemma new_block_apart c c' r n a m : grown c c' r n → mapped (mem_at c (subid a)) (paddr a) m →
  ∀ i, 0 <= i < m → ¬ in_array r n (subid a) (paddr a + i).
Proof.
  intros HG Hm i Hi [Es Hx]. pose proof (gr_new _ _ _ _ HG _ Hx) as Hnew. rewrite <-Es in Hnew.
  destruct (Hm (paddr a + i)) as [y Ey]; [lia|]. congruence.
Qed.
(** What the server sees of an array the client has written. *)
Lemma seen_shared c cs a n : c_net cs = c_net c → shared c a n → @shared _ _ _ NS RS cs a n.
Proof.
  intros En ((Ha & Hsub & Hs) & Hu & Hm). split_and!; [|done|].
  - split_and!; [done|done|by rewrite (ss_server Hsame)].
  - by rewrite En, (ss_mem Hsame).
Qed.
Lemma seen_array c cs a l : c_net cs = c_net c → array_at (mem_at c) a l → array_at (@rh_mem _ _ _ _ RS (c_net cs)) a l.
Proof. intros En Ha i Hi. rewrite En, (ss_mem Hsame). by apply Ha. Qed.

Variables (buf_addr : Z → Z) (fresh : Z → list Z) (sbuf_addr : Z → Z) (sfresh : Z → list Z).
Hypotheses (Hone : BLOCK_SIZE = 1) (Hbuf : buffers_ok buf_addr fresh) (Hsbuf : buffers_ok sbuf_addr sfresh).

(** The shape of the tests with one argument; [K] is what they do with the
    result. *)
Definition round_trip {A} (stub : list Z → M (client W) (option (list Z))) (arr : list Z) (rand size : Z) (K : list Z → A)
    : M (client W) A :=
  args_addr ← get_pointer rand (u64 size);
  write_uniform_rmem args_addr arr (u64 size);;
  result_ptr ← stub (marshall_shmem_ptr [] (memaddr args_addr));
  match result_ptr with
  | None => err NullDeref
  | Some result_ptr =>
      a ← unmarshall_shmem_ptr result_ptr;
      result_arr ← read_buffer buf_addr fresh (MemaddrBlock a (blocks_of_length size) 0) size;
      free_rmem (memaddr args_addr);;
      free_rmem a;;
      mret (K result_arr)
  end.
Lemma wp_round_trip {A} c stub handler arr l t rand n (K : list Z → A) :
  client_inv c → hosts_ok c → all_roomy n 2 c → 0 <= rand → 0 < n < 2 ^ 31 → len arr = n → Forall byte_ok arr → len l = n →
  (∀ p, delivers (stub p) (handler p)) →
  (∀ cs a, @serving _ _ _ NS RS n cs → @shared _ _ _ NS RS cs a n → array_at (@rh_mem _ _ _ _ RS (c_net cs)) a arr →
     wp (handler (enc_addr a)) cs (λ ret cs', ∃ r, ret = enc_addr r ++ t r ∧ @grown _ _ _ NS RS cs cs' r n ∧
       array_at (@rh_mem _ _ _ _ RS (c_net cs')) r l)) →
  wp (round_trip stub arr rand n K) c (λ x c', x = K l ∧ ∀ i, blocks_at c' i = blocks_at c i).
Proof.
  intros Hc Hh Hroom Hr Hn Harr Hb Hl Hd Hw. unfold round_trip. rewrite u64_small by lia. rewrite wp_bind.
  apply wp_get_pointer; try done; [intros i Hi; by apply roomy_less, Hroom|]. intros a c1 HG1. rewrite wp_bind. cbn [memaddr].
  rewrite <-Harr. eapply wp_write_array; [done|apply HG1|rewrite Harr; apply HG1|lia|done|]. rewrite Harr. intros c2 HT Ha2.
  pose proof (grown_touched _ _ _ _ _ HG1 HT) as HG2. pose proof (gr_client _ _ _ _ HG2) as Hc2. rewrite wp_bind, marshall_enc.
  eapply (wp_call c2 n _ (handler (enc_addr a)) (λ r, enc_addr r ++ t r) l); [by apply Hd|done|by eapply grown_roomy| |].
  { intros cs En Hsv. apply Hw; [done|by eapply seen_shared, HG2|by eapply seen_array]. }
  intros r c3 HG3 Ha3. rewrite wp_bind. apply wp_unmarshall; [apply HG3|]. rewrite wp_bind, blocks_of_small by done.
  pose proof (gr_client _ _ _ _ HG3) as Hc3. destruct (shared_range c3 r n Hc3 (gr_shared _ _ _ _ HG3) ltac:(lia)) as [_ Htop].
  eapply (wp_read_array Hone _ _ c3 r l n n); try done; [by apply HG3|]. intros c4 HU. pose proof (grown_unchanged _ _ _ _ _ HG3 HU) as HG4.
  destruct (grown_claims c c2 a n (blocks_at c) [] HG2) as [Ho2 Hcl2]; [by intros ? ?|by apply claims_start|].
  destruct (grown_claims c2 c4 r n (blocks_at c) [(a, n)] HG4 Ho2 Hcl2) as [Ho4 Hcl4]. cbn [app] in *.
  rewrite wp_bind. eapply wp_free_claim; [apply HG4|apply HG2|exact Ho4|exact Hcl4|]. intros c5 Hc5 Hcl5.
  rewrite wp_bind. eapply wp_free_claim; [done|apply HG4|by apply (once_cons a n)|exact Hcl5|]. intros c6 Hc6 Hcl6.
  rewrite wp_ret. split; [done|]. by apply claims_end.
Qed.

(** The test with two arguments. *)
Lemma wp_test_add_arrays c stub rand1 rand2 rnd1 rnd2 srand n :
  client_inv c → hosts_ok c → all_roomy n 3 c → 0 <= rand1 → 0 <= rand2 → 0 <= srand → 0 < n < 2 ^ 31 →
  (∀ p q, delivers (stub p q n) (@add_arrays _ _ NS sbuf_addr sfresh 0 srand p q n)) →
  wp (test_add_arrays buf_addr fresh 0 stub rand1 rand2 rnd1 rnd2 n) c (λ x c', x = None ∧ ∀ i, blocks_at c' i = blocks_at c i).
Proof.
  intros Hc Hh Hroom Hr1 Hr2 Hsr Hn Hd. unfold test_add_arrays. rewrite u64_small by lia.
  set (arr1 := populate_array (Some rnd1) n 3). set (arr2 := populate_array (Some rnd2) n 5).
  assert (len arr1 = n) as L1 by (apply len_populate; lia). assert (len arr2 = n) as L2 by (apply len_populate; lia).
  rewrite wp_bind. apply wp_get_pointer; try done; [intros i Hi; by do 2 apply roomy_less; apply Hroom|]. intros a1 c1 HG1.
  pose proof (grown_roomy _ _ _ _ _ HG1 Hroom) as Hroom1. pose proof (gr_client _ _ _ _ HG1) as Hc1.
  rewrite wp_bind. apply wp_get_pointer; try done; [by eapply grown_hosts|intros i Hi; by apply roomy_less, Hroom1|]. intros a2 c2 HG2.
  pose proof (gr_client _ _ _ _ HG2) as Hc2. cbn [memaddr]. rewrite !marshall_enc.
  pose proof (shared_kept _ _ _ _ _ _ HG2 (gr_shared _ _ _ _ HG1)) as Hs1.
  rewrite wp_bind. rewrite <-L1 at 1 2. eapply wp_write_array; [done|done|by rewrite L1|lia|apply populate_bytes; lia|]. rewrite L1. intros c3 HT3 Ha1.
  rewrite wp_bind. rewrite <-L2 at 1 2. eapply wp_write_array; [done|apply HT3|rewrite L2; eapply touched_shared; [done|apply HG2]|lia|apply populate_bytes; lia|].
  rewrite L2. intros c4 HT4 Ha2.
  assert (array_at (mem_at c4) a1 arr1) as Ha1'.
  { eapply touched_array; [done| |done]. rewrite L1. eapply new_block_apart; [exact HG2|]. apply HG1. }
  pose proof (touched_shared _ _ _ _ _ _ HT4 (touched_shared _ _ _ _ _ _ HT3 Hs1)) as Hs1'.
  pose proof (touched_shared _ _ _ _ _ _ HT4 (touched_shared _ _ _ _ _ _ HT3 (gr_shared _ _ _ _ HG2))) as Hs2'.
  destruct (grown_claims c c1 a1 n (blocks_at c) [] HG1) as [Ho1 Hcl1]; [by intros ? ?|by apply claims_start|].
  destruct (grown_claims c1 c2 a2 n (blocks_at c) _ HG2 Ho1 Hcl1) as [Ho2 Hcl2]. cbn [app] in *.
  assert (claims (blocks_at c) [(a1, n); (a2, n)] (blocks_at c4)) as Hcl4 by (eapply touched_claims; [done|by eapply touched_claims]).
  set (expected := zip_with (λ x y, u8 (x + y)) arr1 arr2).
  rewrite wp_bind. eapply (wp_call c4 n _ (@add_arrays _ _ NS sbuf_addr sfresh 0 srand (enc_addr a1) (enc_addr a2) n) enc_addr expected);
    [apply Hd|apply HT4|do 2 (eapply touched_roomy; [done|]); by eapply grown_roomy| |].
  { intros cs En Hsv. rewrite <-(app_nil_r (enc_addr a1)), <-(app_nil_r (enc_addr a2)).
    eapply (wp_add_arrays Hone _ _ Hsbuf cs srand a1 a2 arr1 arr2); try done; try (by eapply seen_shared); try (by eapply seen_array). eauto. }
  intros r c5 HG5 Ha5. destruct (grown_claims c4 c5 r n (blocks_at c) _ HG5 Ho2 Hcl4) as [Ho5 Hcl5].
  apply once_front in Ho5. apply (claims_set _ _ ((r, n) :: [(a1, n); (a2, n)])) in Hcl5; [|set_solver].
  rewrite wp_bind, wp_bind. rewrite <-(app_nil_r (enc_addr r)). apply wp_unmarshall; [apply HG5|]. rewrite wp_bind, blocks_of_small by done.
  pose proof (gr_client _ _ _ _ HG5) as Hc5. destruct (shared_range c5 r n Hc5 (gr_shared _ _ _ _ HG5) ltac:(lia)) as [_ Htop].
  eapply (wp_read_array Hone _ _ c5 r expected n n); try done; [apply HG5|unfold expected, len; rewrite length_zip_with; unfold len in *; lia|].
  intros c6 HU. rewrite wp_bind.
  eapply (wp_free_claim _ _ n (blocks_at c)); [apply HU|apply HG5|exact Ho5| |].
  { destruct Hcl5 as [Hm Hrest]. split; intros; rewrite (un_blocks _ _ HU); [by apply Hm|by apply Hrest]. }
  intros c7 Hc7 Hcl7. rewrite wp_ret, wp_bind. eapply wp_free_claim; [done|apply HG1|exact Ho2|done|]. intros c8 Hc8 Hcl8.
  rewrite wp_bind. eapply wp_free_claim; [done|apply HG2|by apply (once_cons a1 n)|done|]. intros c9 Hc9 Hcl9. rewrite wp_ret.
  split; [|by apply claims_end]. rewrite filter_nothing; [done|]. intros i _ Hi. by apply Hi.
Qed.

Lemma wp_test_increment_array c stub rand srand n :
  client_inv c → hosts_ok c → all_roomy n 2 c → 0 <= rand → 0 <= srand → 0 < n < 2 ^ 31 →
  (∀ p v, delivers (stub p v n) (@increment_array _ _ NS sbuf_addr sfresh 0 srand p v n)) →
  wp (test_increment_array buf_addr fresh 0 stub rand n) c (λ x c', x = [] ∧ ∀ i, blocks_at c' i = blocks_at c i).
Proof.
  intros Hc Hh Hroom Hr Hsr Hn Hd. set (arr := populate_array None n 0). set (l := (λ x, u8 (x + 1)) <$> arr).
  assert (len arr = n) as Harr by (apply len_populate; lia).
  set (K := λ l, filter (λ i, idx l i ≠ (λ x, x + 1) <$> idx arr i) (seqZ 0 n)).
  change (test_increment_array _ _ _ _ _ _) with (round_trip (λ p, stub p 1 n) arr rand n K).
  assert (K l = []) as <-.
  { apply increment_no_wrong, populate_range. lia. }
  eapply (wp_round_trip c _ _ arr l enc_addr); try done; [apply populate_bytes; lia|unfold l, len; by rewrite length_fmap|intros p; apply Hd|].
  intros cs a Hsv Hs Ha. cbn beta. rewrite <-(app_nil_r (enc_addr a)). eapply (wp_increment_array Hone _ _ Hsbuf cs srand a arr); eauto.
Qed.
Lemma wp_no_op_rpc c stub rand srand n :
  client_inv c → hosts_ok c → all_roomy n 2 c → 0 <= rand → 0 <= srand → 0 < n < 2 ^ 31 →
  (∀ p, delivers (stub p n) (@no_op _ _ NS sbuf_addr sfresh 0 n srand p n)) →
  wp (no_op_rpc buf_addr fresh 0 stub rand n) c (λ x c', x = populate_array None n 0 ∧ ∀ i, blocks_at c' i = blocks_at c i).
Proof.
  intros Hc Hh Hroom Hr Hsr Hn Hd. set (arr := populate_array None n 0). assert (len arr = n) as Harr by (apply len_populate; lia).
  assert (Forall byte_ok arr) as Hb by (apply populate_bytes; lia).
  change (no_op_rpc _ _ _ _ _ _) with (round_trip (λ p, stub p n) arr rand n id). change arr with (id arr) at 2.
  eapply (wp_round_trip c _ _ arr arr (λ _, [])); try done; [intros p; apply Hd|].
  intros cs a Hsv Hs Ha. cbn beta. rewrite <-(app_nil_r (enc_addr a)).
  destruct (shared_range cs a n (sv_client _ _ Hsv) Hs ltac:(lia)) as [_ Htop].
  eapply (wp_no_op Hone _ _ Hsbuf cs srand a arr _ n n); try done. intros r c' HG Ha'. exists r. by rewrite app_nil_r.
Qed.

End Calls.

(** ** Witness: client and server on one machine of the network of [TestBed] *)
Section CallWitness.
#[local] Existing Instance types_h.
#[local] Instance bulk0 : BulkHosts world :=
  world_bulk (host 0) src_port servers0 (host_ok 0 (conj (Z.le_refl 0) eq_refl)) port0_ok servers0_ok.

(** A stub that runs the handler in a process with the state [client0 2]. *)
Definition call (handler : M (client world) (list Z)) : M (client world) (option (list Z)) := λ c,
  match handler (put_net (c_net c) (client0 2)) with
  | Ok ret cs => Ok (Some ret) (put_net (c_net cs) c)
  | Err e => Err e
  end.
Lemma call_delivers handler : delivers net0 hosts0 (call handler) handler.
Proof.
  intros c Q HQ. specialize (HQ (put_net (c_net c) (client0 2)) eq_refl). unfold wp in *. unfold call.
  destruct (handler _) as [ret cs|e]; apply HQ; (split; [by apply two_hosts_ok|]); by intros i a [_ ->]%servers0_inv.
Qed.
End CallWitness.
