(* ===== verification/NetTheorems.v ===== *)
(** * What the network layer and the remote memory guarantee

    The theorems about the raw-socket backend (src/ip6/lib/raw_backend), the
    server and client libraries (src/ip6/lib/server_lib.c, client_lib.c) and
    paging to remote memory (src/ip6/lib/vmem/rmem.c). The witnesses run on
    the client and the two servers of [TestBed]. *)

From S2P Require Import Prelude Types Bytes Backends.
From S2P Require Import Links HashTable DllList FreqList PageTable VMem Policies Flush Paging Startup VMemSpec.
From S2P Require Import Wire RawSend RawRecv Server ServerSpec Client Remote World TestBed RMem.

(** ** The wire *)

(** The 16 bytes of an IPv6 address and the command, argument and pointer
    they carry determine each other. *)
Theorem address_roundtrip (a : ip6_memaddr) (l : list Z) :
  addr_ok a → len l = 16 → Forall byte_ok l →
  dec_addr (enc_addr a) = a ∧ len (enc_addr a) = 16 ∧ addr_ok (dec_addr l) ∧ enc_addr (dec_addr l) = l.
Proof.
  intros Ha Hl Hb. split_and!; [by apply dec_enc_addr|apply len_enc_addr|by apply dec_addr_ok|by apply enc_dec_addr].
Qed.
Lemma address_roundtrip_witness :
  dec_addr (enc_addr (Memaddr 1 2 70000 4097)) = Memaddr 1 2 70000 4097 ∧
  enc_addr (dec_addr (replicate 16 7)) = replicate 16 7.
Proof.
  destruct (address_roundtrip (Memaddr 1 2 70000 4097) (replicate 16 7)) as (H1 & _ & _ & H4);
    [split; simpl; lia|done|by apply Forall_replicate|]. by split.
Defined.

Section Wire.
Context `{Kernel}.

(** A batch of at most 2048 packets goes out completely: one frame per
    packet, in their order, each with the headers of the thread, the
    destination, port and length of its packet, the batch's packet count for
    its server in the upper half of [args], and its payload; the ring is
    empty afterwards, however often [sendto] was refused in between. *)
Theorem batch_sends_every_packet sip sport sub_ids pkts t :
  tx_inv sip sport [] t → Forall pkt_ok pkts →
  Forall (λ p, 0 <= subid (dst_addr p) < len sub_ids) pkts → len pkts <= C_RING_FRAMES →
  ∃ fs t', cooked_batched_send pkts sub_ids t = Ok tt t' ∧
    k_wire (kernel t') = k_wire (kernel t) ++ fs ∧
    Forall2 (λ f p, frame_of f sip sport (in_batch sub_ids p)) fs pkts ∧ tx_inv sip sport [] t'.
Proof.
  intros Ht Hp Hs Hl.
  assert (wp (cooked_batched_send pkts sub_ids) t (λ _ t', ∃ fs,
    k_wire (kernel t') = k_wire (kernel t) ++ fs ∧
    Forall2 (λ f p, frame_of f sip sport (in_batch sub_ids p)) fs pkts ∧ tx_inv sip sport [] t')) as Hw.
  { eapply wp_cooked_batched_send; try done. eauto. }
  apply wp_ok in Hw as ([] & t' & E & fs & ?). eauto.
Qed.

Lemma arrival_slot r f r' : arrival r f r' →
  ∃ s, idx (ring r') (tpacket_i r') = Some s ∧ tp_frame_nr r' = tp_frame_nr r.
Proof. induction 1 as [r e rg ps s f _ _ Hs _|r rg ps f r' _ _ IH|r e rg ps s f r' _ _ _ _ IH|r e rg ps s f r' _ _ _ _ _ _ IH]; [by exists s|exact IH..]. Qed.

(** C27: What [cooked_send] sends is what [simple_epoll_rcv] returns: whatever
    the receiver's kernel reported before the frame arrived (nothing, an empty
    slot, a slot to skip), it returns the packet's length, its payload at the
    front of the buffer and the rest of the buffer as it was, the address the
    packet was sent to, and the sender. *)
Theorem sent_packet_is_received sip sport p t :
  tx_inv sip sport [] t → pkt_ok p → len sip = 16 → 0 <= sport < 65536 →
  ∃ f t', cooked_send p t = Ok tt t' ∧ k_wire (kernel t') = k_wire (kernel t) ++ [f] ∧
    ∀ r r' buf (want : bool), arrival r f r' → tp_frame_nr r ≠ 0 →
      match buf with Some b => datalen p <= len b | None => True end →
      ∃ got r'', simple_epoll_rcv buf want r = Ok got r'' ∧ r_size got = datalen p ∧
        r_target got = MkSock (dec_addr sip) sport ∧
        r_remote got = (if want then Some (dst_addr p) else None) ∧
        ∀ b, buf = Some b → ∃ l, r_buf got = Some l ∧ take (Z.to_nat (datalen p)) l = data p ∧
          drop (Z.to_nat (datalen p)) l = drop (Z.to_nat (datalen p)) b.
Proof.
  intros Ht Hp Hsip Hsp.
  assert (wp (cooked_send p) t (λ _ t', ∃ f, frame_of f sip sport p ∧
    k_wire (kernel t') = k_wire (kernel t) ++ [f])) as Hw by (eapply wp_cooked_send; eauto).
  apply wp_ok in Hw as ([] & t' & E & f & Hf & Hk). exists f, t'. split_and!; [done|done|].
  intros r r' buf want Harr Hn Hbuf. destruct (arrival_slot _ _ _ Harr) as (s & Hs & Hn').
  assert (wp (simple_epoll_rcv buf want) r (λ got _, r_size got = datalen p ∧
    r_target got = MkSock (dec_addr sip) sport ∧
    r_remote got = (if want then Some (dst_addr p) else None) ∧
    ∀ b, buf = Some b → ∃ l, r_buf got = Some l ∧ take (Z.to_nat (datalen p)) l = data p ∧
      drop (Z.to_nat (datalen p)) l = drop (Z.to_nat (datalen p)) b)) as Hr.
  { pose proof (po_fits _ Hp). pose proof offs. pose proof (len_nonneg (data p)).
    pose proof (po_len _ Hp). eapply wp_rcv_loop; [exact Harr| |lia].
    replace (take_packet buf want f) with (take_packet buf want (f ++ [])) by by rewrite app_nil_r.
    eapply wp_take_packet; try done; [by apply Hp|lia|by rewrite Hn'|].
    intros b Hb. split_and!; [done|done|done|]. intros b0 ->. destruct Hb as (l & -> & _ & ? & ?). eauto. }
  apply wp_ok in Hr as (got & r'' & ? & ?). eauto.
Qed.
End Wire.

(** ** The server *)
Section Servers.
Context `{Config} `{!Kernel} `{!Calloc}.

(** C7: [process_request] implements the specification of the commands: for a
    request that stays inside live memory it returns, leaves the memory, the
    table of blocks and the invariant as [spec] says, and answers with exactly
    the frame [spec] gives (none for a bulk write that is not the last of its
    batch and for an unknown command). *)
Theorem process_request_refines_spec sip sport s r_addr buf size :
  srv_inv sip sport s → addr_ok r_addr → Forall byte_ok buf →
  valid_request (memory s) (blocks s) r_addr buf size →
  let sp := spec (memory s) (blocks s) (sin6_addr (target_ip s)) r_addr buf size in
  ∃ s', process_request r_addr buf size s = Ok tt s' ∧ effect sip sport s s' sp.1.1 sp.1.2 sp.2.
Proof.
  intros Hi Hr Hb Hv sp. pose proof (wp_process_request sip sport s r_addr buf size Hi Hr Hb Hv) as Hw.
  apply wp_ok in Hw as ([] & s' & E & He). by exists s'.
Qed.

(** What one client wrote with [WRITE_CMD] is what any later [READ_CMD] of
    that range is answered with, and the rest of the memory is untouched. *)
Theorem server_read_after_write sip sport s w r buf :
  srv_inv sip sport s → addr_ok w → addr_ok r → cmd w = WRITE_CMD → cmd r = READ_CMD →
  paddr r = paddr w → args r = len buf → Forall byte_ok buf → len buf <= MAX_PAYLOAD →
  mapped (memory s) (paddr w) (len buf) →
  ∃ s1 s2 f1 f2, process_request w buf (len buf) s = Ok tt s1 ∧
    process_request r [] 0 s1 = Ok tt s2 ∧
    sent s2 = sent s ++ [f1; f2] ∧ slice f1 OFF_DATA 0 = [] ∧ slice f2 OFF_DATA (len buf) = buf ∧
    ∀ x, ¬ (paddr w <= x < paddr w + len buf) → memory s2 !! x = memory s !! x.
Proof.
  intros Hi Hw Hr Ew Er Ep Ea Hb Hl Hm. pose proof (len_nonneg buf). pose proof offs.
  unfold MAX_PAYLOAD in *.
  assert (slice buf 0 (len buf) = buf) as Esl.
  { unfold slice. rewrite drop_0. apply take_ge. unfold len. lia. }
  assert (wp (process_request w buf (len buf)) s (λ _ s1,
    effect sip sport s s1 (stored_at (memory s) (paddr w) buf) (blocks s)
      (Some (ret_addr (sin6_addr (target_ip s)) (cmd w) (paddr w), [])))) as Hw1.
  { assert (process_request w buf (len buf) = write_mem buf w (len buf)) as ->
      by (unfold process_request; by rewrite Ew).
    pose proof (wp_write_mem sip sport s buf w (len buf) Hi Hw ltac:(lia) Hb Hm) as Hx.
    by rewrite Esl in Hx. }
  apply wp_ok in Hw1 as ([] & s1 & E1 & [Hi1 Hm1 _ (f1 & Hs1 & Hf1)]).
  assert (wp (process_request r [] 0) s1 (λ _ s2,
    effect sip sport s1 s2 (λ x, memory s1 !! x) (blocks s1)
      (Some (ret_addr (sin6_addr (target_ip s1)) (cmd r) (paddr r), buf)))) as Hw2.
  { assert (process_request r [] 0 = read_mem r) as -> by (unfold process_request; by rewrite Er).
    apply wp_read_mem; try done.
    - rewrite Ea. apply u16_small. lia.
    - intros i Hii. rewrite Hm1, Ep. unfold stored_at. rewrite decide_True by lia. f_equal. lia. }
  apply wp_ok in Hw2 as ([] & s2 & E2 & [Hi2 Hm2 _ (f2 & Hs2 & Hf2)]).
  exists s1, s2, f1, f2. split_and!; [done|done| |exact (fr_data _ _ _ _ Hf1)|exact (fr_data _ _ _ _ Hf2)|].
  - by rewrite Hs2, Hs1, <-app_assoc.
  - intros x Hx. rewrite Hm2, Hm1. unfold stored_at. by rewrite decide_False.
Qed.
End Servers.

(** ** The client library, over any servers that keep the contract *)
Section Clients.
Context `{Config} `{!Calloc} {W : Type} `{!ClientNet W} `{!RemoteHosts W}.
Implicit Types (c : client W).
Abbreviation mem_of c := (rh_mem (c_net c)).
Abbreviation blocks_of c := (rh_blocks (c_net c)).

(** C8: [read_rmem] of an address returns what [write_rmem] wrote to it, at
    the front of the buffer, and the writes of other addresses and servers
    in between do not matter as long as they stay out of the range. *)
Theorem read_rmem_after_write_rmem c i a d j b e buf :
  client_inv c → addr_in i a → len d <= MAX_PAYLOAD → Forall byte_ok d →
  mapped (mem_of c i) (paddr a) (len d) →
  addr_in j b → len e <= MAX_PAYLOAD → Forall byte_ok e → mapped (mem_of c j) (paddr b) (len e) →
  (i = j → apart (paddr a) (len d) (paddr b) (len e)) → len d <= len buf →
  ∃ c1 c2 c3 a1 a3 b2 l,
    write_rmem a d (len d) c = Ok a1 c1 ∧ write_rmem b e (len e) c1 = Ok b2 c2 ∧
    read_rmem a1 buf (len d) c2 = Ok (a3, l, len d) c3 ∧
    take (Z.to_nat (len d)) l = d ∧ drop (Z.to_nat (len d)) l = drop (Z.to_nat (len d)) buf ∧
    client_inv c3.
Proof.
  intros Hc Ha Hl Hb Hm Hb' Hle Hbe Hme Hap Hbuf. pose proof (len_nonneg d). pose proof offs.
  unfold MAX_PAYLOAD in *.
  assert (wp (write_rmem a d (len d)) c (λ a1 c1, a1 = set_cmd WRITE_CMD a ∧ client_inv c1 ∧
    (∀ x, mem_of c1 i !! x = stored_at (mem_of c i) (paddr a) d x) ∧ others_same i c c1)) as Hw1.
  { by eapply (wp_write_rmem c i). }
  apply wp_ok in Hw1 as (a1 & c1 & E1 & -> & Hc1 & Hm1 & Ho1).
  assert (wp (write_rmem b e (len e)) c1 (λ _ c2, client_inv c2 ∧
    (∀ x, mem_of c2 j !! x = stored_at (mem_of c1 j) (paddr b) e x) ∧ others_same j c1 c2)) as Hw2.
  { eapply (wp_write_rmem c1 j); try done.
    intros x Hx. destruct (decide (j = i)) as [->|Hne]; [|by destruct (Ho1 j Hne) as [-> _]; apply Hme].
    rewrite Hm1. unfold stored_at. case_decide; [apply idx_is_Some; lia|by apply Hme]. }
  apply wp_ok in Hw2 as (b2 & c2 & E2 & Hc2 & Hm2 & Ho2).
  assert (∀ x, mem_of c2 i !! x = if decide (paddr a <= x < paddr a + len d)
    then idx d (x - paddr a) else mem_of c2 i !! x) as Hm3.
  { intros x. destruct (decide _) as [Hx|]; [|done]. destruct (decide (i = j)) as [->|Hne].
    - rewrite Hm2. unfold stored_at at 1. rewrite decide_False by (destruct (Hap eq_refl); lia).
      rewrite Hm1. unfold stored_at. by rewrite decide_True.
    - destruct (Ho2 i Hne) as [-> _]. rewrite Hm1. unfold stored_at. by rewrite decide_True. }
  assert (wp (read_rmem (set_cmd WRITE_CMD a) buf (len d)) c2 (λ r c3, client_inv c3 ∧ r.2 = len d ∧
    take (Z.to_nat (len d)) r.1.2 = d ∧
    drop (Z.to_nat (len d)) r.1.2 = drop (Z.to_nat (len d)) buf)) as Hr.
  { destruct Ha as (Hok & ? & ?). eapply (wp_read_rmem c2 i); try done.
    - split_and!; [|done|done]. by apply addr_ok_cmd; [|cmd_range].
    - lia.
    - intros x Hx. cbn [paddr set_cmd] in Hx. rewrite Hm3, decide_True by done. apply idx_is_Some. lia.
    - intros c3 l Hc3 _ _ _ _ _ _ Htk Hdr. split_and!; [done|done| |done]. cbn [fst snd].
      rewrite Htk. apply rd_bytes_eq; [done|]. intros k Hk. cbn [paddr set_cmd].
      rewrite Hm3, decide_True by lia. f_equal. lia. }
  apply wp_ok in Hr as ([[a3 l] n] & c3 & E3 & Hc3 & Hn & Ht & Hd). simpl in *. subst n.
  exists c1, c2, c3, (set_cmd WRITE_CMD a), a3, b2, l. done.
Qed.

(** What [allocate_bulk] got: nothing when the pointer is NULL. *)
Definition in_alloc (a : ip6_memaddr) (n x : Z) : Prop := paddr a ≠ 0 ∧ paddr a <= x < paddr a + n.

(** C26: Two bulk allocations at a server give zeroed ranges of the requested
    number of bytes (or NULL) that do not meet, and what was allocated before
    is in neither of them and keeps its content. *)
Theorem allocations_are_fresh c i srv n m :
  client_inv c → subid (sin6_addr (c_target c)) = i → rh_server i = Some srv →
  addr_ok (sin6_addr (c_target c)) → 0 < n < 2 ^ 64 → 0 < m < 2 ^ 64 →
  ∃ c1 c2 a b, allocate_bulk n c = Ok a c1 ∧ allocate_bulk m c1 = Ok b c2 ∧
    (∀ x, ¬ (in_alloc a n x ∧ in_alloc b m x)) ∧
    (∀ x, in_alloc a n x ∨ in_alloc b m x → mem_of c2 i !! x = Some 0) ∧
    (∀ x, is_Some (mem_of c i !! x) → mem_of c2 i !! x = mem_of c i !! x ∧
       ¬ in_alloc a n x ∧ ¬ in_alloc b m x).
Proof.
  intros Hc Hsub Hs Ha Hn Hm.
  assert (∀ c k, client_inv c → subid (sin6_addr (c_target c)) = i →
    addr_ok (sin6_addr (c_target c)) → 0 < k < 2 ^ 64 →
    wp (allocate_bulk k) c (λ a c', client_inv c' ∧ c_target c' = srv ∧
      (∀ x, in_alloc a k x → mem_of c i !! x = None) ∧
      ∀ x, (in_alloc a k x → mem_of c' i !! x = Some 0) ∧
           (¬ in_alloc a k x → mem_of c' i !! x = mem_of c i !! x))) as Halloc.
  { clear c n m Hc Hsub Ha Hn Hm. intros c k Hc Hsub Ha Hk.
    eapply (wp_allocate_bulk c i srv); try done.
    intros c' ret Hc' Hm' _ _ Ht _ _ _ Hp _. unfold in_alloc. rewrite Hp.
    pose proof (rh_wf _ i (ci_net _ Hc) (ex_intro _ srv Hs)) as Hwf. split_and!; [done|done| |].
    - intros x [Hnz Hx]. destruct (mem_of c i !! x) as [y|] eqn:E; [|done]. exfalso.
      assert (owned (blocks_of c i) x) as (b & l & Eb & Hb) by (apply (mw_dom _ _ Hwf); by eexists).
      destruct (calloc_addr_ok (blocks_of c i) k) as [|(_ & _ & Hap)]; [lia|done|].
      destruct (Hap b l Eb); lia.
    - intros x. rewrite Hm'. split; intros Hx; [by rewrite decide_True|by rewrite decide_False]. }
  pose proof (Halloc c n Hc Hsub Ha Hn) as (a & c1 & E1 & Hc1 & Ht1 & Hf1 & Hm1)%wp_ok.
  pose proof (Halloc c1 m Hc1) as Hb. rewrite Ht1 in Hb.
  destruct (proj1 (wp_ok _ _ _) (Hb (rh_subid _ _ Hs) (rh_addr _ _ Hs) Hm))
    as (b & c2 & E2 & _ & _ & Hf2 & Hm2).
  assert (∀ x, in_alloc a n x → ¬ in_alloc b m x) as Hdis.
  { intros x Hx Hy. apply Hf2 in Hy. by rewrite (proj1 (Hm1 x) Hx) in Hy. }
  exists c1, c2, a, b. split_and!; [done|done|by intros x [? ?]; eapply Hdis| |].
  - intros x [Hx|Hx]; [|by apply Hm2]. rewrite (proj2 (Hm2 x)) by auto. by apply Hm1.
  - intros x Hx. assert (¬ in_alloc a n x) as Hna by (intros Hy; rewrite (Hf1 x Hy) in Hx; by destruct Hx).
    assert (¬ in_alloc b m x) as Hnb.
    { intros Hy. apply Hf2 in Hy. rewrite (proj2 (Hm1 x) Hna) in Hy. rewrite Hy in Hx. by destruct Hx. }
    split_and!; [|done|done]. by rewrite (proj2 (Hm2 x) Hnb), (proj2 (Hm1 x) Hna).
Qed.

End Clients.

(** ** Paging to remote memory *)
Section RemotePaging.
Context `{Config} `{!Calloc} `{!Malloc} {W : Type} `{!ClientNet W} `{!RemoteHosts W}.
Hypothesis Hone : BLOCK_SIZE = 1.
Lemma one_payload : BLOCK_SIZE <= MAX_PAYLOAD.
Proof. by rewrite Hone. Qed.
#[local] Instance rmem_backend : BlockDev (rmem W) := rmem_dev one_payload.

(** C2: Paging to remote memory is transparent: with the block size of
    types.h, on servers that keep the contract and have room, [rmem_allocate]
    gives a store of zeroes spread over the hosts, every program of loads and
    stores on the mapping sees a flat memory of zeroes, and after a flush the
    servers hold the program's final memory. *)
Theorem remote_paging_is_flat (rand : Z → Z) c garbage np nf n policy ops :
  client_inv c → 0 < n <= np → n <= 256 → np < 2 ^ 31 → 0 < nf < 2 ^ 64 → 0 <= policy <= 4 →
  (∀ i, 0 <= i < n → ∃ a, idx (hostList c) i = Some a ∧ addr_ok a ∧ is_Some (rh_server (subid a))) →
  (∀ i j a b, idx (hostList c) i = Some a → idx (hostList c) j = Some b → subid a = subid b → i = j) →
  (∀ i a m, idx (hostList c) i = Some a → 0 < m <= np →
     calloc_addr (rh_blocks (c_net c) (subid a)) m ≠ 0) →
  Forall (λ o, 0 <= op_addr o < np) ops → 2 * len ops + 1 < 2 ^ 31 →
  ∃ d (s1 s2 : vmem (rmem W)),
    rmem_allocate np n garbage c = Ok tt d ∧ (∀ p, 0 <= p < np → rmem_content d p = [0]) ∧
    run (handler_of rand policy) ops (new_vmem np nf d policy) =
      Ok (flat_run ops (rmem_content d)).1 s1 ∧
    page_table_flush s1 = Ok tt s2 ∧
    ∀ p, 0 <= p < np → rmem_content (dev (vc s2)) p = (flat_run ops (rmem_content d)).2 p.
Proof.
  intros Hc Hn H256 Hnp Hnf Hpol Hhosts Hdist Hroom Hops Hlen.
  assert (wp (fill_rmem garbage) (MkRmem [] BLOCK_SIZE np n c)
    (λ _ d, rmem_ok d ∧ rm_nblocks d = np ∧ ∀ p, 0 <= p < np → rmem_content d p = [0])) as Hw.
  { eapply wp_mono; [eapply (wp_fill_rmem Hone np n (hostList c) Hn H256 ltac:(lia) Hhosts Hdist
      (rh_blocks (c_net c))); done|]. intros _ d (Hd & Hb & Hz & _). by split_and!. }
  apply wp_ok in Hw as ([] & d & E & Hd & Hb & Hz).
  destruct (paging_flat rand np nf policy d ops) as (s1 & s2 & Hr & Hf & Hp); try done.
  { split; [lia|done|exact Hd|exact Hb]. }
  { by rewrite Hone, Z.mul_1_r. }
  exists d, s1, s2. split_and!; [done|done|done|done|]. intros p Hpr. by apply Hp.
Qed.
End RemotePaging.

(** ** Witnesses, on the network of [TestBed] *)
Section NetWitnesses.
#[local] Existing Instance types_h.

Definition write3 : pkt_rqst := PktRqst (Memaddr 1 WRITE_CMD 0 4096) src_port [1; 2; 3] 3.
Lemma write3_ok : pkt_ok write3.
Proof. split; simpl; [split; simpl; cmd_range|done|done|done|repeat constructor; done]. Qed.

Lemma batch_sends_every_packet_witness :
  ∃ fs t', cooked_batched_send [write3; write3] [0; 2] (boot_tx 0) = Ok tt t' ∧
    k_wire (kernel t') = fs ∧
    Forall2 (λ f p, frame_of f (enc_addr (host 0)) src_port (in_batch [0; 2] p)) fs [write3; write3].
Proof.
  destruct (batch_sends_every_packet (enc_addr (host 0)) src_port [0; 2] [write3; write3] (boot_tx 0))
    as (fs & t' & E & Hk & Hf & _).
  - by apply boot_tx_ok.
  - repeat constructor; apply write3_ok.
  - repeat constructor; done.
  - done.
  - exists fs, t'. split; [exact E|]. split; [|exact Hf]. rewrite Hk. by vm_compute.
Defined.

Lemma sent_packet_is_received_witness :
  ∃ f t' got r'', cooked_send write3 (boot_tx 0) = Ok tt t' ∧
    k_wire (kernel t') = k_wire (kernel (boot_tx 0)) ++ [f] ∧
    simple_epoll_rcv (Some [9; 9; 9; 9]) true (deliver f idle_rx) = Ok got r'' ∧
    r_size got = 3 ∧ r_remote got = Some (dst_addr write3).
Proof.
  destruct (sent_packet_is_received (enc_addr (host 0)) src_port write3 (boot_tx 0))
    as (f & t' & E & Hk & Hr).
  - by apply boot_tx_ok.
  - apply write3_ok.
  - apply len_enc_addr.
  - done.
  - destruct (deliver_arrival idle_rx f [] idle_rx_ok) as (r' & Harr & _).
    destruct (Hr _ _ (Some [9; 9; 9; 9]) true Harr) as (got & r'' & E' & Hs & _ & Hrem & _); [discriminate|done|].
    exists f, t', got, r''. split_and!; assumption.
Defined.

Lemma process_request_refines_spec_witness :
  ∃ s', process_request alloc4 (le 8 4) 8 (boot_server 1) = Ok tt s' ∧ blocks s' = {[ 4096 := 4 ]}.
Proof.
  destruct (process_request_refines_spec (enc_addr (host 1)) src_port (boot_server 1) alloc4 (le 8 4) 8)
    as (s' & E & He).
  - by apply boot_server_ok.
  - split; simpl; cmd_range.
  - apply le_bytes.
  - done.
  - exists s'. split; [exact E|]. exact (ef_blocks _ _ _ _ _ _ _ He).
Defined.

Lemma server_read_after_write_witness :
  let w := Memaddr 1 WRITE_CMD 0 4096 in let r := Memaddr 1 READ_CMD 3 4096 in
  ∃ s1 s2 f1 f2, process_request w [7; 8; 9] 3 server4 = Ok tt s1 ∧
    process_request r [] 0 s1 = Ok tt s2 ∧ sent s2 = sent server4 ++ [f1; f2] ∧
    slice f2 OFF_DATA 3 = [7; 8; 9].
Proof.
  intros w r. destruct server4_ok as [Hi Hm].
  destruct (server_read_after_write (enc_addr (host 1)) src_port server4 w r [7; 8; 9])
    as (s1 & s2 & f1 & f2 & E1 & E2 & Hs & _ & Hf & _).
  - exact Hi.
  - split; simpl; cmd_range.
  - split; simpl; cmd_range.
  - reflexivity.
  - reflexivity.
  - reflexivity.
  - reflexivity.
  - repeat constructor; done.
  - done.
  - intros x Hx. apply Hm. simpl in Hx. change (len [7; 8; 9]) with 3 in Hx. lia.
  - exists s1, s2, f1, f2. split_and!; assumption.
Defined.

Lemma read_rmem_after_write_rmem_witness :
  let a := Memaddr 1 0 0 4096 in let b := Memaddr 1 0 0 4098 in
  ∃ c1 c2 c3 a1 a3 b2 l, write_rmem a [5; 6] 2 client4 = Ok a1 c1 ∧
    write_rmem b [7; 8] 2 c1 = Ok b2 c2 ∧ read_rmem a1 [0; 0] 2 c2 = Ok (a3, l, 2) c3 ∧
    take 2 l = [5; 6].
Proof.
  intros a b. destruct client4_ok as [Hi Hm].
  destruct (read_rmem_after_write_rmem client4 1 a [5; 6] 1 b [7; 8] [0; 0])
    as (c1 & c2 & c3 & a1 & a3 & b2 & l & E1 & E2 & E3 & Ht & _).
  - exact Hi.
  - apply addr_in_1; [split; simpl; lia|done].
  - done.
  - repeat constructor; done.
  - intros x Hx. apply Hm. simpl in Hx. change (len [5; 6]) with 2 in Hx. lia.
  - apply addr_in_1; [split; simpl; lia|done].
  - done.
  - repeat constructor; done.
  - intros x Hx. apply Hm. simpl in Hx. change (len [7; 8]) with 2 in Hx. lia.
  - intros _. left. by vm_compute.
  - done.
  - exists c1, c2, c3, a1, a3, b2, l. split_and!; assumption.
Defined.

Lemma allocations_are_fresh_witness :
  ∃ c1 c2 a b, allocate_bulk 4 (client0 1) = Ok a c1 ∧ allocate_bulk 2 c1 = Ok b c2 ∧
    (∀ x, ¬ (in_alloc a 4 x ∧ in_alloc b 2 x)).
Proof.
  destruct (allocations_are_fresh (client0 1) 1 (MkSock (host 1) src_port) 4 2)
    as (c1 & c2 & a & b & E1 & E2 & Hd & _).
  - apply client0_ok.
  - reflexivity.
  - reflexivity.
  - apply host_ok. lia.
  - lia.
  - lia.
  - exists c1, c2, a, b. split_and!; assumption.
Defined.


#[local] Instance rmem_world : BlockDev (rmem world) := rmem_dev (one_payload eq_refl).
Lemma remote_paging_is_flat_witness :
  ∃ d (s1 s2 : vmem (rmem world)),
    rmem_allocate 3 2 (host 0) (client0 1) = Ok tt d ∧ (∀ p, 0 <= p < 3 → rmem_content d p = [0]) ∧
    run (handler_of rand0 LRU) ops3 (new_vmem 3 1 d LRU) = Ok (flat_run ops3 (rmem_content d)).1 s1.
Proof.
  destruct (remote_paging_is_flat (W := world) (eq_refl : @BLOCK_SIZE types_h = 1) rand0 (client0 1) (host 0) 3 1 2 LRU ops3)
    as (d & s1 & s2 & E1 & Hz & E2 & _).
  - apply client0_ok.
  - lia.
  - lia.
  - lia.
  - lia.
  - done.
  - intros i Hi. assert (i = 0 ∨ i = 1) as [->| ->] by lia; eexists;
      (split_and!; [reflexivity|apply host_ok; simpl; lia|eexists; reflexivity]).
  - intros i j a b Hi Hj Hs. pose proof (idx_Some_range _ _ _ Hi) as Ri.
    pose proof (idx_Some_range _ _ _ Hj) as Rj. change (len _) with 2 in Ri, Rj.
    assert (i = 0 ∨ i = 1) as [->| ->] by lia; assert (j = 0 ∨ j = 1) as [->| ->] by lia;
      injection Hi as <-; injection Hj as <-; done.
  - intros i a m Hi Hm. pose proof (idx_Some_range _ _ _ Hi) as Ri. change (len _) with 2 in Ri.
    assert (rh_blocks (c_net (client0 1)) (subid a) = ∅) as ->.
    { assert (i = 0 ∨ i = 1) as [->| ->] by lia; injection Hi as <-; reflexivity. }
    unfold calloc_addr, bump_calloc. change (top_of ∅) with 4096.
    rewrite (proj2 (Z.leb_le _ _)) by lia. done.
  - repeat constructor; simpl; lia.
  - done.
  - exists d, s1, s2. split_and!; assumption.
Defined.
End NetWitnesses.
