(* ===== verification/Raid.v ===== *)
(** * Striped remote memory with parity: src/ip6/lib/vmem/rrmem.c

    [rrmem_write] cuts a block into stripes, one per host, with an xor parity
    stripe for RAID 4 and 5; [rrmem_read] collects the stripes, repairs a
    missing one from the parity and puts the block together. The hosts' blocks
    are part of the state; what [rcv_udp6_raw] returns to
    [read_raid_mem]/[write_raid_mem] of src/ip6/lib/client_lib.c is a list of
    events, one per call: a reply of some host, or a timeout. *)

From S2P Require Import Prelude Types Bytes.

Definition MAX_HOSTS : Z := 5.

(** ** Parity *)
Section Parity.
Context {S : Type}.

(** [for (j = 0; j < stripes; j++)] of [parity45]; [paritybyte] is a [char]. *)
Fixpoint parity_col (n : nat) (data : list Z) (alloc r i j base paritybyte : Z) : M S Z :=
  match n with
  | O => mret paritybyte
  | Datatypes.S n =>
      x ← rd data (i + base);
      parity_col n data alloc r i (j + 1) (base + alloc + (if j <? r then 1 else 0))
        (schar (Z.lxor paritybyte x))
  end.
Fixpoint parity_rows (n : nat) (data : list Z) (alloc r stripes i : Z) (parity : list Z)
    : M S (list Z) :=
  match n with
  | O => mret parity
  | Datatypes.S n =>
      b ← parity_col (Z.to_nat stripes) data alloc r i 0 0 0;
      parity ← wr parity i (u8 b);
      parity_rows n data alloc r stripes (i + 1) parity
  end.
(** The last byte, of the longer stripes only. *)
Fixpoint parity_last (n : nat) (data : list Z) (alloc base paritybyte : Z) : M S Z :=
  match n with
  | O => mret paritybyte
  | Datatypes.S n =>
      x ← rd data base;
      parity_last n data alloc (base + alloc + 1) (schar (Z.lxor paritybyte x))
  end.
Definition parity45 (data : list Z) (size stripes : Z) (parity : list Z) : M S (list Z) :=
  if stripes =? 0 then err DivByZero else
  let alloc := Z.quot size stripes in
  let r := Z.rem size stripes in
  parity ← parity_rows (Z.to_nat alloc) data alloc r stripes 0 parity;
  if 0 <? r then
    b ← parity_last (Z.to_nat r) data alloc alloc 0;
    wr parity alloc (u8 b)
  else mret parity.

(** The xor of byte [i] of the stripes [j < n] other than [missing]. *)
Fixpoint repair_col (n : nat) (stripes : list (list Z)) (missing i j repairbyte : Z) : M S Z :=
  match n with
  | O => mret repairbyte
  | Datatypes.S n =>
      (if j =? missing then mret repairbyte
       else row ← aload (λ _, stripes) j; x ← rd row i; mret (schar (Z.lxor repairbyte x)))
      ≫= repair_col n stripes missing i (j + 1)
  end.
(** The buffer to repair is row [missing] of the array of stripes. *)
Fixpoint repair_rows (n : nat) (stripes : list (list Z)) (p missing numStripes i : Z)
    : M S (list (list Z)) :=
  match n with
  | O => mret stripes
  | Datatypes.S n =>
      b ← repair_col (Z.to_nat numStripes) stripes missing i 0 0;
      prow ← aload (λ _, stripes) p;
      y ← rd prow i;
      row ← aload (λ _, stripes) missing;
      row ← wr row i (u8 (Z.lxor b y));
      repair_rows n (upd stripes missing row) p missing numStripes (i + 1)
  end.
(** [p] is the row of the parity. *)
Definition repairStripeFromParity45 (stripes : list (list Z)) (p missing numStripes size : Z)
    : M S (list (list Z)) :=
  if numStripes =? 0 then err DivByZero else
  let alloc := Z.quot size numStripes in
  let r := Z.rem size numStripes in
  stripes ← repair_rows (Z.to_nat alloc) stripes p missing numStripes 0;
  if missing <? r then
    b ← repair_col (Z.to_nat r) stripes missing alloc 0 0;
    prow ← aload (λ _, stripes) p;
    y ← rd prow alloc;
    row ← aload (λ _, stripes) missing;
    row ← wr row alloc (u8 (Z.lxor b y));
    mret (upd stripes missing row)
  else mret stripes.

(** [paritybyte] is compared as a signed [char] with an unsigned byte. *)
Fixpoint check_rows (n : nat) (stripes : list (list Z)) (parity : list Z) (numStripes i : Z)
    : M S bool :=
  match n with
  | O => mret true
  | Datatypes.S n =>
      b ← repair_col (Z.to_nat numStripes) stripes (-1) i 0 0;
      y ← rd parity i;
      if b =? y then check_rows n stripes parity numStripes (i + 1) else mret false
  end.
Definition checkParity45 (stripes : list (list Z)) (numStripes : Z) (parity : list Z) (size : Z)
    : M S bool :=
  if numStripes =? 0 then err DivByZero else
  let alloc := Z.quot size numStripes in
  let r := Z.rem size numStripes in
  ok ← check_rows (Z.to_nat alloc) stripes parity numStripes 0;
  if negb ok then mret false else
  if 0 <? r then
    b ← repair_col (Z.to_nat r) stripes (-1) alloc 0 0;
    y ← rd parity alloc;
    mret (b =? y)
  else mret true.
End Parity.

(** ** The store *)

(** [rr_store h b] is block [b] of host [h]: what the host's memory at
    [rsmem[h].memList[b]] holds. *)
Record rrmem := MkRr {
  raid : Z;
  rr_block_size : Z;
  rr_nblocks : Z;
  rr_hosts : Z;
  rr_store : list (list (list Z));
  wbufs : list (list Z);
  rbufs : list (list Z);
}.

Section Rrmem.
Context `{Config}.

Definition put_store (x : list (list (list Z))) (r : rrmem) :=
  MkRr (raid r) (rr_block_size r) (rr_nblocks r) (rr_hosts r) x (wbufs r) (rbufs r).
Definition put_wbufs (x : list (list Z)) (r : rrmem) :=
  MkRr (raid r) (rr_block_size r) (rr_nblocks r) (rr_hosts r) (rr_store r) x (rbufs r).
Definition put_rbufs (x : list (list Z)) (r : rrmem) :=
  MkRr (raid r) (rr_block_size r) (rr_nblocks r) (rr_hosts r) (rr_store r) (wbufs r) x.

Definition zero_bufs : list (list Z) :=
  replicate (Z.to_nat MAX_HOSTS) (replicate (Z.to_nat BLOCK_SIZE) 0).

(** A reply: the host's index and the bytes received; [None] is a timeout. *)
Abbreviation event := (option (Z * list Z)).

(** The receive loop of [read_raid_mem] and [write_raid_mem]; [bufs] is the
    array the replies are copied to. *)
Fixpoint recv_loop (events : list event) (i hosts needed : Z) (bufs : list (list Z))
    (found : list Z) : M rrmem (list (list Z) * list Z) :=
  if hosts <=? i then mret (bufs, found) else
  match events with
  | [] => err Hang
  | None :: events =>
      if needed <=? i then mret (bufs, found)
      else recv_loop events i hosts needed bufs found
  | Some (host, rx_buf) :: events =>
      row ← aload (λ _, bufs) host;
      row ← copy row 0 rx_buf 0 BLOCK_SIZE;
      recv_loop events (i + 1) hosts needed (upd bufs host row) (upd found host 1)
  end.

(** The first host that did not answer, or -1. *)
Fixpoint first_missing (n : nat) (i : Z) (found : list Z) : M rrmem Z :=
  match n with
  | O => mret (-1)
  | S n => f ← rd found i; if f =? 0 then mret i else first_missing n (i + 1) found
  end.

(** Every host is asked for its block; the replies are [events]. *)
Definition read_raid_mem (events : list event) (hosts needed : Z) : M rrmem Z :=
  bufs ← gets rbufs;
  '(bufs, found) ← recv_loop events 0 hosts needed bufs (replicate (Z.to_nat MAX_HOSTS) 0);
  modify (put_rbufs bufs);;
  first_missing (Z.to_nat hosts) 0 found.

(** Host [i] receives [payload[i]], unless the request is [lost]; the
    acknowledgements are [events]. *)
Definition send_row (lost : Z → bool) (block i : Z) : M rrmem unit :=
  row ← aload wbufs i;
  blocks ← aload rr_store i;
  _ ← aload (λ _, blocks) block;
  when (negb (lost i)) (astore rr_store put_store i (upd blocks block row)).
Definition write_raid_mem (lost : Z → bool) (events : list event) (block hosts needed : Z)
    : M rrmem unit :=
  for_range 0 hosts (send_row lost block);;
  bufs ← gets wbufs;
  '(bufs, _) ← recv_loop events 0 hosts needed bufs (replicate (Z.to_nat MAX_HOSTS) 0);
  modify (put_wbufs bufs).

(** The stripe loop of [rrmem_write]: hosts [i .. i + n), [div] stripes, the
    host [skip] left out. *)
Fixpoint split_loop (n : nat) (data : list Z) (div : Z) (skip : option Z) (i alloc base : Z)
    : M rrmem unit :=
  match n with
  | O => mret tt
  | S n =>
      if bool_decide (skip = Some i) then split_loop n data div skip (i + 1) alloc base else
      let t := match skip with Some k => if k <? i then 1 else 0 | None => 0 end in
      bs ← gets rr_block_size;
      let alloc := if Z.rem bs div <=? i - t then Z.quot bs div else alloc in
      row ← aload wbufs i;
      row ← copy row 0 data base alloc;
      astore wbufs put_wbufs i row;;
      split_loop n data div skip (i + 1) alloc (base + alloc)
  end.
(** [block_size / div], rounded up. *)
Definition first_alloc (bs div : Z) : Z :=
  if 0 <? Z.rem bs div then Z.quot bs div + 1 else Z.quot bs div.
(** The parity of [data] into row [p]. *)
Definition parity_row (data : list Z) (bs stripes p : Z) : M rrmem unit :=
  row ← aload wbufs p;
  row ← parity45 data bs stripes row;
  astore wbufs put_wbufs p row.

Definition rrmem_write (lost : Z → bool) (events : list event) (block : Z) (data : list Z) : M rrmem unit :=
  modify (put_wbufs zero_bufs);;
  nb ← gets rr_nblocks;
  if (block <? 0) || (nb <=? block) then err Abort else
  level ← gets raid;
  h ← gets rr_hosts;
  bs ← gets rr_block_size;
  if level =? 0 then
    guard_or ((2 <=? h) && (h <=? MAX_HOSTS)) AssertFail;;
    split_loop (Z.to_nat h) data h None 0 (first_alloc bs h) 0;;
    write_raid_mem lost events block h h
  else if level =? 4 then
    guard_or ((2 <=? h) && (h <=? MAX_HOSTS)) AssertFail;;
    parity_row data bs (h - 1) (h - 1);;
    split_loop (Z.to_nat (h - 1)) data (h - 1) None 0 (first_alloc bs (h - 1)) 0;;
    write_raid_mem lost events block h (h - 1)
  else if level =? 5 then
    guard_or ((2 <=? h) && (h <=? MAX_HOSTS)) AssertFail;;
    parity_row data bs (h - 1) (Z.rem block h);;
    split_loop (Z.to_nat h) data (h - 1) (Some (Z.rem block h)) 0 (first_alloc bs (h - 1)) 0;;
    write_raid_mem lost events block h (h - 1)
  else err (Exit 0).

(** The stripe loop of [rrmem_read], on the buffer [data]. *)
Fixpoint join_loop (n : nat) (data : list Z) (div : Z) (skip : option Z) (i alloc base : Z)
    : M rrmem (list Z) :=
  match n with
  | O => mret data
  | S n =>
      if bool_decide (skip = Some i) then join_loop n data div skip (i + 1) alloc base else
      let t := match skip with Some k => if k <? i then 1 else 0 | None => 0 end in
      bs ← gets rr_block_size;
      let alloc := if Z.rem bs div <=? i - t then Z.quot bs div else alloc in
      row ← aload rbufs i;
      data ← copy data base row 0 alloc;
      join_loop n data div skip (i + 1) alloc (base + alloc)
  end.
Definition repair (p missing stripes bs : Z) : M rrmem unit :=
  bufs ← gets rbufs;
  bufs ← repairStripeFromParity45 bufs p missing stripes bs;
  modify (put_rbufs bufs).

Definition rrmem_read (events : list event) (block : Z) (data : list Z) : M rrmem (list Z) :=
  modify (put_rbufs zero_bufs);;
  nb ← gets rr_nblocks;
  if (block <? 0) || (nb <=? block) then err Abort else
  level ← gets raid;
  h ← gets rr_hosts;
  bs ← gets rr_block_size;
  if level =? 0 then
    guard_or ((2 <=? h) && (h <=? MAX_HOSTS)) AssertFail;;
    missing ← read_raid_mem events h h;
    if negb (missing =? -1) then err (Exit 0) else
    join_loop (Z.to_nat h) data h None 0 (first_alloc bs h) 0
  else if level =? 4 then
    guard_or ((2 <=? h) && (h <=? MAX_HOSTS)) AssertFail;;
    missing ← read_raid_mem events h (h - 1);
    (if (missing =? -1) || (missing =? h - 1) then mret tt
     else repair (h - 1) missing (h - 1) bs);;
    join_loop (Z.to_nat (h - 1)) data (h - 1) None 0 (first_alloc bs (h - 1)) 0
  else if level =? 5 then
    guard_or ((2 <=? h) && (h <=? MAX_HOSTS)) AssertFail;;
    missing ← read_raid_mem events h (h - 1);
    (if (missing =? -1) || (missing =? Z.rem block h) then mret tt
     else repair (Z.rem block h) missing (h - 1) bs);;
    join_loop (Z.to_nat h) data (h - 1) (Some (Z.rem block h)) 0 (first_alloc bs (h - 1)) 0
  else mret data.

(** [rrmem_allocate]: RAID 4; [garbage] is what the hosts' memory holds. *)
Definition rrmem_allocate (nblocks hosts : Z) (store : list (list (list Z))) : rrmem :=
  MkRr 4 BLOCK_SIZE nblocks hosts store zero_bufs zero_bufs.
Definition rrmem_blocks (r : rrmem) : Z := rr_nblocks r.
End Rrmem.
