(* ===== verification/RaidProofs.v ===== *)
(** * Striping and parity are inverse to each other

    The specifications of the loops of src/ip6/lib/vmem/rrmem.c: the stripes
    [rrmem_write] makes, the parity [parity45] computes, what
    [repairStripeFromParity45] restores and how [rrmem_read] joins the
    stripes. [off n j] and [sz n j] are the offset and the size of stripe [j]
    of [n] of a block. *)

From S2P Require Import Prelude Types Bytes Raid.

(** ** Xor of bytes *)

Lemma u8_land x : u8 x = Z.land x 255.
Proof. unfold u8. change 255 with (Z.ones 8). by rewrite Z.land_ones. Qed.
Lemma u8_lxor x y : u8 (Z.lxor x y) = Z.lxor (u8 x) (u8 y).
Proof.
  rewrite !u8_land. apply Z.bits_inj'. intros n Hn.
  rewrite Z.land_spec, !Z.lxor_spec, !Z.land_spec.
  by destruct (Z.testbit x n), (Z.testbit y n), (Z.testbit 255 n).
Qed.
Lemma u8_schar x : u8 (schar x) = u8 x.
Proof.
  unfold schar. destruct (u8 x <? 128); unfold u8.
  - by rewrite Z.mod_mod.
  - rewrite <-(Z_mod_plus_full (x mod 2 ^ 8 - 256) 1). rewrite <-(Z.mod_mod x (2 ^ 8)) at 2 by done.
    f_equal. lia.
Qed.
Lemma u8_byte x : byte_ok x → u8 x = x.
Proof. intros. by apply u8_small. Qed.
Lemma lxor_byte x y : byte_ok x → byte_ok y → byte_ok (Z.lxor x y).
Proof.
  intros Hx Hy. rewrite <-(u8_byte x Hx), <-(u8_byte y Hy), <-u8_lxor. apply u8_range.
Qed.

(** [xsum n f] is the xor of [f 0], ..., [f (n - 1)]. *)
Fixpoint xsum (n : nat) (f : Z → Z) : Z :=
  match n with O => 0 | S n => Z.lxor (xsum n f) (f (Z.of_nat n)) end.

Lemma xsum_byte n f : (∀ j, 0 <= j < Z.of_nat n → byte_ok (f j)) → byte_ok (xsum n f).
Proof.
  induction n as [|n IH]; intros Hf; simpl; [done|]. apply lxor_byte; [|apply Hf; lia].
  apply IH. intros j Hj. apply Hf. lia.
Qed.
Lemma xsum_ext n f g : (∀ j, 0 <= j < Z.of_nat n → f j = g j) → xsum n f = xsum n g.
Proof.
  induction n as [|n IH]; intros Hfg; simpl; [done|]. rewrite (Hfg (Z.of_nat n)) by lia.
  f_equal. apply IH. intros j Hj. apply Hfg. lia.
Qed.
(** Terms that are 0 do not count. *)
Lemma xsum_prefix n m f :
  (m <= n)%nat → (∀ j, Z.of_nat m <= j < Z.of_nat n → f j = 0) → xsum n f = xsum m f.
Proof.
  intros Hle Hz. induction n as [|n IH]; [by replace m with 0%nat by lia|].
  destruct (decide (m = S n)) as [->|]; [done|]. simpl.
  rewrite (Hz (Z.of_nat n)) by lia. rewrite Z.lxor_0_r. apply IH; [lia|].
  intros j Hj. apply Hz. lia.
Qed.
(** Leaving one term out and adding the whole sum gives that term. *)
Lemma xsum_remove n f m :
  0 <= m < Z.of_nat n →
  Z.lxor (xsum n (λ j, if j =? m then 0 else f j)) (xsum n f) = f m.
Proof.
  induction n as [|n IH]; intros Hm; [lia|]. simpl.
  destruct (Z.eqb_spec (Z.of_nat n) m) as [E|E].
  - rewrite (xsum_ext n _ f); [|intros j Hj; by rewrite (proj2 (Z.eqb_neq j m)) by lia].
    rewrite Z.lxor_0_r, <-Z.lxor_assoc, Z.lxor_nilpotent, Z.lxor_0_l. by rewrite E.
  - rewrite <-(IH ltac:(lia)). set (a := xsum n _). set (b := xsum n f). set (c := f _).
    apply Z.bits_inj'. intros k _. rewrite !Z.lxor_spec.
    by destruct (Z.testbit a k), (Z.testbit b k), (Z.testbit c k).
Qed.

(** ** The geometry of the stripes *)

Section Geometry.
Variables (bs n : Z).
Hypothesis Hbs : 0 <= bs.
Hypothesis Hn : 0 < n.

Definition sq : Z := Z.quot bs n.
Definition sr : Z := Z.rem bs n.
Definition sz (j : Z) : Z := sq + (if j <? sr then 1 else 0).
Definition off (j : Z) : Z := j * sq + Z.min j sr.

Lemma sq_sr : bs = n * sq + sr ∧ 0 <= sr < n ∧ 0 <= sq.
Proof.
  unfold sq, sr. rewrite Z.quot_div_nonneg, Z.rem_mod_nonneg by lia.
  pose proof (Z.div_mod bs n ltac:(lia)). pose proof (Z.mod_pos_bound bs n Hn).
  split_and!; [done|lia|lia|]. apply Z.div_pos; lia.
Qed.
Lemma sz_nonneg j : 0 <= sz j.
Proof. destruct sq_sr as (_ & _ & ?). unfold sz. case_match; lia. Qed.
Lemma off_0 : off 0 = 0.
Proof. destruct sq_sr as (_ & ? & _). unfold off. lia. Qed.
Lemma off_succ j : 0 <= j → off (j + 1) = off j + sz j.
Proof. unfold off, sz. intros. destruct (Z.ltb_spec j sr); lia. Qed.
Lemma off_n : off n = bs.
Proof. destruct sq_sr as (-> & ? & _). unfold off. rewrite Z.min_r by lia. lia. Qed.
Lemma off_nonneg j : 0 <= j → 0 <= off j.
Proof. destruct sq_sr as (_ & ? & ?). unfold off. intros. nia. Qed.
Lemma off_bound j : 0 <= j < n → off j + sz j <= bs.
Proof.
  intros Hj. rewrite <-off_succ by lia. rewrite <-off_n. destruct sq_sr as (_ & ? & ?).
  unfold off. assert ((j + 1) * sq <= n * sq) by nia. lia.
Qed.
Lemma sz_bound j : 0 <= j < n → sz j <= bs.
Proof. intros Hj. pose proof (off_bound j Hj). pose proof (off_nonneg j). lia. Qed.

(** Byte [i] of stripe [j], 0 beyond its end. *)
Definition W (data : list Z) (j i : Z) : Z :=
  if i <? sz j then default 0 (idx data (off j + i)) else 0.

Lemma W_byte data j i : Forall byte_ok data → byte_ok (W data j i).
Proof.
  intros Hd. unfold W. case_match; [|done]. destruct (idx data _) as [x|] eqn:E; [|done].
  simpl. unfold idx in E. case_match; [|done]. apply list_elem_of_lookup_2 in E.
  by eapply Forall_forall in Hd.
Qed.
Lemma W_in data j i :
  len data = bs → 0 <= j < n → 0 <= i < sz j → idx data (off j + i) = Some (W data j i).
Proof.
  intros Hl Hj Hi. pose proof (off_bound j Hj). pose proof (off_nonneg j ltac:(lia)).
  assert (0 <= off j + i < len data) as [x Hx]%idx_is_Some by lia.
  unfold W. rewrite (proj2 (Z.ltb_lt i _)) by lia. by rewrite Hx.
Qed.
End Geometry.

Section ParityProofs.
Context {S : Type}.
Variables (bs n : Z) (data : list Z).
Hypothesis Hbs : 0 <= bs.
Hypothesis Hn : 0 < n.
Hypothesis Hlen : len data = bs.
Hypothesis Hbytes : Forall byte_ok data.
Abbreviation q := (sq bs n).
Abbreviation r := (sr bs n).
Abbreviation W' := (W bs n data).
Implicit Type s : S.

(** The parity byte of row [i]. *)
Definition P (i : Z) : Z := xsum (Z.to_nat n) (λ j, W' j i).

Lemma u8_step pb x y : u8 pb = y → byte_ok x → u8 (schar (Z.lxor pb x)) = Z.lxor y x.
Proof. intros <- Hx. by rewrite u8_schar, u8_lxor, (u8_byte x Hx). Qed.

Lemma wp_parity_col i : 0 <= i < q → ∀ k j pb s Q,
  0 <= j → j + Z.of_nat k = n → u8 pb = xsum (Z.to_nat j) (λ j, W' j i) →
  (∀ b, u8 b = P i → Q b s) →
  wp (parity_col k data q r i j (off bs n j) pb) s Q.
Proof.
  intros Hi. induction k as [|k IH]; intros j pb s Q Hj Hk Hpb HQ; simpl.
  { rewrite wp_ret. apply HQ. unfold P. by replace (Z.to_nat n) with (Z.to_nat j) by lia. }
  rewrite wp_bind. eapply wp_rd.
  { rewrite Z.add_comm. apply W_in; try done; [lia|]. unfold sz. case_match; lia. }
  rewrite <-Z.add_assoc. change (q + (if j <? r then 1 else 0)) with (sz bs n j).
  rewrite <-off_succ by lia. apply IH; [lia|lia| |done].
  rewrite (u8_step _ _ _ Hpb) by by apply W_byte.
  replace (Z.to_nat (j + 1)) with (Datatypes.S (Z.to_nat j)) by lia. simpl.
  by rewrite Z2Nat.id by lia.
Qed.

Lemma wp_parity_rows : ∀ k i par s Q,
  0 <= i → i + Z.of_nat k = q → q <= len par →
  (∀ par', len par' = len par →
     (∀ m, idx par' m = if decide (i <= m < q) then Some (P m) else idx par m) → Q par' s) →
  wp (parity_rows k data q r n i par) s Q.
Proof.
  induction k as [|k IH]; intros i par s Q Hi Hk Hlp HQ; cbn [parity_rows].
  { rewrite wp_ret. apply HQ; [done|]. intros m. rewrite decide_False by lia. done. }
  rewrite wp_bind. replace 0 with (off bs n 0) at 2 by (apply off_0; lia).
  apply wp_parity_col; [lia|lia|lia|done|]. intros b Hb.
  rewrite wp_bind. apply wp_wr; [lia|]. apply IH; [lia|lia|by rewrite len_upd|].
  intros par' Hl' Hidx. apply HQ; [by rewrite Hl', len_upd|]. intros m. rewrite Hidx.
  destruct (decide (i + 1 <= m < q)); [by rewrite decide_True by lia|].
  rewrite idx_upd by lia. destruct (decide (i = m)) as [->|].
  - rewrite decide_True by lia. by rewrite Hb.
  - by rewrite decide_False by lia.
Qed.

Lemma wp_parity_last : ∀ k j pb s Q,
  0 <= j → j + Z.of_nat k = r → u8 pb = xsum (Z.to_nat j) (λ j, W' j q) →
  (∀ b, u8 b = P q → Q b s) →
  wp (parity_last k data q (off bs n j + q) pb) s Q.
Proof.
  destruct (sq_sr bs n Hbs Hn) as (_ & Hr & Hq).
  induction k as [|k IH]; intros j pb s Q Hj Hk Hpb HQ; simpl.
  { rewrite wp_ret. apply HQ. unfold P. rewrite Hpb. symmetry.
    rewrite Z.add_0_r in Hk. subst j. apply xsum_prefix; [lia|].
    intros j Hj'. unfold W, sz. rewrite (proj2 (Z.ltb_ge j r)) by lia.
    by rewrite (proj2 (Z.ltb_ge _ _)) by lia. }
  rewrite wp_bind. assert (sz bs n j = q + 1) as Esz.
  { unfold sz. by rewrite (proj2 (Z.ltb_lt j r)) by lia. }
  eapply wp_rd; [apply W_in; try done; lia|].
  replace (off bs n j + q + q + 1) with (off bs n (j + 1) + q)
    by (rewrite off_succ, Esz; lia).
  apply IH; [lia|lia| |done].
  rewrite (u8_step _ _ _ Hpb) by by apply W_byte.
  replace (Z.to_nat (j + 1)) with (Datatypes.S (Z.to_nat j)) by lia. simpl.
  by rewrite Z2Nat.id by lia.
Qed.

(** Beyond the longest stripe the parity is 0. *)
Lemma P_beyond i : q < i ∨ (i = q ∧ r = 0) → P i = 0.
Proof.
  destruct (sq_sr bs n Hbs Hn) as (_ & Hr & Hq). intros Hi. unfold P.
  rewrite (xsum_prefix _ 0); [done|lia|]. intros j Hj. unfold W, sz.
  rewrite (proj2 (Z.ltb_ge i _)); [done|]. case_match eqn:E; lia.
Qed.

(** [parity45] fills a zeroed buffer with the xor of the stripes. *)
Lemma wp_parity45 par s Q :
  len par = bs → (∀ i, 0 <= i < bs → idx par i = Some 0) →
  (∀ par', len par' = bs → (∀ i, 0 <= i < bs → idx par' i = Some (P i)) → Q par' s) →
  wp (parity45 data bs n par) s Q.
Proof.
  destruct (sq_sr bs n Hbs Hn) as (Ebs & Hr & Hq). intros Hlp Hz HQ. unfold parity45.
  rewrite (proj2 (Z.eqb_neq n 0)) by lia. fold q r. rewrite wp_bind.
  assert (q <= n * q) by nia.
  apply wp_parity_rows; [lia|lia|lia|]. intros p1 Hl1 H1.
  destruct (Z.ltb_spec 0 r) as [Hr0|Hr0].
  - rewrite wp_bind. replace q with (off bs n 0 + q) at 2 by (rewrite off_0; lia).
    apply wp_parity_last; [lia|lia|done|]. intros b Hb. apply wp_wr; [lia|].
    apply HQ; [by rewrite len_upd, Hl1|]. intros i Hi. rewrite idx_upd, H1 by lia.
    destruct (decide (q = i)) as [<-|]; [by rewrite Hb|].
    destruct (decide (0 <= i < q)); [done|]. rewrite Hz, P_beyond by lia. done.
  - rewrite wp_ret. apply HQ; [by rewrite Hl1|]. intros i Hi. rewrite H1.
    destruct (decide (0 <= i < q)); [done|]. rewrite Hz, P_beyond by lia. done.
Qed.
End ParityProofs.

Section RepairProofs.
Context {S : Type}.
Variables (bs n : Z) (data : list Z) (m p : Z).
Hypothesis Hbs : 0 <= bs.
Hypothesis Hn : 0 < n.
Hypothesis Hlen : len data = bs.
Hypothesis Hbytes : Forall byte_ok data.
Hypothesis Hm : 0 <= m < n.
Hypothesis Hp : p ≠ m.
Abbreviation q := (sq bs n).
Abbreviation r := (sr bs n).
Abbreviation W' := (W bs n data).
Implicit Type s : S.

Definition row_is (rows : list (list Z)) (j : Z) (f : Z → Z) : Prop :=
  ∃ row, idx rows j = Some row ∧ len row = bs ∧ ∀ i, 0 <= i < bs → idx row i = Some (f i).

(** The stripes but [m], and the parity in row [p]. *)
Record repairable (rows : list (list Z)) : Prop := {
  rp_stripe j : 0 <= j < n → j ≠ m → row_is rows j (W' j);
  rp_parity : row_is rows p (P bs n data);
  rp_missing : ∃ row, idx rows m = Some row ∧ len row = bs;
}.

Lemma row_is_upd rows j row f :
  j ≠ m → 0 <= m < len rows → row_is rows j f → row_is (upd rows m row) j f.
Proof.
  intros Hj Hml (x & Hx & ?). exists x. split; [|done]. rewrite idx_upd by done.
  by rewrite decide_False by done.
Qed.
Lemma repairable_upd rows row :
  repairable rows → len row = bs → repairable (upd rows m row).
Proof.
  intros [Hs Hpa (x & Hx & _)] Hl. pose proof (idx_Some_range _ _ _ Hx). split.
  - intros j Hj Hjm. apply row_is_upd; auto.
  - by apply row_is_upd.
  - exists row. split; [|done]. by apply idx_upd_eq.
Qed.

Definition skipm (i j : Z) : Z := if j =? m then 0 else W' j i.

Lemma wp_repair_col rows i K : repairable rows → 0 <= i < bs → K <= n → ∀ k j pb s Q,
  0 <= j → j + Z.of_nat k = K → u8 pb = xsum (Z.to_nat j) (skipm i) →
  (∀ b, u8 b = xsum (Z.to_nat K) (skipm i) → Q b s) →
  wp (repair_col k rows m i j pb) s Q.
Proof.
  intros Hr Hi HK. induction k as [|k IH]; intros j pb s Q Hj Hk Hpb HQ; simpl.
  { rewrite wp_ret. apply HQ. by replace (Z.to_nat K) with (Z.to_nat j) by lia. }
  rewrite wp_bind.
  assert (∀ pb', u8 pb' = Z.lxor (xsum (Z.to_nat j) (skipm i)) (skipm i j) →
    wp (repair_col k rows m i (j + 1) pb') s Q) as Hnext.
  { intros pb' E. apply IH; [lia|lia| |done].
    replace (Z.to_nat (j + 1)) with (Datatypes.S (Z.to_nat j)) by lia. simpl.
    by rewrite Z2Nat.id by lia. }
  unfold skipm in Hnext at 2. destruct (Z.eqb_spec j m) as [->|Hjm].
  - rewrite wp_ret. apply Hnext. by rewrite Z.lxor_0_r.
  - destruct (rp_stripe _ Hr j ltac:(lia) Hjm) as (row & Hrow & _ & Hidx).
    rewrite wp_bind. eapply wp_aload_list; [exact Hrow|]. rewrite wp_bind.
    eapply wp_rd; [by apply Hidx|]. rewrite wp_ret. apply Hnext.
    rewrite (u8_step _ _ _ Hpb); [done|]. by apply W_byte.
Qed.

(** Xoring the other stripes with the parity gives the missing byte. *)
Lemma restored i b : u8 b = xsum (Z.to_nat n) (skipm i) → u8 (Z.lxor b (P bs n data i)) = W' m i.
Proof.
  intros Hb. rewrite u8_lxor, Hb. rewrite (u8_byte (P bs n data i)).
  - apply (xsum_remove (Z.to_nat n) (λ j, W' j i) m). lia.
  - apply xsum_byte. intros j _. by apply W_byte.
Qed.

Lemma wp_repair_rows : ∀ k i rows s Q,
  repairable rows → 0 <= i → i + Z.of_nat k = q → q <= bs →
  (∀ row, idx rows m = Some row → ∀ x, 0 <= x < i → idx row x = Some (W' m x)) →
  (∀ rows', repairable rows' → (∀ j, j ≠ m → idx rows' j = idx rows j) →
     (∀ row, idx rows' m = Some row → ∀ x, 0 <= x < q → idx row x = Some (W' m x)) →
     Q rows' s) →
  wp (repair_rows k rows p m n i) s Q.
Proof.
  induction k as [|k IH]; intros i rows s Q Hr Hi Hk Hq Hdone HQ; cbn [repair_rows].
  { rewrite wp_ret. apply HQ; [done|done|]. by replace q with i by lia. }
  rewrite wp_bind. eapply (wp_repair_col rows i n); [done|lia|lia|lia|lia|done|].
  intros b Hb. destruct (rp_parity _ Hr) as (prow & Hpr & _ & Hpi).
  rewrite wp_bind. eapply wp_aload_list; [exact Hpr|].
  rewrite wp_bind. eapply wp_rd; [apply Hpi; lia|].
  destruct (rp_missing _ Hr) as (row & Hrow & Hrl).
  rewrite wp_bind. eapply wp_aload_list; [exact Hrow|]. rewrite wp_bind. apply wp_wr; [lia|].
  rewrite (restored _ _ Hb). pose proof (idx_Some_range _ _ _ Hrow) as Hml.
  apply IH; [apply repairable_upd; [done|by rewrite len_upd]|lia|lia|done| |].
  - intros row' E x Hx. rewrite idx_upd_eq in E by done. injection E as <-.
    rewrite idx_upd by lia. destruct (decide (i = x)) as [->|]; [done|].
    apply (Hdone row); [done|lia].
  - intros rows' Hr' Hother Hm'. apply HQ; [done| |done]. intros j Hj. rewrite Hother by done.
    rewrite idx_upd by done. by rewrite decide_False by done.
Qed.

(** [repairStripeFromParity45] restores the missing stripe and leaves the
    other rows alone. *)
Lemma wp_repairStripe rows s Q :
  repairable rows →
  (∀ rows' row, (∀ j, j ≠ m → idx rows' j = idx rows j) →
     idx rows' m = Some row → len row = bs →
     (∀ x, 0 <= x < sz bs n m → idx row x = Some (W' m x)) → Q rows' s) →
  wp (repairStripeFromParity45 rows p m n bs) s Q.
Proof.
  destruct (sq_sr bs n Hbs Hn) as (Ebs & Hr & Hq). intros Hrep HQ.
  unfold repairStripeFromParity45. rewrite (proj2 (Z.eqb_neq n 0)) by lia. fold q r.
  assert (q <= n * q) by nia. rewrite wp_bind.
  apply wp_repair_rows; [done|lia|lia|lia|intros; lia|]. intros rows1 Hr1 Ho1 Hm1.
  destruct (rp_missing _ Hr1) as (row & Hrow & Hrl). pose proof (idx_Some_range _ _ _ Hrow) as Hml.
  destruct (Z.ltb_spec m r) as [Hmr|Hmr].
  - rewrite wp_bind. eapply (wp_repair_col rows1 q r); [done|lia|lia|lia|lia|done|].
    intros b Hb. destruct (rp_parity _ Hr1) as (prow & Hpr & _ & Hpi).
    rewrite wp_bind. eapply wp_aload_list; [exact Hpr|].
    rewrite wp_bind. eapply wp_rd; [apply Hpi; lia|].
    rewrite wp_bind. eapply wp_aload_list; [exact Hrow|]. rewrite wp_bind. apply wp_wr; [lia|].
    rewrite wp_ret. eapply (HQ _ (upd row q (u8 (Z.lxor b (P bs n data q))))).
    + intros j Hj. rewrite idx_upd by done. rewrite decide_False by done. by apply Ho1.
    + by apply idx_upd_eq.
    + by rewrite len_upd.
    + intros x Hx. unfold sz in Hx. rewrite (proj2 (Z.ltb_lt m r)) in Hx by lia.
      rewrite idx_upd by lia. destruct (decide (q = x)) as [<-|].
      * f_equal. apply restored. rewrite Hb. symmetry. apply xsum_prefix; [lia|].
        intros j Hj. unfold skipm. case_match; [done|]. unfold W, sz.
        rewrite (proj2 (Z.ltb_ge j r)) by lia. by rewrite (proj2 (Z.ltb_ge _ _)) by lia.
      * apply (Hm1 row); [done|lia].
  - rewrite wp_ret. eapply (HQ _ row); [done|done|done|]. intros x Hx. unfold sz in Hx.
    rewrite (proj2 (Z.ltb_ge m r)) in Hx by lia. apply (Hm1 row); [done|lia].
Qed.
End RepairProofs.

(** [checkParity45] compares a signed [char] with an unsigned byte: it accepts
    a correct parity only if no parity byte has its top bit set. *)
Section CheckProofs.
Context {S : Type}.
Variables (bs n : Z) (data : list Z) (rows : list (list Z)) (parity : list Z).
Hypothesis Hbs : 0 <= bs.
Hypothesis Hn : 0 < n.
Hypothesis Hlen : len data = bs.
Hypothesis Hbytes : Forall byte_ok data.
Hypothesis Hrows : ∀ j, 0 <= j < n → row_is bs rows j (W bs n data j).
Hypothesis Hpar : ∀ i, 0 <= i < bs → idx parity i = Some (P bs n data i).
Abbreviation q := (sq bs n).
Abbreviation r := (sr bs n).
Implicit Type s : S.

Lemma schar_range x : -128 <= schar x < 128.
Proof. unfold schar. pose proof (u8_range x). destruct (Z.ltb_spec (u8 x) 128); lia. Qed.
Lemma schar_eq_byte b y : -128 <= b < 128 → byte_ok y → u8 b = y → (b =? y) = (y <? 128).
Proof.
  intros Hb Hy <-. destruct (Z.ltb_spec (u8 b) 128) as [Hlt|Hge]; unfold u8 in *.
  - apply Z.eqb_eq. destruct (decide (0 <= b)); [by rewrite Z.mod_small by lia|].
    rewrite <-(Z_mod_plus_full b 1), Z.mod_small in Hlt by lia. lia.
  - apply Z.eqb_neq. intros E. lia.
Qed.

Lemma wp_check_col i K : 0 <= i < bs → K <= n → ∀ k j pb s Q,
  0 <= j → j + Z.of_nat k = K → -128 <= pb < 128 →
  u8 pb = xsum (Z.to_nat j) (λ j, W bs n data j i) →
  (∀ b, -128 <= b < 128 → u8 b = xsum (Z.to_nat K) (λ j, W bs n data j i) → Q b s) →
  wp (repair_col k rows (-1) i j pb) s Q.
Proof.
  intros Hi HK. induction k as [|k IH]; intros j pb s Q Hj Hk Hr Hpb HQ; simpl.
  { rewrite wp_ret. apply HQ; [done|]. by replace (Z.to_nat K) with (Z.to_nat j) by lia. }
  rewrite wp_bind. rewrite (proj2 (Z.eqb_neq j (-1))) by lia.
  destruct (Hrows j ltac:(lia)) as (row & Hrow & _ & Hidx).
  rewrite wp_bind. eapply wp_aload_list; [exact Hrow|]. rewrite wp_bind.
  eapply wp_rd; [by apply Hidx|]. rewrite wp_ret. apply IH; [lia|lia|apply schar_range| |done].
  rewrite (u8_step _ _ _ Hpb) by by apply W_byte.
  replace (Z.to_nat (j + 1)) with (Datatypes.S (Z.to_nat j)) by lia. simpl.
  by rewrite Z2Nat.id by lia.
Qed.

Lemma P_byte i : byte_ok (P bs n data i).
Proof. apply xsum_byte. intros j _. by apply W_byte. Qed.

Lemma wp_check_rows : ∀ k i s Q,
  0 <= i → i + Z.of_nat k = q → q <= bs →
  (∀ ok : bool, (ok = true ↔ ∀ x, i <= x < q → P bs n data x < 128) → Q ok s) →
  wp (check_rows k rows parity n i) s Q.
Proof.
  induction k as [|k IH]; intros i s Q Hi Hk Hq HQ; cbn [check_rows].
  { rewrite wp_ret. apply HQ. split; [lia|done]. }
  rewrite wp_bind. eapply (wp_check_col i n); [lia|lia|lia|lia|lia|done|]. intros b Hb Hbu.
  rewrite wp_bind. eapply wp_rd; [apply Hpar; lia|].
  rewrite (schar_eq_byte b (P bs n data i)) by (done || apply P_byte).
  destruct (Z.ltb_spec (P bs n data i) 128) as [Hlt|Hge].
  - apply IH; [lia|lia|done|]. intros ok Hok. apply HQ. rewrite Hok. split.
    + intros Hx x Hxr. destruct (decide (x = i)) as [->|]; [done|]. apply Hx. lia.
    + intros Hx x Hxr. apply Hx. lia.
  - rewrite wp_ret. apply HQ. split; [done|]. intros Hx.
    pose proof (Hx i ltac:(lia)). lia.
Qed.

Lemma wp_checkParity45 s Q :
  (∀ ok : bool, (ok = true ↔ ∀ x, 0 <= x < sz bs n 0 → P bs n data x < 128) → Q ok s) →
  wp (checkParity45 rows n parity bs) s Q.
Proof.
  destruct (sq_sr bs n Hbs Hn) as (Ebs & Hr & Hq). intros HQ. unfold checkParity45.
  rewrite (proj2 (Z.eqb_neq n 0)) by lia. fold q r. rewrite wp_bind. assert (q <= n * q) by nia.
  apply wp_check_rows; [lia|lia|lia|]. intros ok Hok. unfold sz in HQ. destruct ok; cbn [negb]; cbn iota.
  2: { rewrite wp_ret. apply HQ. split; [done|]. intros Hx. apply Hok. intros x Hxr. apply Hx.
       destruct (0 <? r); lia. }
  destruct (Z.ltb_spec 0 r) as [Hr0|Hr0].
  - rewrite wp_bind. eapply (wp_check_col q r); [lia|lia|lia|lia|lia|done|]. intros b Hb Hbu.
    rewrite wp_bind. eapply wp_rd; [apply Hpar; lia|]. rewrite wp_ret. apply HQ.
    rewrite (schar_eq_byte b (P bs n data q)); [|done|apply P_byte|].
    + rewrite Z.ltb_lt. split.
      * intros Hlt x Hxr. destruct (decide (x = q)) as [->|]; [done|]. apply Hok; [done|lia].
      * intros Hx. apply Hx. lia.
    + rewrite Hbu. symmetry. apply xsum_prefix; [lia|]. intros j Hj. unfold W, sz.
      rewrite (proj2 (Z.ltb_ge j r)) by lia. by rewrite (proj2 (Z.ltb_ge _ _)) by lia.
  - rewrite wp_ret. apply HQ. rewrite Z.add_0_r. done.
Qed.
End CheckProofs.

(** ** Splitting a block into stripes and joining them *)

Section Stripes.
Context `{Config}.
Variables (n hosts : Z) (skip : option Z) (data : list Z).
Abbreviation bs := BLOCK_SIZE.
Abbreviation W' := (W bs n data).
Hypothesis Hn : 0 < n.
Hypothesis Hhosts : match skip with Some k => 0 <= k < hosts ∧ hosts = n + 1 | None => hosts = n end.
Hypothesis Hlen : len data = bs.

(** The stripe that host [i] holds. *)
Definition stripe (i : Z) : Z :=
  i - match skip with Some k => if k <? i then 1 else 0 | None => 0 end.
Definition is_stripe (i : Z) : Prop := 0 <= i < hosts ∧ skip ≠ Some i.

Lemma bs_nonneg : 0 <= bs.
Proof. pose proof BLOCK_SIZE_pos. lia. Qed.
Lemma stripe_range i : is_stripe i → 0 <= stripe i < n.
Proof.
  intros [Hi Hs]. unfold stripe. destruct skip as [k|]; [|lia].
  assert (k ≠ i) by congruence. destruct (Z.ltb_spec k i); lia.
Qed.
Lemma stripe_succ i : is_stripe i → stripe (i + 1) = stripe i + 1.
Proof.
  intros [Hi Hs]. unfold stripe. destruct skip as [k|]; [|lia].
  assert (k ≠ i) by congruence. destruct (Z.ltb_spec k i), (Z.ltb_spec k (i + 1)); lia.
Qed.
Lemma stripe_skip i : skip = Some i → stripe (i + 1) = stripe i.
Proof.
  intros E. unfold stripe. rewrite E. destruct (Z.ltb_spec i i), (Z.ltb_spec i (i + 1)); lia.
Qed.
Lemma stripe_end : stripe hosts = n.
Proof. unfold stripe. destruct skip as [k|]; [|lia]. destruct (Z.ltb_spec k hosts); lia. Qed.
Lemma stripe_0 : stripe 0 = 0.
Proof. unfold stripe. destruct skip as [k|]; [|lia]. destruct (Z.ltb_spec k 0); lia. Qed.

(** The running [alloc] is the size of the next stripe. *)
Definition alloc_for (i alloc : Z) : Prop := stripe i < sr bs n → alloc = sq bs n + 1.
Lemma alloc_first : alloc_for 0 (first_alloc bs n).
Proof.
  unfold alloc_for, first_alloc. fold (sr bs n) (sq bs n). rewrite stripe_0. intros.
  by rewrite (proj2 (Z.ltb_lt _ _)) by done.
Qed.
Lemma alloc_now i alloc : alloc_for i alloc →
  (if Z.rem bs n <=? i - (i - stripe i) then Z.quot bs n else alloc) = sz bs n (stripe i).
Proof.
  unfold alloc_for, sz. fold (sr bs n) (sq bs n). intros Ha.
  replace (i - (i - stripe i)) with (stripe i) by lia.
  destruct (Z.leb_spec (sr bs n) (stripe i)), (Z.ltb_spec (stripe i) (sr bs n)); lia.
Qed.
Lemma alloc_next i : is_stripe i → alloc_for (i + 1) (sz bs n (stripe i)).
Proof.
  intros Hi. unfold alloc_for, sz. rewrite stripe_succ by done. intros.
  by rewrite (proj2 (Z.ltb_lt _ _)) by lia.
Qed.

(** A zeroed row that receives stripe [j]. *)
Lemma row_stripe j row l :
  0 <= j < n → len row = bs → (∀ x, 0 <= x < bs → idx row x = Some 0) → len l = bs →
  (∀ x, 0 <= x < bs → idx l x = if decide (0 <= x < 0 + sz bs n j)
     then idx data (off bs n j + (x - 0)) else idx row x) →
  ∀ x, 0 <= x < bs → idx l x = Some (W' j x).
Proof.
  intros Hj Hlr Hz Hl Hidx x Hx. rewrite Hidx by done. case_decide as E.
  - rewrite Z.sub_0_r. apply W_in; [apply bs_nonneg|done|done|done|lia].
  - rewrite Hz by done. unfold W. by rewrite (proj2 (Z.ltb_ge _ _)) by lia.
Qed.

Lemma wp_split_loop : ∀ k i alloc s Q,
  0 <= i → i + Z.of_nat k = hosts → rr_block_size s = bs → alloc_for i alloc →
  (∀ x, i <= x < hosts → skip ≠ Some x → row_is bs (wbufs s) x (λ _, 0)) →
  (∀ w, len w = len (wbufs s) →
     (∀ x, ¬ (i <= x < hosts ∧ skip ≠ Some x) → idx w x = idx (wbufs s) x) →
     (∀ x, i <= x < hosts → skip ≠ Some x → row_is bs w x (W' (stripe x))) →
     Q tt (put_wbufs w s)) →
  wp (split_loop k data n skip i alloc (off bs n (stripe i))) s Q.
Proof.
  induction k as [|k IH]; intros i alloc s Q Hi Hk Hbs Ha Hz HQ; cbn [split_loop].
  { rewrite wp_ret. specialize (HQ (wbufs s)). destruct s. apply HQ; [done|done|lia]. }
  case_bool_decide as Hs.
  { rewrite <-stripe_skip by done. apply IH; [lia|lia|done| | |].
    - unfold alloc_for in *. by rewrite stripe_skip.
    - intros x Hx. apply Hz. lia.
    - intros w Hw1 Hw2 Hw3. apply HQ; [done| |].
      + intros x Hx. apply Hw2. naive_solver lia.
      + intros x Hx Hsx. apply Hw3; [|done]. assert (x ≠ i) by congruence. lia. }
  assert (is_stripe i) as Hst by (split; [lia|done]).
  pose proof (stripe_range i Hst) as Hj.
  rewrite wp_bind, wp_gets, Hbs.
  replace (match skip with Some k => if k <? i then 1 else 0 | None => 0 end)
    with (i - stripe i) by (unfold stripe; lia).
  rewrite alloc_now by done.
  destruct (Hz i ltac:(lia) Hs) as (row & Hrow & Hrl & Hr0). pose proof (idx_Some_range _ _ _ Hrow).
  rewrite wp_bind. eapply wp_aload; [exact Hrow|]. rewrite wp_bind.
  pose proof (sz_nonneg bs n bs_nonneg Hn (stripe i)).
  pose proof (off_bound bs n bs_nonneg Hn (stripe i) Hj).
  pose proof (off_nonneg bs n bs_nonneg Hn (stripe i) ltac:(lia)).
  apply wp_copy; try lia. intros l Hl Hidx. rewrite wp_bind. apply wp_astore; [done|].
  rewrite <-off_succ by lia. rewrite <-stripe_succ by done. rewrite Hrl in Hl, Hidx.
  apply IH; [lia|lia|done|by apply alloc_next| |].
  - intros x Hx Hsx. simpl. destruct (Hz x ltac:(lia) Hsx) as (y & Hy & ?). exists y.
    split; [|done]. rewrite idx_upd by done. by rewrite decide_False by lia.
  - simpl. intros w Hw1 Hw2 Hw3. replace (put_wbufs w _) with (put_wbufs w s) by by destruct s.
    apply HQ; [by rewrite Hw1, len_upd| |].
    + intros x Hx. rewrite Hw2 by naive_solver lia. rewrite idx_upd by done.
      rewrite decide_False; [done|]. intros ->. apply Hx. split; [lia|done].
    + intros x Hx Hsx. destruct (decide (x = i)) as [->|]; [|apply Hw3; [lia|done]].
      exists l. rewrite Hw2 by lia. rewrite idx_upd_eq by done. split; [done|].
      split; [done|]. by apply (row_stripe _ row).
Qed.

(** Row [i] holds what of its stripe is read back. *)
Definition joinable (rows : list (list Z)) : Prop := ∀ i, is_stripe i →
  ∃ row, idx rows i = Some row ∧ len row = bs ∧
    ∀ x, 0 <= x < sz bs n (stripe i) → idx row x = Some (W' (stripe i) x).

Lemma wp_join_loop : ∀ k i alloc d s Q,
  0 <= i → i + Z.of_nat k = hosts → rr_block_size s = bs → alloc_for i alloc →
  joinable (rbufs s) → len d = bs →
  (∀ x, 0 <= x < off bs n (stripe i) → idx d x = idx data x) →
  Q data s →
  wp (join_loop k d n skip i alloc (off bs n (stripe i))) s Q.
Proof.
  induction k as [|k IH]; intros i alloc d s Q Hi Hk Hbs Ha Hrows Hd Hpre HQ; cbn [join_loop].
  { rewrite wp_ret. replace d with data; [done|]. apply idx_ext. intros x.
    replace i with hosts in Hpre by lia. rewrite stripe_end, off_n in Hpre by (apply bs_nonneg || done).
    destruct (decide (0 <= x < bs)); [by rewrite Hpre|]. rewrite !idx_None; [done|lia..]. }
  case_bool_decide as Hs.
  { rewrite <-stripe_skip by done. apply IH; try done; [lia|lia| |].
    - unfold alloc_for in *. by rewrite stripe_skip.
    - by rewrite stripe_skip. }
  assert (is_stripe i) as Hst by (split; [lia|done]).
  pose proof (stripe_range i Hst) as Hj.
  rewrite wp_bind, wp_gets, Hbs.
  replace (match skip with Some k => if k <? i then 1 else 0 | None => 0 end)
    with (i - stripe i) by (unfold stripe; lia).
  rewrite alloc_now by done. destruct (Hrows i Hst) as (row & Hrow & Hrl & Hr).
  rewrite wp_bind. eapply wp_aload; [exact Hrow|]. rewrite wp_bind.
  pose proof (sz_nonneg bs n bs_nonneg Hn (stripe i)).
  pose proof (off_bound bs n bs_nonneg Hn (stripe i) Hj).
  pose proof (off_nonneg bs n bs_nonneg Hn (stripe i) ltac:(lia)).
  apply wp_copy; try lia. intros l Hl Hidx.
  rewrite <-off_succ by lia. rewrite <-stripe_succ by done. rewrite Hd in Hl, Hidx.
  apply IH; try done; [lia|lia|by apply alloc_next|].
  rewrite stripe_succ, off_succ by (done || lia). intros x Hx. rewrite Hidx by lia.
  case_decide; [|apply Hpre; lia]. rewrite Hr by lia. symmetry.
  replace x with (off bs n (stripe i) + (0 + (x - off bs n (stripe i)))) at 1 by lia.
  apply W_in; [apply bs_nonneg|done|done|done|lia].
Qed.
End Stripes.

(** ** Replies *)

Section Replies.
Context `{Config}.
Variables (reply : Z → list Z) (hosts needed : Z).
Abbreviation bs := BLOCK_SIZE.

(** [delivers i events hs]: after [i] replies, the receive loop sees the
    replies of the hosts [hs], in this order; it starts over after a timeout
    as long as replies are needed, and stops at a timeout after that. *)
Inductive delivers : Z → list (option (Z * list Z)) → list Z → Prop :=
| delivers_all i events : hosts <= i → delivers i events []
| delivers_enough i events : i < hosts → needed <= i → delivers i (None :: events) []
| delivers_retry i events hs :
    i < hosts → i < needed → delivers i events hs → delivers i (None :: events) hs
| delivers_reply i h events hs :
    i < hosts → delivers (i + 1) events hs →
    delivers i (Some (h, reply h) :: events) (h :: hs).

Lemma delivers_count i events hs :
  delivers i events hs → i <= hosts → needed <= hosts → needed <= i + len hs <= hosts.
Proof.
  induction 1; intros; rewrite ?len_cons, ?len_nil; [lia..|by auto|].
  assert (needed <= i + 1 + len hs <= hosts) by (apply IHdelivers; lia). lia.
Qed.

Definition rows_ok (bufs : list (list Z)) : Prop :=
  len bufs = MAX_HOSTS ∧ ∀ j row, idx bufs j = Some row → len row = bs.

Lemma rows_ok_upd bufs j row : rows_ok bufs → len row = bs → rows_ok (upd bufs j row).
Proof.
  intros [Hl Hr] Hrow. split; [by rewrite len_upd|]. intros k row' E.
  destruct (decide (0 <= j < len bufs)).
  - rewrite idx_upd in E by done. case_decide; [congruence|by eapply Hr].
  - unfold upd, idx in E. case_match eqn:Ek; [|done].
    destruct (decide (Z.to_nat j = Z.to_nat k)) as [Ejk|].
    + rewrite Ejk, list_lookup_insert in E. destruct (decide _) as [[_ Hlt]|]; [congruence|].
      eapply (Hr k). unfold idx. rewrite Ek. done.
    + rewrite list_lookup_insert_ne in E by done. eapply (Hr k). unfold idx. by rewrite Ek.
Qed.

Lemma wp_recv_loop i events hs : delivers i events hs → ∀ bufs found s Q,
  hosts <= MAX_HOSTS → rows_ok bufs → len found = MAX_HOSTS → NoDup hs →
  (∀ h, h ∈ hs → 0 <= h < hosts ∧ len (reply h) = bs) →
  (∀ bufs' found', rows_ok bufs' → len found' = MAX_HOSTS →
     (∀ h, 0 <= h → idx bufs' h = if decide (h ∈ hs) then Some (reply h) else idx bufs h) →
     (∀ h, 0 <= h → idx found' h = if decide (h ∈ hs) then Some 1 else idx found h) →
     Q (bufs', found') s) →
  wp (recv_loop events i hosts needed bufs found) s Q.
Proof.
  induction 1 as [i events Hi|i events Hi Hn|i events hs Hi Hn Hd IH|i h events hs Hi Hd IH];
    intros bufs found s Q Hmax Hb Hf Hnd Hhs HQ.
  - destruct events; cbn [recv_loop]; rewrite (proj2 (Z.leb_le _ _)) by lia; rewrite wp_ret;
      apply HQ; try done; intros; by rewrite decide_False by set_solver.
  - cbn [recv_loop]. rewrite (proj2 (Z.leb_gt _ _)), (proj2 (Z.leb_le _ _)) by lia.
    rewrite wp_ret. apply HQ; try done; intros; by rewrite decide_False by set_solver.
  - cbn [recv_loop]. rewrite (proj2 (Z.leb_gt _ _)), (proj2 (Z.leb_gt _ _)) by lia. by apply IH.
  - cbn [recv_loop]. rewrite (proj2 (Z.leb_gt _ _)) by lia.
    apply NoDup_cons in Hnd as [Hh Hnd]. destruct (Hhs h) as [Hhr Hhl]; [set_solver|].
    pose proof Hb as [Hbl Hbr].
    assert (0 <= h < len bufs) as [row Hrow]%idx_is_Some by lia.
    rewrite wp_bind. eapply wp_aload_list; [exact Hrow|]. rewrite wp_bind.
    apply wp_copy_all; [by eapply Hbr|done|].
    apply IH; [done|by apply rows_ok_upd|by rewrite len_upd|done|set_solver|].
    intros bufs' found' Hb' Hf' Hbi Hfi. apply HQ; [done|done| |].
    + intros k Hk. rewrite Hbi by done. destruct (decide (k ∈ hs)).
      { by rewrite decide_True by set_solver. }
      rewrite idx_upd by lia. destruct (decide (h = k)) as [->|].
      * by rewrite decide_True by set_solver.
      * by rewrite decide_False by set_solver.
    + intros k Hk. rewrite Hfi by done. destruct (decide (k ∈ hs)).
      { by rewrite decide_True by set_solver. }
      rewrite idx_upd by lia. destruct (decide (h = k)) as [->|].
      * by rewrite decide_True by set_solver.
      * by rewrite decide_False by set_solver.
Qed.

(** The result is -1 when all hosts answered, else the first that did not. *)
Lemma wp_first_missing (hs found : list Z) : ∀ k i s Q,
  0 <= i → i + Z.of_nat k = hosts →
  (∀ h, i <= h < hosts → idx found h = Some (if decide (h ∈ hs) then 1 else 0)) →
  ((∀ h, i <= h < hosts → h ∈ hs) → Q (-1) s) →
  (∀ m, i <= m < hosts → m ∉ hs → Q m s) →
  wp (first_missing k i found) s Q.
Proof.
  induction k as [|k IH]; intros i s Q Hi Hk Hf Hall Hm; cbn [first_missing].
  { rewrite wp_ret. apply Hall. lia. }
  rewrite wp_bind. eapply wp_rd; [apply Hf; lia|]. case_decide as Hh; cbn [Z.eqb].
  - apply IH; [lia|lia| | |].
    + intros. apply Hf. lia.
    + intros Hr. apply Hall. intros h Hh'. destruct (decide (h = i)) as [->|]; [done|].
      apply Hr. lia.
    + intros. apply Hm; [lia|done].
  - rewrite wp_ret. apply Hm; [lia|done].
Qed.
End Replies.

Lemma NoDup_len_range (l : list Z) n :
  NoDup l → (∀ x, x ∈ l → 0 <= x < n) → len l <= Z.max 0 n.
Proof.
  intros Hnd Hr. assert (l ⊆+ (Z.of_nat <$> seq 0 (Z.to_nat n))) as Hsub.
  { apply NoDup_submseteq; [done|]. intros x Hx. apply list_elem_of_fmap.
    exists (Z.to_nat x). rewrite elem_of_seq. pose proof (Hr x Hx). lia. }
  apply submseteq_length in Hsub. rewrite length_fmap, length_seq in Hsub. unfold len. lia.
Qed.

(** Every host but at most one answers when [needed] is [hosts - 1]. *)
Lemma one_missing hosts (hs : list Z) m h :
  NoDup hs → (∀ x, x ∈ hs → 0 <= x < hosts) → hosts - 1 <= len hs →
  0 <= m < hosts → m ∉ hs → 0 <= h < hosts → h ≠ m → h ∈ hs.
Proof.
  intros Hnd Hr Hl Hm Hmh Hh Hne. destruct (decide (h ∈ hs)) as [|Hn]; [done|exfalso].
  assert (len (h :: m :: hs) <= Z.max 0 hosts) as Hc; [|rewrite !len_cons in Hc; lia].
  apply NoDup_len_range; [|set_solver].
  apply NoDup_cons. split; [set_solver|]. by apply NoDup_cons.
Qed.
