(* ===== verification/RaidSpec.v ===== *)
(** * A RAID array is a block store that survives the loss of a host

    What [rrmem_write] leaves on the hosts and what [rrmem_read] makes of the
    replies (src/ip6/lib/vmem/rrmem.c), for RAID levels 0, 4 and 5, and the
    [BlockDev] interface of the paging backends for the level that
    [rrmem_allocate] chooses, RAID 4. *)

From S2P Require Import Prelude Types Bytes Backends Raid RaidProofs.

(** Block [b] of host [i]. *)
Definition blk (st : list (list (list Z))) (i b : Z) : option (list Z) :=
  idx st i ≫= λ bl, idx bl b.

Section Store.
Context `{Config}.
Abbreviation bs := BLOCK_SIZE.
Implicit Types (s : rrmem) (lost : Z → bool) (data : list Z).

Record rr_ok s : Prop := {
  ro_level : raid s = 0 ∨ raid s = 4 ∨ raid s = 5;
  ro_bs : rr_block_size s = bs;
  ro_hosts : 2 <= rr_hosts s <= MAX_HOSTS;
  ro_store : len (rr_store s) = rr_hosts s;
  ro_blocks i bl : idx (rr_store s) i = Some bl → len bl = rr_nblocks s;
}.

(** The host of the parity of a block, the number of stripes, and the
    number of replies [rrmem_read] waits for. *)
Definition pty s (block : Z) : option Z :=
  if raid s =? 0 then None
  else if raid s =? 4 then Some (rr_hosts s - 1) else Some (Z.rem block (rr_hosts s)).
Definition nstripes s : Z := if raid s =? 0 then rr_hosts s else rr_hosts s - 1.

(** Byte [x] of what host [i] should hold for a block of content [data]. *)
Definition expect s (block : Z) data (i x : Z) : Z :=
  if decide (pty s block = Some i) then P bs (nstripes s) data x
  else W bs (nstripes s) data (stripe (pty s block) i) x.

(** Every host that is not [lost] holds its part of [data]. *)
Definition holds lost s (block : Z) data : Prop := ∀ i,
  0 <= i < rr_hosts s → lost i = false →
  ∃ row, blk (rr_store s) i block = Some row ∧ len row = bs ∧
    ∀ x, 0 <= x < bs → idx row x = Some (expect s block data i x).

Lemma blk_upd st i bl b row j c :
  idx st i = Some bl → 0 <= b < len bl →
  blk (upd st i (upd bl b row)) j c = if decide (j = i ∧ c = b) then Some row else blk st j c.
Proof.
  intros Hi Hb. pose proof (idx_Some_range _ _ _ Hi). unfold blk. rewrite idx_upd by done.
  destruct (decide (i = j)) as [<-|].
  - simpl. rewrite idx_upd by done. rewrite Hi. simpl.
    destruct (decide (b = c)) as [<-|]; [by rewrite decide_True|].
    by rewrite decide_False by naive_solver.
  - by rewrite decide_False by naive_solver.
Qed.

(** The hosts' blocks after a write of the rows [w]. *)
Record sent lost (block hosts : Z) (w : list (list Z)) s (st : list (list (list Z))) : Prop := {
  sent_len : len st = len (rr_store s);
  sent_blocks i bl : idx st i = Some bl → len bl = rr_nblocks s;
  sent_blk i b : blk st i b =
    if decide (0 <= i < hosts ∧ lost i = false ∧ b = block) then idx w i
    else blk (rr_store s) i b;
}.

Lemma wp_send_rows lost block s hosts Q :
  rr_ok s → 0 <= block < rr_nblocks s → hosts <= rr_hosts s → 0 <= hosts →
  hosts <= len (wbufs s) →
  (∀ st, sent lost block hosts (wbufs s) s st → Q tt (put_store st s)) →
  wp (for_range 0 hosts (send_row lost block)) s Q.
Proof.
  intros Hok Hb Hh H0 Hw HQ.
  apply (wp_for_range (λ j s', ∃ st, s' = put_store st s ∧ sent lost block j (wbufs s) s st));
    [done| | |by intros s' (st & -> & ?); auto].
  { exists (rr_store s). split; [by destruct s|]. split; [done|apply Hok|].
    intros i b. by rewrite decide_False by lia. }
  intros j s' Hj (st & -> & [Hl Hbl Hblk]). unfold send_row. rewrite wp_bind.
  assert (0 <= j < len (wbufs s)) as [row Hrow]%idx_is_Some by lia.
  eapply wp_aload; [exact Hrow|]. rewrite wp_bind. pose proof (ro_store _ Hok).
  assert (0 <= j < len st) as Hjs by lia. destruct (idx_is_Some _ _ Hjs) as [bl Hjl].
  eapply wp_aload; [exact Hjl|]. rewrite wp_bind. pose proof (Hbl _ _ Hjl) as Hlb.
  assert (0 <= block < len bl) as [old Hold]%idx_is_Some by lia.
  eapply wp_aload; [exact Hold|]. destruct (lost j) eqn:El; simpl.
  - rewrite wp_ret. exists st. split; [done|]. split; [done|done|]. intros i b. rewrite Hblk.
    destruct (decide (i = j)) as [->|].
    + rewrite !decide_False; [done|intros (_ & ? & _); congruence|lia].
    + apply decide_ext. naive_solver lia.
  - apply wp_astore; [done|]. simpl. exists (upd st j (upd bl block row)). split; [by destruct s|].
    split; [by rewrite len_upd| |].
    + intros i bl' E. rewrite idx_upd in E by done. case_decide; [|by eapply Hbl].
      injection E as <-. by rewrite len_upd.
    + intros i b. rewrite (blk_upd _ _ bl) by (done || lia). rewrite Hblk.
      destruct (decide (i = j ∧ b = block)) as [[-> ->]|].
      * by rewrite decide_True by (split_and!; [lia|lia|done|done]).
      * apply decide_ext. naive_solver lia.
Qed.

(** The replies a write or a read gets. *)
Definition needed s : Z := if raid s =? 0 then rr_hosts s else rr_hosts s - 1.
Record network s (reply : Z → list Z) (events : list (option (Z * list Z))) (hs : list Z) : Prop := {
  nw_delivers : delivers reply (rr_hosts s) (needed s) 0 events hs;
  nw_nodup : NoDup hs;
  nw_hosts h : h ∈ hs → 0 <= h < rr_hosts s ∧ len (reply h) = bs;
}.

Record written lost (block : Z) data s s' : Prop := {
  wn_raid : raid s' = raid s;
  wn_bs : rr_block_size s' = rr_block_size s;
  wn_nblocks : rr_nblocks s' = rr_nblocks s;
  wn_hosts : rr_hosts s' = rr_hosts s;
  wn_ok : rr_ok s';
  wn_holds : holds lost s' block data;
  wn_other i b : lost i = true ∨ b ≠ block → blk (rr_store s') i b = blk (rr_store s) i b;
}.

Lemma wp_write_raid_mem lost block data w s reply events hs :
  rr_ok s → 0 <= block < rr_nblocks s → rows_ok w →
  (∀ i, 0 <= i < rr_hosts s → row_is bs w i (expect s block data i)) →
  network s reply events hs →
  wp (write_raid_mem lost events block (rr_hosts s) (needed s)) (put_wbufs w s)
    (λ _ s', written lost block data s s').
Proof.
  intros Hok Hb Hw Hrows [Hd Hnd Hhs]. pose proof (ro_hosts _ Hok) as Hh.
  unfold write_raid_mem. rewrite wp_bind.
  apply wp_send_rows; [by destruct Hok; split|done|simpl; lia|lia|destruct Hw; simpl; lia|].
  simpl. intros st [Hl Hbl Hblk]. simpl in *. rewrite wp_bind, wp_gets, wp_bind.
  eapply wp_recv_loop; [exact Hd|lia|done|done|done|done|].
  intros bufs' found' _ _ _ _. simpl. rewrite wp_modify. split; simpl; try done.
  - destruct Hok. split; simpl; try done; lia.
  - intros i Hi El. destruct (Hrows i Hi) as (row & Hrow & ? & ?). exists row. simpl in *.
    rewrite Hblk. by rewrite decide_True.
  - intros i b Hib. rewrite Hblk, decide_False; [done|]. intros (_ & ? & ?).
    destruct Hib; congruence.
Qed.

Lemma zero_rows : rows_ok zero_bufs ∧ ∀ i, 0 <= i < MAX_HOSTS → row_is bs zero_bufs i (λ _, 0).
Proof.
  pose proof BLOCK_SIZE_pos. split; [split; [done|]|].
  - intros j row. unfold zero_bufs, idx. case_match; [|done].
    intros [-> _]%lookup_replicate. apply len_replicate. lia.
  - intros i Hi. eexists. split; [by apply idx_replicate|]. split; [apply len_replicate; lia|].
    intros. by apply idx_replicate.
Qed.

(** The parity of [data] goes to a row that was zero. *)
Lemma wp_parity_row data n p s w Q :
  0 < n → len data = bs → Forall byte_ok data → wbufs s = w → rows_ok w →
  row_is bs w p (λ _, 0) →
  (∀ row, len row = bs → (∀ x, 0 <= x < bs → idx row x = Some (P bs n data x)) →
     Q tt (put_wbufs (upd w p row) s)) →
  wp (parity_row data bs n p) s Q.
Proof.
  intros Hn Hl Hby <- Hw (row & Hrow & Hrl & Hz) HQ. unfold parity_row. rewrite wp_bind.
  eapply wp_aload; [exact Hrow|]. rewrite wp_bind.
  apply wp_parity45; try done; [pose proof BLOCK_SIZE_pos; lia|]. intros row' Hrl' Hr'.
  apply wp_astore; [by eapply idx_Some_range|]. by apply HQ.
Qed.

Lemma row_is_ext rows j f g : row_is bs rows j f → (∀ x, f x = g x) → row_is bs rows j g.
Proof.
  intros (row & ? & ? & Hf) E. exists row. split_and!; [done..|]. intros. rewrite <-E. auto.
Qed.

(** The stripe loop and the requests; [lh] and [sk] are the loop's bounds. *)
Lemma wp_split_write lost block data w s lh sk reply events hs :
  rr_ok s → 0 <= block < rr_nblocks s → len data = bs → rows_ok w → network s reply events hs →
  match sk with Some k => 0 <= k < lh ∧ lh = nstripes s + 1 | None => lh = nstripes s end →
  (∀ i, 0 <= i < lh → sk ≠ Some i → row_is bs w i (λ _, 0)) →
  (∀ i, 0 <= i < rr_hosts s →
     if decide (0 <= i < lh ∧ sk ≠ Some i)
     then pty s block ≠ Some i ∧ stripe sk i = stripe (pty s block) i
     else pty s block = Some i ∧ row_is bs w i (P bs (nstripes s) data)) →
  wp (split_loop (Z.to_nat lh) data (nstripes s) sk 0 (first_alloc bs (nstripes s)) 0;;
      write_raid_mem lost events block (rr_hosts s) (needed s)) (put_wbufs w s)
    (λ _ s', written lost block data s s').
Proof.
  intros Hok Hb Hl Hw Hnet Hlh Hz Hpart. pose proof (ro_hosts _ Hok) as Hh.
  assert (0 < nstripes s) as Hn by (unfold nstripes; destruct (raid s =? 0); lia).
  pose proof bs_nonneg. rewrite wp_bind.
  assert (off bs (nstripes s) (stripe sk 0) = 0) as E0.
  { rewrite (stripe_0 (nstripes s) lh) by done. by apply off_0. }
  rewrite <-E0 at 2. eapply (wp_split_loop (nstripes s) lh sk data Hn Hlh Hl);
    [lia|destruct sk; simpl in Hlh; lia|apply Hok|by apply (alloc_first _ lh)|done|].
  cbn [wbufs put_wbufs]. intros w' Hl' Hother Hrows.
  replace (put_wbufs w' (put_wbufs w s)) with (put_wbufs w' s) by done.
  apply wp_write_raid_mem with reply hs; try done.
  - split; [by rewrite Hl'; apply Hw|]. intros j row E.
    destruct (decide (0 <= j < lh ∧ sk ≠ Some j)) as [[Hj Hs]|Hj].
    + destruct (Hrows j Hj Hs) as (row' & E' & ? & _). congruence.
    + rewrite Hother in E by done. by eapply Hw.
  - intros i Hi. specialize (Hpart i Hi).
    destruct (decide (0 <= i < lh ∧ sk ≠ Some i)) as [Hs|Hs]; unfold expect.
    + destruct Hpart as [Hp Hst]. eapply row_is_ext; [apply Hrows; apply Hs|].
      intros x. simpl. rewrite decide_False by done. by rewrite Hst.
    + destruct Hpart as [Hp (row & Hrow & ?)].
      apply (row_is_ext _ _ (P bs (nstripes s) data)); [|intros; by rewrite decide_True].
      exists row. by rewrite Hother.
Qed.

(** [rrmem_write] leaves on every host its stripe of the block or the parity. *)
Lemma wp_rrmem_write lost block data s reply events hs :
  rr_ok s → 0 <= block < rr_nblocks s → len data = bs → Forall byte_ok data →
  network s reply events hs →
  wp (rrmem_write lost events block data) s (λ _ s', written lost block data s s').
Proof.
  intros Hok Hb Hl Hby Hnet. pose proof Hnet as [Hd _ _]. pose proof (ro_hosts _ Hok) as Hh.
  unfold rrmem_write. rewrite wp_bind, wp_modify, wp_bind, wp_gets. simpl rr_nblocks.
  rewrite (proj2 (Z.ltb_ge block 0)), (proj2 (Z.leb_gt _ block)) by lia. simpl orb. cbn iota.
  rewrite wp_bind, wp_gets, wp_bind, wp_gets, wp_bind, wp_gets. cbn [raid rr_hosts rr_block_size put_wbufs].
  rewrite (ro_bs _ Hok). destruct zero_rows as [Hz Hz0].
  assert ((2 <=? rr_hosts s) && (rr_hosts s <=? MAX_HOSTS) = true) as Hg by lia.
  assert (∀ n p (k : M rrmem unit), 0 < n → 0 <= p < MAX_HOSTS →
    (∀ w, rows_ok w → row_is bs w p (P bs n data) →
      (∀ i, 0 <= i < MAX_HOSTS → i ≠ p → row_is bs w i (λ _, 0)) →
      wp k (put_wbufs w s) (λ _ s', written lost block data s s')) →
    wp (parity_row data bs n p;; k) (put_wbufs zero_bufs s)
      (λ _ s', written lost block data s s')) as Hpar.
  { intros n p k Hn Hp Hk. rewrite wp_bind. eapply wp_parity_row; try done; [by apply Hz0|].
    intros row Hrl Hrow. destruct Hz as [Hzl Hzr]. cbn [wbufs put_wbufs]. apply Hk.
    - by apply rows_ok_upd.
    - exists row. by rewrite idx_upd_eq by lia.
    - intros i Hi Hip. destruct (Hz0 i Hi) as (r0 & Hr0 & ?). exists r0.
      rewrite idx_upd by lia. by rewrite decide_False. }
  unfold nstripes in *. destruct (ro_level _ Hok) as [El|[El|El]]; rewrite El; cbn [Z.eqb Pos.eqb];
    rewrite wp_bind; (apply wp_guard_or; [done|]).
  - pose proof (wp_split_write lost block data zero_bufs s (rr_hosts s) None reply events hs) as Hw.
    unfold nstripes, needed, pty in Hw. rewrite El in Hw. cbn [Z.eqb] in Hw.
    apply Hw; try done.
    + intros. apply Hz0. lia.
    + intros i Hi. by rewrite decide_True by done.
  - apply Hpar; [lia|lia|]. intros w Hw Hp0 Hother.
    pose proof (wp_split_write lost block data w s (rr_hosts s - 1) None reply events hs) as Hsw.
    unfold nstripes, needed, pty in Hsw. rewrite El in Hsw. cbn [Z.eqb Pos.eqb] in Hsw.
    apply Hsw; try done.
    + intros. apply Hother; lia.
    + intros i Hi. case_decide as Hc.
      * split; [intros [=]; lia|]. unfold stripe.
        by rewrite (proj2 (Z.ltb_ge (rr_hosts s - 1) i)) by lia.
      * assert (i = rr_hosts s - 1) as -> by (destruct (decide (i = rr_hosts s - 1)); [done|];
          exfalso; apply Hc; split; [lia|done]). done.
  - pose proof (Z.rem_bound_pos block (rr_hosts s) ltac:(lia) ltac:(lia)).
    apply Hpar; [lia|lia|]. intros w Hw Hp0 Hother.
    pose proof (wp_split_write lost block data w s (rr_hosts s)
      (Some (Z.rem block (rr_hosts s))) reply events hs) as Hsw.
    unfold nstripes, needed, pty in Hsw. rewrite El in Hsw. cbn [Z.eqb Pos.eqb] in Hsw.
    apply Hsw; try done; [lia| |].
    + intros i Hi Hne. apply Hother; [lia|congruence].
    + intros i Hi. case_decide as Hc; [by destruct Hc|].
      assert (i = Z.rem block (rr_hosts s)) as ->; [|done].
      destruct (decide (i = Z.rem block (rr_hosts s))); [done|]. exfalso. apply Hc. naive_solver.
Qed.

(** ** Reading back *)

Definition stored s (block h : Z) : list Z := default [] (blk (rr_store s) h block).

(** Which replies are enough: all of them for RAID 0, all but one for RAID 4.
    RAID 5 repairs a stripe only where the parity is on the last host. *)
Definition enough s (block : Z) (hs : list Z) : Prop :=
  raid s = 5 → (∀ h, 0 <= h < rr_hosts s → h ∈ hs) ∨ Z.rem block (rr_hosts s) ∉ hs ∨
               Z.rem block (rr_hosts s) = rr_hosts s - 1.

(** The rows hold the stripes, as far as they are read. *)
Definition complete s (block : Z) data (rows : list (list Z)) : Prop := ∀ i,
  0 <= i < rr_hosts s → pty s block ≠ Some i →
  ∃ row, idx rows i = Some row ∧ len row = bs ∧
    ∀ x, 0 <= x < sz bs (nstripes s) (stripe (pty s block) i) →
      idx row x = Some (W bs (nstripes s) data (stripe (pty s block) i) x).

(** What the receive loop leaves in [rbufs]. *)
Record received s (block : Z) data (hs : list Z) (rows : list (list Z)) : Prop := {
  rc_rows : rows_ok rows;
  rc_row h : h ∈ hs → row_is bs rows h (expect s block data h);
}.

Lemma nstripes_pos s : rr_ok s → 0 < nstripes s.
Proof. intros [_ _ ? _ _]. unfold nstripes. destruct (raid s =? 0); lia. Qed.
Lemma stripe_lt s block i :
  rr_ok s → 0 <= block → 0 <= i < rr_hosts s → pty s block ≠ Some i →
  0 <= stripe (pty s block) i < nstripes s.
Proof.
  intros Hok Hb Hi Hp. pose proof (nstripes_pos s Hok). pose proof (ro_hosts _ Hok).
  apply (stripe_range (nstripes s) (rr_hosts s)); [|by split].
  unfold pty, nstripes. destruct (raid s =? 0); [done|].
  destruct (raid s =? 4); [lia|]. split; [|lia]. apply Z.rem_bound_pos; lia.
Qed.

Lemma wp_read_raid_mem lost s block data events hs Q :
  rr_ok s → holds lost s block data → network s (stored s block) events hs →
  (∀ h, h ∈ hs → lost h = false) → rbufs s = zero_bufs →
  (∀ rows, received s block data hs rows →
     (∀ h, 0 <= h < rr_hosts s → h ∈ hs) → Q (-1) (put_rbufs rows s)) →
  (∀ rows m, received s block data hs rows → 0 <= m < rr_hosts s → m ∉ hs →
     (∀ h, 0 <= h < rr_hosts s → h ≠ m → h ∈ hs) → raid s ≠ 0 → Q m (put_rbufs rows s)) →
  wp (read_raid_mem events (rr_hosts s) (needed s)) s Q.
Proof.
  intros Hok Hh [Hd Hnd Hhs] Hlost Hz Hall Hm. pose proof (ro_hosts _ Hok).
  unfold read_raid_mem. rewrite wp_bind, wp_gets, wp_bind, Hz.
  eapply wp_recv_loop; [exact Hd|lia|apply zero_rows|done|done|done|].
  intros rows found Hrows _ Hrow Hfound. rewrite wp_bind, wp_modify.
  assert (received s block data hs rows) as Hrc.
  { split; [done|]. intros h Hin. destruct (Hhs h Hin) as [Hr _].
    destruct (Hh h Hr (Hlost h Hin)) as (row & Hb & Hl & Hx). exists row. split; [|done].
    rewrite Hrow, decide_True by (done || lia). unfold stored. by rewrite Hb. }
  assert (needed s <= rr_hosts s) as Hle by (unfold needed; destruct (raid s =? 0); lia).
  pose proof (delivers_count _ _ _ _ _ _ Hd ltac:(lia) Hle) as Hc.
  apply (wp_first_missing (rr_hosts s) hs); [lia|lia| | |].
  - intros h Hr. rewrite Hfound by lia. case_decide; [done|].
    by apply (idx_replicate MAX_HOSTS 0 h); lia.
  - intros Hin. by apply Hall.
  - intros m Hmr Hmn. assert (rr_hosts s - 1 <= len hs).
    { unfold needed in Hc. destruct (raid s =? 0); lia. }
    assert (∀ h, 0 <= h < rr_hosts s → h ≠ m → h ∈ hs).
    { intros h Hr Hne. apply (one_missing (rr_hosts s) hs m h); try done. naive_solver. }
    apply Hm; try done. intros E0. unfold needed in Hc. rewrite E0 in Hc. simpl in Hc.
    assert (len (m :: hs) <= Z.max 0 (rr_hosts s)) as Hc2; [|rewrite len_cons in Hc2; lia].
    apply (NoDup_len_range (m :: hs)); [by apply NoDup_cons|]. intros x [->|Hx']%elem_of_cons; [done|].
    naive_solver.
Qed.

(** A row that was received holds its stripe. *)
Lemma received_stripe s block data hs rows i :
  rr_ok s → 0 <= block → received s block data hs rows → i ∈ hs → 0 <= i < rr_hosts s →
  pty s block ≠ Some i →
  row_is bs rows i (W bs (nstripes s) data (stripe (pty s block) i)).
Proof.
  intros Hok Hb [_ Hr] Hi Hir Hp. eapply row_is_ext; [by apply Hr|]. intros x. unfold expect.
  by rewrite decide_False.
Qed.
Lemma received_complete s block data hs rows :
  rr_ok s → 0 <= block → received s block data hs rows →
  (∀ i, 0 <= i < rr_hosts s → pty s block ≠ Some i → i ∈ hs) → complete s block data rows.
Proof.
  intros Hok Hb Hrc Hall i Hi Hp.
  destruct (received_stripe _ _ _ _ _ i Hok Hb Hrc (Hall i Hi Hp) Hi Hp) as (row & ? & ? & Hx).
  exists row. split_and!; [done..|]. intros x Hxr. apply Hx. split; [lia|].
  pose proof (sz_bound bs (nstripes s) bs_nonneg (nstripes_pos s Hok) _ (stripe_lt _ _ _ Hok Hb Hi Hp)).
  lia.
Qed.

(** With the parity on the last host, the missing stripe is repaired. *)
Lemma wp_repair s block data hs rows m Q :
  rr_ok s → len data = bs → Forall byte_ok data → 0 <= block →
  pty s block = Some (rr_hosts s - 1) → nstripes s = rr_hosts s - 1 →
  received s block data hs rows → 0 <= m < rr_hosts s - 1 →
  (∀ h, 0 <= h < rr_hosts s → h ≠ m → h ∈ hs) →
  (∀ rows', complete s block data rows' → Q tt (put_rbufs rows' s)) →
  wp (repair (rr_hosts s - 1) m (rr_hosts s - 1) bs) (put_rbufs rows s) Q.
Proof.
  intros Hok Hl Hby Hb Hp Hns Hrc Hm Hin HQ. pose proof (ro_hosts _ Hok) as Hh.
  assert (∀ i, i < rr_hosts s - 1 → stripe (pty s block) i = i) as Hst.
  { intros i Hi. rewrite Hp. unfold stripe. rewrite (proj2 (Z.ltb_ge _ _)) by lia. lia. }
  pose proof Hrc as [[Hrl Hrr] Hrow].
  assert (repairable bs (rr_hosts s - 1) data m (rr_hosts s - 1) rows) as Hrep.
  { split.
    - intros j Hj Hjm. assert (pty s block ≠ Some j) by (rewrite Hp; intros [=]; lia).
      eapply row_is_ext; [eapply (received_stripe _ _ _ _ _ j); try done; [apply Hin; lia|lia]|].
      intros x. simpl. by rewrite Hst, Hns by lia.
    - eapply row_is_ext; [apply Hrow, Hin; lia|]. intros x. unfold expect.
      by rewrite decide_True, Hns.
    - assert (0 <= m < len rows) as [row E]%idx_is_Some by lia. exists row.
      split; [done|by eapply Hrr]. }
  unfold repair. rewrite wp_bind, wp_gets, wp_bind. cbn [rbufs put_rbufs].
  eapply wp_repairStripe; try done; [apply bs_nonneg|lia|lia|]. intros rows' row Hother Hm' Hlr Hx.
  rewrite wp_modify. replace (put_rbufs rows' (put_rbufs rows s)) with (put_rbufs rows' s) by done.
  apply HQ. intros i Hi Hpi. assert (i ≠ rr_hosts s - 1) as Hil by congruence.
  rewrite Hst, Hns by lia. destruct (decide (i = m)) as [->|Him]; [by exists row|].
  destruct (rp_stripe _ _ _ _ _ _ Hrep i ltac:(lia) Him) as (r & ? & ? & Hri).
  exists r. rewrite Hother by done. split_and!; [done..|]. intros x Hxr. apply Hri.
  pose proof (sz_bound bs (rr_hosts s - 1) bs_nonneg ltac:(lia) i ltac:(lia)). lia.
Qed.

(** The three join loops. *)
Lemma wp_join s block data rows d lh sk Q :
  rr_ok s → 0 <= block → len data = bs → complete s block data rows → len d = bs →
  match sk with Some k => 0 <= k < lh ∧ lh = nstripes s + 1 | None => lh = nstripes s end →
  (∀ i, 0 <= i < lh → sk ≠ Some i →
     i < rr_hosts s ∧ pty s block ≠ Some i ∧ stripe sk i = stripe (pty s block) i) →
  Q data (put_rbufs rows s) →
  wp (join_loop (Z.to_nat lh) d (nstripes s) sk 0 (first_alloc bs (nstripes s)) 0)
    (put_rbufs rows s) Q.
Proof.
  intros Hok Hb Hl Hc Hd Hlh Hpart HQ. pose proof (nstripes_pos s Hok) as Hn.
  pose proof bs_nonneg.
  assert (off bs (nstripes s) (stripe sk 0) = 0) as E0.
  { rewrite (stripe_0 (nstripes s) lh) by done. by apply off_0. }
  rewrite <-E0 at 2. eapply (wp_join_loop (nstripes s) lh sk data Hn Hlh Hl);
    [lia|destruct sk; simpl in Hlh; lia|apply Hok|by apply (alloc_first _ lh)| |done| |done].
  - intros i [Hi Hs]. destruct (Hpart i Hi Hs) as (Hih & Hp & ->). apply Hc; [lia|done].
  - rewrite E0. lia.
Qed.

Lemma hosts_guard s : rr_ok s → (2 <=? rr_hosts s) && (rr_hosts s <=? MAX_HOSTS) = true.
Proof. intros [_ _ ? _ _]. lia. Qed.

(** [rrmem_read] returns what the hosts that answer hold. *)
Lemma wp_rrmem_read lost s block data events hs d Q :
  rr_ok s → 0 <= block < rr_nblocks s → len data = bs → Forall byte_ok data →
  holds lost s block data → network s (stored s block) events hs →
  (∀ h, h ∈ hs → lost h = false) → enough s block hs → len d = bs →
  (∀ rows, Q data (put_rbufs rows s)) →
  wp (rrmem_read events block d) s Q.
Proof.
  intros Hok Hb Hl Hby Hholds Hnet Hlost Hen Hd HQ. pose proof (ro_hosts _ Hok) as Hh.
  pose proof (hosts_guard _ Hok) as Hg.
  unfold rrmem_read. rewrite wp_bind, wp_modify, wp_bind, wp_gets. cbn [rr_nblocks put_rbufs].
  rewrite (proj2 (Z.ltb_ge block 0)), (proj2 (Z.leb_gt _ block)) by lia. simpl orb. cbn iota.
  rewrite wp_bind, wp_gets, wp_bind, wp_gets, wp_bind, wp_gets.
  cbn [raid rr_hosts rr_block_size put_rbufs]. rewrite (ro_bs _ Hok).
  assert (0 <= block) as Hb0 by lia.
  pose proof (wp_join s block data) as Hjoin.
  pose proof (wp_repair s block data hs) as Hrepair.
  assert (∀ Q', (∀ rows, received s block data hs rows →
     (∀ h, 0 <= h < rr_hosts s → h ∈ hs) → Q' (-1) (put_rbufs rows s)) →
    (∀ rows m, received s block data hs rows → 0 <= m < rr_hosts s → m ∉ hs →
     (∀ h, 0 <= h < rr_hosts s → h ≠ m → h ∈ hs) → raid s ≠ 0 → Q' m (put_rbufs rows s)) →
    wp (read_raid_mem events (rr_hosts s) (needed s)) (put_rbufs zero_bufs s) Q') as Hread.
  { intros Q' H1 H2. apply (wp_read_raid_mem lost (put_rbufs zero_bufs s) block data events hs Q');
      try done; [by destruct Hok|by destruct Hnet| |].
    - intros rows [? ?] ?. by apply H1.
    - intros rows m [? ?] ????. by apply H2. }
  assert (∀ rows, received s block data hs rows →
     (∀ i, 0 <= i < rr_hosts s → pty s block ≠ Some i → i ∈ hs) → complete s block data rows)
    as Hcomplete by (intros; by eapply received_complete).
  destruct (ro_level _ Hok) as [El|[El|El]]; unfold nstripes, needed, pty, enough in *;
    rewrite El in *; cbn [Z.eqb Pos.eqb] in *;
    rewrite wp_bind; (apply wp_guard_or; [done|]); rewrite wp_bind.
  - apply Hread; [|by intros].
    intros rows Hrc Hall. cbn [Z.eqb Pos.eqb negb]. apply Hjoin; try done; [|naive_solver lia].
    apply Hcomplete; naive_solver.
  - assert (∀ rows, complete s block data rows →
      wp (join_loop (Z.to_nat (rr_hosts s - 1)) d (rr_hosts s - 1) None 0
        (first_alloc bs (rr_hosts s - 1)) 0) (put_rbufs rows s) Q) as Hj.
    { intros rows Hc. apply Hjoin; try done. intros i Hi _. split_and!; [lia|intros [=]; lia|].
      unfold stripe. by rewrite (proj2 (Z.ltb_ge (rr_hosts s - 1) i)) by lia. }
    apply Hread.
    + intros rows Hrc Hall. rewrite wp_bind. simpl orb. cbn iota. rewrite wp_ret.
      apply Hj, Hcomplete; naive_solver.
    + intros rows m Hrc Hm Hmn Hin _. rewrite wp_bind.
      rewrite (proj2 (Z.eqb_neq m (-1))) by lia. simpl orb.
      destruct (Z.eqb_spec m (rr_hosts s - 1)) as [->|Hml].
      * rewrite wp_ret. apply Hj, Hcomplete; [done|]. intros i Hi Hp. apply Hin; [done|congruence].
      * apply (Hrepair rows); try done. lia.
  - pose proof (Z.rem_bound_pos block (rr_hosts s) ltac:(lia) ltac:(lia)) as Hk.
    set (k := Z.rem block (rr_hosts s)) in *.
    assert (∀ rows, complete s block data rows →
      wp (join_loop (Z.to_nat (rr_hosts s)) d (rr_hosts s - 1) (Some k) 0
        (first_alloc bs (rr_hosts s - 1)) 0) (put_rbufs rows s) Q) as Hj.
    { intros rows Hc. apply Hjoin; try done; [lia|]. naive_solver lia. }
    apply Hread.
    + intros rows Hrc Hall. rewrite wp_bind. simpl orb. cbn iota. rewrite wp_ret.
      apply Hj, Hcomplete; naive_solver.
    + intros rows m Hrc Hm Hmn Hin _. rewrite wp_bind.
      rewrite (proj2 (Z.eqb_neq m (-1))) by lia. simpl orb.
      destruct (Z.eqb_spec m k) as [->|Hmk].
      * rewrite wp_ret. apply Hj, Hcomplete; [done|]. intros i Hi Hp. apply Hin; [done|congruence].
      * destruct (Hen eq_refl) as [Hall|[Hkn|Hkl]]; [by destruct Hmn; apply Hall| |].
        { destruct Hkn. apply Hin; [lia|congruence]. }
        rewrite Hkl in *. apply (Hrepair rows); try done. lia.
Qed.
End Store.

(** ** RAID 4 as a paging backend *)

(** The network between the client and the hosts: which host is down, and
    what [rcv_udp6_raw] returns after a write and after a read. The laws say
    that hosts that are up answer once and with what they hold, in any order,
    and that a timeout is reported for a host that is down. *)
Class RaidNet `{Config} := {
  rn_lost : Z → bool;
  rn_acks : rrmem → Z → list (option (Z * list Z));
  rn_replies : rrmem → Z → list (option (Z * list Z));
  rn_acks_ok s p : rr_ok s → raid s = 4 → ∃ reply hs, network s reply (rn_acks s p) hs;
  rn_replies_ok s p :
    rr_ok s → raid s = 4 →
    (∀ h, 0 <= h < rr_hosts s → rn_lost h = false → len (stored s p h) = BLOCK_SIZE) →
    ∃ hs, network s (stored s p) (rn_replies s p) hs ∧ ∀ h, h ∈ hs → rn_lost h = false;
}.

Section RaidDev.
Context `{Config} `{!RaidNet}.
Implicit Types (s : rrmem).

(** The page number is a [uint64_t]; the parameter of the functions is an [int]. *)
Definition rr_read_page (page : Z) (d : list Z) : M rrmem (list Z) := λ s,
  rrmem_read (rn_replies s (s32 page)) (s32 page) d s.
Definition rr_write_page (page : Z) (d : list Z) : M rrmem unit := λ s,
  rrmem_write rn_lost (rn_acks s (s32 page)) (s32 page) d s.

Record rr_inv s : Prop := {
  ri_ok : rr_ok s;
  ri_raid : raid s = 4;
  ri_int : rr_nblocks s < 2 ^ 31;
  ri_holds p : 0 <= p < rr_nblocks s → ∃ data, block_of data ∧ holds rn_lost s p data;
}.
(** The content of a block is what a read of it returns. *)
Definition rr_content s (p : Z) : list Z :=
  match rr_read_page p (replicate (Z.to_nat BLOCK_SIZE) 0) s with
  | Ok d _ => d
  | Err _ => []
  end.

Lemma holds_put_rbufs rows s p data :
  holds rn_lost (put_rbufs rows s) p data ↔ holds rn_lost s p data.
Proof. by destruct s. Qed.
Lemma rr_ok_put_rbufs rows s : rr_ok s → rr_ok (put_rbufs rows s).
Proof. by intros []. Qed.

Lemma wp_rr_read_page s p data d Q :
  rr_inv s → 0 <= p < rr_nblocks s → block_of data → holds rn_lost s p data →
  len d = BLOCK_SIZE → (∀ rows, Q data (put_rbufs rows s)) →
  wp (rr_read_page p d) s Q.
Proof.
  intros [Hok Hr Hi _] Hp [Hl Hby] Hh Hd HQ. unfold wp, rr_read_page.
  rewrite Mem.s32_small by lia. fold (wp (rrmem_read (rn_replies s p) p d) s Q).
  destruct (rn_replies_ok s p Hok Hr) as (hs & Hnet & Hlost).
  { intros h Hhr Hl0. destruct (Hh h Hhr Hl0) as (row & E & ? & _). unfold stored. by rewrite E. }
  eapply (wp_rrmem_read rn_lost s p data _ hs); try done.
  intros E. congruence.
Qed.
Lemma rr_content_holds s p data :
  rr_inv s → 0 <= p < rr_nblocks s → block_of data → holds rn_lost s p data →
  rr_content s p = data.
Proof.
  intros Hi Hp Hb Hh. unfold rr_content. pose proof BLOCK_SIZE_pos.
  assert (wp (rr_read_page p (replicate (Z.to_nat BLOCK_SIZE) 0)) s (λ d _, d = data)) as Hw.
  { eapply wp_rr_read_page; try done. apply len_replicate. lia. }
  unfold wp in Hw. by destruct (rr_read_page _ _ s).
Qed.

#[export] Program Instance rr_dev : BlockDev rrmem := {|
  bd_read := rr_read_page;
  bd_write := rr_write_page;
  bd_inv := rr_inv;
  bd_blocks := rr_nblocks;
  bd_content := rr_content;
|}.
Next Obligation.
  intros s p Hi Hp. destruct (ri_holds _ Hi p Hp) as (data & Hb & Hh).
  by rewrite (rr_content_holds s p data).
Qed.
Next Obligation.
  intros s p buf Q Hi Hp [Hbl _] HQ. destruct (ri_holds _ Hi p Hp) as (data & Hb & Hh).
  eapply wp_rr_read_page; try done. intros rows. rewrite <-(rr_content_holds s p data) by done.
  assert (rr_inv (put_rbufs rows s)) as Hi' by (destruct Hi; by split; [apply rr_ok_put_rbufs|..]).
  apply HQ; [done|done|]. intros q Hq. destruct (ri_holds _ Hi q Hq) as (dq & Hbq & Hhq).
  by rewrite (rr_content_holds s q dq), (rr_content_holds (put_rbufs rows s) q dq).
Qed.
Next Obligation.
  intros s p buf Q Hi Hp Hb HQ. pose proof Hi as [Hok Hr Hn Hh]. unfold wp, rr_write_page.
  rewrite Mem.s32_small by lia. fold (wp (rrmem_write rn_lost (rn_acks s p) p buf) s Q).
  destruct (rn_acks_ok s p Hok Hr) as (reply & hs & Hnet).
  eapply wp_mono; [by eapply wp_rrmem_write; try done; apply Hb|].
  intros [] s' [Er Eb En Eh Hok' Hh' Hother]. simpl.
  assert (∀ q dq, q ≠ p → holds rn_lost s q dq → holds rn_lost s' q dq) as Hframe.
  { intros q dq Hq Hhq i Hir Hil. rewrite Eh in Hir. destruct (Hhq i Hir Hil) as (row & E & ? & Hx).
    exists row. rewrite Hother by auto. split_and!; [done..|]. intros x Hxr. rewrite Hx by done.
    unfold expect, pty, nstripes. by rewrite Er, Eh. }
  assert (rr_inv s') as Hi'.
  { split; [done|congruence|by rewrite En|]. intros q Hq. rewrite En in Hq.
    destruct (decide (q = p)) as [->|Hne]; [by exists buf|].
    destruct (Hh q Hq) as (dq & ? & ?). exists dq. auto. }
  apply HQ; [done|done|]. intros q Hq. destruct (decide (q = p)) as [->|Hne].
  - apply rr_content_holds; rewrite ?En; done.
  - destruct (Hh q Hq) as (dq & ? & ?). rewrite (rr_content_holds s q dq) by done.
    apply rr_content_holds; rewrite ?En; auto.
Qed.
End RaidDev.

(** *** A network where host [dead] is down and the others answer in order *)
Section DeadNet.
Context `{Config} (dead : Z) (Hdead : 0 <= dead).

Definition up_hosts (hosts : Z) : list Z :=
  seqZ 0 (Z.min dead hosts) ++ seqZ (dead + 1) (hosts - (dead + 1)).
Definition in_order (reply : Z → list Z) (hosts : Z) : list (option (Z * list Z)) :=
  ((λ h, Some (h, reply h)) <$> up_hosts hosts) ++ [None].

Lemma up_hosts_elem hosts h : h ∈ up_hosts hosts ↔ 0 <= h < hosts ∧ h ≠ dead.
Proof. unfold up_hosts. rewrite elem_of_app, !elem_of_seqZ. lia. Qed.
Lemma up_hosts_NoDup hosts : NoDup (up_hosts hosts).
Proof.
  apply NoDup_app. split_and!; [apply NoDup_seqZ| |apply NoDup_seqZ].
  intros x. rewrite !elem_of_seqZ. lia.
Qed.
Lemma up_hosts_len hosts : 0 <= hosts → hosts - 1 <= len (up_hosts hosts) <= hosts.
Proof. intros. unfold up_hosts. rewrite len_app. unfold len. rewrite !length_seqZ. lia. Qed.

Lemma delivers_in_order reply hosts needed hs : ∀ i,
  i + len hs <= hosts → needed <= i + len hs →
  delivers reply hosts needed i (((λ h, Some (h, reply h)) <$> hs) ++ [None]) hs.
Proof.
  induction hs as [|h hs IH]; intros i Hle Hn; simpl.
  - rewrite len_nil in *. destruct (decide (i < hosts)); constructor; lia.
  - rewrite len_cons in *. pose proof (len_nonneg hs). constructor; [lia|]. apply IH; lia.
Qed.

Program Definition dead_net : RaidNet := {|
  rn_lost h := h =? dead;
  rn_acks s p := in_order (λ _, replicate (Z.to_nat BLOCK_SIZE) 0) (rr_hosts s);
  rn_replies s p := in_order (stored s p) (rr_hosts s);
|}.
Next Obligation.
  intros s p Hok Hr. exists (λ _, replicate (Z.to_nat BLOCK_SIZE) 0), (up_hosts (rr_hosts s)).
  pose proof (ro_hosts _ Hok). pose proof (up_hosts_len (rr_hosts s) ltac:(lia)).
  pose proof BLOCK_SIZE_pos. split.
  - apply delivers_in_order; unfold needed; rewrite ?Hr; simpl; lia.
  - apply up_hosts_NoDup.
  - intros h [? _]%up_hosts_elem. split; [done|]. apply len_replicate. lia.
Qed.
Next Obligation.
  intros s p Hok Hr Hst. exists (up_hosts (rr_hosts s)).
  pose proof (ro_hosts _ Hok). pose proof (up_hosts_len (rr_hosts s) ltac:(lia)). split.
  - split.
    + apply delivers_in_order; unfold needed; rewrite ?Hr; simpl; lia.
    + apply up_hosts_NoDup.
    + intros h [? ?]%up_hosts_elem. split; [done|]. apply Hst; [done|]. by apply Z.eqb_neq.
  - intros h [? ?]%up_hosts_elem. by apply Z.eqb_neq.
Qed.
End DeadNet.

(** A fresh array: [rrmem_allocate] with the hosts' memory zeroed, as the
    servers' [calloc] leaves it. *)
Section Fresh.
Context `{Config} `{!RaidNet}.
Definition zero_store (nblocks hosts : Z) : list (list (list Z)) :=
  replicate (Z.to_nat hosts) (replicate (Z.to_nat nblocks) (replicate (Z.to_nat BLOCK_SIZE) 0)).

Lemma xsum_0 n (f : Z → Z) : (∀ j, f j = 0) → xsum n f = 0.
Proof. intros Hf. induction n as [|n IH]; simpl; [done|]. by rewrite Hf, IH. Qed.
Lemma W_zero n j x : W BLOCK_SIZE n (replicate (Z.to_nat BLOCK_SIZE) 0) j x = 0.
Proof.
  unfold W. case_match; [|done]. unfold idx. case_match; [|done].
  destruct (_ !! _) as [y|] eqn:E; [|done]. by apply lookup_replicate in E as [-> _].
Qed.
Lemma zero_block : block_of (replicate (Z.to_nat BLOCK_SIZE) 0).
Proof.
  pose proof BLOCK_SIZE_pos. split; [apply len_replicate; lia|by apply Forall_replicate].
Qed.
Lemma fresh_holds nblocks hosts p :
  2 <= hosts <= MAX_HOSTS → 0 <= p < nblocks →
  holds rn_lost (rrmem_allocate nblocks hosts (zero_store nblocks hosts)) p
    (replicate (Z.to_nat BLOCK_SIZE) 0).
Proof.
  intros Hh Hp i Hi _. simpl in *. pose proof BLOCK_SIZE_pos.
  exists (replicate (Z.to_nat BLOCK_SIZE) 0).
  unfold blk, zero_store. rewrite idx_replicate by lia. simpl. rewrite idx_replicate by lia.
  split_and!; [done|apply len_replicate; lia|]. intros x Hx. rewrite idx_replicate by done.
  f_equal. unfold expect. case_decide; [|by rewrite W_zero].
  unfold P. rewrite xsum_0; [done|]. intros. apply W_zero.
Qed.
Lemma fresh_inv nblocks hosts :
  0 <= nblocks < 2 ^ 31 → 2 <= hosts <= MAX_HOSTS →
  rr_inv (rrmem_allocate nblocks hosts (zero_store nblocks hosts)).
Proof.
  intros Hn Hh. split; [|done|simpl; lia|].
  - split; simpl; [auto|done|lia|apply len_replicate; lia|]. unfold zero_store. intros i bl.
    unfold idx. case_match; [|done]. intros [-> _]%lookup_replicate. apply len_replicate. lia.
  - intros p Hp. simpl in Hp. eexists. split; [apply zero_block|by apply fresh_holds].
Qed.
End Fresh.
