(* ===== verification/Bitmap.v ===== *)
(** * The swap bitmap of the simulator: src/legacy/OldPageTable/experiment/swap.c

    A vector of 32-bit words, one bit per swap slot, with the bits past the
    end marked as used. Not used by [swap_pageout] any more, which asks a
    server for the memory of a page. *)

From S2P Require Import Prelude.

Definition BITS_PER_WORD : Z := 32.
Definition WORD_ALLBITS : Z := 4294967295.
(** On [unsigned]: the sum wraps. *)
Definition DIVROUNDUP (a b : Z) : Z := u32 (u32 (a + b) - 1) / b.

Record bitmap := MkBitmap { nbits : Z; v : list Z }.
Definition put_v (x : list Z) (b : bitmap) : bitmap := MkBitmap (nbits b) x.

Definition mask_of (offset : Z) : Z := u32 (Z.shiftl 1 offset).
(** [w |= mask] and [w &= ~mask]. *)
Definition set_bits (w mask : Z) : Z := Z.lor w mask.
Definition clear_bits (w mask : Z) : Z := Z.land w (u32 (Z.lnot mask)).

(** [for (j = overbits; j < BITS_PER_WORD; j++) v[ix] |= 1 << j] *)
Definition mark_over (ix j : Z) : M bitmap unit :=
  w ← aload v ix;
  astore v put_v ix (set_bits w (mask_of j)).
(** [m1] and [m2] say whether the two calls of [malloc] succeed. *)
Definition bitmap_create (m1 m2 : bool) (n : Z) : M unit (option bitmap) :=
  let words := DIVROUNDUP n BITS_PER_WORD in
  if negb m1 then mret None else
  if negb m2 then mret None else
  let b := MkBitmap n (replicate (Z.to_nat words) 0) in
  if n / BITS_PER_WORD <? words then
    let ix := u32 (words - 1) in
    let overbits := u32 (n - u32 (ix * BITS_PER_WORD)) in
    guard_or (n / BITS_PER_WORD =? u32 (words - 1)) AssertFail;;
    guard_or ((0 <? overbits) && (overbits <? BITS_PER_WORD)) AssertFail;;
    match for_range overbits BITS_PER_WORD (mark_over ix) b with
    | Ok _ b => mret (Some b)
    | Err e => err e
    end
  else mret (Some b).

(** The inner loop: the first clear bit from [offset] on. *)
Fixpoint find_bit (n : nat) (w offset : Z) : option Z :=
  match n with
  | O => None
  | S n => if Z.land w (mask_of offset) =? 0 then Some offset else find_bit n w (offset + 1)
  end.
(** [*index], or nothing for the return value 1. *)
Fixpoint alloc_loop (n : nat) (ix : Z) : M bitmap (option Z) :=
  match n with
  | O => mret None
  | S n =>
      w ← aload v ix;
      if w =? WORD_ALLBITS then alloc_loop n (ix + 1) else
      match find_bit 32 w 0 with
      | Some offset =>
          astore v put_v ix (set_bits w (mask_of offset));;
          let index := u32 (u32 (ix * BITS_PER_WORD) + offset) in
          nb ← gets nbits;
          guard_or (index <? nb) AssertFail;;
          mret (Some index)
      | None => err AssertFail
      end
  end.
Definition bitmap_alloc : M bitmap (option Z) :=
  nb ← gets nbits;
  alloc_loop (Z.to_nat (DIVROUNDUP nb BITS_PER_WORD)) 0.

Definition bitmap_translate (bitno : Z) : Z * Z :=
  (bitno / BITS_PER_WORD, mask_of (bitno mod BITS_PER_WORD)).
Definition bitmap_mark (index : Z) : M bitmap unit :=
  nb ← gets nbits;
  guard_or (index <? nb) AssertFail;;
  let '(ix, mask) := bitmap_translate index in
  w ← aload v ix;
  guard_or (Z.land w mask =? 0) AssertFail;;
  astore v put_v ix (set_bits w mask).
Definition bitmap_unmark (index : Z) : M bitmap unit :=
  nb ← gets nbits;
  guard_or (index <? nb) AssertFail;;
  let '(ix, mask) := bitmap_translate index in
  w ← aload v ix;
  guard_or (negb (Z.land w mask =? 0)) AssertFail;;
  astore v put_v ix (clear_bits w mask).
Definition bitmap_isset (index : Z) : M bitmap Z :=
  let '(ix, mask) := bitmap_translate index in
  w ← aload v ix;
  mret (Z.land w mask).

(** ** Bits of a word *)

Definition word_ok (w : Z) : Prop := 0 <= w < 2 ^ 32.

Lemma mask_pow o : 0 <= o < 32 → mask_of o = 2 ^ o.
Proof.
  intros Ho. unfold mask_of. rewrite Z.shiftl_1_l. apply u32_small.
  pose proof (Z.pow_lt_mono_r 2 o 32). pose proof (Z.pow_pos_nonneg 2 o). lia.
Qed.
Lemma land_mask w o : 0 <= o < 32 → (Z.land w (mask_of o) =? 0) = negb (Z.testbit w o).
Proof.
  intros Ho. rewrite mask_pow by done. destruct (Z.testbit w o) eqn:E; simpl.
  - apply Z.eqb_neq. intros Hz. assert (Z.testbit (Z.land w (2 ^ o)) o = false) as Hf by by rewrite Hz, Z.bits_0.
    by rewrite Z.land_spec, E, Z.pow2_bits_true in Hf by lia.
  - apply Z.eqb_eq. apply Z.bits_inj'. intros m Hm. rewrite Z.land_spec, Z.bits_0.
    destruct (decide (o = m)) as [<-|]; [by rewrite E|].
    by rewrite Z.pow2_bits_false, andb_false_r.
Qed.
Lemma set_bits_spec w o m : 0 <= o < 32 → 0 <= m →
  Z.testbit (set_bits w (mask_of o)) m = Z.testbit w m || (o =? m).
Proof.
  intros Ho Hm. unfold set_bits. rewrite mask_pow, Z.lor_spec, Z.pow2_bits_eqb by lia. done.
Qed.
Lemma set_bits_ok w o : word_ok w → 0 <= o < 32 → word_ok (set_bits w (mask_of o)).
Proof.
  intros Hw Ho. apply lor_u32; [done|]. unfold mask_of, u32. apply Z.mod_pos_bound. lia.
Qed.
Lemma clear_bits_spec w o m : word_ok w → 0 <= o < 32 → 0 <= m →
  Z.testbit (clear_bits w (mask_of o)) m = Z.testbit w m && negb (o =? m).
Proof.
  intros Hw Ho Hm. unfold clear_bits, u32. rewrite mask_pow by done.
  rewrite <-Z.land_ones by lia. rewrite !Z.land_spec, Z.lnot_spec by done.
  rewrite Z.pow2_bits_eqb by lia. destruct (decide (m < 32)).
  - by rewrite Z.ones_spec_low, andb_true_r by lia.
  - assert (Z.testbit w m = false) as ->; [|done].
    rewrite <-(Z.mod_small w (2 ^ 32)) by done. apply Z.mod_pow2_bits_high. lia.
Qed.
Lemma word_ext w w' : word_ok w → word_ok w' →
  (∀ o, 0 <= o < 32 → Z.testbit w o = Z.testbit w' o) → w = w'.
Proof.
  intros Hw Hw' Hb. apply Z.bits_inj'. intros m Hm. destruct (decide (m < 32)); [by apply Hb|].
  rewrite <-(Z.mod_small w (2 ^ 32)), <-(Z.mod_small w' (2 ^ 32)) by done.
  by rewrite !Z.mod_pow2_bits_high by lia.
Qed.
Lemma clear_bits_ok w o : word_ok w → word_ok (clear_bits w (mask_of o)).
Proof.
  intros Hw. unfold clear_bits, u32. set (x := Z.lnot _ mod 2 ^ 32).
  assert (0 <= x) by (apply Z.mod_pos_bound; lia). split; [apply Z.land_nonneg; unfold word_ok in Hw; lia|].
  unfold word_ok in Hw. pose proof (Z.land_nonneg w x).
  destruct (decide (Z.land w x = 0)) as [->|]; [done|]. apply Z.log2_lt_pow2; [lia|].
  pose proof (Z.log2_land w x ltac:(lia) ltac:(lia)).
  destruct (decide (w = 0)) as [->|]; [by rewrite Z.land_0_l in *|].
  pose proof (proj1 (Z.log2_lt_pow2 w 32 ltac:(lia)) ltac:(lia)). lia.
Qed.
Lemma find_bit_spec n : ∀ w o, 0 <= o → o + Z.of_nat n <= 32 →
  match find_bit n w o with
  | Some k => o <= k < o + Z.of_nat n ∧ Z.testbit w k = false ∧ ∀ j, o <= j < k → Z.testbit w j = true
  | None => ∀ j, o <= j < o + Z.of_nat n → Z.testbit w j = true
  end.
Proof.
  induction n as [|n IH]; intros w o Ho Hn; cbn [find_bit]; [lia|].
  rewrite land_mask by lia. destruct (Z.testbit w o) eqn:E; simpl.
  - specialize (IH w (o + 1) ltac:(lia) ltac:(lia)). destruct (find_bit n w (o + 1)) as [k|].
    + destruct IH as (Hk & Hc & Hs). split_and!; [lia|lia|done|]. intros j Hj.
      destruct (decide (j = o)) as [->|]; [done|]. apply Hs. lia.
    + intros j Hj. destruct (decide (j = o)) as [->|]; [done|]. apply IH. lia.
  - split_and!; [lia|lia|done|lia].
Qed.

(** ** The bits of a bitmap *)

Definition bit (b : bitmap) (i : Z) : bool :=
  Z.testbit (default 0 (idx (v b) (i / 32))) (i mod 32).
(** The vector covers the bits, and the bits past the end are in use. *)
Record bm_ok (b : bitmap) : Prop := {
  bm_nbits : 0 <= nbits b <= 2 ^ 32 - 32;
  bm_len : len (v b) = (nbits b + 31) / 32;
  bm_words : Forall word_ok (v b);
  bm_over i : nbits b <= i < 32 * len (v b) → bit b i = true;
}.

Lemma words_covered n : 0 <= n <= 2 ^ 32 - 32 → DIVROUNDUP n 32 = (n + 31) / 32.
Proof.
  intros Hn. unfold DIVROUNDUP. destruct (decide (n = 2 ^ 32 - 32)) as [->|]; [reflexivity|].
  rewrite (u32_small (n + 32)), u32_small by lia. f_equal. lia.
Qed.
Lemma word_of b ix w : bm_ok b → idx (v b) ix = Some w → word_ok w.
Proof.
  intros Hb Hw. apply (proj1 (Forall_forall _ _) (bm_words b Hb)), list_elem_of_lookup.
  unfold idx in Hw. destruct (0 <=? ix); [eauto|done].
Qed.
Lemma split_bit i ix o : 0 <= o < 32 → i = 32 * ix + o → i / 32 = ix ∧ i mod 32 = o.
Proof. intros Ho ->. split; symmetry; [apply (Z.div_unique _ _ _ o)|apply (Z.mod_unique _ _ ix)]; lia. Qed.
Lemma bit_at b ix w o : idx (v b) ix = Some w → 0 <= o < 32 → bit b (32 * ix + o) = Z.testbit w o.
Proof.
  intros Hw Ho. unfold bit. destruct (split_bit (32 * ix + o) ix o) as [-> ->]; [done|done|].
  by rewrite Hw.
Qed.
(** Storing a word changes its own bits only. *)
Lemma bit_upd b ix w w' i : idx (v b) ix = Some w →
  bit (put_v (upd (v b) ix w') b) i = if decide (i / 32 = ix) then Z.testbit w' (i mod 32) else bit b i.
Proof.
  intros Hw. unfold bit. simpl. pose proof (idx_Some_range _ _ _ Hw). rewrite idx_upd by lia.
  destruct (decide (i / 32 = ix)) as [->|Hne]; [by rewrite decide_True|by rewrite decide_False].
Qed.
Lemma bit_set b ix w o i : idx (v b) ix = Some w → 0 <= o < 32 →
  bit (put_v (upd (v b) ix (set_bits w (mask_of o))) b) i = bit b i || (i =? 32 * ix + o).
Proof.
  intros Hw Ho. rewrite (bit_upd _ _ w) by done. pose proof (Z.mod_pos_bound i 32 ltac:(lia)).
  pose proof (Z.div_mod i 32 ltac:(lia)) as Hi. destruct (decide (i / 32 = ix)) as [<-|Hne].
  - rewrite set_bits_spec by lia. unfold bit. rewrite Hw. simpl. f_equal.
    destruct (Z.eqb_spec o (i mod 32)), (Z.eqb_spec i (32 * (i / 32) + o)); lia.
  - destruct (Z.eqb_spec i (32 * ix + o)) as [E|]; [|by rewrite orb_false_r].
    destruct (split_bit i ix o); [done..|]. lia.
Qed.
Lemma set_ok b ix w o : bm_ok b → idx (v b) ix = Some w → 0 <= o < 32 →
  bm_ok (put_v (upd (v b) ix (set_bits w (mask_of o))) b).
Proof.
  intros Hb Hw Ho. pose proof (word_of b ix w Hb Hw). destruct Hb as [Hn Hl Hf Hov].
  split; simpl; [done| | |].
  - by rewrite len_upd.
  - apply Forall_insert; [done|]. by apply set_bits_ok.
  - rewrite len_upd. intros i Hi. rewrite bit_set by done. by rewrite Hov.
Qed.

(** ** Creation *)

Lemma bit_zero n k i : bit (MkBitmap n (replicate k 0)) i = false.
Proof.
  unfold bit. simpl. destruct (idx (replicate k 0) (i / 32)) as [w|] eqn:E; simpl; [|apply Z.bits_0].
  unfold idx in E. destruct (0 <=? i / 32); [|done]. apply lookup_replicate in E as [-> _]. apply Z.bits_0.
Qed.
(** The loop over the bits past the end. *)
Lemma wp_mark_over b ix lo : 0 <= lo <= 32 → 0 <= ix < len (v b) → Forall word_ok (v b) →
  wp (for_range lo 32 (mark_over ix)) b (λ _ b', nbits b' = nbits b ∧ len (v b') = len (v b) ∧
    Forall word_ok (v b') ∧
    ∀ i, 0 <= i → bit b' i = bit b i || ((32 * ix + lo <=? i) && (i <? 32 * ix + 32))).
Proof.
  intros Hlo Hix Hw.
  eapply (wp_for_range (λ j b', nbits b' = nbits b ∧ len (v b') = len (v b) ∧ Forall word_ok (v b') ∧
    ∀ i, 0 <= i → bit b' i = bit b i || ((32 * ix + lo <=? i) && (i <? 32 * ix + j))));
    [lia| |intros j b' Hj (Hn & Hl & Hf & Hb)|intros b' HI; exact HI].
  - split_and!; [done..|]. intros i Hi. destruct (Z.leb_spec (32 * ix + lo) i), (Z.ltb_spec i (32 * ix + lo));
      try lia; by rewrite orb_false_r.
  - unfold mark_over. rewrite wp_bind. destruct (idx_is_Some (v b') ix) as [w Ew]; [lia|].
    eapply wp_aload; [done|]. eapply wp_astore; [lia|]. simpl.
    assert (word_ok w) as Hok.
    { apply (proj1 (Forall_forall _ _) Hf), list_elem_of_lookup. unfold idx in Ew.
      destruct (0 <=? ix); [eauto|done]. }
    split_and!; [done|by rewrite len_upd| |].
    + apply Forall_insert; [done|]. apply set_bits_ok; [done|lia].
    + intros i Hi. rewrite bit_set by (done || lia). rewrite Hb by done. rewrite <-orb_assoc. f_equal.
      destruct (Z.leb_spec (32 * ix + lo) i), (Z.ltb_spec i (32 * ix + j)), (Z.eqb_spec i (32 * ix + j)),
        (Z.ltb_spec i (32 * ix + (j + 1))); simpl; lia.
Qed.

Lemma word_count n : 0 <= n → n / 32 < (n + 31) / 32 → n mod 32 ≠ 0 ∧ (n + 31) / 32 = n / 32 + 1.
Proof.
  intros Hn Hlt. pose proof (Z.div_mod n 32 ltac:(lia)). pose proof (Z.mod_pos_bound n 32 ltac:(lia)).
  pose proof (Z.div_mod (n + 31) 32 ltac:(lia)). pose proof (Z.mod_pos_bound (n + 31) 32 ltac:(lia)). lia.
Qed.

(** C34: [bitmap_create] never trips an assertion: for at most 2^32-32 slots
    the bitmap covers them, all of them free, and every bit past the end is in
    use. *)
Theorem bitmap_create_all_free n : 0 <= n <= 2 ^ 32 - 32 →
  ∃ b, bitmap_create true true n tt = Ok (Some b) tt ∧ bm_ok b ∧ nbits b = n ∧
    ∀ i, 0 <= i < n → bit b i = false.
Proof.
  intros Hn. unfold bitmap_create. simpl. change BITS_PER_WORD with 32. rewrite words_covered by done.
  set (words := (n + 31) / 32). set (b := MkBitmap n (replicate (Z.to_nat words) 0)).
  assert (0 <= words) as Hw by (apply Z.div_pos; lia).
  assert (len (v b) = words) as Hl by by apply len_replicate.
  assert (Forall word_ok (v b)) as Hf by by apply Forall_replicate.
  destruct (Z.ltb_spec (n / 32) words) as [Hlt|Hge].
  - destruct (word_count n ltac:(lia) Hlt) as [Hne Ew]. pose proof (Z.div_mod n 32 ltac:(lia)) as Ed.
    pose proof (Z.mod_pos_bound n 32 ltac:(lia)). fold words in Ew.
    assert (n / 32 < 2 ^ 27) by (apply Z.div_lt_upper_bound; lia). pose proof (Z.div_pos n 32 ltac:(lia)).
    rewrite (u32_small (words - 1)), (u32_small ((words - 1) * 32)), u32_small by lia.
    replace (words - 1) with (n / 32) by lia. replace (n - n / 32 * 32) with (n mod 32) by lia.
    rewrite Z.eqb_refl. rewrite (proj2 (Z.ltb_lt 0 (n mod 32))), (proj2 (Z.ltb_lt (n mod 32) 32)) by lia. simpl.
    pose proof (wp_mark_over b (n / 32) (n mod 32) ltac:(lia) ltac:(lia) Hf) as Hm.
    apply wp_ok in Hm as ([] & b' & E & Hn' & Hl' & Hf' & Hb'). exists b'.
    unfold mbind, M_bind, mret, M_ret. rewrite E. split; [done|].
    split; [|split; [done|]].
    + split; [by rewrite Hn'|by rewrite Hl', Hl, Hn'|done|]. rewrite Hn', Hl', Hl, Ew. simpl. intros i Hi.
      rewrite Hb' by lia. rewrite (proj2 (Z.leb_le _ _)), (proj2 (Z.ltb_lt _ _)) by lia. by rewrite orb_true_r.
    + intros i Hi. rewrite Hb' by lia. unfold b. rewrite bit_zero. apply andb_false_iff. left. apply Z.leb_gt. lia.
  - exists b. split; [done|]. split; [|split; [done|intros i _; apply bit_zero]].
    split; simpl; [done|done|done|]. intros i Hi. rewrite len_replicate in Hi by done.
    pose proof (Z.div_mod n 32 ltac:(lia)). pose proof (Z.mod_pos_bound n 32 ltac:(lia)).
    assert (words * 32 <= n) by lia. lia.
Qed.

(** ** Allocation *)

Lemma allbits_true o : 0 <= o < 32 → Z.testbit WORD_ALLBITS o = true.
Proof. intros Ho. change WORD_ALLBITS with (Z.ones 32). by apply Z.ones_spec_low. Qed.
Lemma all_set w : word_ok w → (∀ o, 0 <= o < 32 → Z.testbit w o = true) → w = WORD_ALLBITS.
Proof.
  intros Hw Ha. apply word_ext; [done|by unfold word_ok, WORD_ALLBITS|].
  intros o Ho. by rewrite Ha, allbits_true.
Qed.
(** What a run of the search gives from word [ix] on. *)
Definition alloc_post (b : bitmap) (ix : Z) (r : option Z) (b' : bitmap) : Prop :=
  match r with
  | Some i =>
      ∃ w o, idx (v b) (i / 32) = Some w ∧ 0 <= o < 32 ∧ i = 32 * (i / 32) + o ∧ ix <= i / 32 ∧
        i < nbits b ∧ bit b i = false ∧
        (∀ j, 32 * ix <= j < i → bit b j = true) ∧
        b' = put_v (upd (v b) (i / 32) (set_bits w (mask_of o))) b
  | None => b' = b ∧ ∀ j, 32 * ix <= j < 32 * len (v b) → bit b j = true
  end.
Lemma wp_alloc_loop n : ∀ ix b, bm_ok b → 0 <= ix → ix + Z.of_nat n = len (v b) →
  wp (alloc_loop n ix) b (alloc_post b ix).
Proof.
  induction n as [|n IH]; intros ix b Hb Hix Hn; cbn [alloc_loop].
  { rewrite wp_ret. split; [done|lia]. }
  rewrite wp_bind. destruct (idx_is_Some (v b) ix) as [w Ew]; [lia|]. eapply wp_aload; [done|].
  pose proof (word_of b ix w Hb Ew) as Hw.
  assert (∀ j, 32 * ix <= j < 32 * (ix + 1) → bit b j = Z.testbit w (j - 32 * ix)) as Hbit.
  { intros j Hj. rewrite <-(bit_at b ix w) by (done || lia). f_equal. lia. }
  destruct (Z.eqb_spec w WORD_ALLBITS) as [->|Hne].
  - eapply wp_mono; [apply IH; [done|lia|lia]|].
    assert (∀ j, 32 * ix <= j < 32 * (ix + 1) → bit b j = true) as Hfull.
    { intros j Hj. rewrite Hbit by done. apply allbits_true. lia. }
    intros [i|] b'; simpl.
    + intros (w & o & E & Ho & Ei & Hge & Hlt & Hc & Hs & ->). exists w, o. split_and!; try done; [lia..|].
      intros j Hj. destruct (decide (j < 32 * (ix + 1))); [apply Hfull|apply Hs]; lia.
    + intros [-> Hs]. split; [done|]. intros j Hj.
      destruct (decide (j < 32 * (ix + 1))); [apply Hfull|apply Hs]; lia.
  - pose proof (find_bit_spec 32 w 0 ltac:(lia) ltac:(lia)) as Hf.
    destruct (find_bit 32 w 0) as [o|]; [|destruct Hne; apply all_set; [done|apply Hf]].
    destruct Hf as (Ho & Hc & Hs).
    assert (32 * ix + o < nbits b) as Hin.
    { destruct (decide (32 * ix + o < nbits b)); [done|]. pose proof (bm_over b Hb (32 * ix + o) ltac:(lia)) as Ht.
      by rewrite (bit_at b ix w), Hc in Ht by (done || lia). }
    pose proof (bm_nbits b Hb). rewrite wp_bind. eapply wp_astore; [lia|]. wp_pure.
    change BITS_PER_WORD with 32. rewrite (u32_small (ix * 32)), u32_small by lia.
    apply wp_guard_or; [apply Z.ltb_lt; simpl; lia|]. rewrite wp_ret.
    replace (ix * 32 + o) with (32 * ix + o) by lia. simpl.
    destruct (split_bit (32 * ix + o) ix o) as [-> _]; [lia|done|].
    exists w, o. split_and!; try done; try lia.
    + by rewrite (bit_at b ix w).
    + intros j Hj. rewrite Hbit by lia. apply Hs. lia.
Qed.
Lemma wp_bitmap_alloc b : bm_ok b → wp bitmap_alloc b (alloc_post b 0).
Proof.
  intros Hb. unfold bitmap_alloc. rewrite wp_bind, wp_gets. change BITS_PER_WORD with 32.
  rewrite words_covered by apply Hb. rewrite <-(bm_len b Hb). apply wp_alloc_loop; [done|lia|].
  unfold len. lia.
Qed.

(** [bitmap_alloc] takes the lowest free slot, marks that one and no
    other, and fails exactly when no slot is free; none of its assertions can
    fail. *)
Theorem bitmap_alloc_takes_lowest b : bm_ok b →
  wp bitmap_alloc b (λ r b', bm_ok b' ∧ nbits b' = nbits b ∧
    match r with
    | Some i => 0 <= i < nbits b ∧ bit b i = false ∧ (∀ j, 0 <= j < i → bit b j = true) ∧
        ∀ j, bit b' j = bit b j || (j =? i)
    | None => b' = b ∧ ∀ j, 0 <= j < nbits b → bit b j = true
    end).
Proof.
  intros Hb. eapply wp_mono; [by apply wp_bitmap_alloc|]. intros [i|] b'; simpl.
  - intros (w & o & E & Ho & Ei & Hge & Hlt & Hc & Hs & ->). split_and!; [by apply set_ok|done|lia|done|done|done|].
    intros j. rewrite bit_set by done. by rewrite <-Ei.
  - intros [-> Hs]. split_and!; [done..|]. intros j Hj. apply Hs. split; [lia|].
    destruct Hb as [Hn Hl _ _]. rewrite Hl. pose proof (Z.div_mod (nbits b + 31) 32 ltac:(lia)).
    pose proof (Z.mod_pos_bound (nbits b + 31) 32 ltac:(lia)). lia.
Qed.

(** Giving back the slot [bitmap_alloc] returned restores the bitmap word
    for word. *)
Theorem alloc_unmark_restores b : bm_ok b →
  wp (i ← bitmap_alloc; match i with Some i => bitmap_unmark i | None => mret tt end) b
    (λ _ b', b' = b).
Proof.
  intros Hb. rewrite wp_bind. eapply wp_mono; [by apply wp_bitmap_alloc|]. intros [i|] b'; simpl.
  - intros (w & o & E & Ho & Ei & Hge & Hlt & Hc & Hs & ->). pose proof (word_of b _ w Hb E) as Hw.
    pose proof (idx_Some_range _ _ _ E). set (ix := i / 32) in *.
    assert (i mod 32 = o) as Hm by (by destruct (split_bit i ix o)).
    unfold bitmap_unmark, bitmap_translate. wp_pure. change BITS_PER_WORD with 32. fold ix. rewrite Hm.
    apply wp_guard_or; [by apply Z.ltb_lt|]. rewrite wp_bind.
    eapply wp_aload; [apply idx_upd_eq; lia|]. rewrite wp_bind. apply wp_guard_or.
    { rewrite land_mask, set_bits_spec by lia. by rewrite Z.eqb_refl, orb_true_r. }
    eapply wp_astore; simpl; [rewrite len_upd; lia|]. rewrite upd_upd.
    assert (clear_bits (set_bits w (mask_of o)) (mask_of o) = w) as ->.
    { apply word_ext; [by apply clear_bits_ok, set_bits_ok|done|]. intros k Hk.
      rewrite clear_bits_spec, set_bits_spec by (done || lia || by apply set_bits_ok).
      destruct (Z.eqb_spec o k) as [<-|]; [|by rewrite orb_false_r, andb_true_r].
      rewrite andb_false_r. rewrite Ei, (bit_at b ix w) in Hc by done. by rewrite Hc. }
    destruct b as [nb l]. simpl in *. unfold put_v. f_equal. unfold upd. apply list_insert_id.
    unfold idx in E. by destruct (0 <=? ix).
  - by intros [-> _].
Qed.

(** C35: For the last 31 sizes of an [unsigned] the rounding in [DIVROUNDUP]
    wraps to no words at all, so the bitmap is created but holds no slot. *)
Theorem bitmap_size_wraps n : 2 ^ 32 - 31 <= n < 2 ^ 32 →
  bitmap_create true true n tt = Ok (Some (MkBitmap n [])) tt ∧
  bitmap_alloc (MkBitmap n []) = Ok None (MkBitmap n []).
Proof.
  intros Hn. assert (DIVROUNDUP n BITS_PER_WORD = 0) as E.
  { unfold DIVROUNDUP, BITS_PER_WORD, u32 at 2.
    replace (n + 32) with (n - (2 ^ 32 - 32) + 1 * 2 ^ 32) by lia. rewrite Z_mod_plus_full, Z.mod_small by lia.
    rewrite u32_small by lia. apply Z.div_small. lia. }
  unfold bitmap_create, bitmap_alloc, gets, mbind, M_bind. simpl. rewrite E. simpl.
  assert (0 <= n / BITS_PER_WORD) by (apply Z.div_pos; unfold BITS_PER_WORD; lia).
  by rewrite (proj2 (Z.ltb_ge _ _)).
Qed.

(** ** A bitmap of 40 slots *)

Definition slots40 : bitmap := MkBitmap 40 [4294967295; 4294967041].
Lemma slots40_ok : bm_ok slots40.
Proof.
  split; [simpl; lia|reflexivity|simpl; rewrite !Forall_cons; unfold word_ok; split_and!; try lia; apply Forall_nil_2|].
  intros i Hi. simpl in Hi. change (len [4294967295; 4294967041]) with 2 in Hi.
  assert (Forall (λ i, bit slots40 i = true) (seqZ 40 24)) as Hf by (vm_compute; repeat constructor).
  apply (proj1 (Forall_forall _ _) Hf). apply elem_of_seqZ. lia.
Qed.
Lemma bitmap_create_all_free_witness :
  ∃ b, bitmap_create true true 40 tt = Ok (Some b) tt ∧ bm_ok b ∧ nbits b = 40 ∧
    ∀ i, 0 <= i < 40 → bit b i = false.
Proof. apply bitmap_create_all_free. lia. Defined.
Lemma bitmap_alloc_takes_lowest_witness :
  wp bitmap_alloc slots40 (λ r b', bm_ok b' ∧ nbits b' = nbits slots40 ∧
    match r with
    | Some i => 0 <= i < nbits slots40 ∧ bit slots40 i = false ∧ (∀ j, 0 <= j < i → bit slots40 j = true) ∧
        ∀ j, bit b' j = bit slots40 j || (j =? i)
    | None => b' = slots40 ∧ ∀ j, 0 <= j < nbits slots40 → bit slots40 j = true
    end) ∧
  bitmap_alloc slots40 = Ok (Some 33) (MkBitmap 40 [4294967295; 4294967043]).
Proof. split; [apply bitmap_alloc_takes_lowest, slots40_ok|reflexivity]. Defined.
Lemma alloc_unmark_restores_witness :
  wp (i ← bitmap_alloc; match i with Some i => bitmap_unmark i | None => mret tt end) slots40
    (λ _ b', b' = slots40).
Proof. apply alloc_unmark_restores, slots40_ok. Defined.
Lemma bitmap_size_wraps_witness :
  bitmap_create true true 4294967295 tt = Ok (Some (MkBitmap 4294967295 [])) tt ∧
  bitmap_alloc (MkBitmap 4294967295 []) = Ok None (MkBitmap 4294967295 []).
Proof. apply bitmap_size_wraps. lia. Defined.
