(* ===== verification/SimLru.v ===== *)
(** * The LRU queue of the simulator: src/legacy/OldPageTable/experiment/lru.c

    A singly linked list of frame numbers with [malloc]ed nodes, the least
    recently used frame at the head, and a flag per frame that says whether
    the list has it. [lru_rep s l] says that the pointer structure of [s] is
    exactly the list [l] of (node, frame) pairs. *)

From S2P Require Import Prelude Bytes.

Record llnode := LlNode { ll_frame : Z; ll_next : ptr }.
Record lru := Lru {
  lru_nodes : gmap loc llnode;
  lru_head : ptr;
  lru_tail : ptr;
  lru_refed : list bool;
}.
#[export] Program Instance lru_heap : HasHeap lru llnode := {|
  heap_of := lru_nodes;
  set_heap h s := Lru h (lru_head s) (lru_tail s) (lru_refed s);
|}.
Solve Obligations with (by intros; try match goal with s : lru |- _ => destruct s end).

Definition put_refed (x : list bool) (s : lru) := Lru (lru_nodes s) (lru_head s) (lru_tail s) x.
Definition put_head (p : ptr) (s : lru) := Lru (lru_nodes s) p (lru_tail s) (lru_refed s).
Definition put_tail (p : ptr) (s : lru) := Lru (lru_nodes s) (lru_head s) p (lru_refed s).
Definition set_ll_next (p : ptr) (n : llnode) : llnode := LlNode (ll_frame n) p.

Section operations.
Context `{Malloc}.

Definition lru_init (memsize : Z) : M lru unit :=
  modify (put_head None);;
  modify (put_tail None);;
  modify (put_refed (replicate (Z.to_nat memsize) false)).

Definition lru_evict : M lru Z :=
  head ← gets lru_head;
  guard_or (negb (is_null head)) AssertFail;;
  n ← load head;
  let frame := ll_frame n in
  tail ← gets lru_tail;
  when (ptr_eqb head tail) (modify (put_tail None));;
  refed ← aload lru_refed frame;
  guard_or refed AssertFail;;
  astore lru_refed put_refed frame false;;
  n ← load head;
  free head;;
  modify (put_head (ll_next n));;
  mret frame.

(** [while (pn->frame != frame)]: the pair of [prev] and [pn]. *)
Fixpoint find_frame (fuel : nat) (frame : Z) (prev pn : ptr) : M lru (ptr * ptr) :=
  n ← load pn;
  if ll_frame n =? frame then mret (prev, pn) else
  match fuel with
  | O => err Hang
  | S fuel => find_frame fuel frame pn (ll_next n)
  end.
(** The last reference of the frame leaves the list. *)
Definition remove_old (frame : Z) : M lru unit :=
  pn ← gets lru_head;
  fuel ← gets (λ s, size (lru_nodes s));
  '(prev, pn) ← find_frame fuel frame None pn;
  n ← load pn;
  if negb (is_null prev) then
    store prev (set_ll_next (ll_next n));;
    free pn
  else
    modify (put_head (ll_next n));;
    free pn;;
    head ← gets lru_head;
    when (is_null head) (modify (put_tail None)).
Definition lru_ref (frame : Z) : M lru unit :=
  refed ← aload lru_refed frame;
  if negb refed then
    astore lru_refed put_refed frame true;;
    new_node ← malloc (LlNode frame None);
    tail ← gets lru_tail;
    if is_null tail
    then modify (put_tail new_node);; tail ← gets lru_tail; modify (put_head tail)
    else store tail (set_ll_next new_node);; modify (put_tail new_node)
  else
    new_node ← malloc (LlNode frame None);
    tail ← gets lru_tail;
    store tail (set_ll_next new_node);;
    modify (put_tail new_node);;
    remove_old frame.
End operations.

(** ** The list in the heap *)

Definition hd_node (l : list (loc * Z)) (q : ptr) : ptr :=
  match l with [] => q | x :: _ => Some x.1 end.
Definition last_node (l : list (loc * Z)) : ptr :=
  match last l with None => None | Some x => Some x.1 end.
(** The heap is a function of the list. *)
Fixpoint nodes_of (l : list (loc * Z)) (q : ptr) : gmap loc llnode :=
  match l with
  | [] => ∅
  | x :: l => <[x.1 := LlNode x.2 (hd_node l q)]> (nodes_of l q)
  end.

Lemma nodes_None l q p : p ∉ l.*1 → nodes_of l q !! p = None.
Proof.
  induction l as [|x l IH]; simpl; [done|]. intros [??]%not_elem_of_cons.
  rewrite lookup_insert_ne by done. by apply IH.
Qed.
Lemma nodes_app l1 l2 q : nodes_of (l1 ++ l2) q = nodes_of l1 (hd_node l2 q) ∪ nodes_of l2 q.
Proof.
  induction l1 as [|x l1 IH]; simpl; [by rewrite map_empty_union|]. rewrite IH, insert_union_l. f_equal.
  by destruct l1.
Qed.
Lemma nodes_mid l1 x l2 q : NoDup (l1 ++ x :: l2).*1 →
  nodes_of (l1 ++ x :: l2) q !! x.1 = Some (LlNode x.2 (hd_node l2 q)).
Proof.
  rewrite fmap_app. simpl. intros (Hnd & Hdis & _)%NoDup_app. rewrite nodes_app, lookup_union_r.
  - simpl. by rewrite lookup_insert_eq.
  - apply nodes_None. intros Hin. apply (Hdis _ Hin). by left.
Qed.
Lemma nodes_dom l q : dom (nodes_of l q) = list_to_set l.*1.
Proof. induction l as [|x l IH]; simpl; [by rewrite dom_empty_L|]. by rewrite dom_insert_L, IH. Qed.
Lemma nodes_fresh l q p : nodes_of l q !! p = None → p ∉ l.*1.
Proof. intros Hp%not_elem_of_dom Hin. rewrite nodes_dom in Hp. set_solver. Qed.
Lemma nodes_size l q : NoDup l.*1 → size (nodes_of l q) = length l.
Proof.
  intros Hnd. rewrite <-size_dom, nodes_dom, size_list_to_set; [by rewrite length_fmap|done].
Qed.
(** Linking a new node behind the last. *)
Lemma nodes_snoc l y p f : NoDup (l ++ [y]).*1 → p ∉ (l ++ [y]).*1 →
  <[y.1 := LlNode y.2 (Some p)]> (<[p := LlNode f None]> (nodes_of (l ++ [y]) None)) =
  nodes_of ((l ++ [y]) ++ [(p, f)]) None.
Proof.
  rewrite fmap_app. simpl. intros (_ & Hdis & _)%NoDup_app [Hp1 Hp2]%not_elem_of_app.
  rewrite <-app_assoc, !nodes_app. simpl.
  rewrite insert_union_r by by apply nodes_None. rewrite insert_union_r.
  2: { apply nodes_None. intros Hin. apply (Hdis _ Hin). by left. }
  f_equal. apply not_elem_of_cons in Hp2 as [? _]. rewrite (insert_insert_ne _ y.1 p) by done.
  rewrite insert_insert_eq, insert_insert_ne by done. rewrite <-insert_union_l. by rewrite map_empty_union.
Qed.
(** Taking a node out, at the head and behind another one. *)
Lemma nodes_drop_head x l : x.1 ∉ l.*1 → delete x.1 (nodes_of (x :: l) None) = nodes_of l None.
Proof. intros Hx. simpl. rewrite delete_insert_eq. apply delete_id. by apply nodes_None. Qed.
Lemma nodes_unlink l1 y x l2 : NoDup (l1 ++ y :: x :: l2).*1 →
  delete x.1 (<[y.1 := LlNode y.2 (hd_node l2 None)]> (nodes_of (l1 ++ y :: x :: l2) None)) =
  nodes_of (l1 ++ y :: l2) None.
Proof.
  rewrite fmap_app. simpl. intros (_ & Hdis & Hnd)%NoDup_app. rewrite !nodes_app. simpl.
  apply NoDup_cons in Hnd as [Hy Hnd]. apply not_elem_of_cons in Hy as [Hyx Hy].
  apply NoDup_cons in Hnd as [Hx _].
  rewrite insert_union_r by (apply nodes_None; intros Hin; apply (Hdis _ Hin); by left).
  rewrite insert_insert_eq, delete_union.
  rewrite (delete_id (nodes_of l1 _)) by (apply nodes_None; intros Hin; apply (Hdis _ Hin); right; by left).
  f_equal. rewrite delete_insert_ne, delete_insert_eq, delete_id by (done || by apply nodes_None). done.
Qed.

(** ** What the pointer structure represents *)

Record lru_rep (memsize : Z) (s : lru) (l : list (loc * Z)) : Prop := {
  rp_heap : lru_nodes s = nodes_of l None;
  rp_head : lru_head s = hd_node l None;
  rp_tail : lru_tail s = last_node l;
  rp_nodup : NoDup l.*1;
  rp_frames : NoDup l.*2;
  rp_len : len (lru_refed s) = memsize;
  rp_refed f : idx (lru_refed s) f = if decide (0 <= f < memsize) then Some (bool_decide (f ∈ l.*2)) else None;
}.
(** The queue as a sequence of frames: a reference moves a frame to the end. *)
Definition touch (f : Z) (q : list Z) : list Z := filter (λ g, g ≠ f) q ++ [f].

Lemma last_node_snoc l x : last_node (l ++ [x]) = Some x.1.
Proof. unfold last_node. by rewrite last_snoc. Qed.
Lemma filter_not_in (f : Z) (q : list Z) : f ∉ q → filter (λ g, g ≠ f) q = q.
Proof.
  induction q as [|g q IH]; [done|]. intros [??]%not_elem_of_cons. rewrite filter_cons_True by done.
  by rewrite IH.
Qed.
Lemma touch_mid (f : Z) l1 l2 : f ∉ l1 → f ∉ l2 → touch f (l1 ++ f :: l2) = l1 ++ l2 ++ [f].
Proof.
  intros ??. unfold touch. rewrite filter_app, filter_cons_False by naive_solver.
  by rewrite !filter_not_in, <-app_assoc.
Qed.
Lemma NoDup_snoc {A} (l : list A) x : NoDup l → x ∉ l → NoDup (l ++ [x]).
Proof.
  intros Hnd Hx. apply NoDup_app. split_and!; [done| |apply NoDup_singleton].
  by intros y Hy ->%list_elem_of_singleton.
Qed.
(** Where a frame of the queue is. *)
Lemma split_frame (f : Z) (l : list (loc * Z)) : f ∈ l.*2 → NoDup l.*2 →
  ∃ l1 p l2, l = l1 ++ (p, f) :: l2 ∧ f ∉ l1.*2 ∧ f ∉ l2.*2.
Proof.
  intros ([p g] & -> & (l1 & l2 & ->)%list_elem_of_split)%list_elem_of_fmap Hnd. simpl.
  exists l1, p, l2. split; [done|]. rewrite fmap_app in Hnd. simpl in Hnd.
  apply NoDup_app in Hnd as (_ & Hdis & [Hn _]%NoDup_cons). split; [|done].
  intros Hin. apply (Hdis _ Hin). by left.
Qed.

Section specs.
Context `{Malloc} (memsize : Z).

Lemma wp_lru_init s Q : 0 <= memsize → lru_nodes s = ∅ →
  (∀ s', lru_rep memsize s' [] → Q tt s') → wp (lru_init memsize) s Q.
Proof.
  intros Hm Hn HQ. unfold lru_init. wp_pure. apply HQ. split; simpl; try done.
  - constructor.
  - constructor.
  - by apply len_replicate.
  - intros f. case_decide; [by apply idx_replicate|]. apply idx_None. by rewrite len_replicate.
Qed.
(** [lru_evict] takes the head of the queue. *)
Lemma wp_lru_evict s p f l Q : lru_rep memsize s ((p, f) :: l) → 0 <= f < memsize →
  (∀ s', lru_rep memsize s' l → Q f s') → wp lru_evict s Q.
Proof.
  intros [Hh Hhd Htl Hnd Hfr Hlen Href] Hf HQ. destruct s as [h hd tl rf]. simpl in *. subst h hd tl.
  apply NoDup_cons in Hnd as [Hp Hnd]. apply NoDup_cons in Hfr as [Hff Hfr].
  unfold lru_evict. wp_pure. eapply wp_load; [simpl; by rewrite lookup_insert_eq|]. wp_pure.
  assert (∀ t, wp (refed ← aload lru_refed f; guard_or refed AssertFail;;
    astore lru_refed put_refed f false;; n ← load (Some p); free (Some p);;
    modify (put_head (ll_next n));; mret f)
    (Lru (<[p:=LlNode f (hd_node l None)]> (nodes_of l None)) (Some p) t rf)
    (λ g s', t = last_node l → Q g s')) as Hrest.
  { intros t. rewrite wp_bind. eapply wp_aload; [simpl; by rewrite Href, decide_True|].
    rewrite bool_decide_true by by left. wp_pure. eapply wp_astore; [simpl; lia|]. wp_pure.
    eapply wp_load; [simpl; by rewrite lookup_insert_eq|]. wp_pure.
    eapply wp_free; [simpl; by rewrite lookup_insert_eq|]. wp_pure. intros Ht. apply HQ.
    split; simpl; try done.
    - by apply (nodes_drop_head (p, f)).
    - by rewrite len_upd.
    - intros g. rewrite idx_upd by lia. rewrite Href. destruct (decide (f = g)) as [<-|].
      + by rewrite decide_True, bool_decide_false.
      + case_decide; [|done]. f_equal. apply bool_decide_ext. rewrite elem_of_cons. naive_solver. }
  destruct l as [|x l]; simpl.
  - rewrite ptr_eqb_refl. simpl. rewrite wp_modify. eapply wp_mono; [apply (Hrest None)|]. intros. auto.
  - unfold last_node in *. rewrite last_cons_cons. destruct (last (x :: l)) as [y|] eqn:El.
    2: { by apply last_None in El. }
    assert (p ≠ y.1) as Hne.
    { intros ->. apply Hp. apply last_Some in El as [l' ->]. rewrite fmap_app. set_solver. }
    rewrite ptr_eqb_ne by congruence. simpl. rewrite wp_ret.
    eapply wp_mono; [apply (Hrest (Some y.1))|]. intros. auto.
Qed.
Lemma wp_find_frame fuel : ∀ (l1 l0 l2 : list (loc * Z)) p f s prev,
  lru_nodes s = nodes_of (l0 ++ l1 ++ (p, f) :: l2) None → NoDup (l0 ++ l1 ++ (p, f) :: l2).*1 →
  f ∉ l1.*2 → (length l1 <= fuel)%nat →
  wp (find_frame fuel f prev (hd_node (l1 ++ (p, f) :: l2) None)) s
    (λ r s', s' = s ∧ r = (match last l1 with None => prev | Some y => Some y.1 end, Some p)).
Proof.
  induction fuel as [|fuel IH]; intros l1 l0 l2 p f s prev Hs Hnd Hf Hfuel; cbn [find_frame].
  - destruct l1; [|simpl in Hfuel; lia]. rewrite wp_bind. simpl.
    eapply wp_load; [simpl; rewrite Hs; by apply (nodes_mid l0 (p, f))|]. simpl. rewrite Z.eqb_refl. done.
  - destruct l1 as [|[q g] l1].
    + rewrite wp_bind. simpl.
      eapply wp_load; [simpl; rewrite Hs; by apply (nodes_mid l0 (p, f))|]. simpl. rewrite Z.eqb_refl. done.
    + apply not_elem_of_cons in Hf as [Hg Hf]. rewrite wp_bind. simpl.
      eapply wp_load; [simpl; rewrite Hs; by apply (nodes_mid l0 (q, g))|]. simpl.
      rewrite (proj2 (Z.eqb_neq g f)) by (simpl in Hg; congruence).
      eapply wp_mono; [apply (IH l1 (l0 ++ [(q, g)])); rewrite <-?app_assoc; simpl; try done; simpl in Hfuel; lia|].
      intros r s' [-> ->]. split; [done|]. f_equal. destruct l1 as [|z l1]; [done|].
      rewrite last_cons_cons. destruct (last (z :: l1)) eqn:E; [done|]. by apply last_None in E.
Qed.
Lemma refed_insert rf l f : len rf = memsize → 0 <= f < memsize →
  (∀ g, idx rf g = if decide (0 <= g < memsize) then Some (bool_decide (g ∈ l)) else None) →
  ∀ g, idx (upd rf f true) g = if decide (0 <= g < memsize) then Some (bool_decide (g ∈ l ++ [f])) else None.
Proof.
  intros Hl Hf Hr g. rewrite idx_upd, Hr by lia. destruct (decide (f = g)) as [<-|].
  - rewrite decide_True by done. rewrite bool_decide_true; [done|]. apply elem_of_app. right. by left.
  - case_decide; [|done]. f_equal. apply bool_decide_ext. rewrite elem_of_app, list_elem_of_singleton. naive_solver.
Qed.
(** The first reference of a frame puts it at the tail. *)
Lemma wp_lru_ref_new s l f Q : lru_rep memsize s l → 0 <= f < memsize → f ∉ l.*2 →
  (∀ p s', lru_rep memsize s' (l ++ [(p, f)]) → Q tt s') → wp (lru_ref f) s Q.
Proof.
  intros [Hh Hhd Htl Hnd Hfr Hlen Href] Hf Hin HQ. destruct s as [h hd tl rf]. simpl in *. subst h hd tl.
  unfold lru_ref. rewrite wp_bind. eapply wp_aload; [simpl; by rewrite Href, decide_True|].
  rewrite bool_decide_false by done. simpl. rewrite wp_bind. eapply wp_astore; [simpl; lia|]. simpl.
  rewrite wp_bind. apply wp_malloc. simpl. intros p Hp.
  apply nodes_fresh in Hp as Hpl.
  assert (NoDup (l ++ [(p, f)]).*1 ∧ NoDup (l ++ [(p, f)]).*2) as [Hn1 Hn2].
  { rewrite !fmap_app. split; by apply NoDup_snoc. }
  assert (∀ g, idx (upd rf f true) g =
    if decide (0 <= g < memsize) then Some (bool_decide (g ∈ (l ++ [(p, f)]).*2)) else None) as Hrf.
  { rewrite fmap_app. by apply refed_insert. }
  destruct l as [|y l _] using rev_ind.
  - wp_pure. eapply HQ. split; simpl; try done. by rewrite len_upd.
  - rewrite wp_bind, wp_gets. simpl. rewrite last_node_snoc. simpl. rewrite wp_bind.
    eapply wp_store.
    { simpl. assert (p ≠ y.1) by (rewrite fmap_app in Hpl; simpl in Hpl; set_solver).
      rewrite lookup_insert_ne by done. by apply (nodes_mid l y []). }
    simpl. wp_pure. eapply HQ. split; simpl; try done.
    + by apply nodes_snoc.
    + by destruct l.
    + by rewrite last_node_snoc.
    + by rewrite len_upd.
Qed.
(** The node of the frame goes, the links around it are joined. *)
Lemma wp_remove_old s l1 p f z l2 Q :
  lru_nodes s = nodes_of (l1 ++ (p, f) :: z :: l2) None → NoDup (l1 ++ (p, f) :: z :: l2).*1 →
  lru_head s = hd_node (l1 ++ (p, f) :: z :: l2) None → f ∉ l1.*2 →
  Q tt (Lru (nodes_of (l1 ++ z :: l2) None) (hd_node (l1 ++ z :: l2) None) (lru_tail s) (lru_refed s)) →
  wp (remove_old f) s Q.
Proof.
  intros Hn Hnd Hhd Hf HQ. destruct s as [h hd tl rf]. simpl in *. subst h hd.
  unfold remove_old. rewrite wp_bind, wp_gets, wp_bind, wp_gets. simpl. rewrite wp_bind.
  eapply wp_mono; [apply (wp_find_frame _ l1 [] (z :: l2) p f); try done; rewrite nodes_size, length_app by done; lia|].
  intros [prev pn] s' [-> [= -> ->]]. rewrite wp_bind.
  eapply wp_load; [simpl; apply (nodes_mid l1 (p, f)); done|]. simpl.
  destruct l1 as [|y l1 _] using rev_ind; simpl.
  - wp_pure. eapply wp_free; [simpl; by rewrite lookup_insert_eq|]. simpl. wp_pure.
    apply NoDup_cons in Hnd as [Hp _].
    change (<[p:=_]> (<[z.1:=_]> _)) with (nodes_of ((p, f) :: z :: l2) None).
    by rewrite (nodes_drop_head (p, f)).
  - rewrite last_snoc. simpl. rewrite <-app_assoc in *. simpl in *. rewrite wp_bind.
    eapply wp_store; [simpl; by apply (nodes_mid l1 y)|]. unfold set_ll_next. simpl.
    eapply wp_free.
    { simpl. rewrite lookup_insert_ne.
      - replace (l1 ++ y :: (p, f) :: z :: l2) with ((l1 ++ [y]) ++ (p, f) :: z :: l2) in * by by rewrite <-app_assoc.
        by apply (nodes_mid (l1 ++ [y]) (p, f)).
      - intros E. rewrite fmap_app in Hnd. simpl in Hnd.
        apply NoDup_app in Hnd as (_ & _ & [Hy _]%NoDup_cons). apply Hy. rewrite E. by left. }
    pose proof (nodes_unlink l1 y (p, f) (z :: l2) Hnd) as E. simpl in E. simpl. rewrite E. by destruct l1.
Qed.
(** A later reference moves it there. *)
Lemma wp_lru_ref_again s l1 p f l2 Q :
  lru_rep memsize s (l1 ++ (p, f) :: l2) → 0 <= f < memsize →
  (∀ p' s', lru_rep memsize s' (l1 ++ l2 ++ [(p', f)]) → Q tt s') → wp (lru_ref f) s Q.
Proof.
  intros [Hh Hhd Htl Hnd Hfr Hlen Href] Hf HQ. destruct s as [h hd tl rf]. simpl in *. subst h hd tl.
  set (l := l1 ++ (p, f) :: l2) in *.
  assert (f ∈ l.*2) as Hin by (unfold l; rewrite fmap_app; simpl; set_solver).
  unfold lru_ref. rewrite wp_bind. eapply wp_aload; [simpl; by rewrite Href, decide_True|].
  rewrite bool_decide_true by done. simpl. rewrite wp_bind. apply wp_malloc. simpl. intros p' Hp.
  apply nodes_fresh in Hp as Hpl. rewrite wp_bind, wp_gets. simpl.
  destruct (exists_last (l := l)) as (l0 & y & El); [unfold l; by destruct l1|].
  assert (last_node l = Some y.1) as -> by (rewrite El; apply last_node_snoc). rewrite wp_bind.
  assert (p' ≠ y.1) as Hpy by (rewrite El, fmap_app in Hpl; simpl in Hpl; set_solver).
  eapply wp_store; [simpl; rewrite lookup_insert_ne by done; rewrite El; apply (nodes_mid l0 y []); by rewrite <-El|].
  pose proof (nodes_snoc l0 y p' f) as Esn. rewrite <-!El in Esn. unfold set_ll_next. simpl.
  rewrite Esn by done. clear Esn. rewrite wp_bind, wp_modify.
  assert (NoDup (l ++ [(p', f)]).*1) as Hnd' by (rewrite fmap_app; by apply NoDup_snoc).
  assert (f ∉ l1.*2 ∧ f ∉ l2.*2) as [Hf1 Hf2].
  { unfold l in Hfr. rewrite fmap_app in Hfr. simpl in Hfr. apply NoDup_app in Hfr as (_ & Hd & [Hn _]%NoDup_cons).
    split; [|done]. intros Hc. apply (Hd _ Hc). by left. }
  destruct (l2 ++ [(p', f)]) as [|z l2'] eqn:E2; [by destruct l2|].
  assert (l ++ [(p', f)] = l1 ++ (p, f) :: z :: l2') as El' by (unfold l; rewrite <-app_assoc; simpl; by rewrite E2).
  apply (wp_remove_old _ l1 p f z l2'); simpl; rewrite <-?El'; try done; [by rewrite !El; destruct l0|].
  rewrite <-!E2. apply (HQ p'). clear El' E2.
  assert (NoDup (l1 ++ l2).*1 ∧ p' ∉ (l1 ++ l2).*1) as [Hn Hpn].
  { unfold l in Hnd, Hpl. rewrite fmap_app in Hnd, Hpl. simpl in *. rewrite fmap_app.
    split; [|set_solver]. apply NoDup_app in Hnd as (? & Hd & [? ?]%NoDup_cons). apply NoDup_app. set_solver. }
  assert (NoDup (l1 ++ l2).*2) as Hfn.
  { unfold l in Hfr. rewrite fmap_app in *. simpl in *.
    apply NoDup_app in Hfr as (? & Hd & [? ?]%NoDup_cons). apply NoDup_app. set_solver. }
  rewrite app_assoc. split; simpl; try done.
  - by rewrite last_node_snoc.
  - rewrite fmap_app. by apply NoDup_snoc.
  - rewrite fmap_app. apply NoDup_snoc; [done|]. rewrite fmap_app. set_solver.
  - intros g. rewrite Href. case_decide; [|done]. f_equal. apply bool_decide_ext. unfold l.
    rewrite !fmap_app. simpl. set_solver.
Qed.
(** One reference, in terms of the sequence of frames. *)
Lemma wp_lru_ref s l f Q : lru_rep memsize s l → 0 <= f < memsize →
  (∀ s' l', lru_rep memsize s' l' → l'.*2 = touch f l.*2 → Q tt s') → wp (lru_ref f) s Q.
Proof.
  intros Hr Hf HQ. destruct (decide (f ∈ l.*2)) as [Hin|Hin].
  - destruct (split_frame f l Hin (rp_frames _ _ _ Hr)) as (l1 & p & l2 & -> & H1 & H2).
    eapply wp_lru_ref_again; [done|done|]. intros p' s' Hr'. apply (HQ _ _ Hr').
    rewrite !fmap_app. simpl. by rewrite touch_mid.
  - eapply wp_lru_ref_new; [done|done|done|]. intros p' s' Hr'. apply (HQ _ _ Hr').
    rewrite fmap_app. unfold touch. by rewrite filter_not_in.
Qed.
End specs.
