(* ===== verification/SimAlgs.v ===== *)
(** * The eviction algorithms of the simulator

    src/legacy/OldPageTable/experiment/{rand,lru,fifo,clock,opt}.c and the
    table [algs] of src/legacy/OldPageTable/vsystem.c. The globals of the five
    files are one record, so that a replay can be run with any of them; an
    algorithm is a [functions] record, as in sim.h. *)

From Stdlib Require Import Ascii String.
From S2P Require Import Prelude Bytes SimLru.
Open Scope Z_scope.

Definition PAGE_SHIFT : Z := 12.

Record algs := Algs {
  a_lru : lru;
  clk_refed : list bool;
  clk_hand : Z;
  fifo_head : Z;
  random_calls : Z;         (* how often random() was called *)
  opt_head : list Z;        (* the list of page addresses, as what is left of it *)
  opt_curr : list Z;        (* a node of it, [] is NULL *)
  opt_dist : list Z;
  debug_count : Z;
}.
Definition put_lru (x : lru) (a : algs) : algs :=
  Algs x (clk_refed a) (clk_hand a) (fifo_head a) (random_calls a) (opt_head a) (opt_curr a) (opt_dist a) (debug_count a).
Definition put_clk_refed (x : list bool) (a : algs) : algs :=
  Algs (a_lru a) x (clk_hand a) (fifo_head a) (random_calls a) (opt_head a) (opt_curr a) (opt_dist a) (debug_count a).
Definition put_clk_hand (x : Z) (a : algs) : algs :=
  Algs (a_lru a) (clk_refed a) x (fifo_head a) (random_calls a) (opt_head a) (opt_curr a) (opt_dist a) (debug_count a).
Definition put_fifo_head (x : Z) (a : algs) : algs :=
  Algs (a_lru a) (clk_refed a) (clk_hand a) x (random_calls a) (opt_head a) (opt_curr a) (opt_dist a) (debug_count a).
Definition put_random_calls (x : Z) (a : algs) : algs :=
  Algs (a_lru a) (clk_refed a) (clk_hand a) (fifo_head a) x (opt_head a) (opt_curr a) (opt_dist a) (debug_count a).
Definition put_opt (h c : list Z) (a : algs) : algs :=
  Algs (a_lru a) (clk_refed a) (clk_hand a) (fifo_head a) (random_calls a) h c (opt_dist a) (debug_count a).
Definition put_opt_dist (x : list Z) (a : algs) : algs :=
  Algs (a_lru a) (clk_refed a) (clk_hand a) (fifo_head a) (random_calls a) (opt_head a) (opt_curr a) x (debug_count a).
Definition put_debug_count (x : Z) (a : algs) : algs :=
  Algs (a_lru a) (clk_refed a) (clk_hand a) (fifo_head a) (random_calls a) (opt_head a) (opt_curr a) (opt_dist a) x.
(** Static storage: everything zero. *)
Definition algs0 : algs := Algs (Lru ∅ None None []) [] 0 0 0 [] [] [] 0.

(** ** Lines of a trace *)

Definition hex_digit (c : ascii) : option Z :=
  let n := Z.of_nat (nat_of_ascii c) in
  if (48 <=? n) && (n <=? 57) then Some (n - 48)
  else if (97 <=? n) && (n <=? 102) then Some (n - 87)
  else if (65 <=? n) && (n <=? 70) then Some (n - 55)
  else None.
Definition is_space (c : ascii) : bool :=
  let n := Z.of_nat (nat_of_ascii c) in (n =? 32) || ((9 <=? n) && (n <=? 13)).
Fixpoint hex_digits (s : string) (x : Z) : Z :=
  match s with
  | String c s => match hex_digit c with Some d => hex_digits s (u64 (16 * x + d)) | None => x end
  | EmptyString => x
  end.
Fixpoint skip_spaces (s : string) : string :=
  match s with
  | String c s' => if is_space c then skip_spaces s' else s
  | EmptyString => s
  end.
(** [sscanf(buf, "%c %lx", &type, &vaddr)] for an unsigned number without
    a prefix; what does not match keeps its value. *)
Definition scan (buf : string) (type vaddr : Z) : Z * Z :=
  match buf with
  | EmptyString => (type, vaddr)
  | String c s =>
      let type := Z.of_nat (nat_of_ascii c) in
      match skip_spaces s with
      | String d s => match hex_digit d with Some x => (type, hex_digits s x) | None => (type, vaddr) end
      | EmptyString => (type, vaddr)
      end
  end.
Definition is_comment (buf : string) : bool :=
  match buf with String "=" _ => true | _ => false end.
(** The accesses of a trace file, one line per string; [type] and [vaddr] are
    the variables [sscanf] fills. *)
Fixpoint accesses (file : list string) (type vaddr : Z) : list (Z * Z) :=
  match file with
  | [] => []
  | buf :: file =>
      if is_comment buf then accesses file type vaddr
      else let '(type, vaddr) := scan buf type vaddr in (type, vaddr) :: accesses file type vaddr
  end.
(** [(vaddr >> PAGE_SHIFT) << PAGE_SHIFT] on [unsigned long]. *)
Definition page_addr (vaddr : Z) : Z := u64 (Z.shiftl (Z.shiftr vaddr PAGE_SHIFT) PAGE_SHIFT).

Section algorithms.
Context `{Malloc} (memsize : Z) (random : Z → Z).

(** ** rand.c *)

Definition rand_init : M algs unit := mret tt.
Definition rand_ref : M algs unit := mret tt.
Definition rand_evict : M algs Z :=
  n ← gets random_calls;
  modify (put_random_calls (n + 1));;
  guard_or (negb (memsize =? 0)) DivByZero;;
  mret (s32 (Z.rem (random n) memsize)).

(** ** fifo.c *)

Definition fifo_init : M algs unit := modify (put_fifo_head 0).
Definition fifo_ref : M algs unit := mret tt.
Definition fifo_evict : M algs Z :=
  ans ← gets fifo_head;
  guard_or (negb (memsize =? 0)) DivByZero;;
  modify (put_fifo_head (Z.rem (ans + 1) memsize));;
  mret ans.

(** ** clock.c *)

Definition clock_init : M algs unit :=
  modify (put_clk_hand 0);;
  modify (put_clk_refed (replicate (Z.to_nat memsize) false)).
Definition clock_ref (pte_frame : Z) : M algs unit :=
  astore clk_refed put_clk_refed (Z.shiftr pte_frame PAGE_SHIFT) true.
Fixpoint clock_loop (fuel : nat) (i : Z) : M algs Z :=
  if i <? memsize then
    r ← aload clk_refed i;
    if (r : bool) then
      astore clk_refed put_clk_refed i false;;
      match fuel with
      | O => err Hang
      | S fuel => clock_loop fuel (Z.rem (i + 1) memsize)
      end
    else
      astore clk_refed put_clk_refed i true;;
      modify (put_clk_hand i);;
      mret i
  else err AssertFail.
Definition clock_evict : M algs Z :=
  hand ← gets clk_hand;
  clock_loop (Z.to_nat memsize) hand.

(** ** opt.c *)

(** [while (p && p->vaddr != target_vaddr) distance++]; nothing when the list
    ends. *)
Fixpoint next_use (p : list Z) (target_vaddr distance : Z) : M algs (option Z) :=
  match p with
  | [] => mret None
  | v :: p =>
      if v =? target_vaddr then mret (Some distance) else
      guard_or (distance <? 2 ^ 31 - 1) Overflow;;
      next_use p target_vaddr (distance + 1)
  end.
(** [coremap[i].vaddr] is [vaddrs !! i]. *)
Fixpoint opt_scan (n : nat) (vaddrs : list Z) (i : Z) : M algs (option Z) :=
  match n with
  | O => mret None
  | S n =>
      target_vaddr ← aload (λ _, vaddrs) i;
      curr ← gets opt_curr;
      match curr with
      | [] => err NullDeref
      | _ :: p =>
          d ← next_use p target_vaddr 0;
          match d with
          | Some distance =>
              astore opt_dist put_opt_dist i distance;;
              opt_scan n vaddrs (i + 1)
          | None => mret (Some i)
          end
      end
  end.
Fixpoint opt_longest (n : nat) (i longest_dist longest_frame : Z) : M algs Z :=
  match n with
  | O => mret longest_frame
  | S n =>
      d ← aload opt_dist i;
      if longest_dist <? d then opt_longest n (i + 1) d i
      else opt_longest n (i + 1) longest_dist longest_frame
  end.
Definition opt_evict (vaddrs : list Z) : M algs Z :=
  r ← opt_scan (Z.to_nat memsize) vaddrs 0;
  match r with
  | Some i => mret i
  | None => opt_longest (Z.to_nat memsize) 0 (-1) (-1)
  end.
Definition opt_ref : M algs unit :=
  count ← gets debug_count;
  guard_or (count <? 2 ^ 31 - 1) Overflow;;
  modify (put_debug_count (count + 1));;
  curr ← gets opt_curr;
  match curr with
  | [] => err NullDeref
  | _ :: next =>
      head ← gets opt_head;
      modify (put_opt head (match next with [] => head | _ => next end))
  end.
(** The file is [None] when it cannot be opened; [dist] is what [malloc]
    leaves in the array, [type] and [vaddr] are not initialised. *)
Definition opt_init (file : option (list string)) (dist : list Z) (type vaddr : Z) : M algs unit :=
  modify (put_opt [] []);;
  match file with
  | None => err NullDeref
  | Some file =>
      let l := map (λ x, page_addr x.2) (accesses file type vaddr) in
      modify (put_opt l l);;
      modify (put_opt_dist dist)
  end.

(** ** The table of vsystem.c *)

Record functions := MkFunctions {
  name : string;
  init : M algs unit;
  ref : Z → M algs unit;
  evict : list Z → M algs Z;
}.
Definition lru_evict_g : M algs Z := zoom a_lru put_lru lru_evict.
Definition lru_ref_g (pte_frame : Z) : M algs unit :=
  zoom a_lru put_lru (lru_ref (Z.shiftr pte_frame PAGE_SHIFT)).
Definition alg_table (file : option (list string)) (dist : list Z) (type vaddr : Z) : list functions := [
  MkFunctions "rand" rand_init (λ _, rand_ref) (λ _, rand_evict);
  MkFunctions "lru" (zoom a_lru put_lru (lru_init memsize)) lru_ref_g (λ _, lru_evict_g);
  MkFunctions "fifo" fifo_init (λ _, fifo_ref) (λ _, fifo_evict);
  MkFunctions "clock" clock_init clock_ref (λ _, clock_evict);
  MkFunctions "opt" (opt_init file dist type vaddr) (λ _, opt_ref) opt_evict].
End algorithms.

(** ** The clock *)

Section clock.
Context (memsize : Z).

Definition at_hand (i k : Z) : Z := (i + k) mod memsize.
Definition refed (l : list bool) (i : Z) : Prop := idx l i = Some true.

Lemma at_hand_next i k : 0 <= i < memsize → 0 <= k → at_hand (Z.rem (i + 1) memsize) k = at_hand i (k + 1).
Proof.
  intros Hi Hk. unfold at_hand. rewrite Z.rem_mod_nonneg by lia. rewrite Zplus_mod_idemp_l. f_equal. lia.
Qed.
Lemma at_hand_range i k : 0 < memsize → 0 <= at_hand i k < memsize.
Proof. intros. by apply Z.mod_pos_bound. Qed.
Lemma at_hand_inj i j k : 0 <= i < memsize → 0 <= j < memsize → 0 <= k < memsize →
  at_hand i j = at_hand i k → j = k.
Proof.
  intros Hi Hj Hk E. unfold at_hand in E.
  pose proof (Z.div_mod (i + j) memsize ltac:(lia)). pose proof (Z.div_mod (i + k) memsize ltac:(lia)).
  assert ((i + j) / memsize = (i + k) / memsize ∨ ¬ -1 < (i + j) / memsize - (i + k) / memsize < 1) as [E'|E'] by lia.
  - rewrite E', E in *. lia.
  - rewrite E in *. nia.
Qed.
Lemma at_hand_start i : 0 <= i < memsize → at_hand i memsize = i.
Proof.
  intros Hi. unfold at_hand. replace (i + memsize) with (i + 1 * memsize) by lia.
  by rewrite Z_mod_plus_full, Z.mod_small.
Qed.
(** The bits after [k] frames from [i] on lost theirs. *)
Definition swept (i : Z) (rf rf' : list bool) (k : Z) : Prop :=
  len rf' = memsize ∧
  ∀ j, 0 <= j < memsize →
    idx rf' (at_hand i j) = if decide (j < k) then Some false else idx rf (at_hand i j).

Lemma wp_clock_loop i rf : 0 <= i < memsize → len rf = memsize →
  ∀ fuel k a, 0 <= k → Z.of_nat fuel + k = memsize →
  swept i rf (clk_refed a) k →
  (∀ j, 0 <= j < k → refed rf (at_hand i j)) →
  wp (clock_loop memsize fuel (at_hand i k)) a (λ f a', ∃ k' rf',
    0 <= k' <= memsize ∧ f = at_hand i k' ∧ (∀ j, 0 <= j < k' → refed rf (at_hand i j)) ∧
    (k' < memsize → idx rf f = Some false) ∧ swept i rf rf' k' ∧
    a' = put_clk_hand f (put_clk_refed (upd rf' f true) a)).
Proof.
  intros Hi Hrf. induction fuel as [|fuel IH]; intros k a Hk Hfuel Hsw Href; cbn [clock_loop];
    pose proof (at_hand_range i k ltac:(lia)) as Hr;
    rewrite (proj2 (Z.ltb_lt _ _)) by lia; rewrite wp_bind; destruct Hsw as [Hlen Hsw].
  - replace k with memsize in * by lia. rewrite at_hand_start in * by lia.
    pose proof (Hsw 0 ltac:(lia)) as E. rewrite decide_True in E by lia. unfold at_hand in E at 1.
    rewrite Z.add_0_r, Z.mod_small in E by lia. eapply wp_aload; [done|].
    simpl. rewrite wp_bind. eapply wp_astore; [lia|]. wp_pure. exists memsize, (clk_refed a).
    rewrite at_hand_start by lia. split_and!; try done; lia.
  - assert (idx (clk_refed a) (at_hand i k) = idx rf (at_hand i k)) as Ek.
    { rewrite Hsw by lia. by rewrite decide_False by lia. }
    destruct (idx_is_Some rf (at_hand i k)) as [[|] E]; [lia| |]; rewrite E in Ek; (eapply wp_aload; [done|]); simpl.
    + rewrite wp_bind. eapply wp_astore; [lia|]. rewrite Z.rem_mod_nonneg by lia.
      replace ((at_hand i k + 1) mod memsize) with (at_hand i (k + 1)).
      2: { unfold at_hand. rewrite Zplus_mod_idemp_l. f_equal. lia. }
      eapply wp_mono; [apply IH; [lia|lia| |]|].
      * split; simpl; [by rewrite len_upd|]. intros j Hj. rewrite idx_upd by lia.
        destruct (decide (at_hand i k = at_hand i j)) as [Ej|Ej].
        { apply at_hand_inj in Ej; [|lia..]. subst j. by rewrite decide_True by lia. }
        rewrite Hsw by done. destruct (decide (j = k)) as [->|]; [done|].
        destruct (decide (j < k)), (decide (j < k + 1)); try lia; done.
      * intros j Hj. destruct (decide (j = k)) as [->|]; [done|]. apply Href. lia.
      * intros f a' (k' & rf' & H1 & H2 & H3 & H4 & H5 & ->). by exists k', rf'.
    + rewrite wp_bind. eapply wp_astore; [lia|]. wp_pure. exists k, (clk_refed a).
      split_and!; try done; lia.
Qed.
End clock.

(** C30: [clock_evict] always stops, after at most one lap: it takes the first
    frame from the hand on whose reference bit is clear, or the one under the
    hand when all are set, clears the bits it passes, sets that of the victim
    and leaves the hand there. *)
Theorem clock_evict_second_chance memsize a :
  len (clk_refed a) = memsize → 0 <= clk_hand a < memsize →
  wp (clock_evict memsize) a (λ f a', ∃ k,
    0 <= k <= memsize ∧ f = (clk_hand a + k) mod memsize ∧ clk_hand a' = f ∧
    (∀ j, 0 <= j < k → idx (clk_refed a) ((clk_hand a + j) mod memsize) = Some true) ∧
    (k < memsize → idx (clk_refed a) f = Some false) ∧
    idx (clk_refed a') f = Some true ∧
    ∀ j, 0 <= j < memsize → (clk_hand a + j) mod memsize ≠ f →
      idx (clk_refed a') ((clk_hand a + j) mod memsize) =
        if decide (j < k) then Some false else idx (clk_refed a) ((clk_hand a + j) mod memsize)).
Proof.
  intros Hlen Hh. unfold clock_evict. rewrite wp_bind, wp_gets.
  replace (clk_hand a) with (at_hand memsize (clk_hand a) 0) at 1.
  2: { unfold at_hand. rewrite Z.add_0_r. by apply Z.mod_small. }
  eapply wp_mono; [apply (wp_clock_loop memsize (clk_hand a) (clk_refed a)); try done; try lia|].
  { split; [done|]. intros j Hj. by rewrite decide_False by lia. }
  intros f a' (k & rf' & Hk & -> & Hpre & Hc & [Hl Hsw] & ->). exists k.
  pose proof (at_hand_range memsize (clk_hand a) k ltac:(lia)). split_and!; try done; try lia; simpl.
  - apply idx_upd_eq. lia.
  - intros j Hj Hne. unfold at_hand in *. rewrite idx_upd_ne by (lia || done). by apply Hsw.
Qed.

Lemma clock_evict_second_chance_witness :
  let a := put_clk_hand 2 (put_clk_refed [false; true; true] algs0) in
  wp (clock_evict 3) a (λ f a', ∃ k,
    0 <= k <= 3 ∧ f = (clk_hand a + k) mod 3 ∧ clk_hand a' = f ∧
    (∀ j, 0 <= j < k → idx (clk_refed a) ((clk_hand a + j) mod 3) = Some true) ∧
    (k < 3 → idx (clk_refed a) f = Some false) ∧
    idx (clk_refed a') f = Some true ∧
    ∀ j, 0 <= j < 3 → (clk_hand a + j) mod 3 ≠ f →
      idx (clk_refed a') ((clk_hand a + j) mod 3) =
        if decide (j < k) then Some false else idx (clk_refed a) ((clk_hand a + j) mod 3)) ∧
  clock_evict 3 a = Ok 0 (put_clk_hand 0 (put_clk_refed [true; true; false] algs0)).
Proof.
  intros a. split; [|reflexivity]. apply (clock_evict_second_chance 3 a); [reflexivity|simpl; lia].
Defined.
