(* ===== verification/SimPolicies.v ===== *)
(** * What the eviction algorithms of the simulator promise

    [EvictionOk] is the contract between the page table of the simulator and
    an eviction algorithm; each of the five algorithms implements it. Two of
    them are shown to be what their names say: [lru_evict] takes the frame
    that was referenced least recently and [opt_evict] the one whose page is
    used again last. *)

From Stdlib Require Import Ascii String.
From S2P Require Import Prelude Bytes SimLru SimAlgs.
Open Scope Z_scope.

(** ** OPT *)

(** How many references lie before the next one to [v]. *)
Fixpoint until (v : Z) (tr : list Z) : option Z :=
  match tr with
  | [] => None
  | w :: tr => if w =? v then Some 0 else d ← until v tr; Some (d + 1)
  end.
Lemma until_range v tr d : until v tr = Some d → 0 <= d < len tr.
Proof.
  revert d. induction tr as [|w tr IH]; intros d; simpl; [done|]. rewrite len_cons.
  destruct (w =? v); [intros [= <-]; pose proof (len_nonneg tr); lia|].
  destruct (until v tr) as [d'|]; simpl; [|done]. intros [= <-]. specialize (IH d' eq_refl). lia.
Qed.
Lemma wp_next_use tr v : ∀ k a, 0 <= k → k + len tr < 2 ^ 31 →
  wp (next_use tr v k) a (λ r a', a' = a ∧ r = (λ d, k + d) <$> until v tr).
Proof.
  induction tr as [|w tr IH]; intros k a Hk Hl; simpl; [done|]. rewrite len_cons in Hl.
  pose proof (len_nonneg tr). destruct (w =? v); [rewrite wp_ret; simpl; by rewrite Z.add_0_r|].
  rewrite wp_bind. apply wp_guard_or; [apply Z.ltb_lt; lia|].
  eapply wp_mono; [apply IH; lia|]. intros r a' [-> ->]. split; [done|].
  destruct (until v tr); simpl; [|done]. f_equal. lia.
Qed.

Section opt.
Context (memsize : Z) (vaddrs : list Z) (cur : Z) (rest : list Z).
Context (Hvaddrs : len vaddrs = memsize) (Hrest : len rest < 2 ^ 31).

Definition reuse (g : Z) : option Z := v ← idx vaddrs g; until v rest.
(** The frames scanned so far are used again, and [opt_dist] knows when. *)
Definition scanned (n : Z) (a : algs) : Prop :=
  opt_curr a = cur :: rest ∧ len (opt_dist a) = memsize ∧
  ∀ g, 0 <= g < n → ∃ d, reuse g = Some d ∧ idx (opt_dist a) g = Some d.

Lemma wp_opt_scan n : ∀ i a, 0 <= i → i + Z.of_nat n = memsize → scanned i a →
  wp (opt_scan n vaddrs i) a (λ r a',
    a' = put_opt_dist (opt_dist a') a ∧ len (opt_dist a') = memsize ∧
    match r with
    | Some g => 0 <= g < memsize ∧ reuse g = None
    | None => scanned memsize a'
    end).
Proof.
  induction n as [|n IH]; intros i a Hi Hn Hs; cbn [opt_scan].
  - rewrite wp_ret. replace memsize with i by lia. split; [by destruct a|]. split; [|done].
    destruct Hs as (_ & -> & _). lia.
  - destruct Hs as (Hc & Hl & Hs). rewrite wp_bind. destruct (idx_is_Some vaddrs i) as [v Ev]; [lia|].
    eapply wp_aload_list; [done|]. rewrite wp_bind, wp_gets, Hc, wp_bind.
    eapply wp_mono; [apply (wp_next_use rest v 0); lia|]. intros r a' [-> ->].
    assert (reuse i = until v rest) as Hr by (unfold reuse; by rewrite Ev).
    destruct (until v rest) as [d|]; simpl.
    + rewrite wp_bind. eapply wp_astore; [lia|]. simpl. eapply wp_mono; [apply IH; [lia|lia|]|].
      * split_and!; [done|simpl; by rewrite len_upd|]. intros g Hg. simpl. rewrite idx_upd by lia.
        destruct (decide (i = g)) as [<-|]; [eauto|]. apply Hs. lia.
      * intros r a' (E & Hl' & Hp). split_and!; [by rewrite E|done|done].
    + rewrite wp_ret. split_and!; [by destruct a|done|lia|lia|done].
Qed.
Lemma wp_opt_longest n : ∀ i bd bf a, 0 <= i → i + Z.of_nat n = memsize → scanned memsize a →
  (∀ g, 0 <= g < i → ∃ d, reuse g = Some d ∧ d <= bd) →
  (i = 0 ∧ bd = -1 ∨ 0 <= bf < memsize ∧ reuse bf = Some bd) → (0 < i ∨ 0 < Z.of_nat n) →
  wp (opt_longest n i bd bf) a (λ f a', a' = a ∧ 0 <= f < memsize ∧
    ∃ df, reuse f = Some df ∧ ∀ g, 0 <= g < memsize → ∃ d, reuse g = Some d ∧ d <= df).
Proof.
  induction n as [|n IH]; intros i bd bf a Hi Hn Hs Hb Hbf Hpos; cbn [opt_longest].
  - rewrite wp_ret. destruct Hbf as [[-> _]|[Hf E]]; [simpl in Hpos; lia|]. split_and!; [done|lia|lia|].
    exists bd. split; [done|]. intros g Hg. apply Hb. lia.
  - destruct Hs as (Hc & Hl & Hs). destruct (Hs i ltac:(lia)) as (d & Er & Ed).
    rewrite wp_bind. eapply wp_aload; [done|].
    assert (0 <= d) by (unfold reuse in Er; destruct (idx vaddrs i); simpl in Er; [apply until_range in Er; lia|done]).
    destruct (Z.ltb_spec bd d) as [Hlt|Hge]; (apply IH; [lia|lia|done| | |lia]).
    + intros g Hg. destruct (decide (g = i)) as [->|]; [eauto with lia|].
      destruct (Hb g ltac:(lia)) as (d' & ? & ?). eauto with lia.
    + right. split; [lia|done].
    + intros g Hg. destruct (decide (g = i)) as [->|]; [eauto|]. apply Hb. lia.
    + right. destruct Hbf as [[-> ->]|]; [lia|done].
Qed.
Lemma wp_opt_evict a : 0 < memsize → opt_curr a = cur :: rest → len (opt_dist a) = memsize →
  wp (opt_evict memsize vaddrs) a (λ f a',
    a' = put_opt_dist (opt_dist a') a ∧ len (opt_dist a') = memsize ∧ 0 <= f < memsize ∧
    ∀ df, reuse f = Some df → ∀ g, 0 <= g < memsize → ∃ d, reuse g = Some d ∧ d <= df).
Proof.
  intros Hm Hc Hl. unfold opt_evict. rewrite wp_bind.
  eapply wp_mono; [apply (wp_opt_scan _ 0); [lia|lia|by split_and!; [..|lia]]|].
  intros [g|] a' (E & Hl' & Hp).
  - rewrite wp_ret. destruct Hp as [Hg Hr]. split_and!; [done|done|lia|lia|by rewrite Hr].
  - eapply wp_mono; [apply (wp_opt_longest _ 0); [lia|lia|done|lia|by left|lia]|].
    intros f a'' (-> & Hf & df & Ef & Hall). split_and!; [done|done|lia|lia|].
    intros df' Edf. rewrite Ef in Edf. injection Edf as <-. done.
Qed.
End opt.

(** C29: [opt_evict] is Belady's choice: it returns a frame whose page is never
    used again when there is one, and otherwise one whose page is used again
    no earlier than that of any other frame. *)
Theorem opt_evicts_farthest memsize vaddrs cur rest a :
  0 < memsize → len vaddrs = memsize → len rest < 2 ^ 31 →
  opt_curr a = cur :: rest → len (opt_dist a) = memsize →
  wp (opt_evict memsize vaddrs) a (λ f _, 0 <= f < memsize ∧
    match idx vaddrs f ≫= λ v, until v rest with
    | None => True
    | Some df => ∀ g v, idx vaddrs g = Some v → ∃ d, until v rest = Some d ∧ d <= df
    end).
Proof.
  intros Hm Hv Hr Hc Hl. eapply wp_mono; [by apply (wp_opt_evict memsize vaddrs cur rest)|].
  intros f a' (_ & _ & Hf & Hbest). split; [done|]. unfold reuse in Hbest.
  destruct (idx vaddrs f ≫= _) as [df|]; [|done]. intros g v Eg.
  destruct (Hbest df eq_refl g) as (d & E & Hd); [by apply idx_Some_range in Eg as Hg; lia|].
  rewrite Eg in E. eauto.
Qed.

(** ** LRU *)

(** The queue after the references [fs]. *)
Definition queue (fs : list Z) : list Z := foldl (λ q f, touch f q) [] fs.
Lemma queue_snoc fs f : queue (fs ++ [f]) = touch f (queue fs).
Proof. unfold queue. by rewrite foldl_app. Qed.
Lemma elem_touch g f q : g ∈ touch f q ↔ g = f ∨ g ∈ q.
Proof.
  unfold touch. rewrite elem_of_app, list_elem_of_filter, list_elem_of_singleton.
  destruct (decide (g = f)); naive_solver.
Qed.
Lemma elem_queue g fs : g ∈ queue fs ↔ g ∈ fs.
Proof.
  induction fs as [|f fs IH] using rev_ind; [done|].
  rewrite queue_snoc, elem_touch, IH, elem_of_app, list_elem_of_singleton. naive_solver.
Qed.
Lemma filter_split_at (P : Z → Prop) `{∀ x, Decision (P x)} (l a : list Z) f b :
  filter P l = a ++ f :: b → ∃ l1 l2, l = l1 ++ f :: l2 ∧ filter P l2 = b.
Proof.
  revert a. induction l as [|x l IH]; intros a E; [by destruct a|]. rewrite filter_cons in E.
  destruct (decide (P x)).
  - destruct a as [|y a]; simpl in E; injection E as <- E; [by exists [], l|].
    destruct (IH _ E) as (l1 & l2 & -> & <-). by exists (x :: l1), l2.
  - destruct (IH _ E) as (l1 & l2 & -> & <-). by exists (x :: l1), l2.
Qed.
(** What is behind a frame in the queue was referenced after its last
    reference. *)
Lemma queue_order fs : ∀ q1 f q2, queue fs = q1 ++ f :: q2 →
  ∃ l1 l2, fs = l1 ++ f :: l2 ∧ f ∉ l2 ∧ ∀ g, g ∈ q2 → g ∈ l2.
Proof.
  induction fs as [|x fs IH] using rev_ind; intros q1 f q2.
  { by destruct q1. }
  rewrite queue_snoc. unfold touch. intros E.
  destruct q2 as [|y q2 _] using rev_ind.
  - apply app_inj_tail in E as [_ <-]. exists fs, []. split_and!; [done|by apply not_elem_of_nil|done].
  - rewrite app_comm_cons, app_assoc in E. apply app_inj_tail in E as [E <-].
    assert (f ≠ x) as Hne.
    { assert (f ∈ filter (λ g, g ≠ x) (queue fs)) as [??]%list_elem_of_filter; [|done]. rewrite E. set_solver. }
    destruct (filter_split_at _ _ _ _ _ E) as (q1' & q2' & Eq & <-).
    destruct (IH _ _ _ Eq) as (l1 & l2 & -> & Hf & Hl). exists l1, (l2 ++ [x]).
    split_and!; [by rewrite <-app_assoc|set_solver|]. intros g Hg. apply elem_of_app in Hg as [Hg|Hg].
    + apply list_elem_of_filter in Hg as [_ Hg]. apply elem_of_app. left. by apply Hl.
    + apply elem_of_app. by right.
Qed.

Section lru.
Context `{Malloc} (memsize : Z).

Fixpoint refs (fs : list Z) : M lru unit :=
  match fs with [] => mret tt | f :: fs => lru_ref f;; refs fs end.
Lemma wp_refs fs : ∀ s l Q, lru_rep memsize s l → Forall (λ f, 0 <= f < memsize) fs →
  (∀ s' l', lru_rep memsize s' l' → l'.*2 = foldl (λ q f, touch f q) l.*2 fs → Q tt s') →
  wp (refs fs) s Q.
Proof.
  induction fs as [|f fs IH]; intros s l Q Hr Hfs HQ; simpl.
  - rewrite wp_ret. by apply (HQ s l).
  - apply Forall_cons in Hfs as [Hf Hfs]. rewrite wp_bind. eapply wp_lru_ref; [done|done|].
    intros s1 l1 Hr1 E1. eapply IH; [done|done|]. intros s' l' Hr' E. apply (HQ _ _ Hr'). by rewrite E, E1.
Qed.

(** C28: After [lru_init] and any sequence of references, [lru_evict] returns
    the frame that was referenced least recently: every other frame of the
    sequence was referenced after its last reference. *)
Theorem lru_evicts_least_recent s fs :
  0 <= memsize → lru_nodes s = ∅ → fs ≠ [] → Forall (λ f, 0 <= f < memsize) fs →
  wp (lru_init memsize;; refs fs;; lru_evict) s (λ f _,
    ∃ l1 l2, fs = l1 ++ f :: l2 ∧ f ∉ l2 ∧ ∀ g, g ∈ l1 → g ≠ f → g ∈ l2).
Proof.
  intros Hm Hs Hne Hfs. rewrite wp_bind. apply wp_lru_init; [done|done|]. intros s0 Hr0.
  rewrite wp_bind. eapply wp_refs; [done|done|]. intros s1 l Hr El. change (foldl _ _ fs) with (queue fs) in El.
  assert (∀ g, g ∈ l.*2 ↔ g ∈ fs) as Hin by (intros g; by rewrite El, elem_queue).
  destruct l as [|[p f] l].
  { destruct fs as [|g fs]; [done|]. exfalso. apply (not_elem_of_nil g), Hin. by left. }
  assert (0 <= f < memsize) as Hf.
  { apply (proj1 (Forall_forall _ _) Hfs), Hin. by left. }
  eapply wp_lru_evict; [done|done|]. intros _ _. simpl in El. symmetry in El.
  destruct (queue_order fs [] f l.*2 El) as (l1 & l2 & -> & Hf2 & Hl2). exists l1, l2. split_and!; [done|done|].
  intros g Hg Hgf. apply Hl2. assert (g ∈ f :: l.*2) as [?|?]%elem_of_cons; [|done|done].
  apply Hin. apply elem_of_app. by left.
Qed.
End lru.

(** ** The contract

    [inv tr U a]: the algorithm tracks the frames [U] and the references to
    the page addresses [tr] are still to come. *)

Class EvictionOk (memsize : Z) (tr0 : list Z) (F : functions) (inv : list Z → gset Z → algs → Prop) : Prop := {
  ev_init : wp (init F) algs0 (λ _ a, inv tr0 ∅ a);
  ev_evict tr U a vaddrs : inv tr U a → tr ≠ [] → len vaddrs = memsize →
    (∀ f, 0 <= f < memsize → f ∈ U) →
    wp (evict F vaddrs) a (λ f a', 0 <= f < memsize ∧ inv tr (U ∖ {[f]}) a');
  ev_ref v tr U a p : inv (v :: tr) U a → 0 <= Z.shiftr p PAGE_SHIFT < memsize →
    wp (ref F p) a (λ _ a', inv tr (U ∪ {[Z.shiftr p PAGE_SHIFT]}) a');
}.

Section instances.
Context `{Malloc} (memsize : Z) (random : Z → Z) (file : list string) (dist : list Z) (type vaddr : Z).
Context (Hmem : 0 < memsize < 2 ^ 31) (Hrandom : ∀ n, 0 <= random n) (Hdist : len dist = memsize).
Definition tr0 : list Z := map (λ x, page_addr x.2) (accesses file type vaddr).
Context (Htr : len tr0 < 2 ^ 31).

Definition rand_inv (tr : list Z) (U : gset Z) (a : algs) : Prop := True.
#[export] Instance rand_ok :
  EvictionOk memsize tr0 (MkFunctions "rand" rand_init (λ _, rand_ref) (λ _, rand_evict memsize random)) rand_inv.
Proof.
  split; [done| |done]. intros tr U a vaddrs _ _ _ _. simpl. unfold rand_evict. wp_pure.
  apply wp_guard_or; [apply negb_true_iff, Z.eqb_neq; lia|]. rewrite wp_ret. split; [|done].
  specialize (Hrandom (random_calls a)). rewrite Z.rem_mod_nonneg by lia.
  pose proof (Z.mod_pos_bound (random (random_calls a)) memsize ltac:(lia)).
  unfold s32. rewrite u32_small by lia. rewrite (proj2 (Z.ltb_lt _ _)) by lia. lia.
Qed.

Definition fifo_inv (tr : list Z) (U : gset Z) (a : algs) : Prop := 0 <= fifo_head a < memsize.
#[export] Instance fifo_ok :
  EvictionOk memsize tr0 (MkFunctions "fifo" fifo_init (λ _, fifo_ref) (λ _, fifo_evict memsize)) fifo_inv.
Proof.
  split; simpl; [unfold fifo_init, fifo_inv; wp_pure; lia| |done].
  intros tr U a vaddrs Hi _ _ _. unfold fifo_evict. wp_pure. unfold fifo_inv in *.
  apply wp_guard_or; [apply negb_true_iff, Z.eqb_neq; lia|]. wp_pure. split; [done|].
  rewrite Z.rem_mod_nonneg by lia. apply Z.mod_pos_bound. lia.
Qed.

Definition clock_inv (tr : list Z) (U : gset Z) (a : algs) : Prop :=
  len (clk_refed a) = memsize ∧ 0 <= clk_hand a < memsize.
#[export] Instance clock_ok :
  EvictionOk memsize tr0 (MkFunctions "clock" (clock_init memsize) clock_ref (λ _, clock_evict memsize)) clock_inv.
Proof.
  split; simpl.
  - unfold clock_init. wp_pure. split; simpl; [apply len_replicate; lia|lia].
  - intros tr U a vaddrs [Hl Hh] _ _ _. unfold clock_evict. rewrite wp_bind, wp_gets.
    replace (clk_hand a) with (at_hand memsize (clk_hand a) 0).
    2: { unfold at_hand. rewrite Z.add_0_r. by apply Z.mod_small. }
    eapply wp_mono; [apply (wp_clock_loop memsize (clk_hand a) (clk_refed a)); try done; try lia|].
    { split; [done|]. intros j Hj. by rewrite decide_False by lia. }
    intros f a' (k & rf' & Hk & -> & _ & _ & [Hl' _] & ->).
    pose proof (at_hand_range memsize (clk_hand a) k ltac:(lia)). split; [done|].
    split; simpl; [by rewrite len_upd|done].
  - intros v tr U a p [Hl Hh] Hp. unfold clock_ref. eapply wp_astore; [lia|].
    split; simpl; [by rewrite len_upd|done].
Qed.

Definition lru_inv (tr : list Z) (U : gset Z) (a : algs) : Prop :=
  ∃ l, lru_rep memsize (a_lru a) l ∧ Forall (λ f, 0 <= f < memsize) l.*2 ∧ ∀ f, f ∈ U ↔ f ∈ l.*2.
#[export] Instance lru_ok :
  EvictionOk memsize tr0 (MkFunctions "lru" (zoom a_lru put_lru (lru_init memsize)) lru_ref_g (λ _, lru_evict_g)) lru_inv.
Proof.
  split; simpl.
  - rewrite wp_zoom. apply wp_lru_init; [lia|done|]. intros s' Hr. exists [].
    split_and!; [done|constructor|set_solver].
  - intros tr U a vaddrs (l & Hr & Hrg & HU) _ _ Hall. unfold lru_evict_g. rewrite wp_zoom.
    destruct l as [|[p f] l].
    { exfalso. apply (not_elem_of_nil 0), HU, Hall. lia. }
    simpl in *. apply Forall_cons in Hrg as [Hf Hrg]. eapply wp_lru_evict; [done|done|].
    intros s' Hr'. split; [done|]. exists l. split_and!; [done|done|]. intros g.
    apply rp_frames, NoDup_cons in Hr as [Hn _]. rewrite elem_of_difference, HU, elem_of_cons. set_solver.
  - intros v tr U a p (l & Hr & Hrg & HU) Hp. unfold lru_ref_g. rewrite wp_zoom.
    eapply wp_lru_ref; [done|done|]. intros s' l' Hr' El. exists l'. split_and!; [done| |].
    + apply Forall_forall. intros f. rewrite El, elem_touch. intros [->|Hf]; [done|].
      by apply (proj1 (Forall_forall _ _) Hrg).
    + intros f. rewrite El, elem_touch, elem_of_union, HU. set_solver.
Qed.

Definition opt_inv (tr : list Z) (U : gset Z) (a : algs) : Prop :=
  len (opt_dist a) = memsize ∧ (tr ≠ [] → opt_curr a = tr) ∧
  0 <= debug_count a ∧ debug_count a + len tr < 2 ^ 31.
#[export] Instance opt_ok :
  EvictionOk memsize tr0 (MkFunctions "opt" (opt_init (Some file) dist type vaddr) (λ _, opt_ref) (opt_evict memsize)) opt_inv.
Proof.
  split; simpl.
  - unfold opt_init. wp_pure. unfold opt_inv. simpl. split_and!; done.
  - intros tr U a vaddrs (Hl & Hc & Hd & Hb) Hne Hv _. destruct tr as [|cur rest]; [done|].
    rewrite len_cons in Hb. eapply wp_mono; [apply (wp_opt_evict memsize vaddrs cur rest); try done; try lia; by apply Hc|].
    intros f a' (E & Hl' & Hf & _). split; [done|]. rewrite E. unfold opt_inv. simpl.
    rewrite len_cons. split_and!; done || lia.
  - intros v tr U a p (Hl & Hc & Hd & Hb) Hp. rewrite len_cons in Hb. pose proof (len_nonneg tr).
    unfold opt_ref. wp_pure. apply wp_guard_or; [apply Z.ltb_lt; lia|]. wp_pure. simpl. rewrite Hc by done. wp_pure.
    unfold opt_inv. simpl. split_and!; [done| |lia|lia]. by destruct tr.
Qed.
(** Every algorithm of the table keeps the contract. *)
Lemma alg_table_ok F : F ∈ alg_table memsize random (Some file) dist type vaddr →
  ∃ inv, EvictionOk memsize tr0 F inv.
Proof.
  unfold alg_table. rewrite !elem_of_cons.
  intros [->|[->|[->|[->|[->|[]%not_elem_of_nil]]]]]; eexists.
  - apply rand_ok.
  - apply lru_ok.
  - apply fifo_ok.
  - apply clock_ok.
  - apply opt_ok.
Qed.
End instances.

(** ** The three choices on concrete inputs *)

Lemma opt_evicts_farthest_witness :
  let a := put_opt_dist [0; 0] (put_opt [] [4096; 8192; 0; 4096] algs0) in
  wp (opt_evict 2 [8192; 0]) a (λ f _, 0 <= f < 2 ∧
    match idx [8192; 0] f ≫= λ v, until v [8192; 0; 4096] with
    | None => True
    | Some df => ∀ g v, idx [8192; 0] g = Some v → ∃ d, until v [8192; 0; 4096] = Some d ∧ d <= df
    end) ∧
  opt_evict 2 [8192; 0] a = Ok 1 (put_opt_dist [0; 1] a).
Proof.
  intros a. split; [|reflexivity].
  apply (opt_evicts_farthest 2 [8192; 0] 4096 [8192; 0; 4096] a); [lia|reflexivity..].
Defined.
Lemma lru_evicts_least_recent_witness :
  wp (lru_init 4;; refs [2; 0; 3; 2; 0];; lru_evict) (Lru ∅ None None []) (λ f _,
    ∃ l1 l2, [2; 0; 3; 2; 0] = l1 ++ f :: l2 ∧ f ∉ l2 ∧ ∀ g, g ∈ l1 → g ≠ f → g ∈ l2) ∧
  wp (lru_init 4;; refs [2; 0; 3; 2; 0];; lru_evict) (Lru ∅ None None []) (λ f _, f = 3).
Proof.
  split; [|by vm_compute]. apply lru_evicts_least_recent; [lia|reflexivity|done|].
  rewrite !Forall_cons. split_and!; try lia. apply Forall_nil_2.
Defined.
