(* ===== verification/Sim.v ===== *)
(** * The paging simulator: pagetable.c, swap.c and vsystem.c

    src/legacy/OldPageTable/experiment/pagetable.c (the two-level table, the
    core map and [find_physpage]), [swap_pagein] and [swap_pageout] of swap.c,
    and [access_mem], [replay_trace] and [main] of ../vsystem.c. The
    remote memory calls of swap.c come from a client library that is not in
    the repository: they are the class [Swap]. *)

From Stdlib Require Import Ascii String.
From S2P Require Import Prelude Bytes SimLru SimAlgs.
Open Scope Z_scope.

Definition SIMPAGESIZE : Z := 4096.
Definition PG_VALID : Z := 1.
Definition PG_DIRTY : Z := 2.
Definition PG_REF : Z := 4.
Definition PG_ONSWAP : Z := 8.
Definition INVALID_SWAP : Z := -1.
Definition VALID_SWAP : Z := 1.
Definition PGDIR_SHIFT : Z := 24.
Definition PTRS_PER_PGDIR : Z := 4096.
Definition PTRS_PER_PGTBL : Z := 4096.
Definition PGTBL_MASK : Z := PTRS_PER_PGTBL - 1.
(** The result is an [unsigned]. *)
Definition PGDIR_INDEX (x : Z) : Z := u32 (Z.shiftr x PGDIR_SHIFT).
Definition PGTBL_INDEX (x : Z) : Z := Z.land (Z.shiftr x PAGE_SHIFT) PGTBL_MASK.

(** [pgtbl_entry_t]; the fields of [swap_off] are inlined. *)
Record pte := Pte { p_frame : Z; swap_info : Z; r_addr : list Z; timestamp : Z }.
(** A pointer to an entry: the index of its table and its own. *)
Definition pte_ptr : Type := Z * Z.
Record frame := Frame { in_use : bool; f_pte : option pte_ptr; f_vaddr : Z }.

(** The client library behind swap.c, on its own state [D]. *)
Class Swap (D : Type) := {
  allocateRemoteMem : M D (list Z);
  getRemoteMem : list Z → M D (list Z);
  writeRemoteMem : list Z → list Z → M D unit;
}.

Record sim (D : Type) := Sim {
  pgdir : list (option (list pte));
  coremap : list frame;
  physmem : list Z;
  hit_count : Z;
  miss_count : Z;
  ref_count : Z;
  evict_clean_count : Z;
  evict_dirty_count : Z;
  alg : algs;
  net : D;
}.
Arguments Sim {D}. Arguments pgdir {D}. Arguments coremap {D}. Arguments physmem {D}.
Arguments hit_count {D}. Arguments miss_count {D}. Arguments ref_count {D}.
Arguments evict_clean_count {D}. Arguments evict_dirty_count {D}. Arguments alg {D}. Arguments net {D}.

Section sim.
Context {D : Type} `{Swap D}.
Implicit Types (s : sim D).

Definition put_pgdir x s : sim D :=
  Sim x (coremap s) (physmem s) (hit_count s) (miss_count s) (ref_count s) (evict_clean_count s) (evict_dirty_count s) (alg s) (net s).
Definition put_coremap x s : sim D :=
  Sim (pgdir s) x (physmem s) (hit_count s) (miss_count s) (ref_count s) (evict_clean_count s) (evict_dirty_count s) (alg s) (net s).
Definition put_physmem x s : sim D :=
  Sim (pgdir s) (coremap s) x (hit_count s) (miss_count s) (ref_count s) (evict_clean_count s) (evict_dirty_count s) (alg s) (net s).
Definition put_hits x s : sim D :=
  Sim (pgdir s) (coremap s) (physmem s) x (miss_count s) (ref_count s) (evict_clean_count s) (evict_dirty_count s) (alg s) (net s).
Definition put_misses x s : sim D :=
  Sim (pgdir s) (coremap s) (physmem s) (hit_count s) x (ref_count s) (evict_clean_count s) (evict_dirty_count s) (alg s) (net s).
Definition put_refs x s : sim D :=
  Sim (pgdir s) (coremap s) (physmem s) (hit_count s) (miss_count s) x (evict_clean_count s) (evict_dirty_count s) (alg s) (net s).
Definition put_clean x s : sim D :=
  Sim (pgdir s) (coremap s) (physmem s) (hit_count s) (miss_count s) (ref_count s) x (evict_dirty_count s) (alg s) (net s).
Definition put_dirty x s : sim D :=
  Sim (pgdir s) (coremap s) (physmem s) (hit_count s) (miss_count s) (ref_count s) (evict_clean_count s) x (alg s) (net s).
Definition put_alg x s : sim D :=
  Sim (pgdir s) (coremap s) (physmem s) (hit_count s) (miss_count s) (ref_count s) (evict_clean_count s) (evict_dirty_count s) x (net s).
Definition put_net x s : sim D :=
  Sim (pgdir s) (coremap s) (physmem s) (hit_count s) (miss_count s) (ref_count s) (evict_clean_count s) (evict_dirty_count s) (alg s) x.

(** [count++] on an [int]. *)
Definition incr (get : sim D → Z) (put : Z → sim D → sim D) : M (sim D) unit :=
  x ← gets get;
  guard_or (x <? 2 ^ 31 - 1) Overflow;;
  modify (put (x + 1)).

(** ** Page table entries *)

Definition load_pte (p : pte_ptr) : M (sim D) pte :=
  t ← aload pgdir p.1;
  match t with
  | Some t => aload (λ _, t) p.2
  | None => err NullDeref
  end.
Definition store_pte (p : pte_ptr) (f : pte → pte) : M (sim D) unit :=
  t ← aload pgdir p.1;
  match t with
  | Some t =>
      e ← aload (λ _, t) p.2;
      astore pgdir put_pgdir p.1 (Some (upd t p.2 (f e)))
  | None => err NullDeref
  end.
Definition set_flag (k : Z) (e : pte) : pte :=
  Pte (Z.lor (p_frame e) k) (swap_info e) (r_addr e) (timestamp e).
(** [frame &= ~k] *)
Definition clear_flag (k : Z) (e : pte) : pte :=
  Pte (Z.land (p_frame e) (u32 (Z.lnot k))) (swap_info e) (r_addr e) (timestamp e).
Definition set_frame (x : Z) (e : pte) : pte := Pte x (swap_info e) (r_addr e) (timestamp e).
Definition set_swap (i : Z) (a : list Z) (e : pte) : pte := Pte (p_frame e) i a (timestamp e).
Definition flag (k : Z) (e : pte) : bool := negb (Z.land (p_frame e) k =? 0).

(** ** swap.c *)

(** [frame] is unsigned here. *)
Definition swap_pagein (frame : Z) (addr : list Z) : M (sim D) Z :=
  page ← zoom net put_net (getRemoteMem addr);
  m ← gets physmem;
  m ← copy m (u32 (frame * SIMPAGESIZE)) page 0 SIMPAGESIZE;
  modify (put_physmem m);;
  mret 0.
(** [p] is the entry that holds [swap_offset]. *)
Definition swap_pageout (frame : Z) (p : pte_ptr) : M (sim D) Z :=
  e ← load_pte p;
  (if swap_info e =? INVALID_SWAP then
     a ← zoom net put_net allocateRemoteMem;
     store_pte p (set_swap VALID_SWAP a)
   else mret tt);;
  e ← load_pte p;
  guard_or (negb (swap_info e =? INVALID_SWAP)) AssertFail;;
  m ← gets physmem;
  let off := u32 (frame * SIMPAGESIZE) in
  guard_or (off + SIMPAGESIZE <=? len m) OutOfBounds;;
  zoom net put_net (writeRemoteMem (slice m off SIMPAGESIZE) (r_addr e));;
  mret 0.

(** ** pagetable.c *)

Definition init_pagetable : M (sim D) unit :=
  modify (put_pgdir (replicate (Z.to_nat PTRS_PER_PGDIR) None)).
(** [posix_memalign] with success [ok]; [garbage] is what it leaves in the
    fields that are not set. *)
Definition init_second_level (ok : bool) (garbage : pte) : M (sim D) (list pte) :=
  if negb ok then err (Exit 1) else
  mret (replicate (Z.to_nat PTRS_PER_PGTBL) (Pte 0 INVALID_SWAP (r_addr garbage) (timestamp garbage))).
(** The frame number times 4096 as an [int]. *)
Definition frame_offset (frame : Z) : M (sim D) Z :=
  guard_or (frame <? 2 ^ 19) Overflow;;
  mret (frame * SIMPAGESIZE).
Definition init_frame (frame vaddr : Z) : M (sim D) unit :=
  off ← frame_offset frame;
  m ← gets physmem;
  m ← copy m off (replicate (Z.to_nat SIMPAGESIZE) 0) 0 SIMPAGESIZE;
  m ← copy m (off + 4) (le 8 vaddr) 0 8;
  modify (put_physmem m).

(** The first frame that is not in use. *)
Fixpoint find_free (n : nat) (i : Z) : M (sim D) Z :=
  match n with
  | O => mret (-1)
  | S n =>
      f ← aload coremap i;
      if in_use f then find_free n (i + 1) else mret i
  end.
Definition evict_frame (F : functions) : M (sim D) Z :=
  vaddrs ← gets (λ s, f_vaddr <$> coremap s);
  frame ← zoom alg put_alg (evict F vaddrs);
  f ← aload coremap frame;
  match f_pte f with
  | None => err NullDeref
  | Some victim =>
      e ← load_pte victim;
      (if flag PG_DIRTY e then
         swap_pageout frame victim;;
         e ← load_pte victim;
         guard_or (negb (swap_info e =? INVALID_SWAP)) AssertFail;;
         store_pte victim (clear_flag PG_VALID);;
         store_pte victim (set_flag PG_ONSWAP);;
         incr evict_dirty_count put_dirty
       else
         store_pte victim (clear_flag PG_VALID);;
         incr evict_clean_count put_clean);;
      mret frame
  end.
Definition allocate_frame (memsize : Z) (F : functions) (p : pte_ptr) : M (sim D) Z :=
  frame ← find_free (Z.to_nat memsize) 0;
  frame ← (if frame =? -1 then evict_frame F else mret frame);
  f ← aload coremap frame;
  astore coremap put_coremap frame (Frame true (Some p) (f_vaddr f));;
  mret frame.
(** [coremap[frame].vaddr = (vaddr >> PAGE_SHIFT) << PAGE_SHIFT] *)
Definition set_core_vaddr (frame vaddr : Z) : M (sim D) unit :=
  f ← aload coremap frame;
  astore coremap put_coremap frame (Frame (in_use f) (f_pte f) (page_addr vaddr)).

(** The result is the offset of the returned pointer in [physmem]; [ok] and
    [garbage] are what [posix_memalign] does. *)
Definition find_physpage (memsize : Z) (F : functions) (ok : bool) (garbage : pte) (vaddr type : Z) : M (sim D) Z :=
  let idx := PGDIR_INDEX vaddr in
  t ← aload pgdir idx;
  match t with
  | None => t ← init_second_level ok garbage; astore pgdir put_pgdir idx (Some t)
  | Some _ => mret tt
  end;;
  let p := (idx, PGTBL_INDEX vaddr) in
  e ← load_pte p;
  (if negb (flag PG_VALID e) && negb (flag PG_ONSWAP e) then
     incr miss_count put_misses;;
     frame ← allocate_frame memsize F p;
     off ← frame_offset frame;
     store_pte p (set_frame off);;
     init_frame frame vaddr;;
     store_pte p (set_flag PG_DIRTY);;
     set_core_vaddr frame vaddr
   else if negb (flag PG_VALID e) && flag PG_ONSWAP e then
     incr miss_count put_misses;;
     frame ← allocate_frame memsize F p;
     e ← load_pte p;
     r ← swap_pagein frame (r_addr e);
     guard_or (r =? 0) AssertFail;;
     off ← frame_offset frame;
     store_pte p (set_frame off);;
     store_pte p (clear_flag PG_DIRTY);;
     store_pte p (set_flag PG_ONSWAP);;
     set_core_vaddr frame vaddr
   else incr hit_count put_hits);;
  incr ref_count put_refs;;
  store_pte p (set_flag PG_VALID);;
  store_pte p (set_flag PG_REF);;
  when ((type =? 77) || (type =? 83)) (store_pte p (set_flag PG_DIRTY));;
  e ← load_pte p;
  zoom alg put_alg (ref F (p_frame e));;
  e ← load_pte p;
  mret (u32 (Z.shiftr (p_frame e) PAGE_SHIFT * SIMPAGESIZE)).

(** ** vsystem.c *)

(** The version counter is an [int]; the comparison with the address has no
    effect. *)
Definition access_mem (memsize : Z) (F : functions) (ok : bool) (garbage : pte) (type vaddr : Z) : M (sim D) unit :=
  memptr ← find_physpage memsize F ok garbage vaddr type;
  m ← gets physmem;
  guard_or (memptr + 12 <=? len m) OutOfBounds;;
  when ((type =? 83) || (type =? 77)) (
    let version := s32 (un_le (slice m memptr 4)) in
    guard_or (version <? 2 ^ 31 - 1) Overflow;;
    m ← copy m memptr (le 4 (u32 (version + 1))) 0 4;
    modify (put_physmem m)).
Fixpoint replay_trace (memsize : Z) (F : functions) (ok : bool) (garbage : pte) (l : list (Z * Z)) : M (sim D) unit :=
  match l with
  | [] => mret tt
  | (type, vaddr) :: l =>
      access_mem memsize F ok garbage type vaddr;;
      replay_trace memsize F ok garbage l
  end.
End sim.

(** [strcmp(algs[i].name, replacement_alg) == 0] *)
Fixpoint select_alg (table : list functions) (replacement_alg : string) : option functions :=
  match table with
  | [] => None
  | F :: table => if String.eqb (name F) replacement_alg then Some F else select_alg table replacement_alg
  end.

(** What the environment gives to a run: the results of the allocations and
    of [random()], and the contents of fresh memory and uninitialised
    variables. *)
Record sim_env := SimEnv {
  env_random : Z → Z;
  env_coremap : list frame;
  env_physmem : list Z;
  env_dist : list Z;
  env_memalign : bool;
  env_pte : pte;
  env_type : Z;
  env_opt_vaddr : Z;
}.
(** [main] up to the results it prints. [file] is the content of the trace
    file, [None] when it cannot be opened; [replay_trace] starts with
    [vaddr = 0]. *)
Definition main {D} `{Malloc} `{Swap D} (E : sim_env) (memsize : Z) (replacement_alg : option string)
    (file : option (list string)) (d : D) : res (sim D) unit :=
  match file with
  | None => Err (Exit 1)
  | Some lines =>
      let s := Sim [] (env_coremap E) (env_physmem E) 0 0 0 0 0 algs0 d in
      (init_pagetable;;
       match replacement_alg with
       | None => err (Exit 1)
       | Some a =>
           match select_alg (alg_table memsize (env_random E) file (env_dist E) (env_type E) (env_opt_vaddr E)) a with
           | None => err (Exit 1)
           | Some F =>
               zoom alg put_alg (init F);;
               replay_trace memsize F (env_memalign E) (env_pte E) (accesses lines (env_type E) 0)
           end
       end) s
  end.
