(* ===== verification/SimTable.v ===== *)
(** * Entries and tables of the simulator

    Lemmas on the page table entries of Sim.v: the frame number and the four
    flags packed in a word, and the two-level table as a map from page
    numbers to entries. *)

From S2P Require Import Prelude Bytes SimLru SimAlgs Sim.

(** ** The packed word *)

Definition bz (b : bool) (k : Z) : Z := if b then k else 0.
(** The word for frame [f] with the flags valid, dirty, referenced and on
    swap. *)
Definition word (f : Z) (v d r o : bool) : Z := 4096 * f + (bz v 1 + bz d 2 + bz r 4 + bz o 8).

Lemma testbit_word f c m : 0 <= c < 4096 → 0 <= m →
  Z.testbit (4096 * f + c) m = if m <? 12 then Z.testbit c m else Z.testbit f (m - 12).
Proof.
  intros Hc Hm. destruct (Z.ltb_spec m 12).
  - rewrite <-(Z.mod_small c 4096) at 2 by done. replace (4096 * f + c) with (c + f * 4096) by lia.
    rewrite <-(Z.mod_pow2_bits_low _ 12) by lia. change (2 ^ 12) with 4096. by rewrite Z_mod_plus_full.
  - replace m with (m - 12 + 12) at 1 by lia. rewrite <-Z.div_pow2_bits by lia. change (2 ^ 12) with 4096.
    replace (4096 * f + c) with (c + f * 4096) by lia. rewrite Z_div_plus_full by lia.
    by rewrite Z.div_small, Z.add_0_l by done.
Qed.
Lemma high_bits k m : 0 <= k < 4096 → 12 <= m → Z.testbit k m = false.
Proof. intros Hk Hm. rewrite <-(Z.mod_small k (2 ^ 12)) by done. apply Z.mod_pow2_bits_high. lia. Qed.
Lemma lor_low c k : 0 <= c < 4096 → 0 <= k < 4096 → 0 <= Z.lor c k < 4096.
Proof.
  intros Hc Hk. rewrite <-(Z.mod_small (Z.lor c k) (2 ^ 12)); [by apply Z.mod_pos_bound|].
  split; [apply Z.lor_nonneg; lia|]. destruct (decide (Z.lor c k = 0)) as [->|]; [done|].
  apply Z.log2_lt_pow2; [pose proof (Z.lor_nonneg c k); lia|]. rewrite Z.log2_lor by lia.
  assert (∀ z, 0 <= z < 4096 → Z.log2 z < 12) as Hl.
  { intros z Hz. destruct (decide (z = 0)) as [->|]; [done|]. apply Z.log2_lt_pow2; lia. }
  pose proof (Hl c Hc). pose proof (Hl k Hk). lia.
Qed.
Lemma lor_word f c k : 0 <= c < 4096 → 0 <= k < 4096 → Z.lor (4096 * f + c) k = 4096 * f + Z.lor c k.
Proof.
  intros Hc Hk. apply Z.bits_inj'. intros m Hm. rewrite Z.lor_spec, !testbit_word by (done || by apply lor_low).
  destruct (Z.ltb_spec m 12); [by rewrite Z.lor_spec|]. by rewrite (high_bits k), orb_false_r.
Qed.
Lemma land_word f c k : 0 <= c < 4096 → 0 <= k < 4096 → Z.land (4096 * f + c) k = Z.land c k.
Proof.
  intros Hc Hk. apply Z.bits_inj'. intros m Hm. rewrite !Z.land_spec, testbit_word by done.
  destruct (Z.ltb_spec m 12); [done|]. by rewrite (high_bits k), !andb_false_r.
Qed.
Lemma clear_word f c k : 0 <= f < 2 ^ 20 → 0 <= c < 4096 → 0 <= k < 4096 →
  Z.land (4096 * f + c) (u32 (Z.lnot k)) = 4096 * f + Z.ldiff c k.
Proof.
  intros Hf Hc Hk.
  assert (0 <= Z.ldiff c k < 4096) as Hd.
  { rewrite <-(Z.mod_small c (2 ^ 12)) by done. rewrite <-Z.land_ones by lia.
    replace (Z.ldiff (Z.land c (Z.ones 12)) k) with (Z.land (Z.ldiff c k) (Z.ones 12)).
    - rewrite Z.land_ones by lia. by apply Z.mod_pos_bound.
    - apply Z.bits_inj'. intros m Hm. rewrite !Z.land_spec, !Z.ldiff_spec, Z.land_spec.
      destruct (Z.testbit c m), (Z.testbit k m), (Z.testbit (Z.ones 12) m); done. }
  apply Z.bits_inj'. intros m Hm. rewrite Z.land_spec, !testbit_word by done. unfold u32.
  rewrite <-Z.land_ones, Z.land_spec, Z.lnot_spec by lia.
  destruct (Z.ltb_spec m 12).
  - rewrite Z.ones_spec_low, andb_true_r by lia. by rewrite Z.ldiff_spec.
  - rewrite (high_bits k) by done. destruct (decide (m < 32)).
    + by rewrite Z.ones_spec_low, andb_true_r by lia.
    + rewrite Z.ones_spec_high, andb_false_r by lia. symmetry.
      rewrite <-(Z.mod_small f (2 ^ 20)) by done. apply Z.mod_pow2_bits_high. lia.
Qed.
Lemma shiftr_word f c : 0 <= c < 4096 → Z.shiftr (4096 * f + c) 12 = f.
Proof.
  intros Hc. rewrite Z.shiftr_div_pow2 by lia. change (2 ^ 12) with 4096. symmetry.
  by apply (Z.div_unique _ _ _ c); [left|].
Qed.
Lemma flags_low v d r o : 0 <= bz v 1 + bz d 2 + bz r 4 + bz o 8 < 4096.
Proof. destruct v, d, r, o; simpl; lia. Qed.

Section flags.
Context (e : pte) (f : Z) (v d r o : bool) (Hf : 0 <= f < 2 ^ 20) (He : p_frame e = word f v d r o).
Let Hlow := flags_low v d r o.

Lemma flag_valid : flag PG_VALID e = v.
Proof. unfold flag. rewrite He. unfold word. rewrite land_word by done. by destruct v, d, r, o. Qed.
Lemma flag_dirty : flag PG_DIRTY e = d.
Proof. unfold flag. rewrite He. unfold word. rewrite land_word by done. by destruct v, d, r, o. Qed.
Lemma flag_onswap : flag PG_ONSWAP e = o.
Proof. unfold flag. rewrite He. unfold word. rewrite land_word by done. by destruct v, d, r, o. Qed.
Lemma set_valid : p_frame (set_flag PG_VALID e) = word f true d r o.
Proof. simpl. rewrite He. unfold word. rewrite lor_word by done. by destruct v, d, r, o. Qed.
Lemma set_dirty : p_frame (set_flag PG_DIRTY e) = word f v true r o.
Proof. simpl. rewrite He. unfold word. rewrite lor_word by done. by destruct v, d, r, o. Qed.
Lemma set_ref : p_frame (set_flag PG_REF e) = word f v d true o.
Proof. simpl. rewrite He. unfold word. rewrite lor_word by done. by destruct v, d, r, o. Qed.
Lemma set_onswap : p_frame (set_flag PG_ONSWAP e) = word f v d r true.
Proof. simpl. rewrite He. unfold word. rewrite lor_word by done. by destruct v, d, r, o. Qed.
Lemma clear_valid : p_frame (clear_flag PG_VALID e) = word f false d r o.
Proof. simpl. rewrite He. unfold word. rewrite clear_word by done. by destruct v, d, r, o. Qed.
Lemma clear_dirty : p_frame (clear_flag PG_DIRTY e) = word f v false r o.
Proof. simpl. rewrite He. unfold word. rewrite clear_word by done. by destruct v, d, r, o. Qed.
Lemma frame_of_word : Z.shiftr (p_frame e) PAGE_SHIFT = f.
Proof. rewrite He. by apply shiftr_word. Qed.
End flags.

(** ** The two-level table *)

Definition page_no (vaddr : Z) : Z := vaddr / 4096.
Definition ptr_of (pn : Z) : pte_ptr := (pn / 4096, pn mod 4096).
Definition pd_at (pd : list (option (list pte))) (pn : Z) : option pte :=
  match idx pd (pn / 4096) with Some (Some t) => idx t (pn mod 4096) | _ => None end.
Definition set_at (pd : list (option (list pte))) (pn : Z) (e : pte) : list (option (list pte)) :=
  match idx pd (pn / 4096) with
  | Some (Some t) => upd pd (pn / 4096) (Some (upd t (pn mod 4096) e))
  | _ => pd
  end.
Record pd_ok (pd : list (option (list pte))) : Prop := {
  pd_len : len pd = 4096;
  pd_tables d t : idx pd d = Some (Some t) → len t = 4096;
}.

Lemma index_of_vaddr vaddr : 0 <= vaddr < 2 ^ 36 →
  (PGDIR_INDEX vaddr, PGTBL_INDEX vaddr) = ptr_of (page_no vaddr) ∧ 0 <= page_no vaddr < 2 ^ 24.
Proof.
  intros Hv. unfold PGDIR_INDEX, PGTBL_INDEX, ptr_of, page_no, PGDIR_SHIFT, PAGE_SHIFT.
  change PGTBL_MASK with (Z.ones 12). rewrite Z.land_ones, !Z.shiftr_div_pow2 by lia.
  change (2 ^ 12) with 4096. rewrite Z.div_div by lia. change (4096 * 4096) with (2 ^ 24).
  assert (0 <= vaddr / 2 ^ 24 < 2 ^ 12).
  { split; [apply Z.div_pos; lia|]. apply Z.div_lt_upper_bound; lia. }
  rewrite u32_small by lia. split; [done|]. split; [apply Z.div_pos; lia|]. apply Z.div_lt_upper_bound; lia.
Qed.
Lemma page_addr_no vaddr : 0 <= vaddr < 2 ^ 36 → page_addr vaddr = 4096 * page_no vaddr.
Proof.
  intros Hv. unfold page_addr, page_no, PAGE_SHIFT. rewrite Z.shiftl_mul_pow2, Z.shiftr_div_pow2 by lia.
  change (2 ^ 12) with 4096. pose proof (Z.div_mod vaddr 4096 ltac:(lia)). pose proof (Z.mod_pos_bound vaddr 4096 ltac:(lia)).
  rewrite u64_small by lia. lia.
Qed.
Lemma ptr_of_inj pn pn' : ptr_of pn = ptr_of pn' → pn = pn'.
Proof.
  unfold ptr_of. intros [= E1 E2]. rewrite (Z.div_mod pn 4096), (Z.div_mod pn' 4096) by lia. by rewrite E1, E2.
Qed.
Lemma pd_at_set pd pn e e' pn' : pd_at pd pn = Some e → 0 <= pn' →
  pd_at (set_at pd pn e') pn' = if decide (pn = pn') then Some e' else pd_at pd pn'.
Proof.
  unfold pd_at, set_at. intros He Hp'. destruct (idx pd (pn / 4096)) as [[t|]|] eqn:E; [|done..].
  pose proof (idx_Some_range _ _ _ E). pose proof (idx_Some_range _ _ _ He). rewrite idx_upd by done.
  destruct (decide (pn / 4096 = pn' / 4096)) as [Ed|Ed].
  - rewrite <-Ed, E. rewrite idx_upd by done. destruct (decide (pn mod 4096 = pn' mod 4096)) as [Em|Em].
    + rewrite decide_True; [done|]. apply ptr_of_inj. unfold ptr_of. by rewrite Ed, Em.
    + rewrite decide_False; [done|]. by intros ->.
  - rewrite decide_False; [done|]. by intros ->.
Qed.
Lemma set_at_ok pd pn e : pd_ok pd → pd_ok (set_at pd pn e).
Proof.
  intros [Hl Ht]. unfold set_at. destruct (idx pd (pn / 4096)) as [[t|]|] eqn:E; [|by split..].
  split; [by rewrite len_upd|]. intros d t'. pose proof (idx_Some_range _ _ _ E). rewrite idx_upd by done.
  destruct (decide (pn / 4096 = d)); [|apply Ht]. intros [= <-]. rewrite len_upd. by apply (Ht (pn / 4096)).
Qed.
Lemma set_at_twice pd pn e e1 e2 : pd_at pd pn = Some e → set_at (set_at pd pn e1) pn e2 = set_at pd pn e2.
Proof.
  unfold pd_at, set_at. destruct (idx pd (pn / 4096)) as [[t|]|] eqn:E; [|done..]. intros He.
  pose proof (idx_Some_range _ _ _ E). rewrite idx_upd_eq by done. by rewrite !upd_upd.
Qed.
(** A fresh second-level table. *)
Lemma pd_at_table pd d t pn : idx pd d = Some None → len t = 4096 → 0 <= pn →
  pd_at (upd pd d (Some t)) pn = if decide (pn / 4096 = d) then idx t (pn mod 4096) else pd_at pd pn.
Proof.
  intros Hd Ht Hpn. pose proof (idx_Some_range _ _ _ Hd). unfold pd_at. rewrite idx_upd by done.
  destruct (decide (d = pn / 4096)) as [->|Hne]; [by rewrite decide_True|by rewrite decide_False].
Qed.

Section tables.
Context {D : Type} `{Swap D}.
Implicit Types s : sim D.

Lemma wp_load_pte pn e s Q : pd_at (pgdir s) pn = Some e → Q e s → wp (load_pte (ptr_of pn)) s Q.
Proof.
  unfold pd_at. intros He HQ. unfold load_pte. rewrite wp_bind. simpl.
  destruct (idx (pgdir s) (pn / 4096)) as [[t|]|] eqn:E; [|done..]. eapply wp_aload; [done|].
  by eapply wp_aload_list.
Qed.
Lemma wp_store_pte pn e f s Q : pd_at (pgdir s) pn = Some e →
  Q tt (put_pgdir (set_at (pgdir s) pn (f e)) s) → wp (store_pte (ptr_of pn) f) s Q.
Proof.
  unfold pd_at, set_at. intros He HQ. unfold store_pte. rewrite wp_bind. simpl.
  destruct (idx (pgdir s) (pn / 4096)) as [[t|]|] eqn:E; [|done..]. eapply wp_aload; [done|].
  simpl. rewrite wp_bind. eapply wp_aload_list; [done|]. pose proof (idx_Some_range _ _ _ E). by eapply wp_astore.
Qed.
Lemma wp_incr get put s Q : get s < 2 ^ 31 - 1 → Q tt (put (get s + 1) s) → wp (incr (D := D) get put) s Q.
Proof. intros Hlt HQ. unfold incr. wp_pure. apply wp_guard_or; [by apply Z.ltb_lt|]. by wp_pure. Qed.
End tables.
