(* ===== verification/SimInv.v ===== *)
(** * The invariant of the simulator's page table

    [inv seen hole s]: every page referenced so far ([seen]: the address it
    was first referenced by and the number of writes to it) has its content
    in the frame its entry names or at its swap address, the core map and the
    entries agree, and no two pages share a swap address. [hole] is a frame
    that is being given to a new page. *)

From S2P Require Import Prelude Bytes SimLru SimAlgs Sim SimTable.

(** The remote memory behind swap.c: what it stores at the addresses it gave
    out. *)
Class SwapOk (D : Type) `{Swap D} := {
  slots : D → gmap (list Z) (list Z);
  allocate_ok d : wp allocateRemoteMem d (λ a d',
    slots d !! a = None ∧ ∃ c, slots d' = <[a := c]> (slots d));
  get_ok d a c : slots d !! a = Some c → len c = 4096 →
    wp (getRemoteMem a) d (λ r d', r = c ∧ slots d' = slots d);
  write_ok d a c b : slots d !! a = Some c → len b = 4096 →
    wp (writeRemoteMem b a) d (λ _ d', slots d' = <[a := b]> (slots d));
}.

(** The content of a page: its version and the address of [init_frame]. *)
Definition page_bytes (c : Z * Z) : list Z :=
  le 4 (u32 c.2) ++ le 8 c.1 ++ replicate (Z.to_nat 4084) 0.
Lemma len_page_bytes c : len (page_bytes c) = 4096.
Proof. unfold page_bytes. rewrite !len_app, !len_le, len_replicate by lia. lia. Qed.

Lemma word_inj f f' v v' d d' r r' o o' : word f v d r o = word f' v' d' r' o' →
  f = f' ∧ v = v' ∧ d = d' ∧ r = r' ∧ o = o'.
Proof.
  intros E. assert (f = f') as <-.
  { rewrite <-(shiftr_word f _ (flags_low v d r o)), <-(shiftr_word f' _ (flags_low v' d' r' o')).
    unfold word in E. by rewrite E. }
  split; [done|]. unfold word in E. destruct v, v', d, d', r, r', o, o'; simpl in E; try done; lia.
Qed.

Section invariant.
Context {D : Type} `{SwapOk D} (memsize : Z).
Implicit Types (s : sim D) (seen : gmap Z (Z * Z)).

Definition frame_bytes s (f : Z) : list Z := slice (physmem s) (4096 * f) 4096.
Definition resident s (pn f : Z) : Prop :=
  ∃ e d r o, pd_at (pgdir s) pn = Some e ∧ p_frame e = word f true d r o.
Definition page_ok s (hole : option Z) (pn : Z) (c : Z * Z) : Prop :=
  ∃ e f v d r o, pd_at (pgdir s) pn = Some e ∧ p_frame e = word f v d r o ∧ 0 <= f < memsize ∧
    (v = true → hole ≠ Some f ∧ (∃ va, idx (coremap s) f = Some (Frame true (Some (ptr_of pn)) va)) ∧
      frame_bytes s f = page_bytes c) ∧
    (v = false ∨ d = false → o = true ∧ slots (net s) !! r_addr e = Some (page_bytes c)) ∧
    (o = true → swap_info e = 1).
Record inv seen (hole : option Z) s : Prop := {
  i_dir : pd_ok (pgdir s);
  i_core : len (coremap s) = memsize;
  i_mem : len (physmem s) = 4096 * memsize;
  i_pages pn c : seen !! pn = Some c → 0 <= pn ∧ page_ok s hole pn c;
  i_new pn e : 0 <= pn → seen !! pn = None → pd_at (pgdir s) pn = Some e → p_frame e = 0 ∧ swap_info e = -1;
  i_owner f fr : idx (coremap s) f = Some fr → in_use fr = true → hole ≠ Some f →
    ∃ pn, f_pte fr = Some (ptr_of pn) ∧ 0 <= pn ∧ is_Some (seen !! pn) ∧ resident s pn f;
  i_swap pn e : 0 <= pn → pd_at (pgdir s) pn = Some e →
    swap_info e = -1 ∨ swap_info e = 1 ∧ is_Some (slots (net s) !! r_addr e);
  i_distinct pn pn' e e' : 0 <= pn → 0 <= pn' → pd_at (pgdir s) pn = Some e → pd_at (pgdir s) pn' = Some e' →
    swap_info e = 1 → swap_info e' = 1 → r_addr e = r_addr e' → pn = pn';
}.

Lemma resident_fun s pn f f' : resident s pn f → resident s pn f' → f = f'.
Proof.
  intros (e & d & r & o & E & Ew) (e' & d' & r' & o' & E' & Ew'). rewrite E in E'. injection E' as <-.
  rewrite Ew in Ew'. by apply word_inj in Ew' as [? _].
Qed.
(** A resident page has been referenced and owns its frame. *)
Lemma resident_owner seen hole s pn f : inv seen hole s → 0 <= pn → resident s pn f →
  hole ≠ Some f ∧ 0 <= f < memsize ∧ is_Some (seen !! pn) ∧
  ∃ va, idx (coremap s) f = Some (Frame true (Some (ptr_of pn)) va).
Proof.
  intros Hi Hpn (e & d & r & o & E & Ew). destruct (seen !! pn) as [c|] eqn:Es.
  - destruct (i_pages _ _ _ Hi _ _ Es) as [_ (e' & f' & v & d' & r' & o' & E' & Ew' & Hf & Hv & _)].
    rewrite E in E'. injection E' as <-. rewrite Ew in Ew'. apply word_inj in Ew' as (<- & <- & _).
    destruct (Hv eq_refl) as (Hh & Hva & _). split_and!; try done; lia.
  - destruct (i_new _ _ _ Hi _ _ Hpn Es E) as [E0 _]. rewrite Ew in E0.
    change 0 with (word 0 false false false false) in E0. by apply word_inj in E0 as (_ & ? & _).
Qed.
Lemma resident_inj seen hole s pn pn' f : inv seen hole s → 0 <= pn → 0 <= pn' →
  resident s pn f → resident s pn' f → pn = pn'.
Proof.
  intros Hi Hp Hp' Hr Hr'. destruct (resident_owner _ _ _ _ _ Hi Hp Hr) as (_ & _ & _ & va & E).
  destruct (resident_owner _ _ _ _ _ Hi Hp' Hr') as (_ & _ & _ & va' & E'). rewrite E in E'.
  apply ptr_of_inj. congruence.
Qed.
Lemma frame_bytes_ext s s' f : 0 <= f →
  (∀ i, 4096 * f <= i < 4096 * f + 4096 → idx (physmem s') i = idx (physmem s) i) →
  frame_bytes s' f = frame_bytes s f.
Proof.
  intros Hf Hm. apply idx_ext. intros i. unfold frame_bytes. destruct (decide (0 <= i)).
  - rewrite !idx_slice by lia. case_decide; [|done]. apply Hm. lia.
  - rewrite !idx_None by lia. done.
Qed.

(** What happens to the other pages when the entry of [pn] changes. *)
Lemma resident_other s s' pn pn' e e' f : pd_at (pgdir s) pn = Some e →
  pgdir s' = set_at (pgdir s) pn e' → 0 <= pn' → pn' ≠ pn → resident s' pn' f ↔ resident s pn' f.
Proof.
  intros He Hp Hpn Hne. unfold resident. rewrite Hp.
  split; intros (x & d & r & o & E & Ew); exists x, d, r, o; (split; [|done]).
  - rewrite (pd_at_set _ _ e) in E by done. by rewrite decide_False in E.
  - rewrite (pd_at_set _ _ e) by done. by rewrite decide_False.
Qed.
(** Installing [pn] in frame [f], which is the hole or its own frame already. *)
Lemma inv_put seen hole s s' pn f e e' c d r o x :
  inv seen hole s → (hole = None ∨ hole = Some f) → 0 <= f < memsize → 0 <= pn →
  (∀ pn', 0 <= pn' → resident s pn' f → pn' = pn) → (∀ f', resident s pn f' → f' = f) →
  pd_at (pgdir s) pn = Some e → pgdir s' = set_at (pgdir s) pn e' →
  len (physmem s') = 4096 * memsize →
  (∀ i, ¬ (4096 * f <= i < 4096 * f + 4096) → idx (physmem s') i = idx (physmem s) i) →
  frame_bytes s' f = page_bytes c →
  coremap s' = upd (coremap s) f (Frame true (Some (ptr_of pn)) x) →
  slots (net s') = slots (net s) →
  p_frame e' = word f true d r o → swap_info e' = swap_info e → r_addr e' = r_addr e →
  (d = false → o = true ∧ slots (net s) !! r_addr e = Some (page_bytes c)) →
  (o = true → swap_info e = 1) →
  inv (<[pn := c]> seen) None s'.
Proof.
  intros Hi Hh Hf Hpn Honly Hfun He Hpd Hml Hmo Hfb Hcm Hsl Ew Esi Era Hd Ho.
  pose proof (i_core _ _ _ Hi) as Hcl.
  assert (∀ pn', 0 <= pn' → pd_at (pgdir s') pn' = if decide (pn = pn') then Some e' else pd_at (pgdir s) pn') as Hat.
  { intros. rewrite Hpd. by apply (pd_at_set _ _ e). }
  assert (∀ pn' y, 0 <= pn' → pd_at (pgdir s') pn' = Some y →
    ∃ y0, pd_at (pgdir s) pn' = Some y0 ∧ swap_info y0 = swap_info y ∧ r_addr y0 = r_addr y) as Hsw.
  { intros pn' y Hp. rewrite Hat by done. case_decide; subst; [intros [= <-]; eauto|eauto]. }
  split.
  - rewrite Hpd. apply set_at_ok, Hi.
  - by rewrite Hcm, len_upd.
  - done.
  - intros pn' c' Hs. destruct (decide (pn = pn')) as [<-|Hne].
    + rewrite lookup_insert_eq in Hs. injection Hs as <-. split; [done|].
      exists e', f, true, d, r, o. rewrite Hat, decide_True by done. rewrite Esi, Era, Hsl. split_and!; try done; try lia.
      * intros _. split_and!; [done| |done]. exists x. rewrite Hcm. apply idx_upd_eq. lia.
      * intros [?|Hd']; [done|]. by apply Hd.
    + rewrite lookup_insert_ne in Hs by done. destruct (i_pages _ _ _ Hi _ _ Hs) as [Hp' (y & f' & v & d' & r' & o' & Ey & Ewy & Hf' & Hv & Hc & Hos)].
      split; [done|]. exists y, f', v, d', r', o'. rewrite Hat, decide_False, Hsl by done. split_and!; try done; try lia.
      intros ->. destruct (Hv eq_refl) as (_ & (va & Eva) & Hb).
      assert (f' ≠ f) as Hff by (intros ->; apply Hne; symmetry; apply Honly; [done|by exists y, d', r', o']).
      split_and!; [done| |].
      * exists va. rewrite Hcm, idx_upd_ne by (lia || done). done.
      * rewrite <-Hb. apply frame_bytes_ext; [lia|]. intros i Hir. apply Hmo. lia.
  - intros pn' y Hp' Hs. apply lookup_insert_None in Hs as [Hs Hne]. rewrite Hat by done. rewrite decide_False by done.
    by apply (i_new _ _ _ Hi).
  - intros f' fr Efr Hu _. rewrite Hcm, idx_upd in Efr by lia. destruct (decide (f = f')) as [<-|Hne].
    + injection Efr as <-. exists pn. split_and!; [done|done|by rewrite lookup_insert_eq; eauto|].
      exists e', d, r, o. by rewrite Hat, decide_True by done.
    + destruct (i_owner _ _ _ Hi f' fr Efr Hu) as (pn' & E1 & E2 & E3 & E4); [by destruct Hh as [->| ->]; congruence|].
      assert (pn' ≠ pn) by (intros ->; apply Hne; symmetry; by apply Hfun).
      exists pn'. split_and!; [done|done|by rewrite lookup_insert_ne by done|]. by apply (resident_other s s' pn pn' e e').
  - intros pn' y Hp' Ey. destruct (Hsw _ _ Hp' Ey) as (y0 & E0 & <- & <-). rewrite Hsl. by apply (i_swap _ _ _ Hi pn').
  - intros p1 p2 y1 y2 H1 H2 E1 E2. destruct (Hsw _ _ H1 E1) as (z1 & F1 & <- & <-).
    destruct (Hsw _ _ H2 E2) as (z2 & F2 & <- & <-). by apply (i_distinct _ _ _ Hi).
Qed.
(** Taking the page [pn] out of its frame [f], with its content on swap. *)
Lemma inv_take seen s s' pn c f e e' d r :
  inv seen None s → 0 <= pn → seen !! pn = Some c → resident s pn f →
  pd_at (pgdir s) pn = Some e → pgdir s' = set_at (pgdir s) pn e' →
  coremap s' = coremap s → physmem s' = physmem s →
  p_frame e' = word f false d r true → swap_info e' = 1 →
  slots (net s') !! r_addr e' = Some (page_bytes c) →
  (∀ pn' y, 0 <= pn' → pn' ≠ pn → pd_at (pgdir s) pn' = Some y → swap_info y = 1 →
    r_addr y ≠ r_addr e' ∧ slots (net s') !! r_addr y = slots (net s) !! r_addr y) →
  inv seen (Some f) s' ∧ ∀ pn', 0 <= pn' → ¬ resident s' pn' f.
Proof.
  intros Hi Hpn Hs Hr He Hpd Hcm Hpm Ew Hsi Hsl Hoth.
  destruct (resident_owner _ _ _ _ _ Hi Hpn Hr) as (_ & Hf & _ & va & Eva).
  assert (∀ pn', 0 <= pn' → pd_at (pgdir s') pn' = if decide (pn = pn') then Some e' else pd_at (pgdir s) pn') as Hat.
  { intros. rewrite Hpd. by apply (pd_at_set _ _ e). }
  assert (∀ pn', 0 <= pn' → ¬ resident s' pn' f) as Hno.
  { intros pn' Hp' Hr'. destruct (decide (pn' = pn)) as [->|Hne].
    - destruct Hr' as (y & d' & r' & o' & Ey & Ewy). rewrite Hat, decide_True in Ey by done. injection Ey as <-.
      rewrite Ew in Ewy. by apply word_inj in Ewy as (_ & ? & _).
    - apply Hne. apply (resident_inj seen None s _ _ f); [done..| |done].
      by apply (resident_other s s' pn pn' e e'). }
  split; [|done]. split.
  - rewrite Hpd. apply set_at_ok, Hi.
  - rewrite Hcm. apply Hi.
  - rewrite Hpm. apply Hi.
  - intros pn' c' Hs'. destruct (decide (pn = pn')) as [<-|Hne].
    + rewrite Hs in Hs'. injection Hs' as <-. split; [done|]. exists e', f, false, d, r, true.
      rewrite Hat, decide_True by done. split_and!; try done; lia.
    + destruct (i_pages _ _ _ Hi _ _ Hs') as [Hp' (y & f' & v & d' & r' & o' & Ey & Ewy & Hf' & Hv & Hc & Hos)].
      split; [done|]. exists y, f', v, d', r', o'. rewrite Hat, decide_False by done. split_and!; try done; try lia.
      * intros ->. destruct (Hv eq_refl) as (_ & (va' & Eva') & Hb).
        split_and!; [|exists va'; by rewrite Hcm|by unfold frame_bytes; rewrite Hpm].
        intros [= <-]. apply Hne. apply (resident_inj seen None s _ _ f); [done..|by exists y, d', r', o'].
      * intros Hvd. destruct (Hc Hvd) as [Ho Hsl']. split; [done|]. rewrite <-Hsl'. by apply (Hoth pn'); auto.
  - intros pn' y Hp' Hs' Ey. destruct (decide (pn = pn')) as [<-|Hne]; [congruence|].
    rewrite Hat, decide_False in Ey by done. by apply (i_new _ _ _ Hi pn').
  - intros f' fr Efr Hu Hh. rewrite Hcm in Efr.
    destruct (i_owner _ _ _ Hi f' fr Efr Hu) as (pn' & E1 & E2 & E3 & E4); [done|]. exists pn'. split_and!; try done.
    apply (resident_other s s' pn pn' e e'); try done. intros ->. apply Hh. f_equal. by apply (resident_fun s pn).
  - intros pn' y Hp'. rewrite Hat by done. destruct (decide (pn = pn')) as [<-|Hne].
    + intros [= <-]. right. rewrite Hsl. eauto.
    + intros Ey. destruct (i_swap _ _ _ Hi pn' y Hp' Ey) as [?|[Hy Hin]]; [by left|right]. split; [done|].
      destruct (Hoth pn' y Hp' (not_eq_sym Hne) Ey Hy) as [_ ->]. done.
  - intros p1 p2 y1 y2 H1 H2. rewrite !Hat by done.
    destruct (decide (pn = p1)) as [<-|N1], (decide (pn = p2)) as [<-|N2]; [done| | |by apply (i_distinct _ _ _ Hi)].
    + intros [= <-] E2 _ S2 E. destruct (Hoth p2 y2) as [Hn _]; congruence.
    + intros E1 [= <-] S1 _ E. destruct (Hoth p1 y1) as [Hn _]; congruence.
Qed.
(** A second-level table that is created on first use. *)
Lemma inv_table seen s d g : inv seen None s → idx (pgdir s) d = Some None →
  inv seen None (put_pgdir (upd (pgdir s) d
    (Some (replicate (Z.to_nat PTRS_PER_PGTBL) (Pte 0 INVALID_SWAP (r_addr g) (timestamp g))))) s).
Proof.
  intros Hi Hd. set (t := replicate _ _). pose proof (idx_Some_range _ _ _ Hd) as Hdr.
  assert (len t = 4096) as Ht by by apply len_replicate.
  assert (∀ pn, 0 <= pn → pd_at (upd (pgdir s) d (Some t)) pn =
    if decide (pn / 4096 = d) then idx t (pn mod 4096) else pd_at (pgdir s) pn) as Hat.
  { intros. by apply pd_at_table. }
  assert (∀ pn, pn / 4096 = d → pd_at (pgdir s) pn = None) as Hnone.
  { intros pn <-. unfold pd_at. by rewrite Hd. }
  assert (∀ pn e, 0 <= pn → pd_at (upd (pgdir s) d (Some t)) pn = Some e →
    pd_at (pgdir s) pn = Some e ∧ pn / 4096 ≠ d ∨
    pd_at (pgdir s) pn = None ∧ p_frame e = 0 ∧ swap_info e = -1) as Hcase.
  { intros pn e Hpn. rewrite Hat by done. case_decide as E; [|auto]. intros Ht'. right. split; [by apply Hnone|].
    unfold idx in Ht'. case_match; [|done]. by apply lookup_replicate in Ht' as [-> _]. }
  assert (∀ pn f, 0 <= pn → resident s pn f →
    resident (put_pgdir (upd (pgdir s) d (Some t)) s) pn f) as Hres.
  { intros pn f Hpn (e & x & r & o & E & Ew). exists e, x, r, o. simpl. split; [|done]. rewrite Hat by done.
    case_decide as Ed; [|done]. by rewrite Hnone in E. }
  split; simpl.
  - destruct (i_dir _ _ _ Hi) as [Hl Htb]. split; [by rewrite len_upd|]. intros d' t'. rewrite idx_upd by done.
    case_decide; [by intros [= <-]|apply Htb].
  - apply Hi.
  - apply Hi.
  - intros pn c Hs. destruct (i_pages _ _ _ Hi _ _ Hs) as [Hpn (e & f & v & x & r & o & E & Hrest)].
    split; [done|]. exists e, f, v, x, r, o. simpl. split; [|done]. rewrite Hat by done.
    case_decide as Ed; [|done]. by rewrite Hnone in E.
  - intros pn e Hpn Hs E. destruct (Hcase pn e Hpn E) as [[E' _]|(_ & ? & ?)]; [|done].
    by apply (i_new _ _ _ Hi pn).
  - intros f fr Ef Hu Hh. destruct (i_owner _ _ _ Hi f fr Ef Hu Hh) as (pn & E1 & E2 & E3 & E4).
    exists pn. split_and!; try done. by apply Hres.
  - intros pn e Hpn E. destruct (Hcase pn e Hpn E) as [[E' _]|(_ & ? & ?)]; [|by left].
    by apply (i_swap _ _ _ Hi pn).
  - intros p1 p2 e1 e2 H1 H2 E1 E2 S1 S2. destruct (Hcase _ _ H1 E1) as [[F1 _]|(_ & _ & ?)]; [|congruence].
    destruct (Hcase _ _ H2 E2) as [[F2 _]|(_ & _ & ?)]; [|congruence]. by apply (i_distinct _ _ _ Hi).
Qed.
Lemma inv_ext seen hole s s' : pgdir s' = pgdir s → coremap s' = coremap s → physmem s' = physmem s →
  net s' = net s → inv seen hole s → inv seen hole s'.
Proof.
  intros E1 E2 E3 E4 [I1 I2 I3 I4 I5 I6 I7 I8]. destruct s, s'. simpl in *. subst. by split.
Qed.
End invariant.
