(* ===== verification/SimPaging.v ===== *)
(** * Page faults of the simulator

    [allocate_frame], [swap_pageout] and [find_physpage] of Sim.v against the
    invariant of SimInv.v, for any eviction algorithm that keeps the contract
    [EvictionOk]. *)

From S2P Require Import Prelude Bytes SimLru SimAlgs SimPolicies Sim SimTable SimInv.

Lemma set_at_id pd pn e : pd_at pd pn = Some e → set_at pd pn e = pd.
Proof.
  unfold pd_at, set_at. destruct (idx pd (pn / 4096)) as [[t|]|] eqn:E; [|done..]. intros He.
  assert (∀ {A} (l : list A) i x, idx l i = Some x → upd l i x = l) as Hid.
  { intros A l i x. unfold idx, upd. destruct (0 <=? i); [|done]. apply list_insert_id. }
  rewrite (Hid _ t _ e He). by rewrite (Hid _ pd _ _ E).
Qed.

(** How many frames are in use. *)
Fixpoint used (cm : list frame) : Z :=
  match cm with [] => 0 | f :: cm => bz (in_use f) 1 + used cm end.
Lemma used_upd cm i f g : idx cm i = Some f →
  used (upd cm i g) = used cm - bz (in_use f) 1 + bz (in_use g) 1.
Proof.
  unfold idx, upd. destruct (0 <=? i); [|done]. generalize (Z.to_nat i). clear i.
  induction cm as [|x cm IH]; intros [|n]; simpl; [done|done|intros [= ->]; lia|].
  intros Hn. rewrite (IH n Hn). lia.
Qed.
Lemma used_range cm : 0 <= used cm <= len cm.
Proof. induction cm as [|f cm IH]; [done|]. rewrite len_cons. simpl. destruct (in_use f); simpl; lia. Qed.
Lemma used_full cm : (∀ f fr, idx cm f = Some fr → in_use fr = true) → used cm = len cm.
Proof.
  induction cm as [|f cm IH]; intros Hall; [done|]. rewrite len_cons. simpl.
  rewrite (Hall 0 f eq_refl). rewrite IH; [simpl; lia|]. intros i fr Hi. apply (Hall (i + 1)).
  unfold idx in *. destruct (Z.leb_spec 0 i); [|done]. rewrite (proj2 (Z.leb_le _ _)) by lia.
  by replace (Z.to_nat (i + 1)) with (S (Z.to_nat i)) by lia.
Qed.

Section paging.
Context {D : Type} `{SwapOk D} `{Malloc} (memsize : Z) (Hmem : 0 < memsize <= 2 ^ 19).
Context (tr0 : list Z) (F : functions) (pinv : list Z → gset Z → algs → Prop) `{!EvictionOk memsize tr0 F pinv}.
Implicit Types (s : sim D) (seen : gmap Z (Z * Z)).

(** The algorithm tracks the frames in use. *)
Definition pol (tr : list Z) (hole : option Z) s : Prop :=
  ∃ U, pinv tr U (alg s) ∧ ∀ f fr, idx (coremap s) f = Some fr → in_use fr = true → hole ≠ Some f → f ∈ U.
(** Hits and misses add up, and a miss takes a free frame or evicts. *)
Record counts (n : Z) s : Prop := {
  c_refs : ref_count s = n;
  c_hits : 0 <= hit_count s;
  c_sum : hit_count s + miss_count s = n;
  c_clean : 0 <= evict_clean_count s;
  c_dirty : 0 <= evict_dirty_count s;
  c_evict : evict_clean_count s + evict_dirty_count s + used (coremap s) = miss_count s;
}.

Lemma wp_find_free n : ∀ i s, 0 <= i → i + Z.of_nat n = len (coremap s) →
  wp (find_free n i) s (λ r s', s' = s ∧
    (r = -1 ∧ (∀ f fr, i <= f → idx (coremap s) f = Some fr → in_use fr = true) ∨
     0 <= r < len (coremap s) ∧ ∃ fr, idx (coremap s) r = Some fr ∧ in_use fr = false)).
Proof.
  induction n as [|n IH]; intros i s Hi Hn; cbn [find_free].
  - rewrite wp_ret. split; [done|]. left. split; [done|]. intros f fr Hf E. apply idx_Some_range in E. lia.
  - rewrite wp_bind. destruct (idx_is_Some (coremap s) i) as [fr E]; [lia|]. eapply wp_aload; [done|].
    destruct (in_use fr) eqn:Eu.
    + eapply wp_mono; [apply IH; lia|]. intros r s' [-> [[-> Hall]|Hr]]; (split; [done|]); [left|by right].
      split; [done|]. intros f fr' Hf E'. destruct (decide (f = i)) as [->|]; [congruence|]. apply (Hall f fr'); [lia|done].
    + rewrite wp_ret. split; [done|]. right. split; [lia|eauto].
Qed.
(** The victim's content goes to its swap address, which is allocated the
    first time. *)
Lemma wp_swap_pageout s seen pn f e c Q :
  inv memsize seen None s → 0 <= pn → pd_at (pgdir s) pn = Some e → 0 <= f < memsize →
  frame_bytes s f = page_bytes c →
  (∀ d e', p_frame e' = p_frame e → swap_info e' = 1 → slots d !! r_addr e' = Some (page_bytes c) →
     (∀ pn' y, 0 <= pn' → pn' ≠ pn → pd_at (pgdir s) pn' = Some y → swap_info y = 1 →
        r_addr y ≠ r_addr e' ∧ slots d !! r_addr y = slots (net s) !! r_addr y) →
     Q 0 (put_net d (put_pgdir (set_at (pgdir s) pn e') s))) →
  wp (swap_pageout f (ptr_of pn)) s Q.
Proof.
  intros Hi Hpn He Hf Hb HQ. unfold swap_pageout. rewrite wp_bind. eapply wp_load_pte; [done|].
  pose proof (i_mem _ _ _ _ Hi) as Hml.
  assert (∀ d e', p_frame e' = p_frame e → swap_info e' = 1 → is_Some (slots d !! r_addr e') →
    (∀ pn' y, 0 <= pn' → pn' ≠ pn → pd_at (pgdir s) pn' = Some y → swap_info y = 1 →
        r_addr y ≠ r_addr e' ∧ slots d !! r_addr y = slots (net s) !! r_addr y) →
    wp (e ← load_pte (ptr_of pn);
        guard_or (negb (swap_info e =? INVALID_SWAP)) AssertFail;;
        m ← gets physmem;
        let off := u32 (f * SIMPAGESIZE) in
        guard_or (off + SIMPAGESIZE <=? len m) OutOfBounds;;
        zoom net put_net (writeRemoteMem (slice m off SIMPAGESIZE) (r_addr e));;
        mret 0) (put_net d (put_pgdir (set_at (pgdir s) pn e') s)) Q) as Hwrite.
  { intros d e' Ew Es [x Hx] Hoth. rewrite wp_bind. eapply wp_load_pte.
    { simpl. rewrite (pd_at_set _ _ e) by done. by rewrite decide_True. }
    rewrite Es. rewrite wp_bind. apply wp_guard_or; [done|]. rewrite wp_bind, wp_gets. simpl.
    unfold SIMPAGESIZE. rewrite u32_small by lia. rewrite wp_bind. apply wp_guard_or; [apply Z.leb_le; lia|].
    replace (f * 4096) with (4096 * f) by lia. change (slice _ _ _) with (frame_bytes s f). rewrite Hb, wp_bind, wp_zoom.
    eapply wp_mono; [eapply write_ok; [done|apply len_page_bytes]|]. intros [] d' Hd'. rewrite wp_ret.
    apply (HQ d' e'); [done|done|by rewrite Hd', lookup_insert_eq|].
    intros pn' y Hp' Hne Hy Hsy. destruct (Hoth pn' y Hp' Hne Hy Hsy) as [Hr Hs]. split; [done|].
    by rewrite Hd', lookup_insert_ne by congruence. }
  rewrite wp_bind. destruct (i_swap _ _ _ _ Hi pn e Hpn He) as [Es|[Es Hin]]; rewrite Es; simpl.
  - rewrite wp_bind, wp_zoom. eapply wp_mono; [apply allocate_ok|]. intros a d (Hfresh & b & Hd).
    eapply wp_store_pte; [done|]. apply (Hwrite d (set_swap VALID_SWAP a e)); [done|done|simpl; rewrite Hd, lookup_insert_eq; eauto|].
    simpl. intros pn' y Hp' Hne Hy Hsy. destruct (i_swap _ _ _ _ Hi pn' y Hp' Hy) as [?|[_ [z Hz]]]; [congruence|].
    assert (r_addr y ≠ a) by congruence. split; [done|]. by rewrite Hd, lookup_insert_ne by done.
  - rewrite wp_ret. replace s with (put_net (net s) (put_pgdir (set_at (pgdir s) pn e) s)) at 1.
    2: { rewrite set_at_id by done. by destruct s. }
    apply (Hwrite (net s) e); [done|done|done|]. intros pn' y Hp' Hne Hy Hsy. split; [|done].
    intros E. apply Hne. by apply (i_distinct _ _ _ _ Hi _ _ y e).
Qed.

(** What allocating a frame leaves alone: everything but the victim's entry,
    the swap, the algorithm, the core map and the eviction counters. *)
Record same (f : Z) s s' : Prop := {
  same_mem : physmem s' = physmem s;
  same_hits : hit_count s' = hit_count s;
  same_misses : miss_count s' = miss_count s;
  same_refs : ref_count s' = ref_count s;
  same_entry pn e : 0 <= pn → (∀ g, ¬ resident s pn g) → pd_at (pgdir s) pn = Some e → pd_at (pgdir s') pn = Some e;
  same_slot seen pn c e : inv memsize seen None s → seen !! pn = Some c → (∀ g, ¬ resident s pn g) →
    pd_at (pgdir s) pn = Some e → swap_info e = 1 → slots (net s') !! r_addr e = slots (net s) !! r_addr e;
}.
Record evicted (tr : list Z) seen (f : Z) s s' : Prop := {
  ed_range : 0 <= f < memsize;
  ed_inv : inv memsize seen (Some f) s';
  ed_none pn : 0 <= pn → ¬ resident s' pn f;
  ed_pol : pol tr (Some f) s';
  ed_same : same f s s';
}.

Lemma evicted_intro seen tr U s s' pn c f e e' d r :
  inv memsize seen None s → 0 <= pn → seen !! pn = Some c → resident s pn f →
  pd_at (pgdir s) pn = Some e → pgdir s' = set_at (pgdir s) pn e' →
  coremap s' = coremap s → physmem s' = physmem s →
  hit_count s' = hit_count s → miss_count s' = miss_count s → ref_count s' = ref_count s →
  p_frame e' = word f false d r true → swap_info e' = 1 →
  slots (net s') !! r_addr e' = Some (page_bytes c) →
  (∀ pn' y, 0 <= pn' → pn' ≠ pn → pd_at (pgdir s) pn' = Some y → swap_info y = 1 →
    r_addr y ≠ r_addr e' ∧ slots (net s') !! r_addr y = slots (net s) !! r_addr y) →
  pinv tr (U ∖ {[f]}) (alg s') →
  (∀ f fr, idx (coremap s) f = Some fr → in_use fr = true → f ∈ U) →
  evicted tr seen f s s'.
Proof.
  intros Hi Hpn Hs Hr He Hpd Hcm Hpm Hh Hm Hrc Ew Esi Hsl Hoth HU Htr.
  destruct (inv_take memsize seen s s' pn c f e e' d r) as [Hi' Hno]; [done..|].
  destruct (resident_owner _ _ _ _ _ _ Hi Hpn Hr) as (_ & Hf & _).
  split; [done|done|done| |].
  - exists (U ∖ {[f]}). split; [done|]. rewrite Hcm. intros g fr Eg Hu Hg.
    apply elem_of_difference. split; [by apply (Htr g fr)|]. intros ->%elem_of_singleton. done.
  - split; [done..| |].
    + intros pn' y Hp' Hn Ey. rewrite Hpd, (pd_at_set _ _ e) by done. rewrite decide_False; [done|].
      intros <-. by apply (Hn f).
    + intros seen' pn' c' y Hi2 Hs' Hn Ey Hy. destruct (i_pages _ _ _ _ Hi2 pn' c' Hs') as [Hp' _].
      apply (Hoth pn' y); [done| |done|done]. intros ->. by apply (Hn f).
Qed.

Lemma wp_evict_frame seen tr s :
  inv memsize seen None s → pol tr None s → tr ≠ [] →
  (∀ f fr, 0 <= f → idx (coremap s) f = Some fr → in_use fr = true) →
  evict_clean_count s < 2 ^ 31 - 1 → evict_dirty_count s < 2 ^ 31 - 1 →
  wp (evict_frame F) s (λ f s', evicted tr seen f s s' ∧ coremap s' = coremap s ∧
    evict_clean_count s <= evict_clean_count s' ∧ evict_dirty_count s <= evict_dirty_count s' ∧
    evict_clean_count s' + evict_dirty_count s' = evict_clean_count s + evict_dirty_count s + 1).
Proof.
  intros Hi (U & HU & Htr) Hne Hfull Hc Hd. unfold evict_frame. rewrite wp_bind, wp_gets, wp_bind, wp_zoom.
  pose proof (i_core _ _ _ _ Hi) as Hcl.
  eapply wp_mono; [apply (ev_evict tr U)|]; [done|done|unfold len in *; by rewrite length_fmap| |].
  { intros f Hf. destruct (idx_is_Some (coremap s) f) as [fr Ef]; [lia|]. apply (Htr f fr); [done| |done].
    apply (Hfull f fr); [lia|done]. }
  intros f a [Hf Ha]. set (s1 := put_alg a s).
  assert (inv memsize seen None s1) as Hi1 by (by apply (inv_ext _ _ _ s)).
  destruct (idx_is_Some (coremap s) f) as [fr Ef]; [lia|].
  destruct (i_owner _ _ _ _ Hi1 f fr Ef) as (pn & Ep & Hpn & [c Hs] & Hr); [by apply (Hfull f fr); [lia|]|done|].
  rewrite wp_bind. eapply wp_aload; [done|]. rewrite Ep. rewrite wp_bind.
  pose proof Hr as (e & d & r & o & Ee & Ew). eapply wp_load_pte; [done|].
  destruct (i_pages _ _ _ _ Hi1 pn c Hs) as [_ (e0 & f0 & v0 & d0 & r0 & o0 & Ee0 & Ew0 & _ & Hv & Hclean & Ho)].
  rewrite Ee in Ee0. injection Ee0 as <-. rewrite Ew in Ew0. apply word_inj in Ew0 as (<- & <- & <- & <- & <-).
  destruct (Hv eq_refl) as (_ & _ & Hb). rewrite (flag_dirty e f true d r o) by (done || lia).
  rewrite wp_bind. destruct d.
  - rewrite wp_bind. eapply wp_swap_pageout; [done..|]. intros dd e' Ew' Es' Hsl Hoth. rewrite Ew in Ew'.
    rewrite wp_bind. eapply wp_load_pte.
    { simpl. rewrite (pd_at_set _ _ e) by done. by rewrite decide_True. }
    rewrite Es'. rewrite wp_bind. apply wp_guard_or; [done|]. rewrite wp_bind. eapply wp_store_pte.
    { simpl. rewrite (pd_at_set _ _ e) by done. by rewrite decide_True. }
    simpl. rewrite (set_at_twice _ _ e) by done. rewrite wp_bind. eapply wp_store_pte.
    { simpl. rewrite (pd_at_set _ _ e) by done. by rewrite decide_True. }
    simpl. rewrite (set_at_twice _ _ e) by done. apply wp_incr; [done|]. rewrite wp_ret. split; [|simpl; split_and!; done || lia].
    eapply (evicted_intro seen tr U s _ pn c f e _ true r); try done; simpl; try done.
    + apply (set_onswap (clear_flag PG_VALID e') f false true r o). by apply (clear_valid _ f true); [lia|].
    + intros g fr' Eg Hu. by apply (Htr g fr').
  - destruct (Hclean (or_intror eq_refl)) as [-> Hsl]. rewrite wp_bind. eapply wp_store_pte; [done|].
    apply wp_incr; [done|]. rewrite wp_ret. split; [|simpl; split_and!; done || lia].
    eapply (evicted_intro seen tr U s _ pn c f e _ false r); try done; simpl; try done.
    + by apply (clear_valid _ f true); [lia|].
    + by apply Ho.
    + intros pn' y Hp' Hne' Ey Sy. split; [|done]. intros E. apply Hne'. apply (i_distinct _ _ _ _ Hi _ _ y e); auto.
    + intros g fr' Eg Hu. by apply (Htr g fr').
Qed.

(** The core map entry of the hole is free to change. *)
Lemma inv_hole seen h s f fr : inv memsize seen h s → (h = None ∨ h = Some f) → 0 <= f < memsize →
  (∀ pn, 0 <= pn → ¬ resident s pn f) → inv memsize seen (Some f) (put_coremap (upd (coremap s) f fr) s).
Proof.
  intros Hi Hh Hf Hno. pose proof (i_core _ _ _ _ Hi) as Hcl. destruct Hi as [I1 I2 I3 I4 I5 I6 I7 I8].
  split; try assumption; simpl.
  - by rewrite len_upd.
  - intros pn c Hs. destruct (I4 pn c Hs) as [Hpn (e & g & v & d & r & o & E & Ew & Hg & Hv & Hcl' & Ho)].
    split; [done|]. exists e, g, v, d, r, o. split_and!; try done; try lia. intros ->.
    assert (g ≠ f) by (intros ->; by apply (Hno pn Hpn); exists e, d, r, o).
    destruct (Hv eq_refl) as (_ & (va & Eva) & Hb). split_and!; [congruence| |done].
    exists va. simpl. by rewrite idx_upd_ne by (lia || done).
  - intros g fr' E Hu Hg. assert (f ≠ g) by congruence. rewrite idx_upd_ne in E by (lia || done).
    apply (I6 g fr' E Hu). by destruct Hh as [->| ->]; congruence.
Qed.
Record allocated (tr : list Z) seen (f : Z) (p : pte_ptr) s s' : Prop := {
  al_evicted : evicted tr seen f s s';
  al_core : ∃ x, idx (coremap s') f = Some (Frame true (Some p) x);
  al_clean : evict_clean_count s <= evict_clean_count s';
  al_dirty : evict_dirty_count s <= evict_dirty_count s';
  al_used : evict_clean_count s' + evict_dirty_count s' + used (coremap s') =
            evict_clean_count s + evict_dirty_count s + used (coremap s) + 1;
}.
Lemma wp_take_frame tr seen f p s0 s fr : evicted tr seen f s0 s → idx (coremap s) f = Some fr →
  evict_clean_count s0 <= evict_clean_count s → evict_dirty_count s0 <= evict_dirty_count s →
  evict_clean_count s + evict_dirty_count s + used (coremap s) - bz (in_use fr) 1 =
    evict_clean_count s0 + evict_dirty_count s0 + used (coremap s0) →
  allocated tr seen f p s0 (put_coremap (upd (coremap s) f (Frame true (Some p) (f_vaddr fr))) s).
Proof.
  intros [Hf Hi Hno (U & HU & Htr) Hsame] Ef Hc Hd Hsum. pose proof (idx_Some_range _ _ _ Ef). split; simpl; try done.
  - split; [done|by apply (inv_hole seen (Some f)); auto|done| |].
    + exists U. split; [done|]. simpl. intros g fr' E Hu Hg. assert (f ≠ g) by congruence.
      rewrite idx_upd_ne in E by (lia || done). by apply (Htr g fr').
    + by destruct Hsame.
  - exists (f_vaddr fr). by apply idx_upd_eq.
  - rewrite (used_upd _ _ _ _ Ef). simpl. lia.
Qed.
Lemma wp_allocate_frame seen tr p s :
  inv memsize seen None s → pol tr None s → tr ≠ [] →
  evict_clean_count s < 2 ^ 31 - 1 → evict_dirty_count s < 2 ^ 31 - 1 →
  wp (allocate_frame memsize F p) s (λ f s', allocated tr seen f p s s').
Proof.
  intros Hi Hpol Hne Hc Hd. pose proof (i_core _ _ _ _ Hi) as Hcl. unfold allocate_frame. rewrite wp_bind.
  eapply wp_mono; [apply wp_find_free; lia|]. intros r s' [-> [[-> Hall]|[Hr (fr & Er & Hu)]]].
  - simpl. rewrite wp_bind. eapply wp_mono; [apply (wp_evict_frame seen tr); auto|].
    intros f s1 (Hev & Ecm & Hc1 & Hd1 & Hsum). pose proof (ed_range _ _ _ _ _ Hev).
    destruct (idx_is_Some (coremap s1) f) as [fr Ef]; [rewrite Ecm; lia|]. rewrite wp_bind.
    eapply wp_aload; [done|]. rewrite wp_bind. eapply wp_astore; [rewrite Ecm; lia|]. rewrite wp_ret.
    eapply wp_take_frame; try done. rewrite Ecm in Ef. rewrite (Hall f fr) by (lia || done). simpl. rewrite Ecm. lia.
  - rewrite (proj2 (Z.eqb_neq r (-1))) by lia. rewrite wp_bind, wp_ret, wp_bind.
    eapply wp_aload; [done|]. rewrite wp_bind. eapply wp_astore; [lia|]. rewrite wp_ret.
    assert (∀ pn, 0 <= pn → ¬ resident s pn r) as Hno.
    { intros pn Hpn Hres. destruct (resident_owner _ _ _ _ _ _ Hi Hpn Hres) as (_ & _ & _ & va & E).
      rewrite Er in E. by injection E as ->. }
    eapply wp_take_frame; [|done|lia|lia|rewrite Hu; simpl; lia]. split; [lia| |done| |by split].
    + apply (inv_ext _ seen _ (put_coremap (upd (coremap s) r fr) s)); try done; simpl.
      * unfold upd. symmetry. apply list_insert_id. unfold idx in Er. by destruct (0 <=? r).
      * apply (inv_hole seen None); auto. lia.
    + destruct Hpol as (U & HU & Htr). exists U. split; [done|]. intros g fr' E Hg _. by apply (Htr g fr').
Qed.
End paging.
