(* ===== verification/SimFault.v ===== *)
(** * [find_physpage] and [access_mem] of the simulator

    Every access leaves its page resident with the content the accesses so
    far gave it, whatever was evicted in between. *)

From S2P Require Import Prelude Bytes SimLru SimAlgs SimPolicies Sim SimTable SimInv SimPaging.

(** ** Writing a page into its frame *)

Lemma idx_le0 n i : idx (le n 0) i = if decide (0 <= i < Z.of_nat n) then Some 0 else None.
Proof.
  case_decide as Hi; [|apply idx_None; by rewrite len_le].
  assert (le n 0 = replicate (Z.to_nat (Z.of_nat n)) 0) as ->; [|by apply idx_replicate].
  rewrite Nat2Z.id. clear. induction n as [|n IH]; [done|]. cbn [le replicate]. f_equal. exact IH.
Qed.
Lemma idx_page_bytes c i : 0 <= i < 4096 → idx (page_bytes c) i =
  if decide (i < 4) then idx (le 4 (u32 c.2)) i
  else if decide (i < 12) then idx (le 8 c.1) (i - 4) else Some 0.
Proof.
  intros Hi. unfold page_bytes. rewrite idx_app by lia. rewrite len_le. case_decide as H4; [by rewrite decide_True by lia|].
  rewrite decide_False by lia. rewrite idx_app by lia. rewrite len_le. change (Z.of_nat 8) with 8. change (Z.of_nat 4) with 4.
  case_decide as H12; [by rewrite decide_True by lia|]. rewrite decide_False by lia. apply idx_replicate. lia.
Qed.
Lemma slice_eq m o n l : 0 <= o → len l = n → o + n <= len m →
  (∀ i, 0 <= i < n → idx m (o + i) = idx l i) → slice m o n = l.
Proof.
  intros Ho Hl Hm Hi. pose proof (len_nonneg l). apply idx_ext. intros i. destruct (decide (0 <= i < n)).
  - rewrite idx_slice, decide_True by lia. by apply Hi.
  - rewrite !idx_None; rewrite ?len_slice by lia; done || lia.
Qed.

Section access.
Context {D : Type} `{SwapOk D} `{Malloc} (memsize : Z) (Hmem : 0 < memsize <= 2 ^ 19).
Context (tr0 : list Z) (F : functions) (pinv : list Z → gset Z → algs → Prop) `{!EvictionOk memsize tr0 F pinv}.
Implicit Types (s : sim D) (seen : gmap Z (Z * Z)).

Definition only_frame (f : Z) (m m' : list Z) : Prop :=
  len m' = len m ∧ ∀ i, ¬ (4096 * f <= i < 4096 * f + 4096) → idx m' i = idx m i.

Lemma wp_init_frame f vaddr s Q : 0 <= f < memsize → len (physmem s) = 4096 * memsize →
  (∀ m, only_frame f (physmem s) m → slice m (4096 * f) 4096 = page_bytes (vaddr, 0) →
     Q tt (put_physmem m s)) →
  wp (init_frame f vaddr) s Q.
Proof.
  intros Hf Hm HQ. unfold init_frame, frame_offset, SIMPAGESIZE. rewrite wp_bind, wp_bind.
  apply wp_guard_or; [apply Z.ltb_lt; lia|]. rewrite wp_ret, wp_bind, wp_gets, wp_bind.
  replace (f * 4096) with (4096 * f) by lia.
  apply wp_copy; try lia; [by rewrite len_replicate by lia|]. intros m1 Hl1 Hi1. rewrite wp_bind.
  apply wp_copy; try lia; [by rewrite len_le|]. intros m2 Hl2 Hi2. rewrite wp_modify. apply HQ.
  - split; [lia|]. intros i Hi. destruct (decide (0 <= i < 4096 * memsize)); [|by rewrite !idx_None by lia].
    rewrite Hi2, decide_False, Hi1, decide_False by lia. done.
  - apply slice_eq; [lia|apply len_page_bytes|lia|]. intros i Hi. rewrite idx_page_bytes by done.
    rewrite Hi2 by lia. simpl. destruct (decide (i < 4)); [|destruct (decide (i < 12))].
    + rewrite decide_False, Hi1, decide_True by lia. rewrite idx_replicate by lia. change (u32 0) with 0.
      change (idx _ i) with (idx (le 4 0) i). by rewrite idx_le0, decide_True by lia.
    + rewrite decide_True by lia. change (idx _ (i - 4)) with (idx (le 8 vaddr) (i - 4)). f_equal. lia.
    + rewrite decide_False, Hi1, decide_True by lia. apply idx_replicate. lia.
Qed.
Lemma wp_swap_pagein f e c s Q : 0 <= f < memsize → len (physmem s) = 4096 * memsize →
  slots (net s) !! r_addr e = Some (page_bytes c) →
  (∀ m d, only_frame f (physmem s) m → slice m (4096 * f) 4096 = page_bytes c →
     slots d = slots (net s) → Q 0 (put_physmem m (put_net d s))) →
  wp (swap_pagein f (r_addr e)) s Q.
Proof.
  intros Hf Hm Hs HQ. unfold swap_pagein, SIMPAGESIZE. rewrite wp_bind, wp_zoom.
  eapply wp_mono; [apply (get_ok _ _ (page_bytes c)); [done|apply len_page_bytes]|]. intros r d [-> Hd].
  rewrite wp_bind, wp_gets, wp_bind. rewrite u32_small by lia. replace (f * 4096) with (4096 * f) by lia.
  apply wp_copy; simpl; try lia; [by rewrite len_page_bytes|]. intros m Hl Hi. wp_pure. apply HQ; [| |done].
  - split; [done|]. intros i Hr. destruct (decide (0 <= i < 4096 * memsize)); [|by rewrite !idx_None by lia].
    by rewrite Hi, decide_False by lia.
  - apply slice_eq; [lia|apply len_page_bytes|lia|]. intros i Hr. rewrite Hi, decide_True by lia. f_equal. lia.
Qed.

(** ** Towards a resident page

    [ready]: the state [s'] is [s] with the content [c] of the page [pn] in
    its frame [f] and the entry [e'] all but valid. *)
Record ready seen (pn : Z) (c : Z * Z) (f : Z) (h : option Z) s s' (e e' : pte) (v d r o : bool) (x : Z) : Prop := {
  rd_inv : inv memsize seen h s;
  rd_hole : h = None ∨ h = Some f;
  rd_frame : 0 <= f < memsize;
  rd_page : 0 <= pn;
  rd_only pn' : 0 <= pn' → resident s pn' f → pn' = pn;
  rd_fun f' : resident s pn f' → f' = f;
  rd_entry : pd_at (pgdir s) pn = Some e;
  rd_dir : pgdir s' = set_at (pgdir s) pn e';
  rd_mem : only_frame f (physmem s) (physmem s');
  rd_bytes : frame_bytes s' f = page_bytes c;
  rd_core : coremap s' = upd (coremap s) f (Frame true (Some (ptr_of pn)) x);
  rd_slots : slots (net s') = slots (net s);
  rd_word : p_frame e' = word f v d r o;
  rd_swap : swap_info e' = swap_info e;
  rd_addr : r_addr e' = r_addr e;
  rd_clean : d = false → o = true ∧ slots (net s) !! r_addr e = Some (page_bytes c);
  rd_onswap : o = true → swap_info e = 1;
}.

Lemma ready_at seen pn c f h s s' e e' v d r o x : ready seen pn c f h s s' e e' v d r o x →
  pd_at (pgdir s') pn = Some e'.
Proof. intros [? ? ? ? ? ? He Hd]. rewrite Hd, (pd_at_set _ _ e) by done. by rewrite decide_True. Qed.
(** Another flag in the entry. *)
Lemma ready_entry seen pn c f h s s' e e' e2 v d r o x v2 d2 r2 : ready seen pn c f h s s' e e' v d r o x →
  p_frame e2 = word f v2 d2 r2 o → swap_info e2 = swap_info e' → r_addr e2 = r_addr e' →
  (d2 = false → d = false) →
  ready seen pn c f h s (put_pgdir (set_at (pgdir s') pn e2) s') e e2 v2 d2 r2 o x.
Proof.
  intros [] Ew Es Ea Hd. split; try done; simpl; try congruence.
  - rewrite rd_dir0. by apply (set_at_twice _ _ e).
  - intros Hd2. auto.
Qed.
Lemma ready_ext seen pn c f h s s' s2 e e' v d r o x : ready seen pn c f h s s' e e' v d r o x →
  pgdir s2 = pgdir s' → physmem s2 = physmem s' → coremap s2 = coremap s' → net s2 = net s' →
  ready seen pn c f h s s2 e e' v d r o x.
Proof. intros [] E1 E2 E3 E4. destruct s', s2. simpl in *. subst. by split. Qed.
Lemma ready_inv seen pn c f h s s' e e' d r o x : ready seen pn c f h s s' e e' true d r o x →
  inv memsize (<[pn := c]> seen) None s' ∧ resident s' pn f.
Proof.
  intros Hr. pose proof (ready_at _ _ _ _ _ _ _ _ _ _ _ _ _ _ Hr) as Hat. destruct Hr as [].
  split; [|by exists e', d, r, o]. destruct rd_mem0 as [Hl Ho].
  eapply (inv_put memsize seen h s s' pn f e e'); try done. rewrite Hl. by apply (i_mem _ _ _ _ rd_inv0).
Qed.
Definition is_write (type : Z) : bool := (type =? 77) || (type =? 83).
(** The end of [find_physpage], on every path. *)
Lemma wp_touch_page seen tr n pn c f h s s' e e' v d r o x type va Q :
  ready seen pn c f h s s' e e' v d r o x → pol pinv (va :: tr) h s' →
  ref_count s' = n → n < 2 ^ 31 - 1 → hit_count s' + miss_count s' = n + 1 →
  (∀ s'' e'' d'', inv memsize (<[pn := c]> seen) None s'' → resident s'' pn f → pol pinv tr None s'' →
     pd_at (pgdir s'') pn = Some e'' → p_frame e'' = word f true d'' true o → (is_write type = true → d'' = true) →
     ref_count s'' = n + 1 → hit_count s'' = hit_count s' → miss_count s'' = miss_count s' →
     evict_clean_count s'' = evict_clean_count s' → evict_dirty_count s'' = evict_dirty_count s' →
     coremap s'' = coremap s' → Q (4096 * f) s'') →
  wp (incr ref_count put_refs;;
      store_pte (ptr_of pn) (set_flag PG_VALID);;
      store_pte (ptr_of pn) (set_flag PG_REF);;
      when (is_write type) (store_pte (ptr_of pn) (set_flag PG_DIRTY));;
      e ← load_pte (ptr_of pn);
      zoom alg put_alg (ref F (p_frame e));;
      e ← load_pte (ptr_of pn);
      mret (u32 (Z.shiftr (p_frame e) PAGE_SHIFT * SIMPAGESIZE))) s' Q.
Proof.
  intros Hr (U & HU & Htr) Hn Hb Hsum HQ. rewrite wp_bind. apply wp_incr; [lia|].
  set (s1 := put_refs _ _). assert (ready seen pn c f h s s1 e e' v d r o x) as Hr1 by (by apply (ready_ext _ _ _ _ _ _ s')).
  pose proof (rd_frame _ _ _ _ _ _ _ _ _ _ _ _ _ _ Hr) as Hf. pose proof (rd_word _ _ _ _ _ _ _ _ _ _ _ _ _ _ Hr) as Ew.
  rewrite wp_bind. eapply wp_store_pte; [by eapply ready_at|].
  apply (ready_entry _ _ _ _ _ _ _ _ _ (set_flag PG_VALID e') _ _ _ _ _ true d r) in Hr1; [|by apply (set_valid _ f v)|done..].
  set (s2 := put_pgdir _ s1) in *. set (e1 := set_flag PG_VALID e') in *.
  rewrite wp_bind. eapply wp_store_pte; [by eapply ready_at|].
  pose proof (rd_word _ _ _ _ _ _ _ _ _ _ _ _ _ _ Hr1) as Ew1.
  apply (ready_entry _ _ _ _ _ _ _ _ _ (set_flag PG_REF e1) _ _ _ _ _ true d true) in Hr1; [|by apply (set_ref _ f true d r)|done..].
  set (s3 := put_pgdir _ s2) in *. set (e2 := set_flag PG_REF e1) in *.
  pose proof (rd_word _ _ _ _ _ _ _ _ _ _ _ _ _ _ Hr1) as Ew2.
  assert (∀ s4 e4 d4, ready seen pn c f h s s4 e e4 true d4 true o x → (is_write type = true → d4 = true) →
    alg s4 = alg s' → ref_count s4 = n + 1 → hit_count s4 = hit_count s' → miss_count s4 = miss_count s' →
    evict_clean_count s4 = evict_clean_count s' → evict_dirty_count s4 = evict_dirty_count s' →
    coremap s4 = coremap s' →
    wp (e ← load_pte (ptr_of pn);
      zoom alg put_alg (ref F (p_frame e));;
      e ← load_pte (ptr_of pn);
      mret (u32 (Z.shiftr (p_frame e) PAGE_SHIFT * SIMPAGESIZE))) s4 Q) as Hend.
  { intros s4 e4 d4 H4 Hw Ea Er Eh Em Ec Ed Ecm. pose proof (rd_word _ _ _ _ _ _ _ _ _ _ _ _ _ _ H4) as Ew4.
    pose proof (frame_of_word e4 f _ _ _ _ Ew4) as Efr.
    rewrite wp_bind. eapply wp_load_pte; [by eapply ready_at|]. rewrite wp_bind, wp_zoom, Ea.
    eapply wp_mono; [apply (ev_ref va tr U); [done|lia]|]. intros [] a Ha. rewrite Efr in Ha.
    set (s5 := put_alg a s4). assert (ready seen pn c f h s s5 e e4 true d4 true o x) as H5 by (by apply (ready_ext _ _ _ _ _ _ s4)).
    rewrite wp_bind. eapply wp_load_pte; [by eapply ready_at|]. rewrite wp_ret, Efr. unfold SIMPAGESIZE.
    rewrite u32_small by lia. replace (f * 4096) with (4096 * f) by lia.
    destruct (ready_inv _ _ _ _ _ _ _ _ _ _ _ _ _ H5) as [Hi5 Hr5].
    apply (HQ s5 e4 d4); try done; [|by eapply ready_at].
    exists (U ∪ {[f]}). split; [done|]. simpl. rewrite Ecm. intros g fr Eg Hu _. apply elem_of_union.
    destruct (decide (g = f)) as [->|Hne]; [right; by apply elem_of_singleton|left].
    apply (Htr g fr Eg Hu). destruct (rd_hole _ _ _ _ _ _ _ _ _ _ _ _ _ _ Hr) as [->| ->]; congruence. }
  rewrite wp_bind. unfold when. destruct (is_write type) eqn:Et.
  - eapply wp_store_pte; [by eapply ready_at|].
    apply (ready_entry _ _ _ _ _ _ _ _ _ (set_flag PG_DIRTY e2) _ _ _ _ _ true true true) in Hr1;
      [|by apply (set_dirty _ f true d)|done..]. by apply (Hend _ (set_flag PG_DIRTY e2) true); simpl; try done; lia.
  - rewrite wp_ret. by apply (Hend _ e2 d); simpl; try done; lia.
Qed.
(** The page is in a frame, after [dm] misses (none or one). *)
Definition entered seen pn c tr s s' (dm : Z) : Prop :=
  ∃ f h sb e e' v d r o x, ready seen pn c f h sb s' e e' v d r o x ∧ pol pinv tr h s' ∧
    ref_count s' = ref_count s ∧ hit_count s' = hit_count s + (1 - dm) ∧ miss_count s' = miss_count s + dm ∧
    evict_clean_count s <= evict_clean_count s' ∧ evict_dirty_count s <= evict_dirty_count s' ∧
    evict_clean_count s' + evict_dirty_count s' + used (coremap s') =
      evict_clean_count s + evict_dirty_count s + used (coremap s) + dm.

Lemma wp_frame_offset f s Q : f < 2 ^ 19 → Q (4096 * f) s → wp (frame_offset (D := D) f) s Q.
Proof.
  intros Hf HQ. unfold frame_offset, SIMPAGESIZE. rewrite wp_bind. apply wp_guard_or; [by apply Z.ltb_lt|].
  rewrite wp_ret. by replace (f * 4096) with (4096 * f) by lia.
Qed.
Lemma wp_set_core_vaddr f va fr s Q : idx (coremap s) f = Some fr →
  Q tt (put_coremap (upd (coremap s) f (Frame (in_use fr) (f_pte fr) (page_addr va))) s) →
  wp (set_core_vaddr f va) s Q.
Proof.
  intros E HQ. unfold set_core_vaddr. rewrite wp_bind. eapply wp_aload; [done|].
  eapply wp_astore; [by apply idx_Some_range in E|done].
Qed.
(** The frame that was allocated, once the entry and the core map say so. *)
Lemma ready_new seen pn c tr f sa s s' e e' v d o y :
  allocated memsize pinv tr seen f (ptr_of pn) sa s → 0 <= pn → pd_at (pgdir s) pn = Some e →
  (∀ g, ¬ resident s pn g) → pgdir s' = set_at (pgdir s) pn e' → only_frame f (physmem s) (physmem s') →
  slice (physmem s') (4096 * f) 4096 = page_bytes c →
  coremap s' = upd (coremap s) f (Frame true (Some (ptr_of pn)) y) → slots (net s') = slots (net s) →
  alg s' = alg s → hit_count s' = hit_count s → miss_count s' = miss_count s → ref_count s' = ref_count s →
  evict_clean_count s' = evict_clean_count s → evict_dirty_count s' = evict_dirty_count s →
  p_frame e' = word f v d false o → swap_info e' = swap_info e → r_addr e' = r_addr e →
  (d = false → o = true ∧ slots (net s) !! r_addr e = Some (page_bytes c)) → (o = true → swap_info e = 1) →
  ∀ s0, physmem sa = physmem s0 → hit_count sa = hit_count s0 → miss_count sa = miss_count s0 + 1 →
    ref_count sa = ref_count s0 → evict_clean_count sa = evict_clean_count s0 →
    evict_dirty_count sa = evict_dirty_count s0 → coremap sa = coremap s0 →
  entered seen pn c tr s0 s' 1.
Proof.
  intros [Hev [z Ez] Hc Hd Hsum] Hpn He Hno Hpd Hm Hb Hcm Hsl Ea Eh Em Er Ec Ed Ew Es Era Hcl Ho s0 F1 F2 F3 F4 F5 F6 F7.
  destruct Hev as [Hf Hi Hnone Hpol [G1 G2 G3 G4 _ _]].
  exists f, (Some f), s, e, e', v, d, false, o, y. split; [|split_and!].
  - split; try done; [by right| |]; intros; exfalso; [by eapply Hnone|by eapply Hno].
  - destruct Hpol as (U & HU & Htr). exists U. rewrite Ea. split; [done|]. intros g fr Eg Hu Hg.
    apply (Htr g fr); [|done|done]. rewrite Hcm in Eg. pose proof (idx_Some_range _ _ _ Ez).
    rewrite idx_upd_ne in Eg by (lia || congruence). done.
  - congruence.
  - lia.
  - lia.
  - lia.
  - lia.
  - rewrite Hcm, (used_upd _ _ _ _ Ez), Ec, Ed. simpl. rewrite <-F7. lia.
Qed.
Lemma not_valid s pn e f d r o : pd_at (pgdir s) pn = Some e → p_frame e = word f false d r o →
  ∀ g, ¬ resident s pn g.
Proof.
  intros E Ew g (e' & d' & r' & o' & E' & Ew'). rewrite E in E'. injection E' as <-. rewrite Ew in Ew'.
  by apply word_inj in Ew' as (_ & ? & _).
Qed.
(** The first reference of a page: a zeroed frame with the address. *)
Lemma wp_first_use seen tr pn vaddr s e :
  inv memsize seen None s → pol pinv tr None s → tr ≠ [] → 0 <= pn →
  pd_at (pgdir s) pn = Some e → p_frame e = 0 →
  miss_count s < 2 ^ 31 - 1 → evict_clean_count s < 2 ^ 31 - 1 → evict_dirty_count s < 2 ^ 31 - 1 →
  wp (incr miss_count put_misses;;
      frame ← allocate_frame memsize F (ptr_of pn);
      off ← frame_offset frame;
      store_pte (ptr_of pn) (set_frame off);;
      init_frame frame vaddr;;
      store_pte (ptr_of pn) (set_flag PG_DIRTY);;
      set_core_vaddr frame vaddr) s (λ _ s', entered seen pn (vaddr, 0) tr s s' 1).
Proof.
  intros Hi Hpol Hne Hpn He Ew Hm Hc Hd. change 0 with (word 0 false false false false) in Ew.
  rewrite wp_bind. apply wp_incr; [done|]. set (s1 := put_misses _ s). rewrite wp_bind.
  eapply wp_mono; [apply (wp_allocate_frame memsize Hmem tr0 F pinv seen tr); try done; by apply (inv_ext _ _ _ s)|].
  intros f s2 Hal. pose proof (al_evicted _ _ _ _ _ _ _ _ Hal) as Hev. destruct (al_core _ _ _ _ _ _ _ _ Hal) as [z Ez].
  pose proof (ed_range _ _ _ _ _ _ _ Hev) as Hf. pose proof (i_mem _ _ _ _ (ed_inv _ _ _ _ _ _ _ Hev)) as Hml.
  assert (pd_at (pgdir s2) pn = Some e) as He2.
  { apply (same_entry _ _ _ _ (ed_same _ _ _ _ _ _ _ Hev) pn e Hpn); [|done]. by apply (not_valid s1 pn e 0 false false false). }
  rewrite wp_bind. apply wp_frame_offset; [lia|]. rewrite wp_bind. eapply wp_store_pte; [done|].
  rewrite wp_bind. apply wp_init_frame; [done|done|]. intros m Hmo Hmb. rewrite wp_bind. eapply wp_store_pte.
  { simpl. rewrite (pd_at_set _ _ e) by done. by rewrite decide_True. }
  eapply wp_set_core_vaddr; [done|]. simpl. rewrite (set_at_twice _ _ e) by done.
  eapply (ready_new seen pn (vaddr, 0) tr f s1 s2 _ e _ false true false); try done.
  - by apply (not_valid s2 pn e 0 false false false).
  - apply (set_dirty _ f false false). unfold set_frame, word. simpl. lia.
Qed.
(** A page that was evicted comes back with the content it had. *)
Lemma wp_bring_back seen tr pn c vaddr s e g d r :
  inv memsize seen None s → pol pinv tr None s → tr ≠ [] → 0 <= pn → seen !! pn = Some c →
  pd_at (pgdir s) pn = Some e → p_frame e = word g false d r true → swap_info e = 1 →
  slots (net s) !! r_addr e = Some (page_bytes c) →
  miss_count s < 2 ^ 31 - 1 → evict_clean_count s < 2 ^ 31 - 1 → evict_dirty_count s < 2 ^ 31 - 1 →
  wp (incr miss_count put_misses;;
      frame ← allocate_frame memsize F (ptr_of pn);
      e ← load_pte (ptr_of pn);
      r ← swap_pagein frame (r_addr e);
      guard_or (r =? 0) AssertFail;;
      off ← frame_offset frame;
      store_pte (ptr_of pn) (set_frame off);;
      store_pte (ptr_of pn) (clear_flag PG_DIRTY);;
      store_pte (ptr_of pn) (set_flag PG_ONSWAP);;
      set_core_vaddr frame vaddr) s (λ _ s', entered seen pn c tr s s' 1).
Proof.
  intros Hi Hpol Hne Hpn Hs He Ew Hsi Hsl Hm Hc Hd.
  rewrite wp_bind. apply wp_incr; [done|]. set (s1 := put_misses _ s). rewrite wp_bind.
  assert (inv memsize seen None s1) as Hi1 by (by apply (inv_ext _ _ _ s)).
  eapply wp_mono; [by apply (wp_allocate_frame memsize Hmem tr0 F pinv seen tr)|].
  intros f s2 Hal. pose proof (al_evicted _ _ _ _ _ _ _ _ Hal) as Hev. destruct (al_core _ _ _ _ _ _ _ _ Hal) as [z Ez].
  pose proof (ed_range _ _ _ _ _ _ _ Hev) as Hf. pose proof (i_mem _ _ _ _ (ed_inv _ _ _ _ _ _ _ Hev)) as Hml.
  pose proof (ed_same _ _ _ _ _ _ _ Hev) as Hsame.
  pose proof (not_valid s1 pn e g d r true He Ew) as Hno.
  pose proof (same_entry _ _ _ _ Hsame pn e Hpn Hno He) as He2.
  assert (slots (net s2) !! r_addr e = Some (page_bytes c)) as Hsl2.
  { by rewrite (same_slot _ _ _ _ Hsame seen pn c e Hi1 Hs Hno He Hsi). }
  rewrite wp_bind. eapply wp_load_pte; [done|]. rewrite wp_bind. eapply wp_swap_pagein; [done|done|done|].
  intros m dd Hmo Hmb Hdd. rewrite wp_bind. apply wp_guard_or; [done|]. rewrite wp_bind. apply wp_frame_offset; [lia|].
  rewrite wp_bind. eapply wp_store_pte; [done|].
  rewrite wp_bind. eapply wp_store_pte; [simpl; rewrite (pd_at_set _ _ e) by done; by rewrite decide_True|].
  simpl. rewrite (set_at_twice _ _ e) by done.
  rewrite wp_bind. eapply wp_store_pte; [simpl; rewrite (pd_at_set _ _ e) by done; by rewrite decide_True|].
  simpl. rewrite (set_at_twice _ _ e) by done. eapply wp_set_core_vaddr; [done|]. simpl.
  eapply (ready_new seen pn c tr f s1 s2 _ e _ false false true); try done.
  - by apply (not_valid s2 pn e g d r true).
  - apply (set_onswap (clear_flag PG_DIRTY (set_frame (4096 * f) e)) f false false false false).
    apply (clear_dirty _ f false false false false); [lia|]. unfold set_frame, word. simpl. lia.
Qed.
(** A hit. *)
Lemma wp_hit seen tr pn c s e f d r o va : inv memsize seen None s → pol pinv tr None s → 0 <= pn →
  pd_at (pgdir s) pn = Some e → p_frame e = word f true d r o → 0 <= f < memsize →
  idx (coremap s) f = Some (Frame true (Some (ptr_of pn)) va) → frame_bytes s f = page_bytes c →
  (d = false → o = true ∧ slots (net s) !! r_addr e = Some (page_bytes c)) → (o = true → swap_info e = 1) →
  hit_count s < 2 ^ 31 - 1 →
  wp (incr hit_count put_hits) s (λ _ s', entered seen pn c tr s s' 0).
Proof.
  intros Hi Hpol Hpn He Ew Hf Ecm Hb Hcl Ho Hh. apply wp_incr; [done|].
  exists f, None, s, e, e, true, d, r, o, va. split; [|split_and!; simpl; try done; lia].
  assert (resident s pn f) as Hr by by exists e, d, r, o.
  split; try done; simpl; try by left.
  - intros pn' Hp' Hr'. by apply (resident_inj memsize seen None s _ _ f).
  - intros f' Hr'. by apply (resident_fun s pn).
  - by rewrite set_at_id.
  - unfold upd. symmetry. apply list_insert_id. unfold idx in Ecm. by destruct (0 <=? f).
Qed.
(** The content the specification gives the page before the access. *)
Definition content seen (pn vaddr : Z) : Z * Z := default (vaddr, 0) (seen !! pn).

Lemma wp_enter seen tr pn vaddr s e : inv memsize seen None s → pol pinv tr None s → tr ≠ [] → 0 <= pn →
  pd_at (pgdir s) pn = Some e →
  hit_count s < 2 ^ 31 - 1 → miss_count s < 2 ^ 31 - 1 →
  evict_clean_count s < 2 ^ 31 - 1 → evict_dirty_count s < 2 ^ 31 - 1 →
  wp (if negb (flag PG_VALID e) && negb (flag PG_ONSWAP e) then
        incr miss_count put_misses;;
        frame ← allocate_frame memsize F (ptr_of pn);
        off ← frame_offset frame;
        store_pte (ptr_of pn) (set_frame off);;
        init_frame frame vaddr;;
        store_pte (ptr_of pn) (set_flag PG_DIRTY);;
        set_core_vaddr frame vaddr
      else if negb (flag PG_VALID e) && flag PG_ONSWAP e then
        incr miss_count put_misses;;
        frame ← allocate_frame memsize F (ptr_of pn);
        e ← load_pte (ptr_of pn);
        r ← swap_pagein frame (r_addr e);
        guard_or (r =? 0) AssertFail;;
        off ← frame_offset frame;
        store_pte (ptr_of pn) (set_frame off);;
        store_pte (ptr_of pn) (clear_flag PG_DIRTY);;
        store_pte (ptr_of pn) (set_flag PG_ONSWAP);;
        set_core_vaddr frame vaddr
      else incr hit_count put_hits) s (λ _ s', ∃ dm, entered seen pn (content seen pn vaddr) tr s s' dm ∧ 0 <= dm <= 1).
Proof.
  intros Hi Hpol Hne Hpn He Hh Hm Hc Hd. unfold content. destruct (seen !! pn) as [c|] eqn:Es; simpl.
  - destruct (i_pages _ _ _ _ Hi pn c Es) as [_ (e0 & f & v & d & r & o & E0 & Ew & Hf & Hv & Hcl & Ho)].
    rewrite He in E0. injection E0 as <-.
    rewrite (flag_valid e f v d r o), (flag_onswap e f v d r o) by done. destruct v; simpl.
    + destruct (Hv eq_refl) as (_ & (va & Eva) & Hb). eapply wp_mono; [by eapply wp_hit; eauto|].
      intros [] s' He'. exists 0. split; [done|lia].
    + destruct (Hcl (or_introl eq_refl)) as [-> Hsl]. simpl.
      eapply wp_mono; [eapply (wp_bring_back seen tr pn c vaddr s e f d r); auto|]. intros [] s' He'. exists 1. split; [done|lia].
  - destruct (i_new _ _ _ _ Hi pn e Hpn Es He) as [Ew _]. pose proof Ew as Ew'.
    change 0 with (word 0 false false false false) in Ew'.
    rewrite (flag_valid e 0 false false false false), (flag_onswap e 0 false false false false) by done. simpl.
    eapply wp_mono; [by apply (wp_first_use seen tr pn vaddr s e)|]. intros [] s' He'. exists 1. split; [done|lia].
Qed.

Lemma counts_bound n s : counts n s → 0 <= hit_count s <= n ∧ 0 <= miss_count s <= n ∧
  0 <= evict_clean_count s <= n ∧ 0 <= evict_dirty_count s <= n.
Proof. intros []. pose proof (used_range (coremap s)). lia. Qed.

Lemma wp_find_physpage seen tr n s g vaddr type :
  inv memsize seen None s → pol pinv (page_addr vaddr :: tr) None s → counts n s → n < 2 ^ 31 - 1 →
  0 <= vaddr < 2 ^ 36 →
  wp (find_physpage memsize F true g vaddr type) s (λ a s', ∃ f e d o,
    a = 4096 * f ∧ 0 <= f < memsize ∧
    inv memsize (<[page_no vaddr := content seen (page_no vaddr) vaddr]> seen) None s' ∧
    pol pinv tr None s' ∧ counts (n + 1) s' ∧ resident s' (page_no vaddr) f ∧
    pd_at (pgdir s') (page_no vaddr) = Some e ∧ p_frame e = word f true d true o ∧
    (is_write type = true → d = true)).
Proof.
  intros Hi Hpol Hcnt Hn Hva. destruct (index_of_vaddr vaddr Hva) as [Eix Hpn]. set (pn := page_no vaddr) in *.
  pose proof (counts_bound n s Hcnt) as Hb. unfold find_physpage. rewrite Eix.
  set (body := λ _ : unit, _).
  assert (∀ s0 e, inv memsize seen None s0 → pol pinv (page_addr vaddr :: tr) None s0 → counts n s0 →
    pd_at (pgdir s0) pn = Some e →
    wp (body tt) s0 (λ a s', ∃ f e d o,
      a = 4096 * f ∧ 0 <= f < memsize ∧
      inv memsize (<[pn := content seen pn vaddr]> seen) None s' ∧
      pol pinv tr None s' ∧ counts (n + 1) s' ∧ resident s' pn f ∧
      pd_at (pgdir s') pn = Some e ∧ p_frame e = word f true d true o ∧
      (is_write type = true → d = true))) as Hbody.
  { intros s0 e Hi0 Hpol0 Hcnt0 He. pose proof (counts_bound n s0 Hcnt0) as Hb0. unfold body.
    rewrite wp_bind. eapply wp_load_pte; [done|]. rewrite wp_bind.
    eapply wp_mono; [apply (wp_enter seen (page_addr vaddr :: tr) pn vaddr s0 e); try done; lia|].
    intros [] s1 (dm & (f & h & sb & e0 & e1 & v & d & r & o & x & Hr & Hpol1 & Er & Eh & Em & Ec & Ed & Esum) & Hdm).
    destruct Hcnt0 as [N1 N2 N3 N4 N5 N6].
    eapply (wp_touch_page seen tr n pn _ f h sb s1 e0 e1 v d r o x); try done; try lia.
    intros s2 e2 d2 Hi2 Hr2 Hpol2 He2 Ew2 Hw2 R1 R2 R3 R4 R5 R6. exists f, e2, d2, o.
    pose proof (rd_frame _ _ _ _ _ _ _ _ _ _ _ _ _ _ Hr). split_and!; try done; try lia.
    split; try lia. rewrite R4, R5, R6, R3. lia. }
  rewrite wp_bind. pose proof (idx_is_Some (pgdir s) (PGDIR_INDEX vaddr)) as Hix.
  assert (PGDIR_INDEX vaddr = pn / 4096) as E1 by (unfold ptr_of in Eix; congruence). rewrite E1 in *.
  destruct Hix as [t Et].
  { rewrite (pd_len _ (i_dir _ _ _ _ Hi)). split; [apply Z.div_pos; lia|apply Z.div_lt_upper_bound; lia]. }
  eapply wp_aload; [done|]. rewrite wp_bind. pose proof (Z.mod_pos_bound pn 4096 ltac:(lia)). destruct t as [t|].
  - rewrite wp_ret. destruct (idx_is_Some t (pn mod 4096)) as [e Ee].
    { by rewrite (pd_tables _ (i_dir _ _ _ _ Hi) _ _ Et). }
    apply (Hbody s e); [done..|]. unfold pd_at. by rewrite Et.
  - rewrite wp_bind. set (t0 := replicate (Z.to_nat PTRS_PER_PGTBL) (Pte 0 INVALID_SWAP (r_addr g) (timestamp g))).
    assert (len t0 = 4096) as Hl0 by by apply len_replicate.
    change (init_second_level true g) with (mret t0 : M (sim D) (list pte)). rewrite wp_ret.
    eapply wp_astore; [by apply idx_Some_range in Et|].
    apply (Hbody _ (Pte 0 INVALID_SWAP (r_addr g) (timestamp g))); [by apply inv_table|exact Hpol|by destruct Hcnt|].
    change (pgdir (put_pgdir ?x s)) with x. rewrite (pd_at_table _ _ t0) by (done || lia).
    rewrite decide_True by done. apply idx_replicate. done.
Qed.
End access.
