(* ===== verification/SimSpec.v ===== *)
(** * The simulator is transparent

    With any of its five algorithms and any number of frames, replaying a
    trace gives every page the content that the accesses to it alone
    determine, and the counters it prints add up. *)

From Stdlib Require Import Ascii String.
From S2P Require Import Prelude Bytes SimLru SimAlgs SimPolicies Sim SimTable SimInv SimPaging SimFault.
Open Scope Z_scope.

(** ** The specification

    A page remembers the address of its first reference and counts the
    writes. *)
Definition step_spec (seen : gmap Z (Z * Z)) (a : Z * Z) : gmap Z (Z * Z) :=
  let c := content seen (page_no a.2) a.2 in
  <[page_no a.2 := (c.1, if is_write a.1 then c.2 + 1 else c.2)]> seen.
Definition run_spec (l : list (Z * Z)) : gmap Z (Z * Z) := foldl step_spec ∅ l.
(** The content of a page, in its frame or on swap. *)
Definition stored {D} `{SwapOk D} (s : sim D) (pn : Z) : option (list Z) :=
  match pd_at (pgdir s) pn with
  | Some e =>
      if flag PG_VALID e then Some (frame_bytes s (Z.shiftr (p_frame e) PAGE_SHIFT))
      else if flag PG_ONSWAP e then slots (net s) !! r_addr e else None
  | None => None
  end.

Section replay.
Context {D : Type} `{SwapOk D} `{Malloc} (memsize : Z) (Hmem : 0 < memsize <= 2 ^ 19).
Implicit Types (s : sim D) (seen : gmap Z (Z * Z)).

Lemma inv_stored seen s pn c : inv memsize seen None s → seen !! pn = Some c → stored s pn = Some (page_bytes c).
Proof.
  intros Hi Hs. destruct (i_pages _ _ _ _ Hi pn c Hs) as [_ (e & f & v & d & r & o & E & Ew & Hf & Hv & Hcl & Ho)].
  unfold stored. rewrite E, (flag_valid e f v d r o), (flag_onswap e f v d r o), (frame_of_word e f v d r o) by done.
  destruct v; [destruct (Hv eq_refl) as (_ & _ & Hb); by rewrite Hb|].
  by destruct (Hcl (or_introl eq_refl)) as [-> Hsl].
Qed.

Section policy.
Context (tr0 : list Z) (F : functions) (pinv : list Z → gset Z → algs → Prop) `{!EvictionOk memsize tr0 F pinv}.

Definition versions (n : Z) seen : Prop := ∀ pn c, seen !! pn = Some c → 0 <= c.2 <= n.

Lemma s32_u32 x : 0 <= x < 2 ^ 31 → s32 (un_le (le 4 (u32 x))) = x.
Proof.
  intros Hx. rewrite (u32_small x) by lia. rewrite un_le_le by (change (256 ^ Z.of_nat 4) with (2 ^ 32); lia).
  unfold s32. rewrite u32_small by lia. by rewrite (proj2 (Z.ltb_lt _ _)) by lia.
Qed.
Lemma frame_idx s f c i : frame_bytes s f = page_bytes c → 0 <= f → 0 <= i < 4096 →
  idx (physmem s) (4096 * f + i) = idx (page_bytes c) i.
Proof.
  intros <- Hf Hi. unfold frame_bytes. by rewrite idx_slice, decide_True by lia.
Qed.
(** Counting a write in the page itself. *)
Lemma wp_bump_version s f c m Q : 0 <= f < memsize → len (physmem s) = 4096 * memsize →
  frame_bytes s f = page_bytes c → 0 <= c.2 < 2 ^ 31 - 1 → m = physmem s →
  (∀ m', only_frame f (physmem s) m' → slice m' (4096 * f) 4096 = page_bytes (c.1, c.2 + 1) →
     Q tt (put_physmem m' s)) →
  wp (let version := s32 (un_le (slice m (4096 * f) 4)) in
      guard_or (version <? 2 ^ 31 - 1) Overflow;;
      m ← copy m (4096 * f) (le 4 (u32 (version + 1))) 0 4;
      modify (put_physmem m)) s Q.
Proof.
  intros Hf Hm Hb Hc -> HQ. assert (slice (physmem s) (4096 * f) 4 = le 4 (u32 c.2)) as ->.
  { apply slice_eq; [lia|by rewrite len_le|lia|]. intros i Hi. rewrite (frame_idx s f c) by (done || lia).
    rewrite idx_page_bytes by lia. by rewrite decide_True by lia. }
  rewrite s32_u32 by lia. cbv zeta. rewrite wp_bind. apply wp_guard_or; [by apply Z.ltb_lt; lia|]. rewrite wp_bind.
  apply wp_copy; try lia; [by rewrite len_le|]. intros m' Hl Hi. rewrite wp_modify. apply HQ.
  - split; [done|]. intros i Hr. destruct (decide (0 <= i < 4096 * memsize)); [|by rewrite !idx_None by lia].
    by rewrite Hi, decide_False by lia.
  - apply slice_eq; [lia|apply len_page_bytes|lia|]. intros i Hr. rewrite Hi, idx_page_bytes by lia. cbn [fst snd].
    destruct (decide (i < 4)).
    + rewrite decide_True by lia. f_equal. lia.
    + rewrite decide_False by lia. rewrite (frame_idx s f c) by (done || lia). rewrite idx_page_bytes by lia.
      by rewrite decide_False by lia.
Qed.
Lemma wp_access_mem seen tr n s g type vaddr :
  inv memsize seen None s → pol pinv (page_addr vaddr :: tr) None s → counts n s → versions n seen →
  n < 2 ^ 31 - 1 → 0 <= vaddr < 2 ^ 36 →
  wp (access_mem memsize F true g type vaddr) s (λ _ s',
    inv memsize (step_spec seen (type, vaddr)) None s' ∧ pol pinv tr None s' ∧ counts (n + 1) s' ∧
    versions (n + 1) (step_spec seen (type, vaddr))).
Proof.
  intros Hi Hpol Hcnt Hver Hn Hva. unfold access_mem. rewrite wp_bind.
  eapply wp_mono; [by apply (wp_find_physpage memsize Hmem tr0 F pinv seen tr n)|].
  intros a s' (f & e & d & o & -> & Hf & Hi' & Hpol' & Hcnt' & Hres & He & Ew & Hw).
  set (pn := page_no vaddr) in *. set (c := content seen pn vaddr) in *.
  assert (0 <= c.2 <= n) as Hcv.
  { unfold c, content. destruct (seen !! pn) as [c0|] eqn:E; simpl; [by apply (Hver pn)|].
    destruct (counts_bound n s Hcnt). lia. }
  assert (versions (n + 1) (step_spec seen (type, vaddr))) as Hver'.
  { intros pn' c'. unfold step_spec. simpl. fold pn c. destruct (decide (pn = pn')) as [<-|Hne].
    - rewrite lookup_insert_eq. intros [= <-]. simpl. destruct (is_write type); lia.
    - rewrite lookup_insert_ne by done. intros Hs. pose proof (Hver _ _ Hs). lia. }
  destruct (i_pages _ _ _ _ Hi' pn c) as [Hpn (e0 & f0 & v0 & d0 & r0 & o0 & E0 & Ew0 & _ & Hv0 & _ & Ho0)];
    [apply lookup_insert_eq|]. rewrite He in E0. injection E0 as <-. rewrite Ew in Ew0.
  apply word_inj in Ew0 as (<- & <- & <- & <- & <-). destruct (Hv0 eq_refl) as (_ & (va & Eva) & Hb).
  pose proof (i_mem _ _ _ _ Hi') as Hml.
  rewrite wp_bind, wp_gets, wp_bind. apply wp_guard_or; [apply Z.leb_le; lia|].
  replace ((type =? 83) || (type =? 77)) with (is_write type) by apply orb_comm.
  unfold step_spec in *. simpl in *. fold pn c in Hver' |- *. unfold when. destruct (is_write type) eqn:Et.
  - apply (wp_bump_version s' f c); try done; [lia|]. intros m' [Hl Ho] Hb'. split_and!; try done.
    2: { by destruct Hcnt'. }
    rewrite <-(insert_insert_eq seen pn (c.1, c.2 + 1) c). rewrite (Hw eq_refl) in *.
    eapply (inv_put memsize _ None s' _ pn f e e _ true true o va); try done; simpl; try by left.
    + intros pn' Hp' Hr'. by apply (resident_inj memsize _ None s' _ _ f Hi').
    + intros f' Hr'. by apply (resident_fun s' pn).
    + by rewrite set_at_id.
    + lia.
    + unfold upd. symmetry. apply list_insert_id. unfold idx in Eva. by destruct (0 <=? f).
  - rewrite wp_ret. by destruct c.
Qed.
Lemma wp_replay_trace g l : ∀ seen n s,
  inv memsize seen None s → pol pinv (map (λ x, page_addr x.2) l) None s → counts n s → versions n seen →
  n + len l < 2 ^ 31 → Forall (λ x, 0 <= x.2 < 2 ^ 36) l →
  wp (replay_trace memsize F true g l) s (λ _ s',
    inv memsize (foldl step_spec seen l) None s' ∧ counts (n + len l) s').
Proof.
  induction l as [|[type vaddr] l IH]; intros seen n s Hi Hpol Hcnt Hver Hn Hl; simpl.
  - rewrite wp_ret. by rewrite len_nil, Z.add_0_r.
  - rewrite len_cons in *. apply Forall_cons in Hl as [Hva Hl]. pose proof (len_nonneg l). rewrite wp_bind.
    eapply wp_mono; [apply (wp_access_mem seen (map (λ x, page_addr x.2) l) n); try done; lia|].
    intros [] s' (Hi' & Hpol' & Hcnt' & Hver'). replace (n + (len l + 1)) with (n + 1 + len l) by lia.
    apply IH; try done. lia.
Qed.
End policy.
End replay.

(** ** The start *)

Section start.
Context {D : Type} `{SwapOk D} `{Malloc} (memsize : Z) (Hmem : 0 < memsize <= 2 ^ 19).

Lemma start_inv cm pm d : len cm = memsize → Forall (λ f, in_use f = false) cm → len pm = 4096 * memsize →
  ∀ a, inv memsize ∅ None (Sim (replicate (Z.to_nat PTRS_PER_PGDIR) None) cm pm 0 0 0 0 0 a d : sim D).
Proof.
  intros Hcm Hu Hpm a. set (pd := replicate _ _).
  assert (∀ pn, pd_at pd pn = None) as Hnone.
  { intros pn. unfold pd_at. destruct (idx pd (pn / 4096)) as [[t|]|] eqn:E; [|done..].
    unfold idx in E. case_match; [|done]. by apply lookup_replicate in E as [? _]. }
  assert (∀ f fr, idx cm f = Some fr → in_use fr = false) as Hfree.
  { intros f fr E. unfold idx in E. case_match; [|done]. exact (Forall_lookup_1 _ _ _ _ Hu E). }
  split; simpl; try done.
  - split; [by apply len_replicate|]. intros x t E. unfold idx in E. case_match; [|done].
    by apply lookup_replicate in E as [? _].
  - intros pn e _ _. by rewrite Hnone.
  - intros f fr E Hi. by rewrite (Hfree f fr E) in Hi.
  - intros pn e _. by rewrite Hnone.
  - intros pn pn' e e' _ _. by rewrite Hnone.
Qed.
Lemma used_none cm : Forall (λ f, in_use f = false) cm → used cm = 0.
Proof. induction 1 as [|f cm Hf _ IH]; simpl; [done|]. by rewrite Hf, IH. Qed.
Lemma find_alg random file dist type vaddr a : a ∈ ["rand"; "lru"; "fifo"; "clock"; "opt"]%string →
  ∃ F, select_alg (alg_table memsize random file dist type vaddr) a = Some F ∧
    F ∈ alg_table memsize random file dist type vaddr.
Proof.
  rewrite !elem_of_cons. unfold alg_table.
  intros [->|[->|[->|[->|[->|[]%not_elem_of_nil]]]]]; eexists; (split; [reflexivity|]); rewrite !elem_of_cons; auto 6.
Qed.
End start.


(** ** A run with one frame *)

(** A server that keeps pages in a map. *)
#[export] Instance map_swap : Swap (gmap (list Z) (list Z)) := {|
  allocateRemoteMem := λ d, Ok (fresh (dom d)) (<[fresh (dom d) := []]> d);
  getRemoteMem a := λ d, match d !! a with Some c => Ok c d | None => Err BadPointer end;
  writeRemoteMem b a := λ d, match d !! a with Some _ => Ok tt (<[a := b]> d) | None => Err BadPointer end;
|}.
#[export] Program Instance map_swap_ok : SwapOk (gmap (list Z) (list Z)) := {| slots d := d |}.
Next Obligation. intros d. unfold wp. simpl. split; [apply not_elem_of_dom, is_fresh|by exists []]. Qed.
Next Obligation. intros d a c E _. unfold wp. simpl. by rewrite E. Qed.
Next Obligation. intros d a c b E _. unfold wp. simpl. by rewrite E. Qed.

Definition trace3 : list string := ["I 4000000"; "S ffefff000"; "== a comment"; "M 4000000"]%string.
Definition env1 : sim_env :=
  SimEnv (λ n, n * n) [Frame false None 99] (replicate (Z.to_nat 4096) 7) [5] true (Pte 1 2 [] 3) 0 0.
