(* ===== verification/Dpdk.v ===== *)
(** * The DPDK backend: src/ip6/lib/dpdk_backend

    Frame assembly and sending of dpdk_common.c, the two receive loops of
    dpdk_client.c and the pairing of ports of [setup_ports]. The calls of the
    DPDK library for the transmit queue are the class [DpdkTx]; what
    [rte_eth_rx_burst] will return is a list of bursts in the state. The
    frames have the layout of the raw-socket backend, so [frame_of] says for
    both what a frame is. *)

From S2P Require Import Prelude Types Bytes Wire RawSend RawRecv.

(** [struct p_skeleton], the 14, 40 and 8 bytes of the headers. *)
Record p_skeleton := MkSkel { ether_hdr : list Z; ip_hdr : list Z; udp_hdr : list Z }.

Definition SRC_MAC : list Z := [160; 54; 159; 69; 216; 116].
Definition DST_MAC : list Z := [160; 54; 159; 69; 216; 117].
Definition zeros (n : Z) : list Z := replicate (Z.to_nat n) 0.
(** [htonl]: the four bytes in memory, most significant first. *)
Definition htonl_bytes (x : Z) : list Z := rev (le 4 x).

(** Assignments to the zeroed struct. *)
Definition gen_dpdk_packet_info (src_addr : list Z) (src_port : Z) : p_skeleton :=
  let ether := splice (splice (splice (zeros ETH_HDRLEN) 6 SRC_MAC) 0 DST_MAC) 12 (le 2 (htons 34525)) in
  let ip := splice (splice (splice (splice (zeros IP6_HDRLEN) 8 src_addr)
    0 (htonl_bytes (u32 (Z.shiftl 6 28)))) 6 [17]) 7 [255] in
  let udp := splice (splice (zeros UDP_HDRLEN) 0 (le 2 src_port)) 6 (le 2 65450) in
  MkSkel ether ip udp.

(** The transmit side of the library: allocation of packet buffers and the
    buffered queue 0 of port 0. [credit] is how many packets the pool and the
    queue are sure to take. *)
Class DpdkTx := {
  nic : Type;
  rte_pktmbuf_alloc : nic → option (list Z) * nic;
  rte_eth_tx_buffer : list Z → nic → nic;
  rte_eth_tx_buffer_flush : nic → Z * nic;
  mbuf_room : Z;
  tx_wire : nic → list (list Z);
  tx_queue : nic → list (list Z);
  credit : nic → Z;
  alloc_law n : 0 < credit n → ∃ b n', rte_pktmbuf_alloc n = (Some b, n') ∧ len b = mbuf_room ∧ Forall byte_ok b ∧
    tx_wire n' = tx_wire n ∧ tx_queue n' = tx_queue n ∧ credit n' = credit n;
  buffer_law f n : 0 < credit n →
    tx_wire (rte_eth_tx_buffer f n) ++ tx_queue (rte_eth_tx_buffer f n) = tx_wire n ++ tx_queue n ++ [f] ∧
    credit (rte_eth_tx_buffer f n) = credit n - 1;
  flush_law n : 0 <= credit n → ∃ r n', rte_eth_tx_buffer_flush n = (r, n') ∧
    tx_wire n' = tx_wire n ++ tx_queue n ∧ tx_queue n' = [];
}.

Section Tx.
Context `{DpdkTx}.

Record dpdk := MkDpdk { port0 : nic; skeleton : p_skeleton }.
Definition put_port0 (n : nic) (d : dpdk) : dpdk := MkDpdk n (skeleton d).
Definition put_skeleton (k : p_skeleton) (d : dpdk) : dpdk := MkDpdk (port0 d) k.
Definition init_dpdk_headers (src_addr : list Z) (src_port : Z) : M dpdk unit :=
  modify (put_skeleton (gen_dpdk_packet_info src_addr src_port)).

(** The frame in the packet buffer, up to the appended length. *)
Definition dpdk_assemble (pkt : pkt_rqst) : M dpdk (list Z) :=
  n ← gets port0;
  let '(b, n) := rte_pktmbuf_alloc n in
  modify (put_port0 n);;
  match b with
  | None => err (Exit 1)
  | Some b =>
      k ← gets skeleton;
      b ← copy b 0 (ether_hdr k) 0 ETH_HDRLEN;
      b ← copy b ETH_HDRLEN (ip_hdr k) 0 IP6_HDRLEN;
      b ← copy b (ETH_HDRLEN + IP6_HDRLEN) (udp_hdr k) 0 UDP_HDRLEN;
      b ← copy b OFF_DST (enc_addr (dst_addr pkt)) 0 IPV6_SIZE;
      b ← copy b OFF_PLEN (le 2 (htons (u16 (UDP_HDRLEN + datalen pkt)))) 0 2;
      b ← copy b OFF_DPORT (le 2 (u16 (dst_port pkt))) 0 2;
      b ← copy b OFF_ULEN (le 2 (htons (u16 (UDP_HDRLEN + datalen pkt)))) 0 2;
      b ← copy b OFF_DATA (data pkt) 0 (datalen pkt);
      mret (take (Z.to_nat (OFF_DATA + datalen pkt)) b)
  end.
Definition tx_flush : M dpdk Z :=
  n ← gets port0;
  let '(sent, n) := rte_eth_tx_buffer_flush n in
  modify (put_port0 n);;
  mret sent.
Definition send_packet (m : list Z) : M dpdk Z :=
  modify (λ d, put_port0 (rte_eth_tx_buffer m (port0 d)) d);;
  tx_flush.
Definition dpdk_send (pkt : pkt_rqst) : M dpdk Z :=
  frame ← dpdk_assemble pkt;
  send_packet frame;;
  mret 0.
Fixpoint dpdk_batch_loop (pkts : list pkt_rqst) (sub_ids : list Z) : M dpdk unit :=
  match pkts with
  | [] => mret tt
  | p :: pkts =>
      n ← aload (λ _, sub_ids) (subid (dst_addr p));
      frame ← dpdk_assemble (set_dst_args (batch_args p n) p);
      modify (λ d, put_port0 (rte_eth_tx_buffer frame (port0 d)) d);;
      dpdk_batch_loop pkts sub_ids
  end.
Definition dpdk_batched_send (pkts : list pkt_rqst) (sub_ids : list Z) : M dpdk unit :=
  dpdk_batch_loop pkts sub_ids;;
  tx_flush;;
  mret tt.
End Tx.

(** ** Receiving *)

(** What the coming calls of [rte_eth_rx_burst] return, and the client's
    port. *)
Record dpdk_rx := MkDrx { bursts : list (list (list Z)); src_client_port : Z }.
Definition put_bursts (x : list (list (list Z))) (r : dpdk_rx) : dpdk_rx := MkDrx x (src_client_port r).
Definition mbuf_field (f : list Z) (o n : Z) : M dpdk_rx (list Z) :=
  if o + n <=? len f then mret (slice f o n) else err OutOfBounds.
Definition mbuf_size (f : list Z) : M dpdk_rx Z :=
  l ← mbuf_field f OFF_ULEN 2;
  mret (u16 (ntohs (un_le l) - UDP_HDRLEN)).

(** [for (i = 0; i < nb_rx; i++)]: the first packet for the port ends the
    function, with the rest of the burst. *)
Fixpoint rcv_burst (fs : list (list Z)) (rcv_buf : option (list Z)) (want_remote : bool)
    : M dpdk_rx (option received) :=
  match fs with
  | [] => mret None
  | f :: fs =>
      dport ← mbuf_field f OFF_DPORT 2;
      port ← gets src_client_port;
      if un_le dport =? port then
        msg_size ← mbuf_size f;
        buf ← match rcv_buf with
              | Some b => b ← copy b 0 f OFF_DATA msg_size; mret (Some b)
              | None => mret None
              end;
        dst ← mbuf_field f OFF_DST IPV6_SIZE;
        src ← mbuf_field f OFF_SRC IPV6_SIZE;
        sport ← mbuf_field f OFF_SPORT 2;
        mret (Some (MkRcvd buf (if want_remote then Some (dec_addr dst) else None)
          (MkSock (dec_addr src) (un_le sport)) msg_size))
      else rcv_burst fs rcv_buf want_remote
  end.
Fixpoint dpdk_rcv_loop (fuel : nat) (rcv_buf : option (list Z)) (want_remote : bool) : M dpdk_rx received :=
  bs ← gets bursts;
  match fuel, bs with
  | S fuel, b :: bs =>
      modify (put_bursts bs);;
      r ← rcv_burst b rcv_buf want_remote;
      match r with Some r => mret r | None => dpdk_rcv_loop fuel rcv_buf want_remote end
  | _, _ => err Hang
  end.
(** Every round takes a burst, so their number is fuel enough. *)
Definition dpdk_client_rcv (rcv_buf : option (list Z)) (want_remote : bool) : M dpdk_rx received :=
  λ r, dpdk_rcv_loop (length (bursts r)) rcv_buf want_remote r.

(** The payload goes where the address of the packet points to. *)
Definition dpdk_pool_write (p : pool) (a : Z) (src : list Z) (n : Z) : M dpdk_rx pool :=
  b ← copy (bytes p) (a - base p) src OFF_DATA n;
  mret (MkPool (base p) b).
Fixpoint write_burst (fs : list (list Z)) (packets : Z) (p : pool) : M dpdk_rx (Z * pool) :=
  match fs with
  | [] => mret (packets, p)
  | f :: fs =>
      dport ← mbuf_field f OFF_DPORT 2;
      port ← gets src_client_port;
      if un_le dport =? port then
        msg_size ← mbuf_size f;
        dst ← mbuf_field f OFF_DST IPV6_SIZE;
        p ← dpdk_pool_write p (paddr (dec_addr dst)) f msg_size;
        write_burst fs (packets + 1) p
      else write_burst fs packets p
  end.
Fixpoint dpdk_write_loop (fuel : nat) (packets num_packets : Z) (p : pool) : M dpdk_rx pool :=
  if packets =? num_packets then mret p else
  bs ← gets bursts;
  match fuel, bs with
  | S fuel, b :: bs =>
      modify (put_bursts bs);;
      '(packets, p) ← write_burst b packets p;
      dpdk_write_loop fuel packets num_packets p
  | _, _ => err Hang
  end.
Definition write_dpdk_packets (num_packets : Z) (p : pool) : M dpdk_rx pool :=
  λ r, dpdk_write_loop (length (bursts r)) 0 num_packets p r.

(** ** Pairing the ports *)

Record ports := MkPorts { bb_dst_ports : list Z; last_port : Z; nb_ports_in_mask : Z }.
Definition put_dst (x : list Z) (s : ports) : ports := MkPorts x (last_port s) (nb_ports_in_mask s).
Definition put_last (x : Z) (s : ports) : ports := MkPorts (bb_dst_ports s) x (nb_ports_in_mask s).
Definition put_in_mask (x : Z) (s : ports) : ports := MkPorts (bb_dst_ports s) (last_port s) x.
Definition enabled (mask portid : Z) : bool := negb (Z.land mask (u32 (Z.shiftl 1 portid)) =? 0).

(** The two loops of [setup_ports]; [max_ports] is [RTE_MAX_ETHPORTS]. *)
Definition reset_port (portid : Z) : M ports unit := astore bb_dst_ports put_dst portid 0.
Definition pair_port (mask portid : Z) : M ports unit :=
  if negb (enabled mask portid) then mret tt else
  n ← gets nb_ports_in_mask;
  last ← gets last_port;
  (if negb (n mod 2 =? 0) then
     astore bb_dst_ports put_dst portid last;;
     astore bb_dst_ports put_dst last portid
   else modify (put_last portid));;
  modify (put_in_mask (u32 (n + 1))).
Definition setup_ports (mask max_ports nb_ports : Z) : M ports Z :=
  modify (put_in_mask 0);;
  for_range 0 max_ports reset_port;;
  modify (put_last 0);;
  for_range 0 nb_ports (pair_port mask);;
  n ← gets nb_ports_in_mask;
  last ← gets last_port;
  when (negb (n mod 2 =? 0)) (astore bb_dst_ports put_dst last last);;
  mret n.
