(* ===== verification/DpdkSpec.v ===== *)
(** * What the DPDK backend does

    Frames that the raw-socket backend understands, a receive loop that keeps
    one packet of a burst, and the bulk receive that only stops when the
    count is met between two bursts. *)

From S2P Require Import Prelude Types Bytes Wire RawSend RawRecv TestBed Dpdk.

Lemma slice_in_splice f o src o' n : 0 <= o → o + len src <= len f → o <= o' → 0 <= n → o' + n <= o + len src →
  slice (splice f o src) o' n = slice src (o' - o) n.
Proof.
  intros. rewrite <-(slice_splice_eq f o src) at 2 by lia. pose proof (len_nonneg src).
  rewrite slice_slice by lia. f_equal. lia.
Qed.

(** Concrete lists of bytes. *)
Ltac bytes_tac := cbn; repeat (apply Forall_cons; split; [unfold byte_ok; lia|]); apply Forall_nil_2.

Section Tx.
Context `{DpdkTx}.

(** A packet that fits into a buffer. *)
Record dpkt_ok (p : pkt_rqst) : Prop := {
  dp_len : len (data p) = datalen p;
  dp_port : 0 <= dst_port p < 65536;
  dp_fits : OFF_DATA + datalen p <= mbuf_room;
  dp_bytes : Forall byte_ok (data p);
}.
Record dpdk_ok (sip : list Z) (sport : Z) (d : dpdk) : Prop := {
  dk_skel : skeleton d = gen_dpdk_packet_info sip sport;
  dk_sip : len sip = 16;
  dk_sip_bytes : Forall byte_ok sip;
}.

Lemma skeleton_fields sip sport : len sip = 16 → Forall byte_ok sip →
  let k := gen_dpdk_packet_info sip sport in
  len (ether_hdr k) = 14 ∧ len (ip_hdr k) = 40 ∧ len (udp_hdr k) = 8 ∧
  slice (ether_hdr k) 12 2 = [134; 221] ∧ slice (ip_hdr k) 8 16 = sip ∧ slice (udp_hdr k) 0 2 = le 2 sport ∧
  Forall byte_ok (ether_hdr k) ∧ Forall byte_ok (ip_hdr k) ∧ Forall byte_ok (udp_hdr k).
Proof.
  intros Hl Hb k. assert (Forall byte_ok (zeros IP6_HDRLEN)) as Hz by (apply Forall_replicate; by unfold byte_ok).
  assert (len (zeros IP6_HDRLEN) = 40) as Hlz by by apply len_replicate.
  assert (∀ o src, 0 <= o → o + len src <= 40 → ∀ f, len f = 40 → len (splice f o src) = 40) as Hs.
  { intros o src Ho Hos f Hf. rewrite len_splice by lia. done. }
  assert (len (splice (zeros IP6_HDRLEN) 8 sip) = 40) as L1 by (apply Hs; lia).
  set (b1 := splice (zeros IP6_HDRLEN) 8 sip) in *.
  set (b2 := splice b1 0 (htonl_bytes (u32 (Z.shiftl 6 28)))).
  assert (len b2 = 40) as L2 by (apply Hs; [lia|unfold len; simpl; lia|done]).
  set (b3 := splice b2 6 [17]). assert (len b3 = 40) as L3 by (apply Hs; [lia|unfold len; simpl; lia|done]).
  assert (len (ip_hdr k) = 40) as L4 by (apply (Hs 7 [255]); [lia|unfold len; simpl; lia|done]).
  split_and!; try done.
  - change (ip_hdr k) with (splice b3 7 [255]). change (len [255]) with 1 in *.
    rewrite slice_splice_ne by (change (len [255]) with 1; lia).
    unfold b3. rewrite slice_splice_ne by (change (len [17]) with 1; lia).
    unfold b2. rewrite slice_splice_ne by (change (len (htonl_bytes _)) with 4; lia).
    unfold b1. rewrite <-Hl. apply slice_splice_eq; lia.
  - change (ether_hdr k) with (DST_MAC ++ SRC_MAC ++ [134; 221]). bytes_tac.
  - change (ip_hdr k) with (splice b3 7 [255]). repeat apply splice_bytes; try done; [|bytes_tac..].
    change (htonl_bytes _) with [96; 0; 0; 0]. bytes_tac.
  - change (udp_hdr k) with (le 2 sport ++ [0; 0; 0; 0] ++ [170; 255]).
    apply Forall_app; split; [apply le_bytes|bytes_tac].
Qed.

Lemma wp_dpdk_assemble sip sport p d Q :
  dpdk_ok sip sport d → dpkt_ok p → 0 < credit (port0 d) →
  (∀ f n, frame_of f sip sport p → tx_wire n = tx_wire (port0 d) → tx_queue n = tx_queue (port0 d) →
     credit n = credit (port0 d) → Q f (put_port0 n d)) →
  wp (dpdk_assemble p) d Q.
Proof.
  intros [Hk Hl Hb] [Hdl Hport Hfit Hdb] Hc HQ. pose proof offs as Ho. pose proof (len_nonneg (data p)).
  destruct (skeleton_fields sip sport Hl Hb) as (E1 & E2 & E3 & F1 & F2 & F3 & B1 & B2 & B3).
  unfold dpdk_assemble. rewrite wp_bind, wp_gets.
  destruct (alloc_law (port0 d) Hc) as (b & n & Ea & Hbl & Hbb & Hw & Hq & Hcr). rewrite Ea, wp_bind, wp_modify, wp_bind, wp_gets.
  cbn [skeleton put_port0]. rewrite Hk. set (k := gen_dpdk_packet_info sip sport) in *.
  unfold ETH_HDRLEN, IP6_HDRLEN, IPV6_SIZE in *. change (14 + 40) with 54.
  rewrite wp_bind. apply wp_copy_splice; [lia|lia|lia|]. set (b1 := splice b 0 (ether_hdr k)).
  assert (len b1 = mbuf_room) as L1 by (unfold b1; rewrite len_splice; lia).
  rewrite wp_bind. apply wp_copy_splice; [lia|lia|lia|]. set (b2 := splice b1 14 (ip_hdr k)).
  assert (len b2 = mbuf_room) as L2 by (unfold b2; rewrite len_splice; lia).
  rewrite wp_bind. apply wp_copy_splice; [lia|lia|lia|]. set (b3 := splice b2 54 (udp_hdr k)).
  assert (len b3 = mbuf_room) as L3 by (unfold b3; rewrite len_splice; lia).
  pose proof (len_enc_addr (dst_addr p)) as La. pose proof (len_le 2 (htons (u16 (UDP_HDRLEN + datalen p)))) as Lp.
  pose proof (len_le 2 (u16 (dst_port p))) as Ld. change (Z.of_nat 2) with 2 in *.
  rewrite wp_bind. apply wp_copy_splice; [lia|lia|lia|]. set (b4 := splice b3 OFF_DST _).
  assert (len b4 = mbuf_room) as L4 by (unfold b4; rewrite len_splice; lia).
  rewrite wp_bind. apply wp_copy_splice; [lia|lia|lia|]. set (b5 := splice b4 OFF_PLEN _).
  assert (len b5 = mbuf_room) as L5 by (unfold b5; rewrite len_splice; lia).
  rewrite wp_bind. apply wp_copy_splice; [lia|lia|lia|]. set (b6 := splice b5 OFF_DPORT _).
  assert (len b6 = mbuf_room) as L6 by (unfold b6; rewrite len_splice; lia).
  rewrite wp_bind. apply wp_copy_splice; [lia|lia|lia|]. set (b7 := splice b6 OFF_ULEN _).
  assert (len b7 = mbuf_room) as L7 by (unfold b7; rewrite len_splice; lia).
  rewrite wp_bind. apply wp_copy_splice; [lia|lia|lia|]. set (b8 := splice b7 OFF_DATA (data p)).
  assert (len b8 = mbuf_room) as L8 by (unfold b8; rewrite len_splice; lia).
  rewrite wp_ret. apply HQ; [|done..].
  assert (∀ o m, 0 <= o → 0 <= m → o + m <= OFF_DATA → slice b8 o m = slice b7 o m) as S8 by (intros; apply slice_splice_ne; lia).
  assert (∀ o m, 0 <= o → 0 <= m → o + m <= mbuf_room → o + m <= OFF_ULEN ∨ OFF_ULEN + 2 <= o → slice b7 o m = slice b6 o m) as S7 by (intros; apply slice_splice_ne; lia).
  assert (∀ o m, 0 <= o → 0 <= m → o + m <= mbuf_room → o + m <= OFF_DPORT ∨ OFF_DPORT + 2 <= o → slice b6 o m = slice b5 o m) as S6 by (intros; apply slice_splice_ne; lia).
  assert (∀ o m, 0 <= o → 0 <= m → o + m <= mbuf_room → o + m <= OFF_PLEN ∨ OFF_PLEN + 2 <= o → slice b5 o m = slice b4 o m) as S5 by (intros; apply slice_splice_ne; lia).
  assert (∀ o m, 0 <= o → 0 <= m → o + m <= mbuf_room → o + m <= OFF_DST ∨ OFF_DST + 16 <= o → slice b4 o m = slice b3 o m) as S4 by (intros; apply slice_splice_ne; lia).
  split; try (rewrite slice_take by lia).
  - apply len_take. lia.
  - apply Forall_take. do 8 (apply splice_bytes; [|first [assumption|apply le_bytes|apply enc_addr_bytes]]). assumption.
  - rewrite S8, S7, S6, S5, S4 by lia. unfold b3. rewrite slice_splice_ne by lia.
    unfold b2. rewrite slice_splice_ne by lia. unfold b1. rewrite slice_in_splice by lia. exact F1.
  - rewrite S8, S7, S6 by lia. unfold b5. rewrite <-Lp. apply slice_splice_eq; lia.
  - rewrite S8, S7, S6, S5, S4 by lia. unfold b3. rewrite slice_splice_ne by lia.
    unfold b2. rewrite slice_in_splice by lia. exact F2.
  - rewrite S8, S7, S6, S5 by lia. unfold b4. rewrite <-La at 1. apply slice_splice_eq; lia.
  - rewrite S8, S7, S6, S5, S4 by lia. unfold b3. rewrite slice_in_splice by lia. exact F3.
  - rewrite S8, S7 by lia. unfold b6. rewrite <-(u16_small (dst_port p)) at 2 by done. rewrite <-Ld at 1.
    apply slice_splice_eq; lia.
  - rewrite S8 by lia. unfold b7. rewrite <-Lp at 1. apply slice_splice_eq; lia.
  - unfold b8. rewrite <-Hdl. apply slice_splice_eq; lia.
Qed.

Lemma wp_tx_flush d Q : 0 <= credit (port0 d) →
  (∀ r n, tx_wire n = tx_wire (port0 d) ++ tx_queue (port0 d) → tx_queue n = [] → Q r (put_port0 n d)) →
  wp tx_flush d Q.
Proof.
  intros Hc HQ. unfold tx_flush. rewrite wp_bind, wp_gets. destruct (flush_law (port0 d) Hc) as (r & n & E & Hw & Hq).
  rewrite E. wp_pure. by apply HQ.
Qed.
Lemma wp_dpdk_send sip sport p d Q :
  dpdk_ok sip sport d → dpkt_ok p → 0 < credit (port0 d) → tx_queue (port0 d) = [] →
  (∀ f n, frame_of f sip sport p → tx_wire n = tx_wire (port0 d) ++ [f] → tx_queue n = [] → Q 0 (put_port0 n d)) →
  wp (dpdk_send p) d Q.
Proof.
  intros Hd Hp Hc Hq HQ. unfold dpdk_send. rewrite wp_bind. eapply wp_dpdk_assemble; [done..|].
  intros f n Hf Hw Hq' Hc'. unfold send_packet. rewrite wp_bind, wp_bind, wp_modify. cbn [port0 put_port0].
  destruct (buffer_law f n) as [Hb Hcr]; [lia|]. apply wp_tx_flush; cbn [port0 put_port0]; [lia|].
  intros r n' Hw' Hq2. rewrite wp_ret. apply (HQ f n'); [done| |done]. by rewrite Hw', Hb, Hw, Hq', Hq.
Qed.
Lemma in_batch_ok p : dpkt_ok p → ∀ n, dpkt_ok (set_dst_args (batch_args p n) p).
Proof. by intros [] n. Qed.
Lemma wp_dpdk_batch_loop sip sport sub_ids pkts : ∀ d Q,
  dpdk_ok sip sport d → Forall dpkt_ok pkts → Forall (λ p, 0 <= subid (dst_addr p) < len sub_ids) pkts →
  len pkts <= credit (port0 d) →
  (∀ fs n, Forall2 (λ f p, frame_of f sip sport (set_dst_args (batch_args p (default 0 (idx sub_ids (subid (dst_addr p))))) p)) fs pkts →
     tx_wire n ++ tx_queue n = tx_wire (port0 d) ++ tx_queue (port0 d) ++ fs → 0 <= credit n → Q tt (put_port0 n d)) →
  wp (dpdk_batch_loop pkts sub_ids) d Q.
Proof.
  induction pkts as [|p pkts IH]; intros d Q Hd Hp Hs Hc HQ; cbn [dpdk_batch_loop].
  - rewrite wp_ret. replace d with (put_port0 (port0 d) d) by by destruct d.
    apply (HQ []); [constructor|by rewrite app_nil_r|]. rewrite len_nil in Hc. done.
  - rewrite len_cons in Hc. pose proof (len_nonneg pkts). apply Forall_cons in Hp as [Hp1 Hp].
    apply Forall_cons in Hs as [Hs1 Hs]. destruct (idx_is_Some sub_ids _ Hs1) as [x Ex].
    rewrite wp_bind. eapply wp_aload_list; [done|]. rewrite wp_bind.
    eapply wp_dpdk_assemble; [done|by apply in_batch_ok|lia|]. intros f n Hf Hw Hq Hcr.
    rewrite wp_bind, wp_modify. cbn [port0 put_port0]. destruct (buffer_law f n) as [Hb Hc2]; [lia|].
    apply IH; try done; [by destruct Hd|cbn [port0 put_port0]; lia|].
    intros fs n' Hfs Hw' Hc'. apply (HQ (f :: fs) n'); [|rewrite Hw'; cbn [port0 put_port0]|done].
    + constructor; [by rewrite Ex|done].
    + rewrite app_assoc, Hb, Hw, Hq. by rewrite <-!app_assoc.
Qed.
End Tx.


(** [dpdk_batched_send] puts every packet of the batch on the wire, once
    and in order, each with the number of its server's packet in the upper
    half of [args]. *)
Theorem dpdk_batch_sends_every_packet `{DpdkTx} sip sport sub_ids pkts d :
  dpdk_ok sip sport d → Forall dpkt_ok pkts → Forall (λ p, 0 <= subid (dst_addr p) < len sub_ids) pkts →
  len pkts <= credit (port0 d) → tx_queue (port0 d) = [] →
  ∃ fs d', dpdk_batched_send pkts sub_ids d = Ok tt d' ∧ tx_wire (port0 d') = tx_wire (port0 d) ++ fs ∧
    tx_queue (port0 d') = [] ∧
    Forall2 (λ f p, frame_of f sip sport
      (set_dst_args (batch_args p (default 0 (idx sub_ids (subid (dst_addr p))))) p)) fs pkts.
Proof.
  intros Hd Hp Hs Hc Hq.
  assert (wp (dpdk_batched_send pkts sub_ids) d (λ _ d', ∃ fs, tx_wire (port0 d') = tx_wire (port0 d) ++ fs ∧
    tx_queue (port0 d') = [] ∧ Forall2 (λ f p, frame_of f sip sport
      (set_dst_args (batch_args p (default 0 (idx sub_ids (subid (dst_addr p))))) p)) fs pkts)) as Hw.
  { unfold dpdk_batched_send. rewrite wp_bind. eapply wp_dpdk_batch_loop; [done..|]. intros fs n Hfs Hw Hc'.
    rewrite wp_bind. apply wp_tx_flush; [done|]. intros r n' Hw' Hq'. rewrite wp_ret. exists fs.
    cbn [port0 put_port0] in *. split_and!; [|done|done]. by rewrite Hw', Hw, Hq. }
  apply wp_ok in Hw as ([] & d' & E & fs & ?). by exists fs, d'.
Qed.

(** ** Receiving *)

Definition mbuf_ok (f : list Z) : Prop := OFF_DATA <= len f.
Definition mine (port : Z) (f : list Z) : bool := un_le (slice f OFF_DPORT 2) =? port.
Definition skipped (port : Z) (f : list Z) : Prop := mbuf_ok f ∧ mine port f = false.

Lemma wp_mbuf_field f o n r Q : o + n <= len f → Q (slice f o n) r → wp (mbuf_field f o n) r Q.
Proof. intros Ho HQ. unfold mbuf_field. by rewrite (proj2 (Z.leb_le _ _)). Qed.
Lemma slice_front g rest o n : 0 <= o → 0 <= n → o + n <= len g → slice (g ++ rest) o n = slice g o n.
Proof.
  intros. rewrite <-(slice_take (g ++ rest) (len g) o n) by lia. f_equal.
  by rewrite take_app_length' by (unfold len; lia).
Qed.
Lemma wp_mbuf_size g rest sip sport p r Q : frame_of g sip sport p → 0 <= datalen p <= 65527 → Q (datalen p) r →
  wp (mbuf_size (g ++ rest)) r Q.
Proof.
  intros Hf Hd HQ. pose proof (fr_len _ _ _ _ Hf) as Hl. pose proof offs. pose proof (len_nonneg rest).
  unfold mbuf_size. rewrite wp_bind. apply wp_mbuf_field; [rewrite len_app; lia|].
  rewrite slice_front by lia. rewrite wp_ret, (fr_ulen _ _ _ _ Hf). unfold UDP_HDRLEN.
  rewrite (u16_small (8 + datalen p)) by lia.
  rewrite un_le_le by (pose proof (htons_range (8 + datalen p)); simpl; lia).
  rewrite htons_htons by lia. replace (8 + datalen p - 8) with (datalen p) by lia. by rewrite u16_small by lia.
Qed.
Lemma wp_rcv_skip fs rest buf want r Q : Forall (skipped (src_client_port r)) fs →
  wp (rcv_burst rest buf want) r Q → wp (rcv_burst (fs ++ rest) buf want) r Q.
Proof.
  induction 1 as [|f fs [Hl Hm] _ IH]; intros HQ; [done|]. simpl. pose proof offs. unfold mbuf_ok in Hl.
  rewrite wp_bind. apply wp_mbuf_field; [lia|]. rewrite wp_bind, wp_gets. unfold mine in Hm. rewrite Hm. by apply IH.
Qed.
Lemma skip_all fs buf want r Q : Forall (skipped (src_client_port r)) fs → Q None r → wp (rcv_burst fs buf want) r Q.
Proof. intros Hs HQ. rewrite <-(app_nil_r fs). by apply wp_rcv_skip. Qed.

(** What [dpdk_client_rcv] takes from the frame [g] of [p]. *)
Definition taken (sip : list Z) (sport : Z) (p : pkt_rqst) (buf : option (list Z)) (want : bool) (got : received) : Prop :=
  r_size got = datalen p ∧ r_target got = MkSock (dec_addr sip) sport ∧
  r_remote got = (if want then Some (dst_addr p) else None) ∧
  ∀ b, buf = Some b → ∃ l, r_buf got = Some l ∧ take (Z.to_nat (datalen p)) l = data p ∧
    drop (Z.to_nat (datalen p)) l = drop (Z.to_nat (datalen p)) b.

Lemma wp_rcv_mine g rest post sip sport p (buf : option (list Z)) want r Q :
  frame_of g sip sport p → addr_ok (dst_addr p) → dst_port p = src_client_port r → 0 <= dst_port p < 65536 →
  0 <= sport < 65536 → 0 <= datalen p <= 65527 →
  match buf with Some b => datalen p <= len b | None => True end →
  (∀ got, taken sip sport p buf want got → Q (Some got) r) →
  wp (rcv_burst ((g ++ rest) :: post) buf want) r Q.
Proof.
  intros Hf Ha Hport Hpr Hsp Hd Hbuf HQ. pose proof offs. pose proof (fr_len _ _ _ _ Hf) as Hl. pose proof (len_nonneg rest).
  cbn [rcv_burst]. rewrite wp_bind. apply wp_mbuf_field; [rewrite len_app; lia|].
  rewrite slice_front by lia. rewrite wp_bind, wp_gets, (fr_dport _ _ _ _ Hf), un_le_le by done.
  rewrite Hport, Z.eqb_refl, wp_bind. eapply wp_mbuf_size; [done|done|]. rewrite wp_bind.
  eapply (wp_mono _ _ (λ b r', r' = r ∧ ∀ b0, buf = Some b0 → ∃ l, b = Some l ∧
    take (Z.to_nat (datalen p)) l = data p ∧ drop (Z.to_nat (datalen p)) l = drop (Z.to_nat (datalen p)) b0)).
  { destruct buf as [b0|]; [|by rewrite wp_ret]. rewrite wp_bind.
    apply wp_copy; [lia|lia|lia|lia|rewrite len_app; lia|].
    intros l Hll Hidx. rewrite wp_ret. split; [done|]. intros ? [= <-]. exists l. split_and!; [done| |].
    - rewrite <-(fr_data _ _ _ _ Hf). apply idx_ext. intros i.
      destruct (decide (0 <= i)); [|rewrite !idx_None; [done|lia..]].
      rewrite idx_take, idx_slice by lia. case_decide; [|done].
      rewrite Hidx, decide_True by lia. rewrite idx_app, decide_True by lia. f_equal. lia.
    - apply idx_ext. intros i. destruct (decide (0 <= i)); [|rewrite !idx_None; [done|lia..]].
      rewrite !idx_drop by lia. destruct (decide (datalen p + i < len b0)).
      + rewrite Hidx, decide_False by lia. done.
      + rewrite !idx_None; [done|lia..]. }
  intros b r1 [-> Hb]. unfold IPV6_SIZE.
  rewrite wp_bind. apply wp_mbuf_field; [rewrite len_app; lia|].
  rewrite wp_bind. apply wp_mbuf_field; [rewrite len_app; lia|].
  rewrite wp_bind. apply wp_mbuf_field; [rewrite len_app; lia|].
  rewrite !slice_front by lia. rewrite wp_ret, (fr_dst _ _ _ _ Hf), (fr_src _ _ _ _ Hf), (fr_sport _ _ _ _ Hf).
  rewrite dec_enc_addr, un_le_le by done. by apply HQ.
Qed.

(** [dpdk_client_rcv] returns the first packet for its port, whatever
    bursts and foreign packets come before, with its payload, address and
    sender; the packets behind it in the same burst are lost: the next call
    sees the bursts after it. *)
Theorem dpdk_rcv_takes_one_of_a_burst r quiet pre g rest post later sip sport p buf (want : bool) :
  bursts r = quiet ++ (pre ++ (g ++ rest) :: post) :: later →
  Forall (Forall (skipped (src_client_port r))) quiet → Forall (skipped (src_client_port r)) pre →
  frame_of g sip sport p → addr_ok (dst_addr p) → dst_port p = src_client_port r → 0 <= dst_port p < 65536 →
  0 <= sport < 65536 → 0 <= datalen p <= 65527 →
  match buf with Some b => datalen p <= len b | None => True end →
  ∃ got, dpdk_client_rcv buf want r = Ok got (put_bursts later r) ∧ taken sip sport p buf want got.
Proof.
  intros Hb Hq Hpre Hf Ha Hport Hpr Hsp Hd Hbuf.
  assert (∀ fuel r0, bursts r0 = quiet ++ (pre ++ (g ++ rest) :: post) :: later →
    src_client_port r0 = src_client_port r → (length quiet < fuel)%nat →
    wp (dpdk_rcv_loop fuel buf want) r0 (λ got r', r' = put_bursts later r ∧ taken sip sport p buf want got)) as Hloop.
  { clear Hb. induction Hq as [|q quiet Hq1 Hq IH]; intros fuel r0 Hb Hp0 Hfuel;
      (destruct fuel as [|fuel]; [simpl in Hfuel; lia|]); cbn [dpdk_rcv_loop]; rewrite wp_bind, wp_gets, Hb; cbn [app];
      rewrite wp_bind, wp_modify, wp_bind.
    - apply wp_rcv_skip; [simpl; by rewrite Hp0|]. eapply wp_rcv_mine; try done; [simpl; congruence|].
      intros got Hgot. rewrite wp_ret. split; [|done]. unfold put_bursts. simpl. by rewrite Hp0.
    - apply skip_all; [simpl; by rewrite Hp0|]. apply IH; [done|done|simpl in Hfuel; lia]. }
  assert (wp (dpdk_client_rcv buf want) r (λ got r', r' = put_bursts later r ∧ taken sip sport p buf want got)) as Hw.
  { apply (Hloop (length (bursts r)) r); [done|done|]. rewrite Hb, length_app. simpl. lia. }
  apply wp_ok in Hw as (got & r' & E & -> & Ht). by exists got.
Qed.

(** ** The bulk receive *)

Definition mine_count (port : Z) (b : list (list Z)) : Z := len (filter (λ f, mine port f = true) b).
Fixpoint arrived (port : Z) (bs : list (list (list Z))) (k : nat) : Z :=
  match k, bs with
  | S k, b :: bs => mine_count port b + arrived port bs k
  | _, _ => 0
  end.
Lemma bind_ok {S A B} (m : M S A) (k : A → M S B) s b s' : (m ≫= k) s = Ok b s' →
  ∃ a s1, m s = Ok a s1 ∧ k a s1 = Ok b s'.
Proof. unfold mbind, M_bind. destruct (m s) as [a s1|]; [|done]. eauto. Qed.
Lemma mbuf_field_ok f o n r x r' : mbuf_field f o n r = Ok x r' → x = slice f o n ∧ r' = r.
Proof. unfold mbuf_field. destruct (_ <=? _); [|done]. by intros [= <- <-]. Qed.
Lemma write_burst_count fs : ∀ packets p r x p' r', write_burst fs packets p r = Ok (x, p') r' →
  x = packets + mine_count (src_client_port r) fs ∧ r' = r.
Proof.
  induction fs as [|f fs IH]; intros packets p r x p' r'; cbn [write_burst].
  - intros [= <- _ ->]. split; [unfold mine_count, len; simpl; lia|done].
  - unfold mine_count. rewrite filter_cons. intros (dport & r1 & [-> ->]%mbuf_field_ok & E)%bind_ok.
    apply bind_ok in E as (port & r1 & [= <- <-] & E). fold (mine (src_client_port r) f) in E.
    destruct (mine (src_client_port r) f).
    + rewrite decide_True by done. rewrite len_cons.
      apply bind_ok in E as (sz & r1 & Es & E). unfold mbuf_size in Es.
      apply bind_ok in Es as (l & r2 & [-> ->]%mbuf_field_ok & [= <- <-]).
      apply bind_ok in E as (dst & r1 & [-> ->]%mbuf_field_ok & E).
      apply bind_ok in E as (p1 & r1 & Ep & E). unfold dpdk_pool_write in Ep.
      apply bind_ok in Ep as (l & r2 & Ec & [= <- <-]). unfold copy in Ec. destruct (_ && _) in Ec; [|done].
      injection Ec as _ <-. apply IH in E as [-> ->]. split; [|done]. unfold mine_count. lia.
    + rewrite decide_False by done. by apply IH in E as [-> ->].
Qed.

(** [write_dpdk_packets] only compares its count between two bursts: when
    no number of whole bursts holds exactly [num_packets] packets for the
    port, one packet too many for instance, it never returns. *)
Theorem write_dpdk_packets_overshoots num_packets p r :
  (∀ k, arrived (src_client_port r) (bursts r) k ≠ num_packets) →
  ∀ p' r', write_dpdk_packets num_packets p r ≠ Ok p' r'.
Proof.
  intros Hne.
  assert (∀ bs fuel packets p r0, bursts r0 = bs → src_client_port r0 = src_client_port r →
    (∀ k, packets + arrived (src_client_port r) bs k ≠ num_packets) →
    ∀ p' r', dpdk_write_loop fuel packets num_packets p r0 ≠ Ok p' r') as Hloop.
  { induction bs as [|b bs IH]; intros fuel packets p0 r0 Hb Hp Hk p' r'; destruct fuel as [|fuel]; cbn [dpdk_write_loop];
      pose proof (Hk 0%nat) as Hk0; cbn [arrived] in Hk0; rewrite (proj2 (Z.eqb_neq packets num_packets)) by lia;
      unfold mbind, M_bind, gets; try rewrite Hb; try done.
    cbn. destruct (write_burst b packets p0 (put_bursts bs r0)) as [[x p1] r1|] eqn:E; [|done].
    apply write_burst_count in E as [-> ->]. apply IH; [done|done|]. intros k. specialize (Hk (S k)).
    cbn [arrived] in Hk. simpl. rewrite Hp. lia. }
  intros p' r'. unfold write_dpdk_packets. apply (Hloop (bursts r)); try done. 
Qed.

(** The frames of a burst: foreign ones and, in order, those of [ps]. *)
Inductive burst_of (sip : list Z) (sport port : Z) : list (list Z) → list pkt_rqst → Prop :=
| bo_nil : burst_of sip sport port [] []
| bo_skip f fs ps : skipped port f → burst_of sip sport port fs ps → burst_of sip sport port (f :: fs) ps
| bo_take g rest fs p ps : frame_of g sip sport p → addr_ok (dst_addr p) → dst_port p = port →
    0 <= datalen p <= 65527 → len (data p) = datalen p →
    burst_of sip sport port fs ps → burst_of sip sport port ((g ++ rest) :: fs) (p :: ps).
(** Storing the payload where the address of the packet points to. *)
Definition pool_store (p : pool) (q : pkt_rqst) : pool :=
  MkPool (base p) (splice (bytes p) (paddr (dst_addr q) - base p) (data q)).
Definition in_pool (p : pool) (q : pkt_rqst) : Prop :=
  base p <= paddr (dst_addr q) ∧ paddr (dst_addr q) + datalen q <= base p + len (bytes p).

Lemma wp_write_burst sip sport fs ps : ∀ n p r, burst_of sip sport (src_client_port r) fs ps →
  0 <= src_client_port r < 65536 → Forall (in_pool p) ps →
  wp (write_burst fs n p) r (λ x r', r' = r ∧ x = (n + len ps, foldl pool_store p ps)).
Proof.
  intros n p r Hb Hport. revert n p. pose proof offs.
  induction Hb as [|f fs ps [Hl Hm] Hb IH|g rest fs q ps Hf Ha Hq Hd Hdl Hb IH]; intros n p Hin; cbn [write_burst].
  - rewrite wp_ret. by rewrite len_nil, Z.add_0_r.
  - unfold mbuf_ok in Hl. rewrite wp_bind. apply wp_mbuf_field; [lia|]. rewrite wp_bind, wp_gets.
    unfold mine in Hm. rewrite Hm. by apply IH.
  - apply Forall_cons in Hin as [[Hlo Hhi] Hin]. pose proof (fr_len _ _ _ _ Hf). pose proof (len_nonneg rest).
    rewrite wp_bind. apply wp_mbuf_field; [rewrite len_app; lia|]. rewrite slice_front by lia.
    rewrite wp_bind, wp_gets, (fr_dport _ _ _ _ Hf), un_le_le by (rewrite Hq; done). rewrite Hq, Z.eqb_refl.
    rewrite wp_bind. eapply wp_mbuf_size; [done|done|]. unfold IPV6_SIZE.
    rewrite wp_bind. apply wp_mbuf_field; [rewrite len_app; lia|]. rewrite slice_front by lia.
    rewrite (fr_dst _ _ _ _ Hf), dec_enc_addr by done. unfold dpdk_pool_write. rewrite wp_bind, wp_bind.
    apply wp_copy_slice; [lia|lia|lia|lia|rewrite len_app; lia|]. rewrite wp_ret, slice_front by lia.
    rewrite (fr_data _ _ _ _ Hf). fold (pool_store p q). eapply wp_mono; [apply IH|].
    + apply (Forall_impl _ _ _ Hin). intros q' [J1 J2]. unfold in_pool, pool_store. cbn [base bytes].
      rewrite len_splice; lia.
    + intros x r' [-> ->]. split; [done|]. rewrite len_cons. simpl. f_equal. lia.
Qed.
Lemma in_pool_foldl ps : ∀ p q, Forall (in_pool p) ps → Forall (λ x, len (data x) = datalen x) ps →
  in_pool p q → in_pool (foldl pool_store p ps) q.
Proof.
  induction ps as [|x ps IH]; intros p q Hin Hd Hq; simpl; [done|]. apply Forall_cons in Hin as [[J1 J2] Hin].
  apply Forall_cons in Hd as [Hdx Hd].
  assert (∀ y, in_pool p y → in_pool (pool_store p x) y) as Hst.
  { intros y [J3 J4]. unfold in_pool, pool_store. cbn [base bytes]. rewrite len_splice; lia. }
  apply IH; [by apply (Forall_impl _ _ _ Hin)|done|by apply Hst].
Qed.
Lemma burst_len sip sport port fs ps : burst_of sip sport port fs ps → Forall (λ x, len (data x) = datalen x) ps.
Proof. induction 1; auto. Qed.


(** ** Pairing the ports *)

Section pairing.
Context (mask nb_ports max_ports : Z) (Hports : 0 <= nb_ports <= max_ports) (Hmax : max_ports < 2 ^ 31).

Definition port_count (i : Z) : Z := len (filter (λ p, enabled mask p = true) (seqZ 0 i)).
Definition paired_in (dst : list Z) (i p : Z) : Prop :=
  ∃ q, idx dst p = Some q ∧ 0 <= q < i ∧ enabled mask q = true ∧ idx dst q = Some p.
(** [odd p]: [p] waits for a partner. *)
Definition waits (s : ports) (p : Z) : Prop := nb_ports_in_mask s mod 2 = 1 ∧ last_port s = p.
Record pairs (i : Z) (s : ports) : Prop := {
  pr_len : len (bb_dst_ports s) = max_ports;
  pr_count : nb_ports_in_mask s = port_count i;
  pr_last : nb_ports_in_mask s mod 2 = 1 → 0 <= last_port s < i ∧ enabled mask (last_port s) = true;
  pr_paired p : 0 <= p < i → enabled mask p = true → ¬ waits s p →
    ∃ q, idx (bb_dst_ports s) p = Some q ∧ 0 <= q < i ∧ enabled mask q = true ∧
      idx (bb_dst_ports s) q = Some p ∧ ¬ waits s q;
}.

Lemma port_count_next i : 0 <= i → port_count (i + 1) = port_count i + if enabled mask i then 1 else 0.
Proof.
  intros Hi. unfold port_count. rewrite seqZ_app by lia. rewrite filter_app, len_app. f_equal.
  assert (seqZ (0 + i) 1 = [i]) as -> by (unfold seqZ; simpl; f_equal; lia). rewrite filter_cons.
  destruct (enabled mask i); [by rewrite decide_True|by rewrite decide_False].
Qed.
Lemma port_count_range i : 0 <= i → 0 <= port_count i <= i.
Proof.
  intros Hi. unfold port_count. split; [apply len_nonneg|]. unfold len.
  pose proof (length_filter (λ p, enabled mask p = true) (seqZ 0 i)) as Hl. rewrite length_seqZ in Hl. lia.
Qed.
Lemma wp_pair_port i s : 0 <= i < nb_ports → pairs i s → wp (pair_port mask i) s (λ _, pairs (i + 1)).
Proof.
  intros Hi [Hl Hc Hlast Hp]. pose proof (port_count_next i ltac:(lia)) as Hn. pose proof (port_count_range i ltac:(lia)).
  unfold pair_port. destruct (enabled mask i) eqn:Ei; cbn [negb].
  2: { rewrite wp_ret. split; [done|lia|intros Hm; destruct (Hlast Hm); split; [lia|done]|].
    intros p Hpr Hen Hw. assert (p ≠ i) by congruence. destruct (Hp p ltac:(lia) Hen Hw) as (q & E1 & Hq & E2 & E3 & E4).
    exists q. split_and!; try done; lia. }
  rewrite wp_bind, wp_gets, wp_bind, wp_gets, wp_bind. pose proof (Z.mod_pos_bound (nb_ports_in_mask s) 2 ltac:(lia)) as Hm.
  assert ((nb_ports_in_mask s + 1) mod 2 = 1 - nb_ports_in_mask s mod 2) as Hm1.
  { pose proof (Z.div_mod (nb_ports_in_mask s) 2 ltac:(lia)).
    pose proof (Z.div_mod (nb_ports_in_mask s + 1) 2 ltac:(lia)).
    pose proof (Z.mod_pos_bound (nb_ports_in_mask s + 1) 2 ltac:(lia)). lia. }
  destruct (Z.eqb_spec (nb_ports_in_mask s mod 2) 0) as [E0|E0]; cbn [negb].
  - rewrite wp_modify, wp_modify. simpl. rewrite u32_small by lia.
    assert (∀ p, waits (put_in_mask (nb_ports_in_mask s + 1) (put_last i s)) p ↔ p = i) as Hw.
    { intros p. unfold waits. simpl. split; [intros [_ <-]; done|intros ->; split; [lia|done]]. }
    split; simpl; [done|lia|intros _; split; [lia|done]|].
    intros p Hpr Hen Hnw. rewrite Hw in Hnw. destruct (Hp p ltac:(lia) Hen) as (q & E1 & Hq & E2 & E3 & _).
    { unfold waits. intros [? _]. lia. }
    exists q. rewrite Hw. split_and!; try done; lia.
  - destruct (Hlast ltac:(lia)) as [Hlr Hle]. rewrite wp_bind. eapply wp_astore; [lia|].
    eapply wp_astore; [simpl; rewrite len_upd; lia|]. rewrite wp_modify. simpl. rewrite u32_small by lia.
    assert (∀ x p, ¬ waits (MkPorts x (last_port s) (nb_ports_in_mask s + 1)) p) as Hw.
    { intros x p [? _]. simpl in *. lia. }
    set (D := upd (upd (bb_dst_ports s) i (last_port s)) (last_port s) i).
    assert (idx D i = Some (last_port s) ∧ idx D (last_port s) = Some i) as [D1 D2].
    { unfold D. split; [rewrite idx_upd_ne by lia; apply idx_upd_eq; lia|apply idx_upd_eq; rewrite len_upd; lia]. }
    split; simpl; [unfold D; by rewrite !len_upd|lia|lia|].
    intros p Hpr Hen _. destruct (decide (p = i)) as [->|Hpi].
    + exists (last_port s). split_and!; try done; try lia. apply Hw.
    + destruct (decide (p = last_port s)) as [->|Hpl].
      * exists i. split_and!; try done; try lia. apply Hw.
      * destruct (Hp p ltac:(lia) Hen) as (q & E1 & Hq & E2 & E3 & E4); [intros [_ ?]; congruence|].
        assert (q ≠ last_port s) by (intros ->; apply E4; split; [lia|done]).
        exists q. unfold D. rewrite !idx_upd_ne by lia. split_and!; try done; try lia. apply Hw.
Qed.
End pairing.

(** [setup_ports] pairs the enabled ports up: each one forwards to an
    enabled port that forwards back to it (the last of an odd number to
    itself), and it returns how many there are. *)
Theorem setup_ports_pairs mask nb_ports max_ports s :
  0 <= nb_ports <= max_ports → max_ports < 2 ^ 31 → len (bb_dst_ports s) = max_ports →
  ∃ s', setup_ports mask max_ports nb_ports s = Ok (port_count mask nb_ports) s' ∧
    ∀ p, 0 <= p < nb_ports → enabled mask p = true → paired_in mask (bb_dst_ports s') nb_ports p.
Proof.
  intros Hports Hmax Hl.
  assert (wp (setup_ports mask max_ports nb_ports) s (λ n s', n = port_count mask nb_ports ∧
    ∀ p, 0 <= p < nb_ports → enabled mask p = true → paired_in mask (bb_dst_ports s') nb_ports p)) as Hw.
  { unfold setup_ports. rewrite wp_bind, wp_modify, wp_bind.
    apply (wp_for_range (λ _ s, len (bb_dst_ports s) = max_ports ∧ nb_ports_in_mask s = 0)); [lia|done| |].
    { intros j s1 Hj [H1 H2]. unfold reset_port. eapply wp_astore; [lia|]. simpl. by rewrite len_upd. }
    intros s1 [H1 H2]. rewrite wp_bind, wp_modify, wp_bind.
    apply (wp_for_range (pairs mask max_ports)); [lia| |by intros; apply (wp_pair_port mask nb_ports)|].
    { split; simpl; [done|done|rewrite H2; done|lia]. }
    intros s2 [L C La P]. rewrite wp_bind, wp_gets, wp_bind, wp_gets, wp_bind. unfold when.
    pose proof (Z.mod_pos_bound (nb_ports_in_mask s2) 2 ltac:(lia)).
    destruct (Z.eqb_spec (nb_ports_in_mask s2 mod 2) 0) as [E|E]; cbn [negb].
    - rewrite !wp_ret. split; [done|]. intros p Hp Hen.
      destruct (P p Hp Hen) as (q & ? & ? & ? & ? & _); [intros [? _]; lia|]. by exists q.
    - destruct (La ltac:(lia)) as [Hlr Hle]. eapply wp_astore; [lia|]. rewrite wp_ret. split; [done|].
      intros p Hp Hen. simpl. unfold paired_in. destruct (decide (p = last_port s2)) as [->|Hne].
      + exists (last_port s2). rewrite idx_upd_eq by lia. done.
      + destruct (P p Hp Hen) as (q & E1 & ? & ? & E2 & E3); [intros [_ ?]; congruence|].
        assert (q ≠ last_port s2) by (intros ->; apply E3; split; [lia|done]).
        exists q. rewrite !idx_upd_ne by lia. done. }
  apply wp_ok in Hw as (n & s' & E & -> & Hp). by exists s'.
Qed.

(** ** Concrete runs *)

(** A port that transmits on a flush, with room for 100 packets. *)
Record toy_nic := ToyNic { tn_wire : list (list Z); tn_queue : list (list Z); tn_credit : Z }.
#[export] Program Instance toy_tx : DpdkTx := {|
  nic := toy_nic;
  rte_pktmbuf_alloc n := (Some (replicate (Z.to_nat 2048) 0), n);
  rte_eth_tx_buffer f n := ToyNic (tn_wire n) (tn_queue n ++ [f]) (tn_credit n - 1);
  rte_eth_tx_buffer_flush n := (len (tn_queue n), ToyNic (tn_wire n ++ tn_queue n) [] (tn_credit n));
  mbuf_room := 2048;
  tx_wire := tn_wire;
  tx_queue := tn_queue;
  credit := tn_credit;
|}.
Next Obligation.
  intros n Hn. eexists _, n. split; [reflexivity|]. split; [by apply len_replicate|].
  split; [by apply Forall_replicate|done].
Qed.
Next Obligation. intros f n Hn. split; [|done]. reflexivity. Qed.
Next Obligation. intros n Hn. by eexists _, _. Qed.

Definition hello : pkt_rqst := PktRqst (Memaddr 1 WRITE_CMD 0 4096) src_port [1; 2; 3] 3.
Lemma hello_ok : pkt_ok hello.
Proof. split; simpl; [split; simpl; unfold WRITE_CMD; lia|done|done|done|repeat constructor; done]. Qed.
Lemma hello_fits : dpkt_ok hello.
Proof. split; [done|done|discriminate|apply hello_ok]. Qed.
Definition boot_dpdk : dpdk :=
  MkDpdk (ToyNic [] [] 100) (gen_dpdk_packet_info (enc_addr (host 0)) src_port).
Lemma boot_dpdk_ok : dpdk_ok (enc_addr (host 0)) src_port boot_dpdk.
Proof. split; [done|apply len_enc_addr|apply enc_addr_bytes]. Qed.

Lemma dpdk_batch_sends_every_packet_witness :
  ∃ fs d', dpdk_batched_send [hello; hello] [0; 2] boot_dpdk = Ok tt d' ∧ tx_wire (port0 d') = fs ∧
    tx_queue (port0 d') = [] ∧
    Forall2 (λ f p, frame_of f (enc_addr (host 0)) src_port
      (set_dst_args (batch_args p (default 0 (idx [0; 2] (subid (dst_addr p))))) p)) fs [hello; hello].
Proof.
  apply (dpdk_batch_sends_every_packet (enc_addr (host 0)) src_port [0; 2] [hello; hello] boot_dpdk).
  - apply boot_dpdk_ok.
  - repeat constructor; apply hello_fits.
  - repeat constructor; done.
  - discriminate.
  - reflexivity.
Defined.

(** The frame of [hello], and one for another port. *)
Definition hello_frame : list Z := match dpdk_assemble hello boot_dpdk with Ok f _ => f | Err _ => [] end.
Lemma hello_frame_of : frame_of hello_frame (enc_addr (host 0)) src_port hello.
Proof.
  assert (wp (dpdk_assemble hello) boot_dpdk (λ f _, frame_of f (enc_addr (host 0)) src_port hello)) as Hw.
  { eapply wp_dpdk_assemble; [apply boot_dpdk_ok|apply hello_fits|reflexivity|]. by intros. }
  unfold wp in Hw. unfold hello_frame. by destruct (dpdk_assemble hello boot_dpdk).
Qed.
Definition foreign_frame : list Z := replicate 70 0.
Lemma foreign_skipped : skipped src_port foreign_frame.
Proof. split; [discriminate|reflexivity]. Qed.

Lemma dpdk_rcv_takes_one_of_a_burst_witness :
  let r := MkDrx [[foreign_frame]; [foreign_frame; hello_frame; hello_frame]; [foreign_frame]] src_port in
  ∃ got, dpdk_client_rcv (Some [9; 9; 9; 9]) true r = Ok got (put_bursts [[foreign_frame]] r) ∧
    taken (enc_addr (host 0)) src_port hello (Some [9; 9; 9; 9]) true got.
Proof.
  intros r. apply (dpdk_rcv_takes_one_of_a_burst r [[foreign_frame]] [foreign_frame] hello_frame []
    [hello_frame] [[foreign_frame]]).
  - by rewrite app_nil_r.
  - repeat constructor; apply foreign_skipped.
  - repeat constructor; apply foreign_skipped.
  - apply hello_frame_of.
  - apply hello_ok.
  - reflexivity.
  - done.
  - done.
  - done.
  - discriminate.
Defined.
Lemma write_dpdk_packets_overshoots_witness :
  let r := MkDrx [[hello_frame; hello_frame]; [hello_frame]] src_port in
  arrived src_port (bursts r) 1 = 2 ∧
  ∀ p' r', write_dpdk_packets 1 (MkPool 4096 [0; 0; 0; 0]) r ≠ Ok p' r'.
Proof.
  intros r.
  assert (mine src_port hello_frame = true) as Hm.
  { unfold mine. rewrite (fr_dport _ _ _ _ hello_frame_of), un_le_le; [reflexivity|done]. }
  assert (mine_count src_port [hello_frame; hello_frame] = 2 ∧ mine_count src_port [hello_frame] = 1) as [E2 E1].
  { unfold mine_count. by rewrite !filter_cons, Hm. }
  split; [cbn [arrived bursts r]; rewrite E2; lia|].
  apply write_dpdk_packets_overshoots. intros k.
  destruct k as [|[|[|k]]]; cbn [arrived bursts src_client_port r]; rewrite ?E2, ?E1; lia.
Defined.
Lemma setup_ports_pairs_witness :
  ∃ s', setup_ports 13 4 4 (MkPorts [9; 9; 9; 9] 0 7) = Ok (port_count 13 4) s' ∧
    bb_dst_ports s' = [2; 0; 0; 3] ∧
    ∀ p, 0 <= p < 4 → enabled 13 p = true → paired_in 13 (bb_dst_ports s') 4 p.
Proof.
  destruct (setup_ports_pairs 13 4 4 (MkPorts [9; 9; 9; 9] 0 7)) as (s' & E & Hp); [lia|lia|reflexivity|].
  exists s'. split; [exact E|]. split; [|exact Hp]. injection E as <-. reflexivity.
Defined.
