(* ===== verification/Async.v ===== *)
(** * Asynchronous request/response benchmark: src/legacy/AsyncTCPLinux

    A client keeps a pipeline of requests (keys of 64 bytes) on one TCP
    connection and counts the responses (values of [value_size] bytes); a
    server answers the requests of many connections from one event loop. Both
    work on non-blocking sockets, so a key or a value may take many calls of
    [read] and [write], and the place reached is kept in an offset between the
    calls ([rw_exact] of net.h).

    The kernel is a table of sockets by descriptor, with the bytes that have
    arrived, the bytes accepted for sending and the epoll mask, and the list
    of what the coming calls of [read] and [write] will answer. Calls beyond
    that list would block. A loop around [rw_exact] has one round of fuel for
    each of these answers: each of its rounds uses one. *)

From S2P Require Import Prelude Bytes ConfFile.

(** ** config.h, net.h *)

Definition KEY_SIZE : Z := 64.
Definition MAX_VALUE_SIZE : Z := 4096.
Definition DEFAULT_PORT : Z := 9876.
Definition OP_READ : Z := 1.
Definition OP_WRITE : Z := 2.
Definition RES_DONE : Z := 1.
Definition RES_WAIT : Z := 0.
Definition RES_FAIL : Z := -1.

(** asyncclient.c, asyncserver.c *)
Definition MAX_PIPELINE : Z := 512.
Definition MAX_REQUESTS : Z := 4000000.
Definition MAX_STATIC_SOCKETS : Z := 1024.
Definition RPC_HEADER : Z := 8.

(** Of <errno.h> and <sys/epoll.h>. *)
Definition EBADF : Z := 9.
Definition EAGAIN : Z := 11.
Definition EPOLLIN : Z := 1.
Definition EPOLLOUT : Z := 4.
Definition EPOLLERR : Z := 8.
Definition EPOLLRDHUP : Z := 8192.

Definition has (events mask : Z) : bool := negb (Z.land events mask =? 0).

(** ** The kernel's side of the sockets *)

(** What a call of [read] or [write] does: it moves at most [k] bytes, fails
    with an [errno], or returns 0. *)
Inductive io := IoBytes (k : positive) | IoErr (e : Z) | IoZero.

Record sock := MkSock { s_in : list Z; s_out : list Z; s_epoll : Z }.
Definition put_in (x : list Z) (s : sock) : sock := MkSock x (s_out s) (s_epoll s).
Definition put_out (x : list Z) (s : sock) : sock := MkSock (s_in s) x (s_epoll s).
Definition put_epoll (x : Z) (s : sock) : sock := MkSock (s_in s) (s_out s) x.

Record kern := MkKern { k_fds : gmap Z sock; k_errno : Z; k_io : list io }.
Definition put_fds (x : gmap Z sock) (k : kern) : kern := MkKern x (k_errno k) (k_io k).
Definition put_errno (x : Z) (k : kern) : kern := MkKern (k_fds k) x (k_io k).
Definition put_io (x : list io) (k : kern) : kern := MkKern (k_fds k) (k_errno k) x.

Definition fails {A} (e : Z) (a : A) : M kern (Z * A) := modify (put_errno e);; mret (-1, a).

(** [read(fd, _, n)]: the result and the bytes. The count is a [size_t]. *)
Definition sys_read (fd n : Z) : M kern (Z * list Z) :=
  k ← gets id;
  match k_fds k !! fd, k_io k with
  | None, _ => fails EBADF []
  | Some _, [] => fails EAGAIN []
  | Some _, IoErr e :: ios => modify (put_io ios);; fails e []
  | Some _, IoZero :: ios => modify (put_io ios);; mret (0, [])
  | Some s, IoBytes b :: ios =>
      modify (put_io ios);;
      if len (s_in s) =? 0 then fails EAGAIN [] else
      let m := Z.min (Z.min (Zpos b) (u64 n)) (len (s_in s)) in
      modify (put_fds (<[fd := put_in (drop (Z.to_nat m) (s_in s)) s]> (k_fds k)));;
      mret (m, take (Z.to_nat m) (s_in s))
  end.

(** [write(fd, bs, len bs)] *)
Definition sys_write (fd : Z) (bs : list Z) : M kern (Z * unit) :=
  k ← gets id;
  match k_fds k !! fd, k_io k with
  | None, _ => fails EBADF tt
  | Some _, [] => fails EAGAIN tt
  | Some _, IoErr e :: ios => modify (put_io ios);; fails e tt
  | Some _, IoZero :: ios => modify (put_io ios);; mret (0, tt)
  | Some s, IoBytes b :: ios =>
      let m := Z.min (Zpos b) (len bs) in
      modify (put_io ios);;
      modify (put_fds (<[fd := put_out (s_out s ++ take (Z.to_nat m) bs) s]> (k_fds k)));;
      mret (m, tt)
  end.

Definition sys_close (fd : Z) : M kern unit := modify (λ k, put_fds (delete fd (k_fds k)) k).

(** [epoll_ctl] with DEL, and [add_to_epoll] and [modify_epoll] of net.c,
    which exit when there is no such socket. *)
Definition epoll_del (fd : Z) : M kern unit :=
  modify (λ k, put_fds (alter (put_epoll 0) fd (k_fds k)) k).
Definition epoll_set (fd flags : Z) : M kern unit :=
  k ← gets id;
  let events := if flags =? 0
    then Z.lor (Z.lor EPOLLIN EPOLLOUT) (Z.lor EPOLLRDHUP EPOLLERR) else flags in
  match k_fds k !! fd with
  | None => err (Exit 1)
  | Some s => modify (put_fds (<[fd := put_epoll events s]> (k_fds k)))
  end.
Definition add_to_epoll (fd flags : Z) : M kern unit := epoll_set fd flags.
Definition modify_epoll (fd flags : Z) : M kern unit := epoll_set fd flags.

(** ** rw_exact *)

(** The bytes [data + offset], [n] of them. *)
Definition bytes_at (data : list Z) (offset n : Z) : M kern (list Z) :=
  if (0 <=? offset) && (offset + u64 n <=? len data) then mret (slice data offset n)
  else err OutOfBounds.

Fixpoint rw_loop (fuel : nat) (fd op : Z) (data : list Z) (size offset : Z) :
    M kern (Z * (list Z * Z)) :=
  match fuel with
  | O => err Hang
  | S fuel =>
      '(e, data) ←
        (if op =? OP_READ then
           '(e, bs) ← sys_read fd (size - offset);
           data ← copy data offset bs 0 (len bs);
           mret (e, data)
         else
           bs ← bytes_at data offset (size - offset);
           '(e, _) ← sys_write fd bs;
           mret (e, data));
      if 0 <? e then
        let offset := offset + e in
        if offset =? size then mret (RES_DONE, (data, 0))
        else rw_loop fuel fd op data size offset
      else
        errno ← gets k_errno;
        mret (if errno =? EAGAIN then RES_WAIT else RES_FAIL, (data, offset))
  end.
Definition fuel_of (k : kern) : nat := S (length (k_io k)).
Definition rw_exact (fd op : Z) (data : list Z) (size offset : Z) : M kern (Z * (list Z * Z)) :=
  fuel ← gets fuel_of;
  rw_loop fuel fd op data size offset.

(** ** asyncclient.c *)

Record timespec := MkTime { tv_sec : Z; tv_nsec : Z }.

(** In microseconds. The source computes in [double], which holds these
    values, and the conversion to [uint64_t] drops the fraction. *)
Definition timediff (start end_ : timespec) : Z :=
  u64 ((u64 (tv_sec end_ - tv_sec start) * 10 ^ 9 + (tv_nsec end_ - tv_nsec start)) ÷ 1000).

Record client_args := MkArgs {
  port : Z; local_port : Z; server_threads : Z; frontend_ip : option (list Z); runtime : Z;
  total_reqs : Z; pipeline : Z; num_threads : Z; pin_threads : bool; value_size : Z }.
Definition default_args : client_args :=
  MkArgs DEFAULT_PORT 0 1 None 33 MAX_REQUESTS MAX_REQUESTS 1 false MAX_VALUE_SIZE.

(** [strtoll] clamps to a [long long]. *)
Definition atoll (l : list Z) : Z :=
  match skip_blanks l with
  | 45 :: l => Z.max (- digits l 0) (- 2 ^ 63)
  | 43 :: l => Z.min (digits l 0) (2 ^ 63 - 1)
  | l => Z.min (digits l 0) (2 ^ 63 - 1)
  end.

(** One option that [getopt] returns, the letter and its argument. *)
Definition parse_opt (c : Z) (optarg : list Z) (a : client_args) : option client_args :=
  let '(MkArgs p lp st ip rt tot pl nt pin v) := a in
  if c =? 104 (* h *) then Some (MkArgs p lp st (Some optarg) rt tot pl nt pin v)
  else if c =? 72 (* H *) then Some (MkArgs (atoi optarg) lp st ip rt tot pl nt pin v)
  else if c =? 80 (* P *) then Some (MkArgs p (atoi optarg) st ip rt tot pl nt pin v)
  else if c =? 100 (* d *) then Some (MkArgs p lp st ip (atoi optarg) tot pl nt pin v)
  else if c =? 110 (* n *) then Some (MkArgs p lp st ip rt tot pl (atoi optarg) pin v)
  else if c =? 78 (* N *) then Some (MkArgs p lp (atoi optarg) ip rt tot pl nt pin v)
  else if c =? 116 (* t *) then Some (MkArgs p lp st ip rt tot (u64 (atoll optarg)) nt pin v)
  else if c =? 84 (* T *) then Some (MkArgs p lp st ip rt (u64 (atoll optarg)) pl nt pin v)
  else if c =? 99 (* c *) then Some (MkArgs p lp st ip rt tot pl nt true v)
  else if c =? 118 (* v *) then Some (MkArgs p lp st ip rt tot pl nt pin (atoi optarg))
  else None.
Fixpoint parse_opts (opts : list (Z * list Z)) (a : client_args) : option client_args :=
  match opts with
  | [] => Some a
  | (c, optarg) :: opts => parse_opt c optarg a ≫= parse_opts opts
  end.
(** [None] is the exit after [usage]. *)
Definition parse_args (opts : list (Z * list Z)) : option client_args :=
  match parse_opts opts default_args with
  | None => None
  | Some (MkArgs p lp st ip rt tot pl nt pin v) =>
      let pl := if tot <? pl then tot else pl in
      if negb (if ip is Some _ then true else false) || (MAX_VALUE_SIZE <? v) then None
      else Some (MkArgs p lp st ip rt tot pl nt pin v)
  end.

Definition pad (n : Z) (l : list Z) : list Z := l ++ replicate (Z.to_nat (n - len l)) 0.
(** "local-key" and "local-value" in their arrays, as the two [main]s leave
    them. *)
Definition key : list Z := pad KEY_SIZE [108; 111; 99; 97; 108; 45; 107; 101; 121].
Definition local_value : list Z :=
  pad MAX_VALUE_SIZE [108; 111; 99; 97; 108; 45; 118; 97; 108; 117; 101].

(** The variables of a client thread: the thread-local globals, the locals of
    [client_thread], [quit], how often the clock was read, and the kernel. *)
Record client := MkClient {
  ts_ring : list timespec; req : Z; resp : Z; lat_sum : Z; ts_prod : Z; ts_cons : Z;
  response : list Z; read_offset : Z; write_offset : Z; client_to_server : Z;
  quit : bool; c_tick : Z; c_kern : kern }.
Definition put_kern (k : kern) (c : client) : client :=
  MkClient (ts_ring c) (req c) (resp c) (lat_sum c) (ts_prod c) (ts_cons c) (response c)
    (read_offset c) (write_offset c) (client_to_server c) (quit c) (c_tick c) k.
Definition put_read (buf : list Z) (off : Z) (k : kern) (c : client) : client :=
  MkClient (ts_ring c) (req c) (resp c) (lat_sum c) (ts_prod c) (ts_cons c) buf
    off (write_offset c) (client_to_server c) (quit c) (c_tick c) k.
Definition put_write (off : Z) (k : kern) (c : client) : client :=
  MkClient (ts_ring c) (req c) (resp c) (lat_sum c) (ts_prod c) (ts_cons c) (response c)
    (read_offset c) off (client_to_server c) (quit c) (c_tick c) k.
Definition put_ring (ring : list timespec) (c : client) : client :=
  MkClient ring (req c) (resp c) (lat_sum c) (ts_prod c) (ts_cons c) (response c)
    (read_offset c) (write_offset c) (client_to_server c) (quit c) (c_tick c) (c_kern c).
Definition put_sent (prod r : Z) (c : client) : client :=
  MkClient (ts_ring c) r (resp c) (lat_sum c) prod (ts_cons c) (response c)
    (read_offset c) (write_offset c) (client_to_server c) (quit c) (c_tick c) (c_kern c).
Definition put_got (r cons lat : Z) (c : client) : client :=
  MkClient (ts_ring c) (req c) r lat (ts_prod c) cons (response c)
    (read_offset c) (write_offset c) (client_to_server c) (quit c) (c_tick c) (c_kern c).
Definition put_server_fd (fd : Z) (c : client) : client :=
  MkClient (ts_ring c) (req c) (resp c) (lat_sum c) (ts_prod c) (ts_cons c) (response c)
    (read_offset c) (write_offset c) fd (quit c) (c_tick c) (c_kern c).
Definition put_quit (q : bool) (c : client) : client :=
  MkClient (ts_ring c) (req c) (resp c) (lat_sum c) (ts_prod c) (ts_cons c) (response c)
    (read_offset c) (write_offset c) (client_to_server c) q (c_tick c) (c_kern c).
Definition put_tick (t : Z) (c : client) : client :=
  MkClient (ts_ring c) (req c) (resp c) (lat_sum c) (ts_prod c) (ts_cons c) (response c)
    (read_offset c) (write_offset c) (client_to_server c) (quit c) t (c_kern c).

(** The signal handler, which ends the loop of every thread. *)
Definition sighandler : M client unit := modify (put_quit true).

Section client.
Context (a : client_args) (clock : Z → timespec).

Definition on_kern {A} (m : M kern A) : M client A := zoom c_kern put_kern m.
Definition clock_gettime : M client timespec :=
  t ← gets c_tick; modify (put_tick (t + 1));; mret (clock t).

(** [read_value(response, &read_offset)] and [write_key(key, &write_offset)] *)
Definition read_value (fd : Z) : M client Z :=
  c ← gets id;
  '(ret, (buf, off)) ← on_kern (rw_exact fd OP_READ (response c) (value_size a) (read_offset c));
  modify (λ c, put_read buf off (c_kern c) c);;
  mret ret.
Definition write_key (fd : Z) : M client Z :=
  c ← gets id;
  '(ret, (_, off)) ← on_kern (rw_exact fd OP_WRITE key KEY_SIZE (write_offset c));
  modify (λ c, put_write off (c_kern c) c);;
  mret ret.

(** The body of the loop of [client_recv_resp]. *)
Definition count_resp : M client unit :=
  c ← gets id;
  guard_or (negb (ts_cons c =? ts_prod c)) AssertFail;;
  now ← clock_gettime;
  then_ ← aload ts_ring (ts_cons c);
  modify (put_got (u64 (resp c + 1)) (Z.land (ts_cons c + 1) (MAX_PIPELINE - 1))
            (u64 (lat_sum c + timediff then_ now))).
Fixpoint recv_loop (fuel : nat) (fd : Z) : M client Z :=
  match fuel with
  | O => err Hang
  | S fuel =>
      ret ← read_value fd;
      if ret =? RES_DONE then count_resp;; recv_loop fuel fd else mret ret
  end.
Definition client_recv_resp (fd : Z) : M client Z :=
  fuel ← gets (fuel_of ∘ c_kern);
  recv_loop fuel fd.

Definition client_send_req (fd : Z) : M client Z :=
  ret ← write_key fd;
  when (ret =? RES_DONE)
    (now ← clock_gettime;
     c ← gets id;
     astore ts_ring put_ring (ts_prod c) now;;
     modify (put_sent (Z.land (ts_prod c + 1) (MAX_PIPELINE - 1)) (u64 (req c + 1))));;
  mret ret.

Definition may_send (c : client) : bool :=
  (req c <? total_reqs a) && (u64 (req c - resp c) <? pipeline a).

(** The inner loop of [client_thread]; the [break] leaves this loop only. *)
Fixpoint send_loop (fuel : nat) (fd err_ : Z) : M client unit :=
  match fuel with
  | O => err Hang
  | S fuel =>
      c ← gets id;
      if may_send c && (err_ =? RES_DONE) then
        err_ ← client_send_req fd;
        if err_ =? RES_FAIL then modify (put_quit true) else send_loop fuel fd err_
      else mret tt
  end.

(** The body of the loop over the events; the result says whether it breaks. *)
Definition client_event (fd events : Z) : M client bool :=
  server_fd ← gets client_to_server;
  let down := has events (Z.lor EPOLLRDHUP EPOLLERR) in
  when down (on_kern (epoll_del fd;; sys_close fd));;
  if down && (fd =? server_fd) then
    modify (put_server_fd (-1));; modify (put_quit true);; mret true
  else
  c ← gets id;
  when (may_send c && has events EPOLLOUT)
    (send_loop (S (fuel_of (c_kern c))) fd RES_DONE);;
  err_ ← (if has events EPOLLIN then client_recv_resp fd else mret RES_DONE);
  if err_ =? RES_FAIL then modify (put_quit true);; mret true
  else
  c ← gets id;
  when (req c =? total_reqs a) (on_kern (modify_epoll fd EPOLLIN));;
  if total_reqs a <=? resp c then modify (put_quit true);; mret true
  else mret false.
Fixpoint client_events (events : list (Z * Z)) : M client unit :=
  match events with
  | [] => mret tt
  | (fd, ev) :: events =>
      stop ← client_event fd ev;
      if stop : bool then mret tt else client_events events
  end.

(** A thread that has connected, as it enters the loop. *)
Definition client_init (fd : Z) : client :=
  MkClient (replicate (Z.to_nat MAX_PIPELINE) (MkTime 0 0)) 0 0 0 0 0
    (replicate (Z.to_nat MAX_VALUE_SIZE) 0) 0 0 fd false 0
    (MkKern {[fd := MkSock [] [] (Z.lor EPOLLIN EPOLLOUT)]} 0 []).
End client.

(** ** asyncserver.c *)

Record socket_metadata := MkMeta {
  m_fd : Z; r_offset : Z; w_offset : Z; pending : Z; r_buf : list Z; w_buf : list Z }.
Definition put_m_read (buf : list Z) (off : Z) (m : socket_metadata) : socket_metadata :=
  MkMeta (m_fd m) off (w_offset m) (pending m) buf (w_buf m).
Definition put_m_write (off : Z) (m : socket_metadata) : socket_metadata :=
  MkMeta (m_fd m) (r_offset m) off (pending m) (r_buf m) (w_buf m).
Definition put_m_pending (p : Z) (m : socket_metadata) : socket_metadata :=
  MkMeta (m_fd m) (r_offset m) (w_offset m) p (r_buf m) (w_buf m).
Definition zero_buf : list Z := replicate (Z.to_nat (MAX_VALUE_SIZE + RPC_HEADER)) 0.
Definition zero_meta (fd : Z) : socket_metadata := MkMeta fd 0 0 0 zero_buf zero_buf.

(** [backlog] is the connections that the kernel has completed and [accept]
    has not returned yet, by the descriptors they get. *)
Record server := MkServer {
  g_sockets : list socket_metadata; listen_sock : Z; backlog : list Z; v_kern : kern }.
Definition put_sockets (l : list socket_metadata) (v : server) : server :=
  MkServer l (listen_sock v) (backlog v) (v_kern v).
Definition put_backlog (l : list Z) (v : server) : server :=
  MkServer (g_sockets v) (listen_sock v) l (v_kern v).
Definition put_v_kern (k : kern) (v : server) : server :=
  MkServer (g_sockets v) (listen_sock v) (backlog v) k.

Definition local_key : list Z := key.
(** [strcmp(a, b) == 0] *)
Definition str_eq (x y : list Z) : bool := bool_decide (cstring x = cstring y).

(** The options of the server; [self_ip] is looked up later when it is not
    given. *)
Record server_args := MkSArgs {
  self_ip : option (list Z); self_port : Z; s_num_threads : Z; s_pin_threads : bool; s_value_size : Z }.
Definition default_server_args : server_args := MkSArgs None DEFAULT_PORT 1 false MAX_VALUE_SIZE.
Definition server_parse_opt (c : Z) (optarg : list Z) (a : server_args) : option server_args :=
  let '(MkSArgs ip p nt pin v) := a in
  if c =? 115 (* s *) then Some (MkSArgs (Some optarg) p nt pin v)
  else if c =? 83 (* S *) then Some (MkSArgs ip (atoi optarg) nt pin v)
  else if c =? 110 (* n *) then Some (MkSArgs ip p (atoi optarg) pin v)
  else if c =? 116 (* t *) then Some (MkSArgs ip p nt true v)
  else if c =? 118 (* v *) then Some (MkSArgs ip p nt pin (atoi optarg))
  else None.
Fixpoint server_parse_opts (opts : list (Z * list Z)) (a : server_args) : option server_args :=
  match opts with
  | [] => Some a
  | (c, optarg) :: opts => server_parse_opt c optarg a ≫= server_parse_opts opts
  end.
Definition server_parse_args (opts : list (Z * list Z)) : option server_args :=
  a ← server_parse_opts opts default_server_args;
  if (self_port a <? 1024) || (MAX_VALUE_SIZE <? s_value_size a) then None else Some a.

Section server.
Context (value_size : Z).

Definition on_v_kern {A} (m : M kern A) : M server A := zoom v_kern put_v_kern m.

(** One field of [sockets[fd]] is changed. *)
Definition set_meta (fd : Z) (f : socket_metadata → socket_metadata) : M server unit :=
  m ← aload g_sockets fd;
  astore g_sockets put_sockets fd (f m).

Definition allocate_socket_metadata (fd : Z) : M server unit :=
  astore g_sockets put_sockets fd (zero_meta fd).

Definition disconnect_socket (fd : Z) : M server unit :=
  on_v_kern (epoll_del fd;; sys_close fd).

(** The loop of [client_recv_req]. *)
Fixpoint req_loop (fuel : nat) (fd : Z) : M server Z :=
  match fuel with
  | O => err Hang
  | S fuel =>
      m ← aload g_sockets fd;
      '(ret, (buf, off)) ← on_v_kern (rw_exact fd OP_READ (r_buf m) KEY_SIZE (r_offset m));
      set_meta fd (put_m_read buf off);;
      if ret =? RES_DONE then
        when (str_eq buf local_key)
          (guard_or (pending m <? 2 ^ 31 - 1) Overflow;; set_meta fd (put_m_pending (pending m + 1)));;
        req_loop fuel fd
      else mret ret
  end.
Definition client_recv_req (fd : Z) : M server Z :=
  fuel ← gets (fuel_of ∘ v_kern);
  req_loop fuel fd.

(** The loop of [client_send_resp]; [ret] is the result of the call before. *)
Fixpoint resp_loop (fuel : nat) (fd ret : Z) : M server Z :=
  match fuel with
  | O => err Hang
  | S fuel =>
      m ← aload g_sockets fd;
      if pending m =? 0 then mret ret else
      '(ret, (_, off)) ← on_v_kern (rw_exact fd OP_WRITE local_value value_size (w_offset m));
      set_meta fd (put_m_write off);;
      if ret =? RES_DONE then
        set_meta fd (put_m_pending (pending m - 1));; resp_loop fuel fd ret
      else mret ret
  end.
Definition client_send_resp (fd : Z) : M server Z :=
  fuel ← gets (fuel_of ∘ v_kern);
  resp_loop fuel fd RES_DONE.

(** [accept] and the branch of the listening socket. *)
Definition accept_conn : M server unit :=
  b ← gets backlog;
  match b with
  | [] => err (Exit 1)
  | conn_sock :: b =>
      modify (put_backlog b);;
      guard_or (conn_sock <? MAX_STATIC_SOCKETS) (Exit 1);;
      allocate_socket_metadata conn_sock;;
      on_v_kern (add_to_epoll conn_sock 0)
  end.

(** The body of the loop over the events. *)
Definition server_event (cur_sockfd events : Z) : M server unit :=
  l ← gets listen_sock;
  if (cur_sockfd =? l) && has events EPOLLIN then accept_conn else
  m ← aload g_sockets cur_sockfd;
  guard_or (m_fd m =? cur_sockfd) (Exit 1);;
  when (has events (Z.lor EPOLLRDHUP EPOLLERR)) (disconnect_socket cur_sockfd);;
  err_ ← (if negb (pending m =? 0) && has events EPOLLOUT then client_send_resp cur_sockfd
          else mret RES_DONE);
  if err_ =? RES_FAIL then mret tt else
  when (has events EPOLLIN) (client_recv_req cur_sockfd;; mret tt).
Fixpoint server_events (events : list (Z * Z)) : M server unit :=
  match events with
  | [] => mret tt
  | (fd, ev) :: events => server_event fd ev;; server_events events
  end.

(** After [main] has zeroed the metadata and the thread listens. *)
Definition server_init (listen : Z) : server :=
  MkServer (replicate (Z.to_nat MAX_STATIC_SOCKETS) (MkMeta 0 0 0 0 zero_buf zero_buf))
    listen [] (MkKern ∅ 0 []).
End server.
