(* ===== verification/AsyncSpec.v ===== *)
(** * Asynchronous benchmark: the two programs on one connection

    Lemmas for [AsyncWorld]: a stream of copies of one message ([cyc]), what a
    call of [rw_exact] does to it, the invariant of one connection [conn], and
    that the event handlers of the client and of the server keep it. The
    client is also related to an abstract machine, a queue of the times at
    which its open requests were sent. *)

From S2P Require Import Prelude Bytes ConfFile Async.

#[local] Arguments rw_exact : simpl never.

(** ** Streams of one repeated message *)

(** [n] elements of [p ++ p ++ ...] from position [o]. *)
Definition cyc `{Inhabited A} (p : list A) (o n : Z) : list A :=
  map (λ i, nth (Z.to_nat ((o + i) mod len p)) p inhabitant) (seqZ 0 n).

Section cyc.
Context `{Inhabited A}.
Implicit Types (p l : list A).

Lemma len_cyc p o n : 0 <= n → len (cyc p o n) = n.
Proof. intros. unfold len, cyc. rewrite length_map, length_seqZ. lia. Qed.
Lemma idx_cyc p o n i :
  0 <= i < n → idx (cyc p o n) i = Some (nth (Z.to_nat ((o + i) mod len p)) p inhabitant).
Proof.
  intros. unfold idx, cyc. rewrite (proj2 (Z.leb_le _ _)) by lia.
  rewrite list_lookup_fmap, lookup_seqZ_lt by lia. simpl. do 4 f_equal; lia.
Qed.
Lemma idx_nth p i : 0 <= i < len p → idx p i = Some (nth (Z.to_nat i) p inhabitant).
Proof.
  intros Hi. unfold idx. rewrite (proj2 (Z.leb_le _ _)) by lia.
  destruct (nth_lookup_or_length p (Z.to_nat i) inhabitant); [done|]. unfold len in *. lia.
Qed.
Lemma cyc_app p o m n : 0 <= m → 0 <= n → cyc p o (m + n) = cyc p o m ++ cyc p (o + m) n.
Proof.
  intros. apply idx_ext. intros i. destruct (decide (0 <= i < m + n)) as [Hi|Hi].
  - rewrite idx_cyc, idx_app, len_cyc by lia. case_decide.
    + by rewrite idx_cyc by lia.
    + rewrite idx_cyc by lia. by replace (o + m + (i - m)) with (o + i) by lia.
  - rewrite !idx_None; [done|..]; rewrite ?len_app, ?len_cyc; lia.
Qed.
Lemma cyc_prefix p o n l l' : l ++ l' = cyc p o n → l = cyc p o (len l) ∧ l' = cyc p (o + len l) (len l').
Proof.
  intros E. destruct (decide (0 <= n)) as [Hn|Hn]; last first.
  { unfold cyc in E. rewrite seqZ_nil in E by lia. apply app_eq_nil in E as [-> ->]. done. }
  assert (n = len l + len l') as -> by (rewrite <-len_app, E, len_cyc by lia; done).
  rewrite cyc_app in E by apply len_nonneg.
  apply app_inj_1 in E; [done|]. pose proof (len_cyc p o (len l) (len_nonneg l)). unfold len in *. lia.
Qed.
(** A slot that is not among the [n] elements may change. *)
Lemma cyc_upd p o n x :
  0 <= o → 0 <= n < len p → cyc (upd p ((o + n) mod len p) x) o (n + 1) = cyc p o n ++ [x].
Proof.
  intros Ho Hn. rewrite cyc_app by lia. set (j := (o + n) mod len p).
  assert (0 <= j < len p) as Hj by (apply Z.mod_pos_bound; lia). f_equal.
  - apply idx_ext. intros i. destruct (decide (0 <= i < n)) as [Hi|Hi];
      [|rewrite !idx_None; [done|..]; rewrite ?len_cyc; lia].
    rewrite !idx_cyc, len_upd by lia. assert (0 <= (o + i) mod len p < len p) by (apply Z.mod_pos_bound; lia).
    rewrite <-!idx_nth by (rewrite ?len_upd; lia). apply idx_upd_ne; [lia|].
    intros E. apply (f_equal (λ z, (z - o) mod len p)) in E. unfold j in E.
    rewrite !Zminus_mod_idemp_l in E.
    replace (o + n - o) with n in E by lia. replace (o + i - o) with i in E by lia.
    rewrite !Z.mod_small in E by lia. lia.
  - apply idx_ext. intros i. destruct (decide (i = 0)) as [->|Hi];
      [|rewrite !idx_None; [done|..]; rewrite ?len_cyc by lia; unfold len; simpl; lia].
    rewrite idx_cyc, len_upd, Z.add_0_r by lia. rewrite <-idx_nth by (rewrite ?len_upd; lia).
    by rewrite idx_upd_eq.
Qed.
Lemma cyc_cons p o n x :
  0 < n → 0 <= o → idx p (o mod len p) = Some x → cyc p o n = x :: cyc p (o + 1) (n - 1).
Proof.
  intros Hn Ho Hx. replace n with (1 + (n - 1)) at 1 by lia. rewrite cyc_app by lia.
  change (x :: cyc p (o + 1) (n - 1)) with ([x] ++ cyc p (o + 1) (n - 1)). f_equal.
  pose proof (idx_Some_range _ _ _ Hx). rewrite idx_nth in Hx by done. injection Hx as Hx.
  unfold cyc. simpl. by rewrite Z.add_0_r, Hx.
Qed.
End cyc.

Lemma cyc_slice p o n k :
  0 < len p → 0 <= o → 0 <= n → o mod len p + n <= len p → k = o mod len p → slice p k n = cyc p o n.
Proof.
  intros Hp Ho Hn Hle ->. pose proof (Z.mod_pos_bound o (len p) Hp) as Hm.
  apply idx_ext. intros i. destruct (decide (0 <= i < n)) as [Hi|Hi].
  - rewrite idx_cyc by lia. unfold slice. rewrite idx_take, decide_True, idx_drop by lia.
    rewrite idx_nth by lia. do 3 f_equal. rewrite <-Zplus_mod_idemp_l. symmetry. apply Z.mod_small. lia.
  - rewrite !idx_None; [done|..]; rewrite ?len_slice, ?len_cyc; lia.
Qed.

(** The first [off] bytes of the message [p] are in [buf]. *)
Definition partial (p : list Z) (off : Z) (buf : list Z) : Prop :=
  len p <= len buf ∧ take (Z.to_nat off) buf = take (Z.to_nat off) p.

Lemma partial_0 p buf : len p <= len buf → partial p 0 buf.
Proof. done. Qed.
Lemma partial_copy p off bs n buf {S} (s : S) Q :
  0 < len p → 0 <= off → off + len bs <= len p → partial p off buf →
  bs = cyc p (len p * n + off) (len bs) → 0 <= n →
  (∀ buf', len buf' = len buf → partial p (off + len bs) buf' → Q buf' s) →
  wp (copy buf off bs 0 (len bs)) s Q.
Proof.
  intros Hp Hoff Hle [Hlen Hpre] Hbs Hn HQ. pose proof (len_nonneg bs).
  apply wp_copy; [lia..|]. intros buf' Hl Hi. apply HQ; [done|]. split; [lia|].
  apply idx_ext. intros i. rewrite !idx_take by lia. case_decide; [|done].
  destruct (decide (0 <= i)); last by rewrite !idx_None by lia.
  rewrite Hi by lia. case_decide.
  - rewrite Hbs, idx_cyc, idx_nth by lia. do 3 f_equal.
    replace (len p * n + off + (0 + (i - off))) with (i + n * len p) by lia.
    rewrite Z.mod_add, Z.mod_small by lia. done.
  - assert (i < off) by lia.
    pose proof (f_equal (λ l, idx l i) Hpre) as E. simpl in E. rewrite !idx_take in E by lia.
    by rewrite !decide_True in E by lia.
Qed.

(** ** The kernel *)

Lemma fails_ok {A} e (x : A) k : fails e x k = Ok (-1, x) (put_errno e k).
Proof. done. Qed.

(** A kernel in a good mood answers with bytes only. *)
Definition is_bytes (x : io) : Prop := match x with IoBytes _ => True | _ => False end.
Definition good (k : kern) : Prop := Forall is_bytes (k_io k).
(** The next call on [fd] can move a byte. *)
Definition go_read (fd : Z) (k : kern) : Prop :=
  ∃ b ios s, k_io k = IoBytes b :: ios ∧ k_fds k !! fd = Some s ∧ s_in s ≠ [].
Definition go_write (fd : Z) (k : kern) : Prop :=
  ∃ b ios s, k_io k = IoBytes b :: ios ∧ k_fds k !! fd = Some s.

Definition quiet (fd : Z) (k k' : kern) : Prop :=
  k_fds k' = k_fds k ∧ (length (k_io k') <= length (k_io k))%nat ∧
  (is_Some (k_fds k !! fd) → good k → k_errno k' = EAGAIN ∧ good k').

Lemma wp_sock_read fd n k Q :
  0 < n < 2 ^ 64 →
  (∀ e k', e <= 0 → quiet fd k k' → ¬ go_read fd k → Q (e, []) k') →
  (∀ s bs rest k', k_fds k !! fd = Some s → s_in s = bs ++ rest → 0 < len bs <= n →
     k_fds k' = <[fd := put_in rest s]> (k_fds k) → (length (k_io k') < length (k_io k))%nat →
     (good k → good k') → Q (len bs, bs) k') →
  wp (sys_read fd n) k Q.
Proof.
  intros Hn Hno Hyes. unfold sys_read, quiet, go_read, good in *. wp_pure. unfold id.
  destruct (k_fds k !! fd) as [s|] eqn:Es; [|apply Hno; [lia|by split_and!; [..|intros []]|naive_solver]].
  destruct (k_io k) as [|[b|e|] ios] eqn:Eio.
  - apply Hno; [lia|split_and!; simpl; by rewrite ?Eio|naive_solver].
  - wp_pure. case (Z.eqb_spec (len (s_in s)) 0) as [E|E].
    { apply Hno; [lia|split_and!; simpl; [done|lia|by intros _ [_ ?]%Forall_cons]|].
      intros (? & ? & ? & _ & [= <-] & Hne). by destruct (s_in s). }
    wp_pure. pose proof (len_nonneg (s_in s)). rewrite u64_small by lia.
    set (m := Z.min (Z.min (Z.pos b) n) (len (s_in s))).
    assert (len (take (Z.to_nat m) (s_in s)) = m) as Hm by (apply len_take; lia).
    rewrite <-Hm at 1. eapply Hyes; [done|symmetry; apply take_drop|rewrite Hm; lia|done|simpl; lia|].
    by intros [_ ?]%Forall_cons.
  - wp_pure. apply Hno; [lia|split_and!; simpl; [done|lia|by intros _ [[] _]%Forall_cons]|naive_solver].
  - wp_pure. apply Hno; [lia|split_and!; simpl; [done|lia|by intros _ [[] _]%Forall_cons]|naive_solver].
Qed.

Lemma wp_sock_write fd bs k Q :
  0 < len bs →
  (∀ e k', e <= 0 → quiet fd k k' → ¬ go_write fd k → Q (e, tt) k') →
  (∀ s l rest k', k_fds k !! fd = Some s → bs = l ++ rest → 0 < len l →
     k_fds k' = <[fd := put_out (s_out s ++ l) s]> (k_fds k) →
     (length (k_io k') < length (k_io k))%nat → (good k → good k') → Q (len l, tt) k') →
  wp (sys_write fd bs) k Q.
Proof.
  intros Hn Hno Hyes. unfold sys_write, quiet, go_write, good in *. wp_pure. unfold id.
  destruct (k_fds k !! fd) as [s|] eqn:Es; [|apply Hno; [lia|by split_and!; [..|intros []]|naive_solver]].
  destruct (k_io k) as [|[b|e|] ios] eqn:Eio.
  - apply Hno; [lia|split_and!; simpl; by rewrite ?Eio|naive_solver].
  - wp_pure. set (m := Z.min (Z.pos b) (len bs)).
    assert (len (take (Z.to_nat m) bs) = m) as Hm by (apply len_take; lia).
    rewrite <-Hm at 1. eapply Hyes; [done|symmetry; apply take_drop|rewrite Hm; lia|done|simpl; lia|].
    by intros [_ ?]%Forall_cons.
  - wp_pure. apply Hno; [lia|split_and!; simpl; [done|lia|by intros _ [[] _]%Forall_cons]|naive_solver].
  - wp_pure. apply Hno; [lia|split_and!; simpl; [done|lia|by intros _ [[] _]%Forall_cons]|naive_solver].
Qed.

(** [d] bytes have left the input of [fd]; [l] has joined its output. *)
Definition took (fd d : Z) (k k' : kern) : Prop :=
  match k_fds k !! fd with
  | None => d = 0 ∧ k_fds k' = k_fds k
  | Some s => 0 <= d <= len (s_in s) ∧
      k_fds k' = <[fd := put_in (drop (Z.to_nat d) (s_in s)) s]> (k_fds k)
  end.
Definition gave (fd : Z) (l : list Z) (k k' : kern) : Prop :=
  match k_fds k !! fd with
  | None => l = [] ∧ k_fds k' = k_fds k
  | Some s => k_fds k' = <[fd := put_out (s_out s ++ l) s]> (k_fds k)
  end.

Lemma took_0 fd k k' : k_fds k' = k_fds k → took fd 0 k k'.
Proof.
  intros E. unfold took. destruct (k_fds k !! fd) as [s|] eqn:Es; [|done].
  split; [split; [lia|apply len_nonneg]|]. rewrite E. symmetry. apply insert_id.
  rewrite Es. by destruct s.
Qed.
Lemma gave_nil fd k k' : k_fds k' = k_fds k → gave fd [] k k'.
Proof.
  intros E. unfold gave. destruct (k_fds k !! fd) as [s|] eqn:Es; [|done].
  rewrite E, app_nil_r. symmetry. apply insert_id. rewrite Es. by destruct s.
Qed.
Lemma took_step fd s bs rest d k k1 k' :
  k_fds k !! fd = Some s → s_in s = bs ++ rest → k_fds k1 = <[fd := put_in rest s]> (k_fds k) →
  took fd d k1 k' → took fd (len bs + d) k k'.
Proof.
  intros Es Ein E1. unfold took. rewrite Es, E1, lookup_insert_eq. simpl. intros [Hd ->].
  pose proof (len_nonneg bs). rewrite Ein. split; [rewrite len_app; lia|]. rewrite insert_insert_eq.
  f_equal. destruct s; unfold put_in; simpl in *. f_equal. subst s_in.
  replace (Z.to_nat (len bs + d)) with (length bs + Z.to_nat d)%nat by (unfold len in *; lia).
  by rewrite <-drop_drop, drop_app_length.
Qed.
Lemma gave_step fd s l l' k k1 k' :
  k_fds k !! fd = Some s → k_fds k1 = <[fd := put_out (s_out s ++ l) s]> (k_fds k) →
  gave fd l' k1 k' → gave fd (l ++ l') k k'.
Proof.
  intros Es E1. unfold gave. rewrite Es, E1, lookup_insert_eq. simpl. intros ->.
  rewrite insert_insert_eq, app_assoc. by destruct s.
Qed.

(** What [rw_exact] returns: the message is complete, or a part of it is; the
    call does not fail as long as the kernel answers with bytes. *)
Record rw_result (fd size off d off' ret : Z) (k k' : kern) : Prop := {
  rr_cases :
    (ret = RES_DONE ∧ off' = 0 ∧ off + d = size ∧ (length (k_io k') < length (k_io k))%nat) ∨
    ((ret = RES_WAIT ∨ ret = RES_FAIL) ∧ off' = off + d ∧ off' < size ∧
     (length (k_io k') <= length (k_io k))%nat);
  rr_good : is_Some (k_fds k !! fd) → good k → ret ≠ RES_FAIL ∧ good k';
}.

Lemma rw_result_stop fd size off k k' :
  off < size → quiet fd k k' →
  rw_result fd size off 0 off (if k_errno k' =? EAGAIN then RES_WAIT else RES_FAIL) k k'.
Proof.
  intros Hlt (_ & Hio & Hg). split; [right|].
  - split; [case_match; auto|]. split; [lia|done].
  - intros Hfd Hgood. destruct (Hg Hfd Hgood) as [-> ?]. done.
Qed.
Lemma rw_result_done fd size off d k k' :
  off + d = size → (length (k_io k') < length (k_io k))%nat → (good k → good k') →
  rw_result fd size off d 0 RES_DONE k k'.
Proof. intros. split; [by left|]. intros _ ?. split; [done|auto]. Qed.
Lemma rw_result_step fd size off d d' off' ret k k1 k' :
  (length (k_io k1) < length (k_io k))%nat → is_Some (k_fds k1 !! fd) → (good k → good k1) →
  rw_result fd size (off + d) d' off' ret k1 k' → rw_result fd size off (d + d') off' ret k k'.
Proof.
  intros Hio Hfd Hg [Hc Hg']. split; [|auto].
  destruct Hc as [(? & ? & ? & ?)|(? & ? & ? & ?)]; [left|right]; repeat split; try done; lia.
Qed.

Lemma wp_rw_read fuel fd p n data off k Q :
  0 < len p < 2 ^ 63 → 0 <= n → 0 <= off < len p → partial p off data →
  (length (k_io k) < fuel)%nat →
  (∀ s, k_fds k !! fd = Some s → s_in s = cyc p (len p * n + off) (len (s_in s))) →
  (∀ ret data' off' d k', 0 <= d → took fd d k k' → rw_result fd (len p) off d off' ret k k' →
     len data' = len data → partial p (off + d) data' → (go_read fd k → 0 < d) →
     Q (ret, (data', off')) k') →
  wp (rw_loop fuel fd OP_READ data (len p) off) k Q.
Proof.
  intros Hp Hn. revert data off k. induction fuel as [|fuel IH]; intros data off k Hoff Hpart Hf Hin HQ; [lia|].
  simpl. rewrite !wp_bind. apply wp_sock_read; [lia| |].
  { intros e k' He Hq Hno. rewrite !wp_bind.
    apply (partial_copy p off [] n); [lia|lia|change (len (@nil Z)) with 0; lia|done|done|done|].
    intros buf' Hlen Hbuf. rewrite !wp_ret. rewrite (proj2 (Z.ltb_ge 0 e)) by lia. wp_pure.
    eapply (HQ _ _ _ 0); [lia|apply took_0; by destruct Hq|apply rw_result_stop; [lia|done]|done|done|by intros ?%Hno]. }
  intros s bs rest k1 Es Ein Hbs E1 Hio Hg. rewrite !wp_bind.
  pose proof (Hin s Es) as Hs. rewrite Ein in Hs.
  destruct (cyc_prefix _ _ _ _ _ Hs) as [Hb Hr].
  apply (partial_copy p off bs n); [lia|lia|lia|done|done|done|].
  intros buf' Hlen Hbuf. rewrite !wp_ret. rewrite (proj2 (Z.ltb_lt 0 _)) by lia.
  case (Z.eqb_spec (off + len bs) (len p)) as [E|E].
  - rewrite wp_ret. eapply (HQ _ _ _ (len bs)); [lia| |by apply rw_result_done|done|done|lia].
    rewrite <-(Z.add_0_r (len bs)). eapply took_step; [done..|]. by apply took_0.
  - apply IH; [lia|done|lia| |].
    + intros s' Es'. rewrite E1, lookup_insert_eq in Es'. injection Es' as <-. simpl. by rewrite Z.add_assoc.
    + intros ret data' off' d k' Hd Ht Hres Hlen' Hpart' _. eapply (HQ _ _ _ (len bs + d)); [lia| | |lia| |lia].
      * by eapply took_step.
      * eapply rw_result_step; [done| |done|done]. by rewrite E1, lookup_insert_eq.
      * by rewrite Z.add_assoc.
Qed.

Lemma wp_rw_write fuel fd p size n off k Q :
  0 < size < 2 ^ 63 → size <= len p → 0 <= n → 0 <= off < size →
  (length (k_io k) < fuel)%nat →
  (∀ ret off' d k', 0 <= d → gave fd (cyc (take (Z.to_nat size) p) (size * n + off) d) k k' →
     (k_fds k !! fd = None → d = 0) →
     rw_result fd size off d off' ret k k' → (go_write fd k → 0 < d) → Q (ret, (p, off')) k') →
  wp (rw_loop fuel fd OP_WRITE p size off) k Q.
Proof.
  intros Hp Hle Hn. set (q := take (Z.to_nat size) p).
  assert (len q = size) as Hq by (apply len_take; lia).
  revert off k. induction fuel as [|fuel IH]; intros off k Hoff Hf HQ; [lia|].
  simpl. rewrite !wp_bind. unfold bytes_at. rewrite u64_small by lia.
  rewrite !(proj2 (Z.leb_le _ _)) by lia. simpl. rewrite wp_ret, wp_bind.
  assert ((size * n + off) mod size = off) as Hmod.
  { by rewrite (Z.add_comm (size * n)), Z.mul_comm, Z.mod_add, Z.mod_small by lia. }
  assert (slice p off (size - off) = cyc q (size * n + off) (size - off)) as Hsl.
  { rewrite <-(cyc_slice q (size * n + off) (size - off) off); rewrite ?Hq, ?Hmod.
    - unfold slice, q. rewrite skipn_firstn_comm, firstn_firstn. f_equal. lia.
    - lia.
    - nia.
    - lia.
    - lia.
    - done. }
  apply wp_sock_write.
  { rewrite len_slice; lia. }
  { intros e k' He Hqu Hno. rewrite !wp_ret. rewrite (proj2 (Z.ltb_ge 0 e)) by lia. wp_pure.
    eapply (HQ _ _ 0); [lia|apply gave_nil; by destruct Hqu|done|apply rw_result_stop; [lia|done]|by intros ?%Hno]. }
  intros s l rest k1 Es El Hl E1 Hio Hg. rewrite !wp_ret. rewrite (proj2 (Z.ltb_lt 0 _)) by lia.
  rewrite El in Hsl. destruct (cyc_prefix _ _ _ _ _ Hsl) as [Hb _].
  assert (len l <= size - off) as Hll.
  { pose proof (f_equal len Hsl) as Hlen. rewrite len_app, len_cyc in Hlen by lia.
    pose proof (len_nonneg rest). lia. }
  case (Z.eqb_spec (off + len l) size) as [E|E].
  - rewrite wp_ret. eapply (HQ _ _ (len l)); [lia| |by rewrite Es|by apply rw_result_done|lia].
    rewrite <-Hb, <-(app_nil_r l). eapply gave_step; [done..|]. by apply gave_nil.
  - apply IH; [lia|lia|].
    intros ret off' d k' Hd Ht _ Hres _. eapply (HQ _ _ (len l + d)); [lia| |by rewrite Es| |lia].
    + rewrite cyc_app by lia. rewrite <-Hb. eapply gave_step; [done..|]. by rewrite <-Z.add_assoc.
    + eapply rw_result_step; [done| |done|done]. by rewrite E1, lookup_insert_eq.
Qed.

Lemma wp_read_exact fd p n data size off k Q :
  len p = size → 0 < size < 2 ^ 63 → 0 <= n → 0 <= off < size → partial p off data →
  (∀ s, k_fds k !! fd = Some s → s_in s = cyc p (size * n + off) (len (s_in s))) →
  (∀ ret data' off' d k', 0 <= d → took fd d k k' → rw_result fd size off d off' ret k k' →
     len data' = len data → partial p (off + d) data' → (go_read fd k → 0 < d) →
     Q (ret, (data', off')) k') →
  wp (rw_exact fd OP_READ data size off) k Q.
Proof.
  intros <- ?????. unfold rw_exact. rewrite wp_bind, wp_gets. apply (wp_rw_read _ _ _ n); try done.
  unfold fuel_of. lia.
Qed.
Lemma wp_write_exact fd p size n off k Q :
  0 < size < 2 ^ 63 → size <= len p → 0 <= n → 0 <= off < size →
  (∀ ret off' d k', 0 <= d → gave fd (cyc (take (Z.to_nat size) p) (size * n + off) d) k k' →
     (k_fds k !! fd = None → d = 0) →
     rw_result fd size off d off' ret k k' → (go_write fd k → 0 < d) → Q (ret, (p, off')) k') →
  wp (rw_exact fd OP_WRITE p size off) k Q.
Proof.
  intros ????. unfold rw_exact. rewrite wp_bind, wp_gets. apply wp_rw_write; try done.
  unfold fuel_of. lia.
Qed.

(** ** One direction of a connection

    Of a stream of copies of [p], [sent] bytes were written and [got] read;
    [snd] is the output of the sender's socket and [rcv] the input of the
    receiver's ([None] once closed). The bytes in flight are the next ones of
    the stream, and all of them are there while the sender is open. *)
Definition dir (p : list Z) (sent got : Z) (snd rcv : option (list Z)) : Prop :=
  0 <= got <= sent ∧
  ∀ rin, rcv = Some rin →
    let fl := rin ++ default [] snd in
    fl = cyc p got (len fl) ∧ got + len fl <= sent ∧ (is_Some snd → got + len fl = sent).

Lemma dir_init p : dir p 0 0 (Some []) (Some []).
Proof. split; [lia|]. intros ? [= <-]. split; [done|]. by split. Qed.
Lemma dir_read p sent got snd rin d :
  dir p sent got snd (Some rin) → 0 <= d <= len rin →
  dir p sent (got + d) snd (Some (drop (Z.to_nat d) rin)).
Proof.
  intros [Hg Hd] Hle. destruct (Hd rin eq_refl) as (Hfl & Hl & He). clear Hd.
  assert (len (take (Z.to_nat d) rin) = d) as Ht by (apply len_take; lia).
  set (l := drop (Z.to_nat d) rin ++ default [] snd).
  assert (rin ++ default [] snd = take (Z.to_nat d) rin ++ l) as E.
  { unfold l. by rewrite app_assoc, take_drop. }
  rewrite E in Hfl, Hl, He. rewrite (len_app _ l), Ht in Hl, He.
  apply cyc_prefix in Hfl as [_ Hfl]. rewrite Ht in Hfl.
  pose proof (len_nonneg l). split; [lia|]. intros ? [= <-]. fold l.
  split; [done|]. split; [lia|]. intros Hs%He. lia.
Qed.
Lemma dir_in p sent got snd rin :
  dir p sent got snd (Some rin) → rin = cyc p got (len rin).
Proof. intros [_ Hd]. destruct (Hd rin eq_refl) as (Hfl & _). by apply cyc_prefix in Hfl as [? _]. Qed.
Lemma dir_write p sent got out rcv d :
  dir p sent got (Some out) rcv → 0 <= d →
  dir p (sent + d) got (Some (out ++ cyc p sent d)) rcv.
Proof.
  intros [Hg Hd] Hle. split; [lia|]. intros rin ->. destruct (Hd rin eq_refl) as (Hfl & _ & He).
  simpl in *. specialize (He (mk_is_Some _ _ eq_refl)).
  rewrite app_assoc, (len_app (rin ++ out)), len_cyc by done.
  split; [|split; [lia|]; intros; lia].
  rewrite cyc_app by (done || apply len_nonneg). rewrite <-Hfl. by rewrite He.
Qed.
Lemma dir_close_snd p sent got out rcv :
  dir p sent got (Some out) rcv → dir p sent got None rcv.
Proof.
  intros [Hg Hd]. split; [done|]. intros rin ->. destruct (Hd rin eq_refl) as (Hfl & Hl & _).
  simpl in *. rewrite app_nil_r. rewrite len_app in Hl. pose proof (len_nonneg out).
  apply cyc_prefix in Hfl as [Hfl _]. split; [done|]. split; [lia|]. by intros [].
Qed.
Lemma dir_close_rcv p sent got snd rcv : dir p sent got snd rcv → dir p sent got snd None.
Proof. intros [Hg _]. by split. Qed.
Lemma dir_deliver p sent got out rin k :
  dir p sent got (Some out) (Some rin) →
  dir p sent got (Some (drop k out)) (Some (rin ++ take k out)).
Proof.
  intros [Hg Hd]. split; [done|]. intros ? [= <-]. destruct (Hd rin eq_refl) as (Hfl & Hl & He).
  simpl in *. rewrite <-app_assoc, take_drop. auto.
Qed.
Lemma dir_took p sent got snd fd d k k' :
  dir p sent got snd (s_in <$> k_fds k !! fd) → took fd d k k' →
  dir p sent (got + d) snd (s_in <$> k_fds k' !! fd).
Proof.
  unfold took. intros Hd. destruct (k_fds k !! fd) as [s|] eqn:Es.
  - intros [Hle ->]. rewrite lookup_insert_eq. simpl. by apply dir_read.
  - intros [-> ->]. rewrite Es, Z.add_0_r. done.
Qed.
Lemma took_out fd d k k' : took fd d k k' → s_out <$> k_fds k' !! fd = s_out <$> k_fds k !! fd.
Proof.
  unfold took. destruct (k_fds k !! fd) as [s|] eqn:Es; [|by intros [_ ->]; rewrite Es].
  intros [_ ->]. by rewrite lookup_insert_eq.
Qed.
Lemma dir_gave p sent got rcv fd d k k' :
  dir p sent got (s_out <$> k_fds k !! fd) rcv → 0 <= d → (k_fds k !! fd = None → d = 0) →
  gave fd (cyc p sent d) k k' → dir p (sent + d) got (s_out <$> k_fds k' !! fd) rcv.
Proof.
  unfold gave. intros Hd Hle Hn. destruct (k_fds k !! fd) as [s|] eqn:Es.
  - intros ->. rewrite lookup_insert_eq. simpl. by apply dir_write.
  - intros [_ ->]. by rewrite Es, (Hn eq_refl), Z.add_0_r.
Qed.
Lemma gave_in fd l k k' : gave fd l k k' → s_in <$> k_fds k' !! fd = s_in <$> k_fds k !! fd.
Proof.
  unfold gave. destruct (k_fds k !! fd) as [s|] eqn:Es; [|by intros [_ ->]; rewrite Es].
  intros ->. by rewrite lookup_insert_eq.
Qed.

(** [took] and [gave] touch one socket, and keep its epoll mask. *)
Definition only (fd : Z) (k k' : kern) : Prop :=
  (∀ fd', fd' ≠ fd → k_fds k' !! fd' = k_fds k !! fd') ∧
  s_epoll <$> k_fds k' !! fd = s_epoll <$> k_fds k !! fd.
Lemma took_only fd d k k' : took fd d k k' → only fd k k'.
Proof.
  unfold took, only. destruct (k_fds k !! fd) as [s|] eqn:Es; [|by intros [_ ->]; rewrite Es].
  intros [_ ->]. split; [|by rewrite lookup_insert_eq]. intros. by rewrite lookup_insert_ne.
Qed.
Lemma gave_only fd l k k' : gave fd l k k' → only fd k k'.
Proof.
  unfold gave, only. destruct (k_fds k !! fd) as [s|] eqn:Es; [|by intros [_ ->]; rewrite Es].
  intros ->. split; [|by rewrite lookup_insert_eq]. intros. by rewrite lookup_insert_ne.
Qed.

Lemma len_key : len key = KEY_SIZE.
Proof. reflexivity. Qed.
Lemma len_local_value : len local_value = MAX_VALUE_SIZE.
Proof. reflexivity. Qed.

(** ** The client *)

(** Arguments with which the ring of time stamps is large enough. *)
Record args_ok (a : client_args) : Prop := {
  ok_value : 1 <= value_size a <= MAX_VALUE_SIZE;
  ok_total : 0 <= total_reqs a < 2 ^ 64;
  ok_pipeline : 0 <= pipeline a < MAX_PIPELINE;
}.

#[export] Instance timespec_inhabited : Inhabited timespec := populate (MkTime 0 0).

(** The abstract client: a queue of the times at which the requests without a
    response were sent. A response is for the oldest of them. *)
Record aclient := MkA { a_queue : list timespec; a_req : Z; a_resp : Z; a_lat : Z; a_tick : Z }.

Section astep.
Context (a : client_args) (clock : Z → timespec).

Inductive astep : aclient → aclient → Prop :=
| a_send q r s l t : r < total_reqs a → len q < pipeline a →
    astep (MkA q r s l t) (MkA (q ++ [clock t]) (r + 1) s l (t + 1))
| a_recv x q r s l t :
    astep (MkA (x :: q) r s l t) (MkA q r (s + 1) (u64 (l + timediff x (clock t))) (t + 1)).
End astep.

Definition queue (c : client) : list timespec := cyc (ts_ring c) (resp c) (req c - resp c).
Definition abs (c : client) : aclient := MkA (queue c) (req c) (resp c) (lat_sum c) (c_tick c).

Definition value (vs : Z) : list Z := take (Z.to_nat vs) local_value.
Definition csock (c : client) : option sock := k_fds (c_kern c) !! client_to_server c.

(** A server's record of a connection on which [D] requests have been read. *)
Record minv (vs : Z) (m : socket_metadata) (D : Z) : Prop := {
  mi_r : 0 <= r_offset m < KEY_SIZE;
  mi_w : 0 <= w_offset m < vs;
  mi_pending : 0 <= pending m <= D;
  mi_buf : partial key (r_offset m) (r_buf m);
}.

(** The client's one socket is open, and it waits for events on it, until it
    is closed and the client quits. *)
Definition fds_ok (fd : Z) (q : bool) (k : kern) : Prop :=
  (0 <= fd ∧ ∃ cs, k_fds k = {[fd := cs]} ∧ s_epoll cs ≠ 0) ∨
  (fd = -1 ∧ k_fds k = ∅ ∧ q = true).

Lemma fds_only fd q k k' : fds_ok fd q k → only fd k k' → fds_ok fd q k'.
Proof.
  intros [(Hfd & cs & E & He)|(Hfd & E & Hq)] [Ho Hep]; rewrite E in Ho, Hep.
  - left. rewrite lookup_singleton_eq in Hep. destruct (k_fds k' !! fd) as [cs'|] eqn:Es; [|done].
    injection Hep as Hep. split; [done|]. exists cs'. split; [|congruence]. apply map_eq. intros fd'.
    destruct (decide (fd' = fd)) as [->|Hne]; [by rewrite lookup_singleton_eq|].
    rewrite Ho, !lookup_singleton_ne by done. done.
  - right. split; [done|]. split; [|done]. apply map_eq. intros fd'. rewrite lookup_empty in *.
    destruct (decide (fd' = fd)) as [->|Hne]; [by destruct (k_fds k' !! _)|].
    by rewrite Ho, lookup_empty.
Qed.

Lemma len_value vs : 0 <= vs <= MAX_VALUE_SIZE → len (value vs) = vs.
Proof. intros. apply len_take. by rewrite len_local_value. Qed.

(** The ring index after [x] steps, as the source counts it. *)
Lemma stamp_next x : Z.land (x mod MAX_PIPELINE + 1) (MAX_PIPELINE - 1) = (x + 1) mod MAX_PIPELINE.
Proof.
  change (MAX_PIPELINE - 1) with (Z.ones 9). rewrite Z.land_ones by lia.
  change (2 ^ 9) with MAX_PIPELINE. apply Zplus_mod_idemp_l.
Qed.
Lemma stamp_ne x y : x < y → y - x < MAX_PIPELINE → x mod MAX_PIPELINE ≠ y mod MAX_PIPELINE.
Proof.
  unfold MAX_PIPELINE. intros ?? E. pose proof (Z.div_mod x 512 ltac:(lia)).
  pose proof (Z.div_mod y 512 ltac:(lia)). lia.
Qed.

Lemma count_le size n off n' off' :
  0 <= off → 0 <= off' < size → size * n + off <= size * n' + off' → n <= n'.
Proof. intros. destruct (Z.le_gt_cases n n'); [done|]. assert (size * (n' + 1) <= size * n) by nia. lia. Qed.

Section client.
Context (a : client_args) (clock : Z → timespec) (Ha : args_ok a).
Context (c0 : aclient) (m : socket_metadata) (ss : option sock) (D : Z).
Abbreviation vs := (value_size a).

(** What holds between two calls in the client when it has written [S] bytes
    and read [G]. *)
Record cinv_at (S G : Z) (c : client) : Prop := {
  ci_ring : len (ts_ring c) = MAX_PIPELINE;
  ci_prod : ts_prod c = req c mod MAX_PIPELINE;
  ci_cons : ts_cons c = resp c mod MAX_PIPELINE;
  ci_cnt : 0 <= resp c ∧ req c <= total_reqs a ∧ req c - resp c <= pipeline a;
  ci_rd : 0 <= read_offset c < vs;
  ci_wr : 0 <= write_offset c < KEY_SIZE;
  ci_resp : len (response c) = MAX_VALUE_SIZE;
  ci_part : partial (value vs) (read_offset c) (response c);
  ci_up : dir key S (KEY_SIZE * D + r_offset m) (s_out <$> csock c) (s_in <$> ss);
  ci_down : dir (value vs) (vs * (D - pending m) + w_offset m) G (s_out <$> ss) (s_in <$> csock c);
  ci_abs : rtc (astep a clock) c0 (abs c);
  ci_fds : fds_ok (client_to_server c) (quit c) (c_kern c);
}.
Definition cinv (c : client) : Prop :=
  cinv_at (KEY_SIZE * req c + write_offset c) (vs * resp c + read_offset c) c.
Context (Hm : minv vs m D).

Lemma cinv_counts c : cinv c → resp c <= D - pending m <= D ∧ D <= req c.
Proof using Ha Hm.
  intros [? ? ? ? Hr Hw ? ? [Hu _] [Hd _] ?]. destruct Hm as [? ? ? _].
  assert (resp c <= D - pending m) by (apply (count_le vs _ (read_offset c) _ (w_offset m)); lia).
  split; [lia|]. apply (count_le KEY_SIZE _ (r_offset m) _ (write_offset c)); lia.
Qed.

Definition io_of (c : client) : nat := length (k_io (c_kern c)).

(** The bytes written and read so far only grow; the client does not quit
    while its socket is open and the kernel answers with bytes. *)
Definition sent (c : client) : Z := KEY_SIZE * req c + write_offset c.
Definition got (c : client) : Z := vs * resp c + read_offset c.
Definition happy (c : client) : Prop := 0 <= client_to_server c ∧ good (c_kern c).
Record calm (c c' : client) : Prop := {
  ca_fd : client_to_server c' = client_to_server c;
  ca_sent : sent c <= sent c';
  ca_got : got c <= got c';
  ca_happy : happy c → happy c' ∧ quit c' = quit c;
}.
#[export] Instance calm_preorder : PreOrder calm.
Proof using.
  split; [by constructor|]. intros c1 c2 c3 [? ? ? H1] [? ? ? H2]. constructor; [congruence|lia|lia|].
  intros [Hh E]%H1. destruct (H2 Hh) as [? ->]. done.
Qed.
Lemma cinv_open c k : happy c → cinv c → c_kern c = k → is_Some (k_fds k !! client_to_server c).
Proof using.
  intros [Hfd _] Hc <-. destruct (ci_fds _ _ _ Hc) as [(_ & cs & -> & _)|(? & _)]; [|lia].
  rewrite lookup_singleton_eq. eauto.
Qed.

Lemma wp_read_value c :
  cinv c → wp (read_value a (client_to_server c)) c (λ ret c',
    client_to_server c' = client_to_server c ∧ sent c' = sent c ∧ resp c' = resp c ∧
    (happy c → happy c' ∧ quit c' = quit c ∧ ret ≠ RES_FAIL) ∧
    ((ret = RES_DONE ∧ (io_of c' < io_of c)%nat ∧ read_offset c' = 0 ∧
      cinv_at (KEY_SIZE * req c' + write_offset c') (vs * (resp c' + 1)) c') ∨
     ((ret = RES_WAIT ∨ ret = RES_FAIL) ∧ cinv c' ∧ got c <= got c' ∧
      (go_read (client_to_server c) (c_kern c) → got c < got c')))).
Proof using Ha Hm.
  intros Hc. pose proof (cinv_counts c Hc) as Hcnt. pose proof (λ H, cinv_open c _ H Hc eq_refl) as Hopen.
  destruct Hc as [? ? ? ? Hr Hw Hlr Hp Hu Hd ? Hfds].
  destruct Ha as [Hvs _ _]. unfold read_value. wp_pure. unfold id, on_kern. rewrite wp_zoom.
  pose proof (len_value vs ltac:(lia)) as Hlv.
  apply (wp_read_exact _ (value vs) (resp c)); [done|unfold MAX_VALUE_SIZE in *; lia|lia|done|done|..].
  { intros s Es. unfold csock in Hd. rewrite Es in Hd. by eapply dir_in. }
  intros ret data' off' d k' Hd0 Ht [Hres Hgood] Hld Hpart Hgo. wp_pure.
  pose proof (dir_took _ _ _ _ _ _ _ _ Hd Ht) as Hd'.
  pose proof (fds_only _ _ _ k' Hfds (took_only _ _ _ _ Ht)) as Hfds'.
  pose proof (took_out _ _ _ _ Ht) as Ho.
  split; [done|]. split; [done|]. split; [done|].
  split; [intros Hh; destruct (Hgood (Hopen Hh) (proj2 Hh)); destruct Hh; by split_and!|].
  destruct Hres as [(-> & -> & Hsz & Hio)|(Hret & -> & Hlt & _)]; [left|right].
  - split; [done|]. split; [done|]. split; [done|].
    constructor; unfold csock in *; simpl; rewrite ?Ho; try done; try lia.
    + apply partial_0. lia.
    + replace (vs * (resp c + 1)) with (vs * resp c + read_offset c + d) by lia. done.
  - split; [done|]. split; [|unfold got; simpl; split; [lia|intros ?%Hgo; lia]].
    constructor; unfold csock in *; simpl; rewrite ?Ho; try done; try lia.
    by rewrite Z.add_assoc.
Qed.

Lemma wp_count_resp c S :
  cinv_at S (vs * (resp c + 1)) c → read_offset c = 0 → S = KEY_SIZE * req c + write_offset c →
  wp (count_resp clock) c (λ _ c', cinv c' ∧ c_kern c' = c_kern c ∧ quit c' = quit c ∧
    client_to_server c' = client_to_server c ∧ sent c' = sent c ∧ got c' = vs * (resp c + 1)).
Proof using Ha Hm.
  intros [Hring Hprod Hcons Hcnt Hr Hw Hlr Hp Hu Hd Habs Hfds] Ho HS.
  destruct Ha as [Hvs Htot Hpl]. destruct Hm as [Hmr Hmw Hmp _].
  assert (resp c + 1 <= D - pending m) as Hlt1.
  { destruct Hd as [? _]. apply (count_le vs _ 0 _ (w_offset m)); lia. }
  assert (D <= req c) as Hlt2.
  { destruct Hu as [? _]. apply (count_le KEY_SIZE _ (r_offset m) _ (write_offset c)); lia. }
  unfold count_resp. wp_pure. unfold id. apply wp_guard_or.
  { rewrite Hprod, Hcons. apply negb_true_iff, Z.eqb_neq, stamp_ne; lia. }
  unfold clock_gettime. wp_pure.
  assert (0 <= ts_cons c < len (ts_ring c)) as Hi.
  { rewrite Hcons, Hring. apply Z.mod_pos_bound. done. }
  pose proof (idx_nth _ _ Hi) as Ex. eapply wp_aload; [exact Ex|]. wp_pure.
  unfold cinv, got. simpl. rewrite (u64_small (resp c + 1)), Ho, Z.add_0_r by lia. split; [|done].
  constructor; simpl; try done; try lia.
  - by rewrite Hcons, stamp_next.
  - by subst S.
  - eapply rtc_r; [exact Habs|]. unfold abs, queue. simpl.
    rewrite (cyc_cons (ts_ring c) (resp c) _ (nth (Z.to_nat (ts_cons c)) (ts_ring c) inhabitant));
      [|lia|lia|by rewrite Hring, <-Hcons].
    replace (req c - resp c - 1) with (req c - (resp c + 1)) by lia. constructor.
Qed.

Lemma wp_client_recv_loop fuel fd c :
  fd = client_to_server c → cinv c → (io_of c < fuel)%nat →
  wp (recv_loop a clock fuel fd) c (λ ret c', cinv c' ∧ calm c c' ∧ (happy c → ret ≠ RES_FAIL) ∧
    (go_read fd (c_kern c) → got c < got c')).
Proof using Ha Hm.
  intros Hfd Hc Hf. revert c Hfd Hc Hf. induction fuel as [|fuel IH]; intros c -> Hc Hf; [lia|]. simpl.
  rewrite wp_bind. eapply wp_mono; [by apply wp_read_value|].
  intros ret c' (Hfd & Hs & Hr & Hh & [(-> & Hio & Ho & Hc')|(Hret & Hc' & Hg & Hgo)]).
  - simpl. rewrite wp_bind. eapply wp_mono; [by eapply wp_count_resp|].
    intros _ c'' (Hc'' & Hk & Hq & Hfd'' & Hs'' & Hg''). pose proof (ci_rd _ _ _ Hc) as Hrd.
    assert (got c < got c'') as Hlt by (rewrite Hg'', Hr; unfold got; lia).
    assert (calm c c'') as Hcalm.
    { constructor; [congruence|lia|lia|]. intros (? & ? & _)%Hh. unfold happy in *.
      by rewrite Hfd'', Hk, Hq. }
    eapply wp_mono; [apply IH; [congruence|done|unfold io_of in *; rewrite Hk; lia]|].
    intros ret c3 (Hc3 & Hcalm' & Hh' & _). split; [done|]. split; [by etrans|].
    split; [intros [Hc2 _]%(ca_happy _ _ Hcalm); auto|]. intros _. pose proof (ca_got _ _ Hcalm'). lia.
  - assert ((ret =? RES_DONE) = false) as -> by (by destruct Hret as [-> | ->]). rewrite wp_ret.
    split; [done|]. split; [|by split; [intros (_ & _ & ?)%Hh|]].
    constructor; [done|lia|done|]. by intros (? & ? & _)%Hh.
Qed.

Lemma wp_write_key c :
  cinv c → wp (write_key (client_to_server c)) c (λ ret c',
    client_to_server c' = client_to_server c ∧ resp c' = resp c ∧ req c' = req c ∧ got c' = got c ∧
    (happy c → happy c' ∧ quit c' = quit c ∧ ret ≠ RES_FAIL) ∧
    ((ret = RES_DONE ∧ (io_of c' < io_of c)%nat ∧ write_offset c' = 0 ∧
      cinv_at (KEY_SIZE * (req c' + 1)) (vs * resp c' + read_offset c') c') ∨
     ((ret = RES_WAIT ∨ ret = RES_FAIL) ∧ cinv c' ∧ sent c <= sent c' ∧
      (go_write (client_to_server c) (c_kern c) → sent c < sent c')))).
Proof using Ha Hm.
  intros Hc. pose proof (cinv_counts c Hc) as Hcnt. pose proof (λ H, cinv_open c _ H Hc eq_refl) as Hopen.
  destruct Hc as [? ? ? ? Hr Hw Hlr Hp Hu Hd ? Hfds].
  pose proof (mi_pending _ _ _ Hm).
  unfold write_key. wp_pure. unfold id, on_kern. rewrite wp_zoom.
  apply (wp_write_exact _ key KEY_SIZE (req c)); [done|done|lia|done|].
  change (take (Z.to_nat KEY_SIZE) key) with key.
  intros ret off' d k' Hd0 Hg Hn [Hres Hgood] Hgo. wp_pure.
  pose proof (dir_gave _ _ _ _ _ _ _ _ Hu Hd0 Hn Hg) as Hu'.
  pose proof (fds_only _ _ _ k' Hfds (gave_only _ _ _ _ Hg)) as Hfds'.
  pose proof (gave_in _ _ _ _ Hg) as Hi.
  split; [done|]. split; [done|]. split; [done|]. split; [done|].
  split; [intros Hh; destruct (Hgood (Hopen Hh) (proj2 Hh)); destruct Hh; by split_and!|].
  destruct Hres as [(-> & -> & Hsz & Hio)|(Hret & -> & Hlt & _)]; [left|right].
  - split; [done|]. split; [done|]. split; [done|].
    constructor; unfold csock in *; simpl; rewrite ?Hi; try done; try lia.
    replace (KEY_SIZE * (req c + 1)) with (KEY_SIZE * req c + write_offset c + d) by lia. done.
  - split; [done|]. split; [|unfold sent; simpl; split; [lia|intros ?%Hgo; lia]].
    constructor; unfold csock in *; simpl; rewrite ?Hi; try done; try lia. by rewrite Z.add_assoc.
Qed.

Lemma wp_client_send_req c :
  cinv c → may_send a c = true →
  wp (client_send_req clock (client_to_server c)) c (λ ret c',
    cinv c' ∧ calm c c' ∧ (ret = RES_DONE → (io_of c' < io_of c)%nat) ∧ (happy c → ret ≠ RES_FAIL) ∧
    (go_write (client_to_server c) (c_kern c) → sent c < sent c')).
Proof using Ha Hm.
  intros Hc Hsend. unfold client_send_req. rewrite wp_bind.
  pose proof (cinv_counts c Hc) as Hcnt. pose proof (mi_pending _ _ _ Hm).
  eapply wp_mono; [by apply wp_write_key|].
  intros ret c1 (Hfd & Hresp & Hreq & Hgot & Hh & [(-> & Hio & Ho & Hc1)|(Hret & Hc1 & Hs & Hgo)]); last first.
  { assert ((ret =? RES_DONE) = false) as -> by (by destruct Hret as [-> | ->]). wp_pure.
    split; [done|]. split; [|by split_and!; [destruct Hret as [-> | ->]|intros (_ & _ & ?)%Hh|]].
    constructor; [done|done|lia|]. by intros (? & ? & _)%Hh. }
  pose proof (ci_wr _ _ _ Hc) as Hwr.
  destruct Hc1 as [Hring Hprod Hcons Hcnt1 Hr Hw Hlr Hp Hu Hd Habs Hfds].
  destruct Ha as [Hvs Htot Hpl]. apply andb_true_iff in Hsend as [H1%Z.ltb_lt H2%Z.ltb_lt].
  rewrite u64_small in H2 by lia.
  unfold clock_gettime. wp_pure. apply wp_astore; [simpl; rewrite Hring, Hprod; by apply Z.mod_pos_bound|].
  wp_pure. assert (u64 (req c1 + 1) = req c1 + 1) as Hu64 by (apply u64_small; lia).
  assert (sent c < KEY_SIZE * (req c1 + 1)) as Hlt by (unfold sent; lia).
  split; last first.
  { split; [constructor|]; unfold sent, got, happy in *; simpl; rewrite ?Hu64, ?Ho; [done|lia|lia|tauto|].
    split_and!; [done|tauto|lia]. }
  unfold cinv. simpl. rewrite Hu64, Ho, Z.add_0_r.
  constructor; simpl; rewrite ?len_upd; try done; try lia.
  - by rewrite Hprod, stamp_next.
  - eapply rtc_r; [exact Habs|]. unfold abs, queue. simpl.
    replace (req c1 + 1 - resp c1) with (req c1 - resp c1 + 1) by lia.
    replace (ts_prod c1) with ((resp c1 + (req c1 - resp c1)) mod len (ts_ring c1))
      by (rewrite Hring, Hprod; f_equal; lia).
    rewrite cyc_upd by (rewrite ?Hring; lia). constructor; [lia|]. rewrite len_cyc; lia.
Qed.

Lemma cinv_quit c : cinv c → cinv (put_quit true c).
Proof using.
  intros [? ? ? ? ? ? ? ? ? ? ? Hf]. constructor; try done. simpl.
  destruct Hf as [?|(? & ? & _)]; [by left|by right].
Qed.

Lemma wp_send_loop fuel fd err_ c :
  fd = client_to_server c → cinv c → (S (io_of c) < fuel)%nat ∨ ((0 < fuel)%nat ∧ err_ ≠ RES_DONE) →
  wp (send_loop a clock fuel fd err_) c (λ _ c', cinv c' ∧ calm c c' ∧
    (may_send a c = true → err_ = RES_DONE → go_write fd (c_kern c) → sent c < sent c')).
Proof using Ha Hm.
  revert c err_. induction fuel as [|fuel IH]; intros c err_ -> Hc Hf; [lia|]. simpl. wp_pure.
  unfold id. destruct (may_send a c && (err_ =? RES_DONE)) eqn:E; last first.
  { split; [done|]. split; [done|]. intros E1 ->. by rewrite E1 in E. }
  apply andb_true_iff in E as [E Herr%Z.eqb_eq].
  rewrite wp_bind. eapply wp_mono; [by apply wp_client_send_req|].
  intros ret c' (Hc' & Hcalm & Hio & Hh & Hgo). case (Z.eqb_spec ret RES_FAIL) as [Hr|_].
  { rewrite wp_modify. split; [by apply cinv_quit|]. destruct Hcalm as [H1 H2 H3 _].
    split; [constructor; [done..|]|auto]. by intros ?%Hh. }
  eapply wp_mono; [apply IH; [by rewrite (ca_fd _ _ Hcalm)|done|]|].
  - destruct (decide (ret = RES_DONE)) as [->|Hne].
    + left. specialize (Hio eq_refl). destruct Hf as [?|[_ []]]; [lia|done].
    + destruct Hf as [?|[_ []]]; [right; split; [lia|done]|done].
  - intros _ c3 (? & Hcalm' & _). split; [done|]. split; [by etrans|]. intros _ _ Hg%Hgo.
    pose proof (ca_sent _ _ Hcalm'). lia.
Qed.

Lemma cinv_epoll c cs flags :
  cinv c → k_fds (c_kern c) !! client_to_server c = Some cs → flags ≠ 0 →
  cinv (put_kern (put_fds (<[client_to_server c := put_epoll flags cs]> (k_fds (c_kern c))) (c_kern c)) c).
Proof using.
  intros [? ? ? ? ? ? ? ? Hu Hd ? Hf] Hcs Hfl. constructor; unfold csock in *; simpl; try done.
  - rewrite lookup_insert_eq. rewrite Hcs in Hu. done.
  - rewrite lookup_insert_eq. rewrite Hcs in Hd. done.
  - destruct Hf as [(? & cs' & E & _)|(_ & E & _)].
    + left. split; [done|]. exists (put_epoll flags cs). simpl. rewrite E, insert_singleton_eq. done.
    + by rewrite E in Hcs.
Qed.
Lemma cinv_hangup c :
  cinv c → cinv (put_quit true (put_server_fd (-1) (put_kern (put_fds ∅ (c_kern c)) c))).
Proof using.
  intros [? ? ? ? ? ? ? ? Hu Hd ? _]. constructor; unfold csock in *; simpl; try done.
  - destruct (k_fds (c_kern c) !! client_to_server c); [by eapply dir_close_snd|done].
  - by eapply dir_close_rcv.
  - by right.
Qed.

#[local] Arguments send_loop : simpl never.
#[local] Arguments recv_loop : simpl never.
Definition hangs_up (ev : Z) : bool := has ev (Z.lor EPOLLRDHUP EPOLLERR).
(** After an event on a socket that is not closed: what has moved, and when
    the client quits. *)
Definition event_result (ev : Z) (c c' : client) : Prop :=
  hangs_up ev = false →
  client_to_server c' = client_to_server c ∧ sent c <= sent c' ∧ got c <= got c' ∧
  (has ev EPOLLOUT = true → may_send a c = true → go_write (client_to_server c) (c_kern c) →
   sent c < sent c') ∧
  (has ev EPOLLOUT = false → has ev EPOLLIN = true → go_read (client_to_server c) (c_kern c) →
   got c < got c') ∧
  (happy c → quit c' = quit c || (total_reqs a <=? resp c')).

Lemma wp_event_tail c c2 err_ :
  cinv c2 → calm c c2 → (happy c → err_ ≠ RES_FAIL) → 0 <= client_to_server c →
  wp (if err_ =? RES_FAIL then modify (put_quit true);; mret true
      else
      c ← gets id;
      when (req c =? total_reqs a) (on_kern (modify_epoll (client_to_server c2) EPOLLIN));;
      if total_reqs a <=? resp c then modify (put_quit true);; mret true
      else mret false) c2 (λ _ c', cinv c' ∧ client_to_server c' = client_to_server c2 ∧
        sent c' = sent c2 ∧ got c' = got c2 ∧ (happy c → quit c' = quit c || (total_reqs a <=? resp c'))).
Proof using.
  intros Hc2 [Hfd _ _ Hq] Hh Hpos. case (Z.eqb_spec err_ RES_FAIL) as [Hr|_].
  { wp_pure. split; [by apply cinv_quit|]. split_and!; try done. by intros ?%Hh. }
  wp_pure. unfold id.
  pose proof (ci_fds _ _ _ Hc2) as [(_ & cs & Ecs & _)|(? & _)]; [|lia].
  eapply (wp_mono _ _ (λ _ c', cinv c' ∧ client_to_server c' = client_to_server c2 ∧
    sent c' = sent c2 ∧ got c' = got c2 ∧ quit c' = quit c2 ∧ resp c' = resp c2)).
  { destruct (req c2 =? total_reqs a); [|by split]. simpl. unfold on_kern. rewrite wp_zoom.
    unfold modify_epoll, epoll_set. wp_pure. unfold id.
    rewrite Ecs, lookup_singleton_eq. rewrite wp_modify. split; [|done].
    rewrite <-Ecs. apply cinv_epoll; [done|by rewrite Ecs, lookup_singleton_eq|done]. }
  intros _ c3 (Hc3 & Hfd3 & Hs3 & Hg3 & Hq3 & Hr3).
  case (Z.leb_spec (total_reqs a) (resp c2)) as [Hle|Hle]; wp_pure.
  - split; [by apply cinv_quit|]. split_and!; try done. intros _. simpl.
    rewrite Hr3, (proj2 (Z.leb_le _ _)) by done. by rewrite orb_true_r.
  - split; [done|]. split_and!; try done. intros [_ Hq']%Hq. simpl.
    rewrite Hr3, (proj2 (Z.leb_gt _ _)) by done. by rewrite orb_false_r, Hq3.
Qed.

Lemma wp_client_event c ev :
  cinv c → 0 <= client_to_server c →
  wp (client_event a clock (client_to_server c) ev) c (λ _ c', cinv c' ∧ event_result ev c c').
Proof using Ha Hm.
  intros Hc Hfd. unfold client_event, event_result. fold (hangs_up ev). wp_pure.
  pose proof (ci_fds _ _ _ Hc) as [(_ & cs & Ecs & _)|(? & _)]; [|lia].
  destruct (hangs_up ev); simpl.
  { unfold on_kern. rewrite wp_zoom. wp_pure. rewrite Z.eqb_refl. wp_pure. split; [|done].
    rewrite Ecs, alter_singleton_eq. cbn [k_fds put_fds]. rewrite delete_singleton_eq.
    by apply cinv_hangup. }
  wp_pure. unfold id.
  eapply (wp_mono _ _ (λ _ c', cinv c' ∧ calm c c' ∧
    (has ev EPOLLOUT = true → may_send a c = true → go_write (client_to_server c) (c_kern c) → sent c < sent c') ∧
    (has ev EPOLLOUT = false → c' = c))).
  { destruct (may_send a c) eqn:E1, (has ev EPOLLOUT) eqn:E2; simpl; try (by split_and!).
    eapply wp_mono; [apply wp_send_loop; [done|done|left; unfold fuel_of, io_of; lia]|].
    intros _ c' (? & ? & Hgo). split_and!; auto. done. }
  intros _ c1 (Hc1 & Hcalm1 & Hgo1 & Hsame). rewrite wp_bind.
  eapply (wp_mono _ _ (λ ret c', cinv c' ∧ calm c1 c' ∧ (happy c1 → ret ≠ RES_FAIL) ∧
    (has ev EPOLLIN = true → go_read (client_to_server c) (c_kern c1) → got c1 < got c'))).
  { destruct (has ev EPOLLIN); [|by split_and!]. unfold client_recv_resp. wp_pure.
    eapply wp_mono; [apply wp_client_recv_loop; [by rewrite (ca_fd _ _ Hcalm1)|done|unfold fuel_of, io_of; simpl; lia]|].
    intros ret c' (? & ? & ? & ?). by split_and!. }
  intros err_ c2 (Hc2 & Hcalm2 & Hh2 & Hgo2).
  assert (calm c c2) as Hcalm by (by etrans).
  rewrite <-(ca_fd _ _ Hcalm).
  eapply wp_mono; [apply (wp_event_tail c); [done|done|intros [? _]%(ca_happy _ _ Hcalm1); auto|done]|].
  intros stop c' (Hc' & Hfd' & Hs & Hg & Hq). split; [done|]. intros _.
  destruct Hcalm1 as [_ ? ? _], Hcalm2 as [_ ? ? _]. split_and!; [done|lia|lia| | |done].
  - intros H1 H2 H3. specialize (Hgo1 H1 H2). rewrite (ca_fd _ _ Hcalm) in H3. specialize (Hgo1 H3). lia.
  - intros H1 H2 H3. rewrite (Hsame H1) in *. rewrite (ca_fd _ _ Hcalm) in H3. specialize (Hgo2 H2 H3). lia.
Qed.

(** The only socket is in the batch at most once. *)
Lemma wp_client_events c ev :
  cinv c → 0 <= client_to_server c →
  wp (client_events a clock [(client_to_server c, ev)]) c (λ _ c', cinv c' ∧ event_result ev c c').
Proof using Ha Hm.
  intros Hc Hfd. simpl. rewrite wp_bind. eapply wp_mono; [by apply wp_client_event|].
  by intros [] c' ?.
Qed.
End client.

(** ** The server *)

(** What a handler for the socket [n] leaves alone; [hup] when it closes it. *)
Record frame (hup : bool) (n : Z) (v v' : server) : Prop := {
  fr_listen : listen_sock v' = listen_sock v;
  fr_backlog : backlog v' = backlog v;
  fr_len : len (g_sockets v') = len (g_sockets v);
  fr_socks : ∀ j, j ≠ n → idx (g_sockets v') j = idx (g_sockets v) j;
  fr_fds : ∀ fd, fd ≠ n → k_fds (v_kern v') !! fd = k_fds (v_kern v) !! fd;
  fr_epoll : (hup = true ∧ k_fds (v_kern v') !! n = None) ∨
    s_epoll <$> k_fds (v_kern v') !! n = s_epoll <$> k_fds (v_kern v) !! n;
}.

#[export] Instance frame_preorder hup n : PreOrder (frame hup n).
Proof.
  split.
  - intros v. by constructor; auto.
  - intros v1 v2 v3 [? ? ? ? ? He] [? ? ? ? ? He']. constructor; try congruence.
    + intros j Hj. rewrite fr_socks1; auto.
    + intros j Hj. rewrite fr_fds1; auto.
    + destruct He' as [?|E]; [by left|]. destruct He as [[? He]|He]; [left|right; congruence].
      rewrite He in E. split; [done|]. by destruct (k_fds (v_kern v3) !! n).
Qed.

Lemma frame_upd hup n v k m :
  only n (v_kern v) k → 0 <= n →
  frame hup n v (put_sockets (upd (g_sockets v) n m) (put_v_kern k v)).
Proof.
  intros [??] ?. constructor; simpl; auto; [apply len_upd|]. intros j Hj. by apply idx_upd_ne.
Qed.

Lemma wp_set_meta n f m v Q :
  idx (g_sockets v) n = Some m → Q tt (put_sockets (upd (g_sockets v) n (f m)) v) → wp (set_meta n f) v Q.
Proof.
  intros Hm HQ. unfold set_meta. rewrite wp_bind. eapply wp_aload; [done|].
  apply wp_astore; [by eapply idx_Some_range|done].
Qed.

(** A buffer that starts with the key compares equal to it. *)
Lemma str_eq_key buf : partial key KEY_SIZE buf → str_eq buf local_key = true.
Proof.
  intros [_ E]. unfold str_eq. apply bool_decide_eq_true.
  rewrite <-(take_drop (Z.to_nat KEY_SIZE) buf), E. reflexivity.
Qed.

Section server.
Context (a : client_args) (clock : Z → timespec) (Ha : args_ok a).
Context (c0 : aclient) (c : client) (n : Z).
Abbreviation vs := (value_size a).

Definition sinv (m : socket_metadata) (D : Z) (v : server) : Prop :=
  idx (g_sockets v) n = Some m ∧ m_fd m = n ∧ minv vs m D ∧
  cinv a clock c0 m (k_fds (v_kern v) !! n) D c.
(** The bytes that the server has read and written. *)
Definition v_got (m : socket_metadata) (D : Z) : Z := KEY_SIZE * D + r_offset m.
Definition v_sent (m : socket_metadata) (D : Z) : Z := vs * (D - pending m) + w_offset m.
Definition v_io (v : server) : nat := length (k_io (v_kern v)).

(** The server moves its end of the connection. *)
Lemma cinv_server m ss D m' ss' D' :
  cinv a clock c0 m ss D c →
  dir key (KEY_SIZE * req c + write_offset c) (KEY_SIZE * D' + r_offset m')
    (s_out <$> csock c) (s_in <$> ss') →
  dir (value vs) (vs * (D' - pending m') + w_offset m') (vs * resp c + read_offset c)
    (s_out <$> ss') (s_in <$> csock c) →
  cinv a clock c0 m' ss' D' c.
Proof using. intros [? ? ? ? ? ? ? ? ? ? ? ?] ??. by constructor. Qed.

Lemma sinv_intro v l k m m' D ss D' :
  cinv a clock c0 m ss D c → l = upd (g_sockets v) n m' → 0 <= n < len (g_sockets v) →
  m_fd m' = n → minv vs m' D' →
  dir key (KEY_SIZE * req c + write_offset c) (KEY_SIZE * D' + r_offset m')
    (s_out <$> csock c) (s_in <$> k_fds k !! n) →
  dir (value vs) (vs * (D' - pending m') + w_offset m') (vs * resp c + read_offset c)
    (s_out <$> k_fds k !! n) (s_in <$> csock c) →
  sinv m' D' (put_sockets l (put_v_kern k v)).
Proof using.
  intros Hc -> Hn Hfd Hm Hu Hd. split; [by apply idx_upd_eq|].
  split; [done|]. split; [done|]. by eapply cinv_server.
Qed.

Lemma wp_req_loop fuel hup m D v :
  sinv m D v → (v_io v < fuel)%nat →
  wp (req_loop fuel n) v (λ _ v', frame hup n v v' ∧ ∃ m' D', sinv m' D' v' ∧
    v_got m D <= v_got m' D' ∧ v_sent m' D' = v_sent m D ∧
    (go_read n (v_kern v) → v_got m D < v_got m' D')).
Proof using Ha.
  revert m D v. induction fuel as [|fuel IH]; intros m D v (Em & Hfd & Hm & Hc) Hf; [lia|].
  pose proof (cinv_counts a clock Ha _ _ _ _ Hm _ Hc) as Hcnt.
  pose proof (ci_up _ _ _ _ _ _ _ _ _ Hc) as Hu. pose proof (ci_down _ _ _ _ _ _ _ _ _ Hc) as Hd.
  pose proof (ci_cnt _ _ _ _ _ _ _ _ _ Hc) as Hc3. destruct Hm as [Hr Hw Hp Hb].
  pose proof (idx_Some_range _ _ _ Em) as Hn. destruct Ha as [_ _ Hpl].
  simpl. rewrite wp_bind. eapply wp_aload; [done|]. rewrite wp_bind. unfold on_v_kern. rewrite wp_zoom.
  apply (wp_read_exact _ key D); [done|done|lia|done|done|..].
  { intros s Es. rewrite Es in Hu. by eapply dir_in. }
  intros ret buf off' d k' Hd0 Ht [Hres Hgood] Hlen Hpart Hgo. rewrite wp_bind.
  eapply wp_set_meta; [done|]. pose proof (took_only _ _ _ _ Ht) as Honly.
  pose proof (dir_took _ _ _ _ _ _ _ _ Hu Ht) as Hu'. pose proof (took_out _ _ _ _ Ht) as Ho.
  destruct Hres as [(-> & -> & Hsz & Hio)|(Hret & -> & Hlt & _)]; simpl.
  - rewrite Hsz in Hpart. rewrite (str_eq_key _ Hpart). simpl. rewrite !wp_bind.
    apply wp_guard_or; [apply Z.ltb_lt; unfold MAX_PIPELINE in *; lia|].
    eapply wp_set_meta; [simpl; by apply idx_upd_eq|]. simpl. rewrite upd_upd.
    eapply wp_mono; [apply (IH (put_m_pending (pending m + 1) (put_m_read buf 0 m)) (D + 1))|].
    + eapply (sinv_intro _ _ _ m _ D); [done|done|lia|done| | |]; simpl.
      * constructor; simpl; [done|done|lia|]. apply partial_0. rewrite Hlen. by destruct Hb.
      * replace (KEY_SIZE * (D + 1) + 0) with (KEY_SIZE * D + r_offset m + d) by lia. done.
      * rewrite Ho. by replace (D + 1 - (pending m + 1)) with (D - pending m) by lia.
    + unfold v_io in *. simpl. lia.
    + intros _ v' (Hfr & m' & D' & Hv' & Hg & Hs & _).
      split; [etrans; [|exact Hfr]; apply frame_upd; [done|lia]|]. exists m', D'. split; [done|].
      unfold v_got, v_sent in *. simpl in *. split_and!; [lia|lia|intros _; lia].
  - assert ((ret =? RES_DONE) = false) as -> by (by destruct Hret as [-> | ->]). rewrite wp_ret.
    split; [apply frame_upd; [done|lia]|]. eexists _, D. split.
    { eapply (sinv_intro _ _ _ m _ D); [done|done|lia|done| | |]; simpl.
      + constructor; simpl; [lia|done|lia|done].
      + by rewrite Z.add_assoc.
      + by rewrite Ho. }
    unfold v_got, v_sent. simpl. split_and!; [lia|lia|intros ?%Hgo; lia].
Qed.

Lemma wp_resp_loop fuel hup ret0 m D v :
  sinv m D v → (v_io v < fuel)%nat →
  wp (resp_loop vs fuel n ret0) v (λ _ v', frame hup n v v' ∧ ∃ m', sinv m' D v' ∧
    v_got m' D = v_got m D ∧ v_sent m D <= v_sent m' D ∧
    (go_write n (v_kern v) → pending m ≠ 0 → v_sent m D < v_sent m' D)).
Proof using Ha.
  revert m v ret0. induction fuel as [|fuel IH]; intros m v ret0 (Em & Hfd & Hm & Hc) Hf; [lia|].
  pose proof (cinv_counts a clock Ha _ _ _ _ Hm _ Hc) as Hcnt.
  pose proof (ci_up _ _ _ _ _ _ _ _ _ Hc) as Hu. pose proof (ci_down _ _ _ _ _ _ _ _ _ Hc) as Hd.
  pose proof (ci_cnt _ _ _ _ _ _ _ _ _ Hc) as Hc3. pose proof Hm as [Hr Hw Hp Hb].
  pose proof (idx_Some_range _ _ _ Em) as Hn. destruct Ha as [Hvs _ Hpl].
  simpl. rewrite wp_bind. eapply wp_aload; [done|].
  case (Z.eqb_spec (pending m) 0) as [Hp0|Hp0].
  { rewrite wp_ret. split; [done|]. exists m. by split_and!. }
  rewrite wp_bind. unfold on_v_kern. rewrite wp_zoom.
  apply (wp_write_exact _ local_value vs (D - pending m));
    [unfold MAX_VALUE_SIZE in *; lia|rewrite len_local_value; lia|lia|done|].
  change (take (Z.to_nat vs) local_value) with (value vs).
  intros ret off' d k' Hd0 Hg Hnone [Hres Hgood] Hgo. rewrite wp_bind.
  eapply wp_set_meta; [done|]. pose proof (gave_only _ _ _ _ Hg) as Honly.
  pose proof (dir_gave _ _ _ _ _ _ _ _ Hd Hd0 Hnone Hg) as Hd'. pose proof (gave_in _ _ _ _ Hg) as Hi.
  destruct Hres as [(-> & -> & Hsz & Hio)|(Hret & -> & Hlt & _)]; simpl.
  - rewrite wp_bind. eapply wp_set_meta; [simpl; by apply idx_upd_eq|]. simpl. rewrite upd_upd.
    eapply wp_mono; [apply (IH (put_m_pending (pending m - 1) (put_m_write 0 m)))|].
    + eapply (sinv_intro _ _ _ m _ D); [done|done|lia|done| | |]; simpl.
      * constructor; simpl; [done|lia|lia|done].
      * by rewrite Hi.
      * replace (vs * (D - (pending m - 1)) + 0) with (vs * (D - pending m) + w_offset m + d) by lia. done.
    + unfold v_io in *. simpl. lia.
    + intros _ v' (Hfr & m' & Hv' & Hg' & Hs & _).
      split; [etrans; [|exact Hfr]; apply frame_upd; [done|lia]|]. exists m'. split; [done|].
      unfold v_got, v_sent in *. simpl in *. split_and!; [lia|lia|intros _ _; lia].
  - assert ((ret =? RES_DONE) = false) as -> by (by destruct Hret as [-> | ->]). rewrite wp_ret.
    split; [apply frame_upd; [done|lia]|]. eexists. split.
    { eapply (sinv_intro _ _ _ m _ D); [done|done|lia|done| | |]; simpl.
      + constructor; simpl; [done|lia|lia|done].
      + by rewrite Hi.
      + by rewrite Z.add_assoc. }
    unfold v_got, v_sent. simpl. split_and!; [lia|lia|intros ?%Hgo _; lia].
Qed.

Lemma sinv_disconnect m D v :
  sinv m D v → wp (disconnect_socket n) v (λ _ v', frame true n v v' ∧ sinv m D v').
Proof using.
  intros (Em & Hfd & Hm & Hc). unfold disconnect_socket, on_v_kern. rewrite wp_zoom. wp_pure.
  assert (∀ j, j ≠ n → delete n (alter (put_epoll 0) n (k_fds (v_kern v))) !! j = k_fds (v_kern v) !! j) as Hne.
  { intros j Hj. by rewrite lookup_delete_ne, lookup_alter_ne. }
  split; [constructor; simpl; auto; left; split; [done|apply lookup_delete_eq]|].
  split; [done|]. split; [done|]. split; [done|]. simpl. rewrite lookup_delete_eq.
  eapply cinv_server; [exact Hc|..]; simpl.
  - eapply dir_close_rcv, ci_up, Hc.
  - pose proof (ci_down _ _ _ _ _ _ _ _ _ Hc) as Hd.
    destruct (k_fds (v_kern v) !! n); [by eapply dir_close_snd|done].
Qed.

#[local] Arguments req_loop : simpl never.
#[local] Arguments resp_loop : simpl never.
Lemma wp_server_event m D v ev :
  sinv m D v → n ≠ listen_sock v →
  wp (server_event vs n ev) v (λ _ v', frame (hangs_up ev) n v v' ∧ ∃ m' D', sinv m' D' v' ∧
    v_got m D <= v_got m' D' ∧ v_sent m D <= v_sent m' D' ∧
    (hangs_up ev = false → has ev EPOLLOUT = false → has ev EPOLLIN = true →
     go_read n (v_kern v) → v_got m D < v_got m' D') ∧
    (hangs_up ev = false → has ev EPOLLOUT = true → pending m ≠ 0 →
     go_write n (v_kern v) → v_sent m D < v_sent m' D')).
Proof using Ha.
  intros Hv Hl. unfold server_event. rewrite wp_bind, wp_gets. rewrite (proj2 (Z.eqb_neq _ _)) by done. simpl.
  pose proof Hv as (Em & Hfd & _). rewrite wp_bind. eapply wp_aload; [done|].
  rewrite wp_bind. apply wp_guard_or; [by rewrite Hfd, Z.eqb_refl|]. rewrite wp_bind.
  fold (hangs_up ev).
  eapply (wp_mono _ _ (λ _ v', frame (hangs_up ev) n v v' ∧ sinv m D v' ∧ (hangs_up ev = false → v' = v))).
  { destruct (hangs_up ev); [|by split_and!].
    eapply wp_mono; [by apply sinv_disconnect|]. intros _ v' [??]. by split_and!. }
  intros _ v1 (Hf1 & Hv1 & Hs1). rewrite wp_bind.
  eapply (wp_mono _ _ (λ err_ v', frame (hangs_up ev) n v v' ∧ ∃ m', sinv m' D v' ∧
    v_got m' D = v_got m D ∧ v_sent m D <= v_sent m' D ∧
    (has ev EPOLLOUT = true → pending m ≠ 0 → go_write n (v_kern v1) → v_sent m D < v_sent m' D) ∧
    (has ev EPOLLOUT = false → v' = v1 ∧ err_ = RES_DONE))).
  { destruct (has ev EPOLLOUT); last first.
    { rewrite andb_false_r, wp_ret. split; [done|]. exists m. by split_and!. }
    case (Z.eqb_spec (pending m) 0) as [Hp|Hp]; simpl.
    { rewrite wp_ret. split; [done|]. exists m. by split_and!. }
    unfold client_send_resp. wp_pure.
    eapply wp_mono; [apply (wp_resp_loop _ (hangs_up ev)); [done|unfold fuel_of, v_io; simpl; lia]|].
    intros ret v' (? & m' & ? & ? & ? & Hgo). split; [by etrans|]. exists m'. split_and!; auto. done. }
  intros err_ v2 (Hf2 & m' & Hv2 & Hg2 & Hs2 & Hgo2 & Hsame2).
  case (Z.eqb_spec err_ RES_FAIL) as [Hr|Hr].
  { rewrite wp_ret. split; [done|]. exists m', D. split_and!; [done|lia|done| |].
    - intros _ [_ ->]%Hsame2. done.
    - intros E1 ? ? ?. rewrite (Hs1 E1) in Hgo2. auto. }
  destruct (has ev EPOLLIN); simpl; last first.
  { rewrite wp_ret. split; [done|]. exists m', D. split_and!; [done|lia|done|done|].
    intros E1 ? ? ?. rewrite (Hs1 E1) in Hgo2. auto. }
  rewrite wp_bind. unfold client_recv_req. wp_pure.
  eapply wp_mono; [apply (wp_req_loop _ (hangs_up ev)); [done|unfold fuel_of, v_io; simpl; lia]|].
  intros _ v' (Hf3 & m3 & D3 & Hv3 & Hg3 & Hs3 & Hgo3). split; [by etrans|]. exists m3, D3.
  split_and!; [done|lia|lia| |].
  - intros E1 [E2 _]%Hsame2 _ Hgo. rewrite E2, (Hs1 E1) in Hgo3. specialize (Hgo3 Hgo). lia.
  - intros E1 E2 Hp Hgo. rewrite (Hs1 E1) in Hgo2. specialize (Hgo2 E2 Hp Hgo). lia.
Qed.
End server.
