(* ===== verification/AsyncWorld.v ===== *)
(** * Asynchronous benchmark: many clients and one server

    The server and any number of clients run interleaved, on connections that
    deliver bytes in order and at any time. A step is one round of an event
    loop, with the events of one [epoll_wait] and arbitrary answers of the
    kernel to the calls of [read] and [write]; or the network moves bytes, a
    client connects, or a signal arrives. Bytes that arrive while a handler
    runs are the ones that a later round finds. *)

From S2P Require Import Prelude Bytes ConfFile Async AsyncSpec.

#[local] Arguments replicate : simpl never.

(** A client is known by the descriptor of its connection in the server. *)
Record world := MkWorld { w_server : server; w_clients : gmap Z client }.

(** What [epoll_wait] may return: sockets that were registered, once each;
    the listening socket when a connection waits. *)
Definition polled (k : kern) (fd : Z) : Prop := ∃ s, k_fds k !! fd = Some s ∧ s_epoll s ≠ 0.
Definition client_batch (c : client) (evs : list (Z * Z)) : Prop :=
  NoDup evs.*1 ∧ ∀ e, e ∈ evs → polled (c_kern c) e.1.
Definition server_batch (v : server) (evs : list (Z * Z)) : Prop :=
  NoDup evs.*1 ∧ ∀ e, e ∈ evs →
    (e.1 = listen_sock v ∧ has e.2 EPOLLIN = true ∧ backlog v ≠ []) ∨ polled (v_kern v) e.1.

Definition client_io (ios : list io) (c : client) : client := put_kern (put_io ios (c_kern c)) c.
Definition server_io (ios : list io) (v : server) : server := put_v_kern (put_io ios (v_kern v)) v.

Definition put_client_sock (s : sock) (c : client) : client :=
  put_kern (put_fds (<[client_to_server c := s]> (k_fds (c_kern c))) (c_kern c)) c.
Definition put_server_sock (n : Z) (s : sock) (v : server) : server :=
  put_v_kern (put_fds (<[n := s]> (k_fds (v_kern v))) (v_kern v)) v.

Section world.
Context (a : client_args) (clock : Z → timespec).

(** The kernel completes a connection: [n] is a free descriptor. A client
    that the server has disconnected is forgotten when its number is used
    again. *)
Definition connect (n fd : Z) (w : world) : world :=
  let v := w_server w in
  MkWorld (put_backlog (backlog v ++ [n]) (put_server_sock n (MkSock [] [] 0) v))
    (<[n := client_init fd]> (w_clients w)).

Inductive step : world → world → Prop :=
| step_connect w n fd :
    0 <= n < MAX_STATIC_SOCKETS → n ≠ listen_sock (w_server w) →
    k_fds (v_kern (w_server w)) !! n = None → 0 <= fd → step w (connect n fd w)
| step_client w n c evs ios c' :
    w_clients w !! n = Some c → quit c = false → client_batch c evs →
    client_events a clock evs (client_io ios c) = Ok tt c' →
    step w (MkWorld (w_server w) (<[n := c']> (w_clients w)))
| step_server w evs ios v' :
    server_batch (w_server w) evs →
    server_events (value_size a) evs (server_io ios (w_server w)) = Ok tt v' →
    step w (MkWorld v' (w_clients w))
| step_up w n k c cs ss :
    w_clients w !! n = Some c → csock c = Some cs → k_fds (v_kern (w_server w)) !! n = Some ss →
    step w (MkWorld (put_server_sock n (put_in (s_in ss ++ take k (s_out cs)) ss) (w_server w))
      (<[n := put_client_sock (put_out (drop k (s_out cs)) cs) c]> (w_clients w)))
| step_down w n k c cs ss :
    w_clients w !! n = Some c → csock c = Some cs → k_fds (v_kern (w_server w)) !! n = Some ss →
    step w (MkWorld (put_server_sock n (put_out (drop k (s_out ss)) ss) (w_server w))
      (<[n := put_client_sock (put_in (s_in cs ++ take k (s_out ss)) cs) c]> (w_clients w)))
| step_signal w n c :
    w_clients w !! n = Some c →
    step w (MkWorld (w_server w) (<[n := put_quit true c]> (w_clients w))).

Definition init (listen : Z) : world := MkWorld (server_init listen) ∅.
Definition reach (w : world) : Prop := ∃ listen, rtc step (init listen) w.

(** ** The invariant *)

Abbreviation vs := (value_size a).
Definition A0 : aclient := MkA [] 0 0 0 0.

(** The record of a connection: it is cleared when it is accepted. *)
Definition meta_of (v : server) (n : Z) : option socket_metadata :=
  if decide (n ∈ backlog v) then Some (zero_meta n) else idx (g_sockets v) n.
Definition conn (v : server) (n : Z) (c : client) : Prop := ∃ m D,
  meta_of v n = Some m ∧ m_fd m = n ∧ minv vs m D ∧ cinv a clock A0 m (k_fds (v_kern v) !! n) D c.

Record winv (w : world) : Prop := {
  wi_len : len (g_sockets (w_server w)) = MAX_STATIC_SOCKETS;
  wi_nodup : NoDup (backlog (w_server w));
  wi_backlog n : n ∈ backlog (w_server w) → is_Some (k_fds (v_kern (w_server w)) !! n);
  wi_fds n s : k_fds (v_kern (w_server w)) !! n = Some s →
    0 <= n < MAX_STATIC_SOCKETS ∧ n ≠ listen_sock (w_server w) ∧ is_Some (w_clients w !! n) ∧
    (s_epoll s = 0 ↔ n ∈ backlog (w_server w));
  wi_conn n c : w_clients w !! n = Some c → conn (w_server w) n c;
}.
Context (Ha : args_ok a).

Lemma winv_init listen : winv (init listen).
Proof.
  constructor; simpl; try done; [constructor|]. by intros n Hn%elem_of_nil.
Qed.

Lemma conn_frame hup v v' n n' c :
  frame hup n v v' → n' ≠ n → conn v n' c → conn v' n' c.
Proof.
  intros [? Hb ? Hs Hf ?] Hne (m & D & Hm & Hrest). exists m, D.
  unfold meta_of in *. rewrite Hb, Hs, Hf by done. auto.
Qed.

(** One round of a client. *)
Lemma cinv_io m ss D c ios : cinv a clock A0 m ss D c → cinv a clock A0 m ss D (client_io ios c).
Proof. intros [? ? ? ? ? ? ? ? ? ? ? ?]. by constructor. Qed.

Lemma client_batch_one fd q c evs :
  fds_ok fd q (c_kern c) → client_batch c evs → evs = [] ∨ (0 <= fd ∧ ∃ ev, evs = [(fd, ev)]).
Proof.
  intros Hok [Hnd Hp]. destruct evs as [|[fd1 ev1] evs]; [by left|right].
  assert (∀ e, e ∈ (fd1, ev1) :: evs → e.1 = fd ∧ 0 <= fd) as Hfd.
  { intros e He. destruct (Hp e He) as (s & Es & _).
    destruct Hok as [(? & cs & E & _)|(_ & E & _)]; rewrite E in Es; [|done].
    by apply lookup_singleton_Some in Es as [<- _]. }
  destruct (Hfd (fd1, ev1)) as [Heq Hpos]; [set_solver|]. simpl in Heq. subst fd1.
  split; [done|]. exists ev1. destruct evs as [|[fd2 ev2] evs]; [done|]. exfalso.
  destruct (Hfd (fd2, ev2)) as [Heq _]; [set_solver|]. simpl in *. subst fd2.
  apply NoDup_cons in Hnd as [Hn _]. apply Hn. set_solver.
Qed.

(** A client may change as long as it keeps the invariant of its connection. *)
Lemma winv_client w n m D c' :
  winv w → is_Some (w_clients w !! n) → meta_of (w_server w) n = Some m → m_fd m = n → minv vs m D →
  cinv a clock A0 m (k_fds (v_kern (w_server w)) !! n) D c' →
  winv (MkWorld (w_server w) (<[n := c']> (w_clients w))).
Proof.
  intros [? ? ? Hf Hcn] Hc Hm Hfd Hmi Hci'. constructor; simpl; try done.
  - intros n' s (? & ? & ? & ?)%Hf. rewrite lookup_insert_is_Some'. auto.
  - intros n' c'' Hl. destruct (decide (n' = n)) as [->|Hne].
    + rewrite lookup_insert_eq in Hl. injection Hl as <-. by exists m, D.
    + rewrite lookup_insert_ne in Hl by done. auto.
Qed.

Lemma client_round w n c evs ios :
  winv w → w_clients w !! n = Some c → client_batch c evs →
  wp (client_events a clock evs) (client_io ios c) (λ _ c',
    winv (MkWorld (w_server w) (<[n := c']> (w_clients w)))).
Proof using Ha.
  intros Hw Hc Hb. destruct (wi_conn w Hw n c Hc) as (m & D & Hm & Hfd & Hmi & Hci).
  apply (cinv_io _ _ _ _ ios) in Hci as Hci'.
  destruct (client_batch_one _ _ _ _ (ci_fds _ _ _ _ _ _ _ _ _ Hci) Hb) as [->|(Hpos & ev & ->)].
  - simpl. rewrite wp_ret. by eapply winv_client.
  - pose proof (wp_client_events a clock Ha A0 m _ D Hmi _ ev Hci' Hpos) as Hwp.
    eapply wp_mono; [exact Hwp|]. intros _ c' [? _]. by eapply winv_client.
Qed.

(** One event of the server. *)
Lemma server_conn w n s :
  winv w → k_fds (v_kern (w_server w)) !! n = Some s → s_epoll s ≠ 0 →
  ∃ c m D, w_clients w !! n = Some c ∧ sinv a clock A0 c n m D (w_server w) ∧ n ≠ listen_sock (w_server w).
Proof.
  intros Hw Es He. destruct (wi_fds w Hw n s Es) as (_ & Hl & [c Hc] & Hb).
  destruct (wi_conn w Hw n c Hc) as (m & D & Hm & Hrest). exists c, m, D. split; [done|]. split; [|done].
  unfold meta_of in Hm. rewrite decide_False in Hm by (rewrite <-Hb; done). by split.
Qed.

Lemma conn_intro v n c m D : n ∉ backlog v → sinv a clock A0 c n m D v → conn v n c.
Proof.
  intros Hb (Hm & Hrest). exists m, D. unfold meta_of. by rewrite decide_False.
Qed.

Lemma winv_frame w v' hup n s c m D :
  winv w → k_fds (v_kern (w_server w)) !! n = Some s → s_epoll s ≠ 0 →
  w_clients w !! n = Some c → frame hup n (w_server w) v' → sinv a clock A0 c n m D v' →
  winv (MkWorld v' (w_clients w)).
Proof.
  intros Hw Es He Hc Hf Hv. pose proof (wi_fds w Hw n s Es) as (_ & _ & _ & Hb).
  assert (n ∉ backlog (w_server w)) as Hnb by (rewrite <-Hb; done).
  pose proof Hf as [Hl Hbl Hlen _ Hfds Hep]. pose proof Hw as [Hw1 Hw2 Hw3 Hw4 Hw5].
  constructor; simpl.
  - by rewrite Hlen.
  - by rewrite Hbl.
  - intros n' Hn'. rewrite Hbl in Hn'. rewrite Hfds by set_solver. auto.
  - intros n' s' Es'. rewrite Hl, Hbl. destruct (decide (n' = n)) as [->|Hne].
    + destruct (Hw4 n s Es) as (? & ? & ? & ?). destruct Hep as [[_ Hep]|Hep]; [congruence|].
      rewrite Es, Es' in Hep. injection Hep as ->. done.
    + rewrite Hfds in Es' by done. auto.
  - intros n' c' Hc'. destruct (decide (n' = n)) as [->|Hne].
    + rewrite Hc in Hc'. injection Hc' as <-. eapply conn_intro; [by rewrite Hbl|done].
    + eapply conn_frame; [done|done|auto].
Qed.

Lemma sock_round w n ev :
  winv w → polled (v_kern (w_server w)) n →
  wp (server_event vs n ev) (w_server w) (λ _ v',
    winv (MkWorld v' (w_clients w)) ∧ frame (hangs_up ev) n (w_server w) v').
Proof using Ha.
  intros Hw (s & Es & He). destruct (server_conn w n s Hw Es He) as (c & m & D & Hc & Hv & Hl).
  eapply wp_mono; [by apply (wp_server_event a clock Ha A0 c n)|].
  intros _ v' (Hf & m' & D' & Hv' & _). split; [|done]. by eapply winv_frame.
Qed.

(** A connection that waits has its first record. *)
Lemma accept_round w :
  winv w → backlog (w_server w) ≠ [] →
  wp accept_conn (w_server w) (λ _ v',
    winv (MkWorld v' (w_clients w)) ∧ listen_sock v' = listen_sock (w_server w) ∧
    backlog v' = tail (backlog (w_server w)) ∧
    (∀ fd, is_Some (k_fds (v_kern (w_server w)) !! fd) → is_Some (k_fds (v_kern v') !! fd)) ∧
    ∀ fd, polled (v_kern (w_server w)) fd → polled (v_kern v') fd).
Proof.
  intros Hw Hne. unfold accept_conn. wp_pure. destruct (backlog (w_server w)) as [|n b] eqn:Eb; [done|].
  pose proof Hw as [Hw1 Hw2 Hw3 Hw4 Hw5]. destruct (Hw3 n) as [s Es]; [rewrite Eb; set_solver|].
  destruct (Hw4 n s Es) as (Hn & Hl & [c Hc] & Hep). wp_pure.
  apply wp_guard_or; [apply Z.ltb_lt; lia|]. rewrite wp_bind. unfold allocate_socket_metadata.
  apply wp_astore; [simpl; lia|]. unfold on_v_kern. rewrite wp_zoom.
  unfold add_to_epoll, epoll_set. wp_pure. unfold id. rewrite Es. wp_pure.
  rewrite Eb in Hw2. apply NoDup_cons in Hw2 as [Hnb Hnd].
  assert (∀ n', n' ≠ n → n' ∈ b ↔ n' ∈ backlog (w_server w)) as Hmem by (intros; rewrite Eb; set_solver).
  split; [|split; [done|split; [done|split]]].
  - constructor; simpl; [by rewrite len_upd|done| | |].
    + intros n' Hn'. rewrite lookup_insert_ne by set_solver. apply Hw3. rewrite Eb. set_solver.
    + intros n' s' Es'. destruct (decide (n' = n)) as [->|Hne'].
      * rewrite lookup_insert_eq in Es'. injection Es' as <-.
        split; [done|]. split; [done|]. split; [done|]. simpl. split; [done|]. by intros ?%Hnb.
      * rewrite lookup_insert_ne in Es' by done. destruct (Hw4 n' s' Es') as (? & ? & ? & ->).
        by rewrite Hmem by done.
    + intros n' c' Hc'. destruct (Hw5 n' c' Hc') as (m & D & Hm & Hfd & Hmi & Hci).
      exists m, D. unfold meta_of in *. simpl. destruct (decide (n' = n)) as [->|Hne'].
      * rewrite decide_True in Hm by (rewrite Eb; set_solver). injection Hm as <-.
        rewrite decide_False, idx_upd_eq, lookup_insert_eq by (done || lia).
        split; [done|]. split; [done|]. split; [done|].
        rewrite Es in Hci. eapply cinv_server; [exact Hci|..]; [apply (ci_up _ _ _ _ _ _ _ _ _ Hci)|apply (ci_down _ _ _ _ _ _ _ _ _ Hci)].
      * rewrite lookup_insert_ne, idx_upd_ne by (done || lia).
        rewrite (decide_ext _ (n' ∈ backlog (w_server w))) by auto. done.
  - intros fd Hfd. simpl. rewrite lookup_insert_is_Some'. auto.
  - intros fd (s' & Es' & He'). unfold polled. simpl. destruct (decide (fd = n)) as [->|Hne'].
    + rewrite lookup_insert_eq. eexists. split; [done|]. done.
    + rewrite lookup_insert_ne by done. eauto.
Qed.

Lemma server_round w evs :
  winv w → server_batch (w_server w) evs →
  wp (server_events vs evs) (w_server w) (λ _ v', winv (MkWorld v' (w_clients w))).
Proof using Ha.
  destruct w as [v cl]. simpl. revert v. induction evs as [|[fd ev] evs IH]; intros v Hw [Hnd Hb]; simpl.
  { by rewrite wp_ret. }
  rewrite fmap_cons in Hnd. apply NoDup_cons in Hnd as [Hni Hnd]. rewrite wp_bind.
  assert (∀ e, e ∈ evs → e.1 ≠ fd) as Hne.
  { intros e He Heq. apply Hni. by apply list_elem_of_fmap_2' with e. }
  destruct (Hb (fd, ev)) as [(E1 & E2 & E3)|Hp]; [set_solver| |]; simpl in *.
  - subst fd. unfold server_event. rewrite wp_bind, wp_gets, Z.eqb_refl, E2. simpl.
    eapply wp_mono; [by apply (accept_round (MkWorld v cl))|]. simpl.
    intros _ v' (Hw' & Hl & _ & _ & Hpoll). apply IH; [done|]. split; [done|]. intros e He.
    destruct (Hb e) as [(? & _)|?]; [set_solver|by apply Hne in He|right; auto].
  - eapply wp_mono; [by apply (sock_round (MkWorld v cl))|]. simpl. intros _ v' (Hw' & Hf).
    apply IH; [done|]. split; [done|]. intros e He. destruct Hf as [Hl Hbl _ _ Hfds _].
    destruct (Hb e) as [(? & ? & ?)|(s & Es & ?)]; [set_solver|left; rewrite Hl, Hbl; auto|right].
    exists s. by rewrite Hfds by auto.
Qed.

Lemma winv_io w ios : winv w → winv (MkWorld (server_io ios (w_server w)) (w_clients w)).
Proof. intros [? ? ? ? ?]. by constructor. Qed.

(** Both ends of a connection get new buffers that keep its streams. *)
Definition redeliver (cs ss cs' ss' : sock) : Prop :=
  s_epoll cs' = s_epoll cs ∧ s_epoll ss' = s_epoll ss ∧
  (∀ p sent got, dir p sent got (Some (s_out cs)) (Some (s_in ss)) →
     dir p sent got (Some (s_out cs')) (Some (s_in ss'))) ∧
  (∀ p sent got, dir p sent got (Some (s_out ss)) (Some (s_in cs)) →
     dir p sent got (Some (s_out ss')) (Some (s_in cs'))).
Lemma redeliver_up cs ss k :
  redeliver cs ss (put_out (drop k (s_out cs)) cs) (put_in (s_in ss ++ take k (s_out cs)) ss).
Proof. split_and!; try done. simpl. intros. by apply dir_deliver. Qed.
Lemma redeliver_down cs ss k :
  redeliver cs ss (put_in (s_in cs ++ take k (s_out ss)) cs) (put_out (drop k (s_out ss)) ss).
Proof. split_and!; try done. simpl. intros. by apply dir_deliver. Qed.

Lemma cinv_deliver m D c cs ss cs' ss' :
  cinv a clock A0 m (Some ss) D c → csock c = Some cs → redeliver cs ss cs' ss' →
  cinv a clock A0 m (Some ss') D (put_client_sock cs' c).
Proof.
  intros [? ? ? ? ? ? ? ? Hu Hd ? Hf] Hcs (Hec & Hes & Hup & Hdown). unfold csock in *. rewrite Hcs in Hu, Hd.
  constructor; unfold csock; simpl; rewrite ?lookup_insert_eq; simpl; try done; [by apply Hup|by apply Hdown|].
  destruct Hf as [(? & cs0 & E & He)|(_ & E & _)]; [|by rewrite E in Hcs].
  rewrite E in Hcs |- *. rewrite lookup_singleton_eq in Hcs. injection Hcs as ->.
  left. split; [done|]. exists cs'. simpl. rewrite insert_singleton_eq, Hec. done.
Qed.

Lemma winv_deliver w n c cs ss cs' ss' :
  winv w → w_clients w !! n = Some c → csock c = Some cs →
  k_fds (v_kern (w_server w)) !! n = Some ss → redeliver cs ss cs' ss' →
  winv (MkWorld (put_server_sock n ss' (w_server w)) (<[n := put_client_sock cs' c]> (w_clients w))).
Proof.
  intros [Hw1 Hw2 Hw3 Hw4 Hw5] Hc Hcs Hss Hre. constructor; simpl; try done.
  - intros n' Hn'. rewrite lookup_insert_is_Some'. auto.
  - intros n' s Es. rewrite lookup_insert_is_Some'. destruct (decide (n' = n)) as [->|Hne].
    + rewrite lookup_insert_eq in Es. injection Es as <-. destruct Hre as (_ & -> & _).
      destruct (Hw4 n ss Hss) as (? & ? & ? & ?). auto.
    + rewrite lookup_insert_ne in Es by done. destruct (Hw4 n' s Es) as (? & ? & ? & ?). auto.
  - intros n' c' Hl. destruct (decide (n' = n)) as [->|Hne].
    + rewrite lookup_insert_eq in Hl. injection Hl as <-.
      destruct (Hw5 n c Hc) as (m & D & Hm & Hfd & Hmi & Hci). exists m, D.
      split; [done|]. split; [done|]. split; [done|]. simpl. rewrite lookup_insert_eq. rewrite Hss in Hci.
      by eapply cinv_deliver.
    + rewrite lookup_insert_ne in Hl by done. destruct (Hw5 n' c' Hl) as (m & D & Hrest).
      exists m, D. simpl. by rewrite lookup_insert_ne.
Qed.

Lemma winv_connect w n fd :
  winv w → 0 <= n < MAX_STATIC_SOCKETS → n ≠ listen_sock (w_server w) →
  k_fds (v_kern (w_server w)) !! n = None → 0 <= fd → winv (connect n fd w).
Proof using Ha.
  intros [Hw1 Hw2 Hw3 Hw4 Hw5] Hn Hl Hnone Hfd.
  assert (n ∉ backlog (w_server w)) as Hnb. { intros [s Hs]%Hw3. congruence. }
  assert (∀ n', n' ≠ n → n' ∈ backlog (w_server w) ++ [n] ↔ n' ∈ backlog (w_server w)) as Hmem by set_solver.
  constructor; simpl; [done| | | |].
  - apply NoDup_app. split; [done|]. split; [set_solver|]. apply NoDup_singleton.
  - intros n' [Hn'|<-%list_elem_of_singleton]%elem_of_app; rewrite lookup_insert_is_Some'; auto.
  - intros n' s Es. rewrite lookup_insert_is_Some'. destruct (decide (n' = n)) as [->|Hne].
    + rewrite lookup_insert_eq in Es. injection Es as <-. simpl. set_solver.
    + rewrite lookup_insert_ne in Es by done. destruct (Hw4 n' s Es) as (? & ? & ? & ->).
      rewrite Hmem by done. auto.
  - intros n' c Hc. destruct (decide (n' = n)) as [->|Hne].
    + rewrite lookup_insert_eq in Hc. injection Hc as <-. exists (zero_meta n), 0. unfold meta_of. simpl.
      rewrite decide_True by set_solver. split; [done|]. split; [done|].
      destruct Ha as [Hvs Htot Hpl]. split.
      { constructor; simpl; try done; try lia. }
      rewrite lookup_insert_eq. constructor; unfold csock; simpl; rewrite ?lookup_singleton_eq; simpl; try done; try lia.
      * apply partial_0. rewrite len_value by lia.
        change (len (replicate (Z.to_nat MAX_VALUE_SIZE) 0)) with MAX_VALUE_SIZE. lia.
      * apply dir_init.
      * rewrite !Z.mul_0_r. apply dir_init.
      * left. split; [done|]. eexists. split; [done|]. done.
    + rewrite lookup_insert_ne in Hc by done. destruct (Hw5 n' c Hc) as (m & D & Hm & Hrest).
      exists m, D. unfold meta_of in *. simpl. rewrite lookup_insert_ne by done.
      rewrite (decide_ext _ (n' ∈ backlog (w_server w))) by auto. done.
Qed.

Lemma winv_step w w' : winv w → step w w' → winv w'.
Proof using Ha.
  intros Hw. destruct 1 as [w n fd ? ? ? ?|w n c evs ios c' Hc Hq Hb E|w evs ios v' Hb E
    |w n k c cs ss Hc Hcs Hss|w n k c cs ss Hc Hcs Hss|w n c Hc].
  - by apply winv_connect.
  - pose proof (client_round w n c evs ios Hw Hc Hb) as Hwp. unfold wp in Hwp. by rewrite E in Hwp.
  - pose proof (server_round (MkWorld (server_io ios (w_server w)) (w_clients w)) evs (winv_io _ _ Hw) Hb) as Hwp.
    unfold wp in Hwp. simpl in Hwp. by rewrite E in Hwp.
  - eapply winv_deliver; [done..|apply redeliver_up].
  - eapply winv_deliver; [done..|apply redeliver_down].
  - destruct (wi_conn w Hw n c Hc) as (m & D & Hm & Hfd & Hmi & Hci).
    eapply winv_client; [done|by eexists|done|done|done|by apply cinv_quit].
Qed.

Lemma reach_winv w : reach w → winv w.
Proof using Ha.
  intros [l Hr]. remember (init l) as w0 eqn:E0.
  assert (winv w0) as H0 by (subst; apply winv_init). clear E0.
  induction Hr as [|w0 w1 w2 Hs _ IH]; [done|]. apply IH. by eapply winv_step.
Qed.
End world.

(** ** Evaluating runs *)

Inductive action :=
| AConnect (n fd : Z)
| AClient (n ev : Z) (ios : list io)
| AAccept
| AServer (n ev : Z) (ios : list io)
| AUp (n : Z)
| ADown (n : Z).

Section run.
Context (a : client_args) (clock : Z → timespec).

Definition is_polled (k : kern) (fd : Z) : bool :=
  match k_fds k !! fd with Some s => negb (s_epoll s =? 0) | None => false end.

(** One step, when it is possible. *)
Definition exec (act : action) (w : world) : option world :=
  let v := w_server w in
  match act with
  | AConnect n fd =>
      if (0 <=? n) && (n <? MAX_STATIC_SOCKETS) && negb (n =? listen_sock v) && (0 <=? fd) &&
         (if k_fds (v_kern v) !! n is None then true else false)
      then Some (connect n fd w) else None
  | AClient n ev ios =>
      c ← w_clients w !! n;
      if negb (quit c) && is_polled (c_kern c) (client_to_server c) then
        match client_events a clock [(client_to_server c, ev)] (client_io ios c) with
        | Ok _ c' => Some (MkWorld v (<[n := c']> (w_clients w)))
        | Err _ => None
        end
      else None
  | AAccept =>
      if backlog v is [] then None else
      match server_events (value_size a) [(listen_sock v, EPOLLIN)] (server_io [] v) with
      | Ok _ v' => Some (MkWorld v' (w_clients w))
      | Err _ => None
      end
  | AServer n ev ios =>
      if is_polled (v_kern v) n then
        match server_events (value_size a) [(n, ev)] (server_io ios v) with
        | Ok _ v' => Some (MkWorld v' (w_clients w))
        | Err _ => None
        end
      else None
  | AUp n =>
      c ← w_clients w !! n; cs ← csock c; ss ← k_fds (v_kern v) !! n;
      let k := length (s_out cs) in
      Some (MkWorld (put_server_sock n (put_in (s_in ss ++ take k (s_out cs)) ss) v)
        (<[n := put_client_sock (put_out (drop k (s_out cs)) cs) c]> (w_clients w)))
  | ADown n =>
      c ← w_clients w !! n; cs ← csock c; ss ← k_fds (v_kern v) !! n;
      let k := length (s_out ss) in
      Some (MkWorld (put_server_sock n (put_out (drop k (s_out ss)) ss) v)
        (<[n := put_client_sock (put_in (s_in cs ++ take k (s_out ss)) cs) c]> (w_clients w)))
  end.
Fixpoint run (acts : list action) (w : world) : option world :=
  match acts with [] => Some w | act :: acts => exec act w ≫= run acts end.

Lemma is_polled_spec k fd : is_polled k fd = true → polled k fd.
Proof.
  unfold is_polled, polled. destruct (k_fds k !! fd) as [s|]; [|done].
  intros ?%negb_true_iff%Z.eqb_neq. eauto.
Qed.

Lemma exec_step act w w' : exec act w = Some w' → step a clock w w'.
Proof.
  destruct act as [n fd|n ev ios| |n ev ios|n|n]; cbv beta iota zeta delta [exec].
  - case_match eqn:E; [|done]. intros [= <-].
    apply andb_true_iff in E as [[[[E1%Z.leb_le E2%Z.ltb_lt]%andb_true_iff E3%negb_true_iff%Z.eqb_neq]%andb_true_iff
      E4%Z.leb_le]%andb_true_iff E5].
    apply step_connect; [done|done|by destruct (k_fds _ !! n)|done].
  - intros (c & Ec & Hr)%bind_Some. revert Hr. case_match eqn:E; [|done].
    apply andb_true_iff in E as [Hq%negb_true_iff Hp%is_polled_spec].
    destruct (client_events a clock _ _) as [[] c'|] eqn:Ev; [|done]. intros [= <-].
    eapply step_client; [done|done| |exact Ev]. split; [apply NoDup_singleton|].
    by intros e ->%list_elem_of_singleton.
  - destruct (backlog (w_server w)) eqn:Eb; [done|].
    destruct (server_events (value_size a) _ _) as [[] v'|] eqn:Ev; [|done]. intros [= <-].
    eapply (step_server _ _ w [(listen_sock (w_server w), EPOLLIN)] []).
    + split; [apply NoDup_singleton|]. intros e ->%list_elem_of_singleton. left. by rewrite Eb.
    + exact Ev.
  - case_match eqn:E; [|done]. apply is_polled_spec in E.
    destruct (server_events (value_size a) _ _) as [[] v'|] eqn:Ev; [|done]. intros [= <-].
    eapply (step_server _ _ w [(n, ev)] ios).
    + split; [apply NoDup_singleton|]. intros e ->%list_elem_of_singleton. by right.
    + exact Ev.
  - intros (c & Hc & (cs & Hcs & (ss & Hss & [= <-])%bind_Some)%bind_Some)%bind_Some. by apply step_up.
  - intros (c & Hc & (cs & Hcs & (ss & Hss & [= <-])%bind_Some)%bind_Some)%bind_Some. by apply step_down.
Qed.

Lemma run_steps acts w w' : run acts w = Some w' → rtc (step a clock) w w'.
Proof.
  revert w. induction acts as [|act acts IH]; intros w; simpl; [by intros [= <-]|].
  intros (w1 & E & Hr)%bind_Some. eapply rtc_l; [by eapply exec_step|auto].
Qed.

(** The world after a run from the start, and that it is reachable. *)
Definition run_world (acts : list action) : world := default (init 4) (run acts (init 4)).
Lemma run_reach acts : bool_decide (is_Some (run acts (init 4))) = true → reach a clock (run_world acts).
Proof.
  intros [w E]%bool_decide_eq_true. exists 4. unfold run_world. rewrite E. by apply run_steps with acts.
Qed.
End run.
