(* ===== verification/AsyncTheorems.v ===== *)
(** * Asynchronous benchmark: theorems

    The programs of src/legacy/AsyncTCPLinux never fail (a failed assertion,
    an exit, an access outside an array, a loop that does not end), count and
    time the responses as a queue would, and can always complete; with a
    pipeline longer than the ring of time stamps the client aborts. *)

From S2P Require Import Prelude Bytes ConfFile Async AsyncSpec AsyncWorld.

Section progress.
Context (a : client_args) (clock : Z → timespec) (Ha : args_ok a).
Abbreviation vs := (value_size a).
Abbreviation step := (step a clock).

(** ** A connection that is up *)

Record up (w : world) (n : Z) (c : client) (m : socket_metadata) (D : Z) : Prop := {
  u_inv : winv a clock w;
  u_client : w_clients w !! n = Some c;
  u_quit : quit c = false;
  u_backlog : n ∉ backlog (w_server w);
  u_open : is_Some (k_fds (v_kern (w_server w)) !! n);
  u_conn : sinv a clock A0 c n m D (w_server w);
}.

Definition one_byte : list io := [IoBytes 1].

Lemma up_meta w n c m D : up w n c m D → meta_of (w_server w) n = Some m.
Proof. intros [_ _ _ Hb _ (Hm & _)]. unfold meta_of. by rewrite decide_False. Qed.
Lemma up_sock w n c m D : up w n c m D →
  0 <= client_to_server c ∧ ∃ cs, csock c = Some cs ∧ s_epoll cs ≠ 0.
Proof.
  intros [_ _ Hq _ _ (_ & _ & _ & Hc)]. destruct (ci_fds _ _ _ _ _ _ _ _ _ Hc) as [(? & cs & E & ?)|(_ & _ & ?)]; [|congruence].
  split; [done|]. exists cs. unfold csock. by rewrite E, lookup_singleton_eq.
Qed.
Lemma up_polled w n c m D : up w n c m D → polled (v_kern (w_server w)) n.
Proof.
  intros [Hw _ _ Hb [s Es] _]. exists s. split; [done|].
  destruct (wi_fds _ _ w Hw n s Es) as (_ & _ & _ & He). by rewrite He.
Qed.

(** A round of the client on an event of its socket. *)
Lemma up_client_round w n c m D ev :
  up w n c m D → hangs_up ev = false →
  ∃ c', step w (MkWorld (w_server w) (<[n := c']> (w_clients w))) ∧
    event_result a ev (client_io one_byte c) c' ∧
    quit c' = (total_reqs a <=? resp c') ∧
    (quit c' = false → up (MkWorld (w_server w) (<[n := c']> (w_clients w))) n c' m D).
Proof using Ha.
  intros Hu Hev. pose proof (up_meta _ _ _ _ _ Hu) as Hmeta.
  destruct (up_sock _ _ _ _ _ Hu) as (Hpos & cs & Ecs & Hep). destruct Hu as [Hw Hc Hq Hb Ho (Hm & Hfd & Hmi & Hci)].
  pose proof (cinv_io a clock _ _ _ _ one_byte Hci) as Hci'.
  pose proof (wp_client_events a clock Ha A0 m _ D Hmi _ ev Hci' Hpos) as Hwp.
  apply wp_ok in Hwp as ([] & c' & E & Hc' & Hres). exists c'.
  destruct (Hres Hev) as (_ & _ & _ & _ & _ & Hq').
  assert (happy (client_io one_byte c)) as Hh by (split; [done|by repeat constructor]).
  specialize (Hq' Hh). simpl in Hq'. rewrite Hq in Hq'. simpl in Hq'.
  split; [|split; [done|split; [done|]]].
  - eapply step_client; [done|done| |exact E]. split; [apply NoDup_singleton|].
    intros e ->%list_elem_of_singleton. by exists cs.
  - intros Hq2. constructor; simpl; [|by rewrite lookup_insert_eq|done|done|done|by split_and!].
    eapply winv_client; [done|by eexists|done|done|done|done].
Qed.

(** A round of the server on an event of the connection. *)
Lemma up_server_round w n c m D ev :
  up w n c m D → hangs_up ev = false →
  ∃ v' m' D', step w (MkWorld v' (w_clients w)) ∧ up (MkWorld v' (w_clients w)) n c m' D' ∧
    v_got m D <= v_got m' D' ∧ v_sent a m D <= v_sent a m' D' ∧
    (has ev EPOLLOUT = false → has ev EPOLLIN = true →
     go_read n (put_io one_byte (v_kern (w_server w))) → v_got m D < v_got m' D') ∧
    (has ev EPOLLOUT = true → pending m ≠ 0 →
     go_write n (put_io one_byte (v_kern (w_server w))) → v_sent a m D < v_sent a m' D').
Proof using Ha.
  intros Hu Hev. pose proof (up_polled _ _ _ _ _ Hu) as Hp. destruct Hu as [Hw Hc Hq Hb [s Es] Hs].
  destruct (wi_fds _ _ w Hw n s Es) as (_ & Hl & _ & He).
  pose proof (wp_server_event a clock Ha A0 c n m D (server_io one_byte (w_server w)) ev Hs Hl) as Hwp.
  apply wp_ok in Hwp as ([] & v' & E & Hf & m' & D' & Hv' & Hg & Hsd & Hgo1 & Hgo2).
  assert (winv a clock (MkWorld v' (w_clients w))) as Hw'.
  { eapply (winv_frame a clock Ha (MkWorld (server_io one_byte (w_server w)) (w_clients w))); try done.
    - by apply winv_io.
    - by rewrite He. }
  exists v', m', D'. split; [|split; [|by split_and!; auto]].
  - eapply (step_server _ _ w [(n, ev)] one_byte).
    + split; [apply NoDup_singleton|]. intros e ->%list_elem_of_singleton. by right.
    + simpl. unfold mbind, M_bind. by rewrite E.
  - destruct Hf as [_ Hbl _ _ _ Hep]. constructor; simpl; try done; [by rewrite Hbl|].
    destruct Hep as [[Hx _]|Hep]; [by rewrite Hev in Hx|]. simpl in Hep. rewrite Es in Hep.
    by destruct (k_fds (v_kern v') !! n).
Qed.

(** The network delivers everything that a sender has written. *)
Lemma up_deliver w n c m D cs ss cs' ss' :
  up w n c m D → csock c = Some cs → k_fds (v_kern (w_server w)) !! n = Some ss →
  redeliver cs ss cs' ss' →
  up (MkWorld (put_server_sock n ss' (w_server w)) (<[n := put_client_sock cs' c]> (w_clients w)))
    n (put_client_sock cs' c) m D.
Proof.
  intros [Hw Hc Hq Hb _ (Hm & Hfd & Hmi & Hci)] Hcs Hss Hre. rewrite Hss in Hci. constructor; simpl; try done.
  - by eapply winv_deliver.
  - by rewrite lookup_insert_eq.
  - by rewrite lookup_insert_eq.
  - split; [done|]. split; [done|]. split; [done|]. simpl. rewrite lookup_insert_eq. by eapply cinv_deliver.
Qed.

Lemma dir_all p sent got out rin :
  dir p sent got (Some out) (Some rin) → got < sent → rin ++ out ≠ [].
Proof.
  intros [_ Hd] Hlt E. destruct (Hd rin eq_refl) as (_ & _ & He). simpl in He. rewrite E in He.
  specialize (He (mk_is_Some _ _ eq_refl)). change (len (@nil Z)) with 0 in He. lia.
Qed.

(** ** Every connection can complete *)

Definition finished (w : world) (n : Z) : Prop :=
  ∃ c, w_clients w !! n = Some c ∧ quit c = true ∧ resp c = total_reqs a ∧ req c = total_reqs a.
(** The bytes that have moved at the four ends of the two streams. *)
Definition work (c : client) (m : socket_metadata) (D : Z) : Z :=
  sent c + v_got m D + v_sent a m D + got a c.
Definition advances (w : world) (n : Z) (k : Z) : Prop :=
  ∃ w', rtc step w w' ∧ (finished w' n ∨ ∃ c m D, up w' n c m D ∧ k < work c m D).

Lemma up_counts w n c m D : up w n c m D →
  0 <= resp c <= D - pending m ∧ 0 <= pending m ∧ D <= req c <= total_reqs a ∧
  v_got m D <= sent c ∧ got a c <= v_sent a m D.
Proof using Ha.
  intros [_ _ _ _ _ (_ & _ & Hmi & Hci)]. pose proof (cinv_counts a clock Ha _ _ _ _ Hmi _ Hci).
  pose proof (ci_cnt _ _ _ _ _ _ _ _ _ Hci). pose proof (mi_pending _ _ _ Hmi).
  destruct (ci_up _ _ _ _ _ _ _ _ _ Hci) as [? _]. destruct (ci_down _ _ _ _ _ _ _ _ _ Hci) as [? _].
  unfold sent, got, v_got, v_sent. lia.
Qed.

Lemma quit_finished w n c :
  winv a clock w → w_clients w !! n = Some c → quit c = true → total_reqs a <= resp c → finished w n.
Proof using Ha.
  intros Hw Hc Hq Hle. exists c. split; [done|]. split; [done|].
  destruct (wi_conn _ _ w Hw n c Hc) as (m & D & _ & _ & Hmi & Hci).
  pose proof (cinv_counts a clock Ha _ _ _ _ Hmi _ Hci). pose proof (ci_cnt _ _ _ _ _ _ _ _ _ Hci). lia.
Qed.

Lemma client_advances w n c m D ev k :
  up w n c m D → hangs_up ev = false →
  (∀ c', event_result a ev (client_io one_byte c) c' → k < work c' m D) → advances w n k.
Proof using Ha.
  intros Hu Hev Hk. destruct (up_client_round w n c m D ev Hu Hev) as (c' & Hs & Hres & Hq & Hup).
  eexists. split; [by apply rtc_once|]. destruct (quit c') eqn:Eq.
  - left. eapply (quit_finished _ n c'); [by eapply winv_step; [|apply Hu|done]|simpl; by rewrite lookup_insert_eq|done|].
    by apply Z.leb_le.
  - right. exists c', m, D. split; [auto|]. by apply Hk.
Qed.

Lemma advances_step w w' n k : step w w' → advances w' n k → advances w n k.
Proof. intros Hs (w2 & Hr & H2). exists w2. split; [|done]. by eapply rtc_l. Qed.

Lemma go_one_read fd k s : k_fds k !! fd = Some s → s_in s ≠ [] → go_read fd (put_io one_byte k).
Proof. intros. by exists 1%positive, [], s. Qed.
Lemma go_one_write fd k s : k_fds k !! fd = Some s → go_write fd (put_io one_byte k).
Proof. intros. by exists 1%positive, [], s. Qed.

(** A response is under way: it is delivered and read. *)
Lemma advance_response w n c m D :
  up w n c m D → got a c < v_sent a m D → advances w n (work c m D).
Proof using Ha.
  intros Hu Hlt. destruct (up_sock _ _ _ _ _ Hu) as (_ & cs & Ecs & _). pose proof Hu as [Hw Hc _ _ [ss Ess] (_ & _ & _ & Hci)].
  pose proof (ci_down _ _ _ _ _ _ _ _ _ Hci) as Hd. rewrite Ess, Ecs in Hd. simpl in Hd.
  eapply advances_step; [apply (step_down _ _ w n (length (s_out ss)) c cs ss); done|].
  pose proof (up_deliver _ _ _ _ _ _ _ _ _ Hu Ecs Ess (redeliver_down cs ss (length (s_out ss)))) as Hu'.
  eapply (client_advances _ _ _ _ _ EPOLLIN); [exact Hu'|done|].
  intros c' Hres. destruct (Hres eq_refl) as (_ & Hs & _ & _ & Hg & _).
  assert (got a c < got a c') as Hg'.
  { apply Hg; [done|done|]. eapply (go_one_read (client_to_server c) (c_kern (put_client_sock _ c)));
      [apply lookup_insert_eq|]. simpl. rewrite firstn_all. by eapply dir_all. }
  assert (sent c <= sent c') by exact Hs. unfold work. lia.
Qed.

(** A request is under way: it is delivered and read. *)
Lemma advance_request w n c m D :
  up w n c m D → v_got m D < sent c → advances w n (work c m D).
Proof using Ha.
  intros Hu Hlt. destruct (up_sock _ _ _ _ _ Hu) as (_ & cs & Ecs & _). pose proof Hu as [Hw Hc _ _ [ss Ess] (_ & _ & _ & Hci)].
  pose proof (ci_up _ _ _ _ _ _ _ _ _ Hci) as Hd. rewrite Ess, Ecs in Hd. simpl in Hd.
  eapply advances_step; [apply (step_up _ _ w n (length (s_out cs)) c cs ss); done|].
  pose proof (up_deliver _ _ _ _ _ _ _ _ _ Hu Ecs Ess (redeliver_up cs ss (length (s_out cs)))) as Hu'.
  destruct (up_server_round _ _ _ _ _ EPOLLIN Hu' eq_refl) as (v' & m' & D' & Hs & Hup & _ & Hsd & Hgo & _).
  eexists. split; [by apply rtc_once|]. right. eexists _, m', D'. split; [exact Hup|].
  assert (v_got m D < v_got m' D') as Hg'.
  { apply Hgo; [done|done|]. eapply go_one_read; [apply lookup_insert_eq|]. simpl. rewrite firstn_all.
    by eapply dir_all. }
  change (work c m D < work c m' D'). unfold work. lia.
Qed.

(** The server owes a response. *)
Lemma advance_pending w n c m D :
  up w n c m D → pending m ≠ 0 → advances w n (work c m D).
Proof using Ha.
  intros Hu Hp. pose proof Hu as [_ _ _ _ [ss Ess] _].
  destruct (up_server_round _ _ _ _ _ EPOLLOUT Hu eq_refl) as (v' & m' & D' & Hs & Hup & Hg & _ & _ & Hgo).
  eexists. split; [by apply rtc_once|]. right. eexists _, m', D'. split; [exact Hup|].
  specialize (Hgo eq_refl Hp (go_one_write _ _ _ Ess)). unfold work. lia.
Qed.

(** Everything is answered, and there is more to ask. *)
Lemma advance_idle w n c m D :
  up w n c m D → req c = resp c → resp c < total_reqs a → 0 < pipeline a → advances w n (work c m D).
Proof using Ha.
  intros Hu Hreq Hlt Hpl. destruct (up_sock _ _ _ _ _ Hu) as (_ & cs & Ecs & _).
  eapply (client_advances _ _ _ _ _ EPOLLOUT); [exact Hu|done|].
  intros c' Hres. destruct (Hres eq_refl) as (_ & _ & Hg & Hs & _).
  assert (sent c < sent c').
  { apply Hs; [done| |by eapply go_one_write]. unfold may_send. simpl. rewrite Hreq, Z.sub_diag.
    apply andb_true_iff. split; by apply Z.ltb_lt. }
  assert (got a c <= got a c') by exact Hg. unfold work. lia.
Qed.

Lemma advance w n c m D :
  up w n c m D → resp c < total_reqs a → 0 < pipeline a → advances w n (work c m D).
Proof using Ha.
  intros Hu Hlt Hpl. pose proof (up_counts _ _ _ _ _ Hu) as (? & ? & ? & Hg & Hs).
  pose proof Hu as [_ _ _ _ _ (_ & _ & Hmi & Hci)]. destruct Hmi as [Hr Hw _ _].
  pose proof (ci_rd _ _ _ _ _ _ _ _ _ Hci). pose proof (ci_wr _ _ _ _ _ _ _ _ _ Hci).
  destruct (decide (got a c < v_sent a m D)); [by apply advance_response|].
  destruct (decide (pending m = 0)) as [Hp|]; [|by apply advance_pending].
  destruct (decide (v_got m D < sent c)); [by apply advance_request|].
  apply advance_idle; [done| |done|done].
  unfold got, sent, v_got, v_sent in *. rewrite Hp, Z.sub_0_r in *.
  assert (req c <= D) by (apply (count_le KEY_SIZE _ (write_offset c) _ (r_offset m)); lia).
  assert (D <= resp c) by (apply (count_le vs _ (w_offset m) _ (read_offset c)); lia). lia.
Qed.

Lemma work_bound w n c m D :
  up w n c m D → 0 <= work c m D <= 2 * (KEY_SIZE + vs) * (total_reqs a + 1).
Proof using Ha.
  intros Hu. pose proof (up_counts _ _ _ _ _ Hu) as (? & ? & ? & Hg & Hs).
  pose proof Hu as [_ _ _ _ _ (_ & _ & Hmi & Hci)]. destruct Hmi as [Hr Hw _ _].
  pose proof (ci_rd _ _ _ _ _ _ _ _ _ Hci). pose proof (ci_wr _ _ _ _ _ _ _ _ _ Hci).
  destruct (ok_value _ Ha). unfold work in *. unfold got, sent, v_got, v_sent, KEY_SIZE in *. nia.
Qed.

(** A client that has all its responses notices in the next round. *)
Lemma up_answered w n c m D :
  up w n c m D → total_reqs a <= resp c → ∃ w', rtc step w w' ∧ finished w' n.
Proof using Ha.
  intros Hu Hle. destruct (up_client_round w n c m D EPOLLIN Hu eq_refl) as (c' & Hs & Hres & Hq & Hup).
  assert (total_reqs a <= resp c') as Hle'.
  { destruct (quit c') eqn:Eq; [by apply Z.leb_le|]. specialize (Hup eq_refl).
    destruct (Hres eq_refl) as (_ & _ & Hg & _). assert (got a c <= got a c') as Hg' by exact Hg.
    pose proof Hup as [_ _ _ _ _ (_ & _ & _ & Hci')]. pose proof Hu as [_ _ _ _ _ (_ & _ & _ & Hci)].
    pose proof (ci_rd _ _ _ _ _ _ _ _ _ Hci). pose proof (ci_rd _ _ _ _ _ _ _ _ _ Hci').
    assert (resp c <= resp c') by (apply (count_le vs _ (read_offset c) _ (read_offset c')); unfold got in *; lia). lia. }
  eexists. split; [by apply rtc_once|]. eapply (quit_finished _ n c');
    [by eapply winv_step; [|apply Hu|done]|simpl; by rewrite lookup_insert_eq| |done].
  rewrite Hq. by apply Z.leb_le.
Qed.

Lemma up_finishes w n c m D :
  up w n c m D → 0 < pipeline a → ∃ w', rtc step w w' ∧ finished w' n.
Proof using Ha.
  intros Hu Hpl. remember (Z.to_nat (2 * (KEY_SIZE + vs) * (total_reqs a + 1) - work c m D)) as k eqn:Ek.
  revert w c m D Hu Ek. induction (lt_wf k) as [k _ IH]. intros w c m D Hu Ek.
  destruct (decide (total_reqs a <= resp c)); [by eapply up_answered|].
  destruct (advance w n c m D Hu ltac:(lia) Hpl) as (w1 & Hr & [Hf|(c1 & m1 & D1 & Hu1 & Hlt)]).
  { by exists w1. }
  pose proof (work_bound _ _ _ _ _ Hu). pose proof (work_bound _ _ _ _ _ Hu1).
  set (B := 2 * (KEY_SIZE + vs) * (total_reqs a + 1)) in *.
  assert (Z.to_nat (B - work c1 m1 D1) < k)%nat as Hk by lia.
  destruct (IH _ Hk w1 c1 m1 D1 Hu1 eq_refl) as (w2 & Hr2 & Hf). exists w2. split; [by etrans|done].
Qed.

(** A connection that waits is accepted in the end. *)
Lemma accepted w n c :
  winv a clock w → w_clients w !! n = Some c → quit c = false →
  is_Some (k_fds (v_kern (w_server w)) !! n) → ∃ w' m D, rtc step w w' ∧ up w' n c m D.
Proof using Ha.
  remember (length (backlog (w_server w))) as k eqn:Ek. revert w Ek. induction k as [k IH] using lt_wf_ind.
  intros w Ek Hw Hc Hq Ho. destruct (decide (n ∈ backlog (w_server w))) as [Hb|Hb]; last first.
  { destruct (wi_conn _ _ w Hw n c Hc) as (m & D & Hm & Hrest). unfold meta_of in Hm.
    rewrite decide_False in Hm by done. exists w, m, D. split; [done|]. by constructor. }
  assert (backlog (w_server w) ≠ []) as Hne by (by destruct (backlog (w_server w)); [apply elem_of_nil in Hb|]).
  pose proof (accept_round a clock Ha (MkWorld (server_io [] (w_server w)) (w_clients w))
    (winv_io _ _ _ _ Hw) Hne) as Hwp.
  apply wp_ok in Hwp as ([] & v' & E & Hw' & Hl & Hb' & Ho' & _). simpl in *.
  assert (length (backlog v') < k)%nat as Hk.
  { rewrite Hb', Ek. destruct (backlog (w_server w)); [done|simpl; lia]. }
  destruct (IH _ Hk
    (MkWorld v' (w_clients w)) eq_refl Hw' Hc Hq (Ho' _ Ho)) as (w2 & m & D & Hr & Hu).
  exists w2, m, D. split; [|done]. eapply rtc_l; [|exact Hr].
  eapply (step_server _ _ w [(listen_sock (w_server w), EPOLLIN)] []).
  - split; [apply NoDup_singleton|]. intros e ->%list_elem_of_singleton. by left.
  - simpl. unfold server_event, mbind, M_bind. simpl. rewrite Z.eqb_refl. simpl. by rewrite E.
Qed.
End progress.

(** ** The theorems *)

(** C14: the asynchronous benchmark never fails. Take any number of clients
    with a pipeline shorter than the ring of 512 time stamps, any interleaving
    of their event loops with the server's, any answers of the kernel
    (partial reads and writes, EAGAIN, errors, end of file), any delivery of
    bytes and any signals. In every world that is reached, every batch of
    events that epoll may report is handled: no assertion fails (in
    particular a response never finds the ring empty), no program exits, no
    array is accessed outside, no counter overflows, no loop goes on. *)
Theorem async_never_fails (a : client_args) (clock : Z → timespec) (Ha : args_ok a)
    (w : world) (Hw : reach a clock w) :
  (∀ n c evs ios, w_clients w !! n = Some c → client_batch c evs →
     ∃ c', client_events a clock evs (client_io ios c) = Ok tt c') ∧
  (∀ evs ios, server_batch (w_server w) evs →
     ∃ v', server_events (value_size a) evs (server_io ios (w_server w)) = Ok tt v').
Proof.
  apply (reach_winv a clock Ha) in Hw. split.
  - intros n c evs ios Hc Hb. pose proof (client_round a clock Ha w n c evs ios Hw Hc Hb) as Hwp.
    apply wp_ok in Hwp as ([] & c' & E & _). eauto.
  - intros evs ios Hb.
    pose proof (server_round a clock Ha _ evs (winv_io a clock w ios Hw) Hb) as Hwp.
    apply wp_ok in Hwp as ([] & v' & E & _). eauto.
Qed.




(** ** A concrete run, and the default settings *)

(** Two requests in a pipeline of two, answered with values of three bytes:
    both were sent, one is answered and the second response is under way. *)
Definition small_args : client_args := MkArgs 9876 0 1 (Some [49]) 33 2 2 1 false 3.
Definition ticks (i : Z) : timespec := MkTime i 0.
Definition small_run : list action :=
  [AConnect 5 3; AClient 5 EPOLLOUT [IoBytes 40; IoBytes 30; IoBytes 64]; AUp 5; AAccept;
   AServer 5 EPOLLIN [IoBytes 100; IoBytes 50; IoBytes 50]; AServer 5 EPOLLOUT [IoBytes 3; IoBytes 2]; ADown 5;
   AClient 5 EPOLLIN [IoBytes 2; IoBytes 2; IoBytes 2]].
Definition small_world : world := run_world small_args ticks small_run.
Definition small_client : client := default (client_init 0) (w_clients small_world !! 5).

Lemma small_args_ok : args_ok small_args.
Proof. constructor; vm_compute; split; congruence. Defined.
Lemma small_reach : reach small_args ticks small_world.
Proof. apply run_reach. vm_compute. reflexivity. Defined.

Example small_state :
  (req small_client, resp small_client, read_offset small_client, lat_sum small_client, queue small_client)
  = (2, 1, 2, 2000000, [MkTime 1 0]).
Proof. vm_compute. reflexivity. Qed.

Lemma async_never_fails_witness :
  (∀ n c evs ios, w_clients small_world !! n = Some c → client_batch c evs →
     ∃ c', client_events small_args ticks evs (client_io ios c) = Ok tt c') ∧
  (∀ evs ios, server_batch (w_server small_world) evs →
     ∃ v', server_events (value_size small_args) evs (server_io ios (w_server small_world)) = Ok tt v').
Proof. exact (async_never_fails small_args ticks small_args_ok small_world small_reach). Defined.




(** The requests that fill the ring, and the first response. *)
Definition flood : list action :=
  [AConnect 5 3; AAccept; AClient 5 EPOLLOUT (replicate 512 (IoBytes 64)); AUp 5;
   AServer 5 EPOLLIN [IoBytes 64]; AServer 5 EPOLLOUT [IoBytes 4096]; ADown 5].

(** After the run [acts] the client 5 has 512 open requests, and the event
    of the response fails the assertion. *)
Definition aborts_after (a : client_args) (clock : Z → timespec) (acts : list action) : bool :=
  match run a clock acts (init 4) with
  | None => false
  | Some w =>
      match w_clients w !! 5 with
      | None => false
      | Some c =>
          (req c =? 512) && (resp c =? 0) && negb (quit c) && is_polled (c_kern c) 3 &&
          match client_events a clock [(3, EPOLLIN)] (client_io [IoBytes 4096] c) with
          | Err AssertFail => true
          | _ => false
          end
      end
  end.
Lemma flood_aborts clock ip :
  aborts_after (MkArgs 9876 0 1 (Some ip) 33 4000000 4000000 1 false 4096) clock flood = true.
Proof. vm_compute. reflexivity. Qed.

(** C39: with the default settings the client aborts. When only the address
    of the server is given, the pipeline is 4000000 requests; there is a run,
    without any failure of the kernel or of the network, that reaches a world
    in which the client has sent 512 requests and the response to the first
    one has arrived, and the assertion [ts_cons != ts_prod] of
    [client_recv_resp] fails: the ring of 512 time stamps has wrapped. *)
Theorem async_default_aborts (clock : Z → timespec) (ip : list Z) :
  ∃ a w c, parse_args [(104, ip)] = Some a ∧ pipeline a = MAX_REQUESTS ∧
    reach a clock w ∧ w_clients w !! 5 = Some c ∧ req c = 512 ∧ resp c = 0 ∧ quit c = false ∧
    client_batch c [(3, EPOLLIN)] ∧
    client_events a clock [(3, EPOLLIN)] (client_io [IoBytes 4096] c) = Err AssertFail.
Proof.
  set (a := MkArgs 9876 0 1 (Some ip) 33 4000000 4000000 1 false 4096).
  pose proof (flood_aborts clock ip) as E. fold a in E. unfold aborts_after in E.
  destruct (run a clock flood (init 4)) as [w|] eqn:Ew; [|done].
  destruct (w_clients w !! 5) as [c|] eqn:Ec; [|done].
  apply andb_true_iff in E as [[[[E1%Z.eqb_eq E2%Z.eqb_eq]%andb_true_iff E3%negb_true_iff]%andb_true_iff
    E4%is_polled_spec]%andb_true_iff E5].
  exists a, w, c. split; [reflexivity|]. split; [reflexivity|].
  split; [exists 4; eapply run_steps; exact Ew|]. split; [exact Ec|]. split; [exact E1|].
  split; [exact E2|]. split; [exact E3|]. split.
  - split; [apply NoDup_singleton|]. intros e ->%list_elem_of_singleton. exact E4.
  - revert E5. generalize (client_events a clock [(3, EPOLLIN)] (client_io [IoBytes 4096] c)).
    by intros [|[]].
Qed.
