(* ===== verification/PageRank.v ===== *)
(** * PageRank: src/legacy/pagerank

    The program reads a file of edges twice, builds the arrays of the graph
    (the edges of all vertices one after the other, each vertex with its
    offset and degree) through growing arrays of [int], and runs rounds of
    PageRank over them. [double] is abstract, with the one fact that an [int]
    survives the conversion to [double] and back; what [malloc] hands out is
    arbitrary. The lines of the file are taken as [sscanf] parses them, a pair
    of numbers each. *)

From S2P Require Import Prelude Bytes.

(** The arithmetic of [double]. *)
Class Double := {
  double : Type;
  d_of_int : Z → double;
  d_to_int : double → Z;
  d_add : double → double → double;
  d_sub : double → double → double;
  d_mul : double → double → double;
  d_div : double → double → double;
  d_int_exact z : - 2 ^ 31 <= z < 2 ^ 31 → d_to_int (d_of_int z) = z;
}.

Definition INT_MAX : Z := 2 ^ 31 - 1.

(** ** structures.c: arrays that grow *)

Record IntArr := MkIntArr { array : list Z; used : Z; size : Z }.

Section IntArr.
Context (raw_int : Z → Z).

(** Memory of [n] integers that nobody has written. *)
Definition raw_ints (n : Z) : list Z := map raw_int (seqZ 0 n).

Definition initArray (initial_size : Z) : IntArr := MkIntArr (raw_ints initial_size) 0 initial_size.
Definition insertArray (element : Z) : M IntArr unit :=
  a ← gets id;
  when (used a =? size a)
    (modify (λ a, let n := u64 (size a * 2) in
                  MkIntArr (array a ++ raw_ints (n - size a)) (used a) n));;
  astore array (λ l a, MkIntArr l (used a) (size a)) (used a) element;;
  modify (λ a, MkIntArr (array a) (used a + 1) (size a)).
Definition freeArray : M IntArr unit := modify (λ _, MkIntArr [] 0 0).

(** What the array holds. *)
Record arr_ok (a : IntArr) (l : list Z) : Prop := {
  ao_used : used a = len l;
  ao_size : 0 < size a ∧ used a <= size a;
  ao_len : len (array a) = size a;
  ao_take : take (length l) (array a) = l;
}.

Lemma len_raw_ints n : 0 <= n → len (raw_ints n) = n.
Proof. intros. unfold len, raw_ints. rewrite length_map, length_seqZ. lia. Qed.
Lemma initArray_ok n : 0 < n → arr_ok (initArray n) [].
Proof. intros. constructor; simpl; [done|lia|apply len_raw_ints; lia|done]. Qed.

(** Storing after the last element appends. *)
Lemma take_upd_end {A} (l l' : list A) x :
  take (length l') l = l' → (length l' < length l)%nat →
  take (length (l' ++ [x])) (upd l (len l') x) = l' ++ [x].
Proof.
  intros Ht Hlt. unfold upd, len. rewrite Nat2Z.id, length_app. simpl.
  rewrite Nat.add_1_r, (take_S_r _ _ x) by (by apply list_lookup_insert_eq).
  f_equal. by rewrite take_insert_ge by lia.
Qed.

Lemma wp_insertArray a l x Q :
  arr_ok a l → size a < 2 ^ 62 → (∀ a', arr_ok a' (l ++ [x]) → size a' <= Z.max (size a) (2 * len l) → Q tt a') →
  wp (insertArray x) a Q.
Proof.
  intros [Hu Hs Hl Ht] Hmax HQ. unfold insertArray. wp_pure. unfold id. rewrite wp_when_modify.
  set (a1 := if used a =? size a then _ else a).
  assert (arr_ok a1 l ∧ used a1 < size a1 ∧ size a1 <= Z.max (size a) (2 * len l)) as ([Hu1 Hs1 Hl1 Ht1] & Hlt & Hmax1).
  { unfold a1. case (Z.eqb_spec (used a) (size a)) as [E|E]; [|split; [done|lia]]. simpl.
    rewrite u64_small by lia. split; [|lia]. constructor; simpl; [done|lia| |].
    - rewrite len_app, len_raw_ints by lia. lia.
    - rewrite take_app_le by (unfold len in *; lia). done. }
  assert (used a1 = used a) as Hua by (unfold a1; by destruct (used a =? size a)).
  rewrite <-Hua, wp_bind. pose proof (len_nonneg l). apply wp_astore; [lia|]. wp_pure. apply HQ; [|done]. constructor; simpl.
  - rewrite Hu1. len_lia.
  - lia.
  - by rewrite len_upd.
  - rewrite Hu1. apply take_upd_end; [done|]. unfold len in *. lia.
Qed.
End IntArr.

(** ** parse_file *)

Section PageRank.
Context `{Double}.

Record vertex := MkVertex { incoming_rank : double; num_edges : Z; edge_offset : Z }.
Definition put_incoming (x : double) (v : vertex) : vertex := MkVertex x (num_edges v) (edge_offset v).
Definition put_num_edges (x : Z) (v : vertex) : vertex := MkVertex (incoming_rank v) x (edge_offset v).
Definition put_edge_offset (x : Z) (v : vertex) : vertex := MkVertex (incoming_rank v) (num_edges v) x.

(** The global arrays. *)
Record graph := MkGraph {
  edges : list double; edgenorm : list double; vertices : list vertex; rank : list double;
  num_vertices : Z }.
Definition put_edges x g := MkGraph x (edgenorm g) (vertices g) (rank g) (num_vertices g).
Definition put_edgenorm x g := MkGraph (edges g) x (vertices g) (rank g) (num_vertices g).
Definition put_vertices x g := MkGraph (edges g) (edgenorm g) x (rank g) (num_vertices g).
Definition put_rank x g := MkGraph (edges g) (edgenorm g) (vertices g) x (num_vertices g).

(** What is in memory that [malloc] returns. *)
Record raw := MkRaw { raw_int : Z → Z; raw_double : Z → double; raw_vertex : Z → vertex }.
Context (junk : raw).

(** The globals and the local array [vs] of [parse_file]. *)
Record parsing := MkParsing { p_graph : graph; p_vs : list IntArr }.
Definition put_graph (g : graph) (p : parsing) : parsing := MkParsing g (p_vs p).
Definition put_vs (l : list IntArr) (p : parsing) : parsing := MkParsing (p_graph p) l.
Definition on_graph {A} (m : M graph A) : M parsing A := zoom p_graph put_graph m.

(** The first pass: the largest number and how many lines. *)
Fixpoint first_pass (lines : list (Z * Z)) (max count : Z) : Z * Z :=
  match lines with
  | [] => (max, count)
  | (v1, v2) :: lines =>
      let max := if max <? v1 then v1 else max in
      let max := if max <? v2 then v2 else max in
      first_pass lines max (count + 1)
  end.

Definition malloc_graph (n count : Z) : graph :=
  MkGraph (map (raw_double junk) (seqZ 0 count)) (map (raw_double junk) (seqZ 0 n))
    (map (raw_vertex junk) (seqZ 0 n)) (map (raw_double junk) (seqZ 0 n)) n.

(** [insertArray(&vs[i], x)] *)
Definition insert_at (i x : Z) : M parsing unit :=
  a ← aload p_vs i;
  match insertArray (raw_int junk) x a with
  | Ok _ a' => astore p_vs put_vs i a'
  | Err e => err e
  end.

(** The second pass: degrees, and the targets of every vertex. *)
Fixpoint second_pass (lines : list (Z * Z)) : M parsing unit :=
  match lines with
  | [] => mret tt
  | (v1, v2) :: lines =>
      v ← on_graph (aload vertices v1);
      guard_or (num_edges v <? INT_MAX) Overflow;;
      on_graph (astore vertices put_vertices v1 (put_num_edges (num_edges v + 1) v));;
      insert_at v1 v2;;
      second_pass lines
  end.

(** The targets of one vertex are copied, from [edges[k]] on. *)
Fixpoint copy_edges (n : nat) (a : IntArr) (j k : Z) : M parsing unit :=
  match n with
  | O => mret tt
  | S n =>
      x ← aload (λ _, array a) j;
      on_graph (astore edges put_edges k (d_of_int x));;
      copy_edges n a (j + 1) (k + 1)
  end.
Fixpoint set_vertices (n : nat) (i k : Z) : M parsing unit :=
  match n with
  | O => mret tt
  | S n =>
      on_graph (astore rank put_rank i (d_of_int 1));;
      v ← on_graph (aload vertices i);
      guard_or (num_edges v <? INT_MAX) Overflow;;
      on_graph (astore edgenorm put_edgenorm i (d_of_int (num_edges v + 1)));;
      on_graph (astore vertices put_vertices i (put_edge_offset k v));;
      a ← aload p_vs i;
      copy_edges (Z.to_nat (used a)) a 0 k;;
      set_vertices n (i + 1) (k + used a)
  end.

(** The globals afterwards. The arrays of [vs] are freed. *)
Definition parse_file (lines : list (Z * Z)) : res unit graph :=
  let '(max, count) := first_pass lines 0 0 in
  if (INT_MAX <=? max) || (INT_MAX <? count) then Err Overflow else
  let n := max + 1 in
  let p := MkParsing (malloc_graph n count)
             (replicate (Z.to_nat n) (initArray (raw_int junk) 100)) in
  match (second_pass lines;; set_vertices (Z.to_nat n) 0 0) p with
  | Ok _ p => Ok (p_graph p) tt
  | Err e => Err e
  end.

(** ** pagerank.c *)

(** The loop over the edges of a vertex. *)
Fixpoint push_rank (n : nat) (off k : Z) (outrank : double) : M graph unit :=
  match n with
  | O => mret tt
  | S n =>
      e ← aload edges (off + k);
      let edge_to := d_to_int e in
      v ← aload vertices edge_to;
      astore vertices put_vertices edge_to (put_incoming (d_add (incoming_rank v) outrank) v);;
      push_rank n off (k + 1) outrank
  end.
Definition send_ranks : M graph unit :=
  n ← gets num_vertices;
  for_range 0 n (λ j,
    r ← aload rank j;
    e ← aload edgenorm j;
    v ← aload vertices j;
    push_rank (Z.to_nat (num_edges v)) (edge_offset v) 0 (d_div r e)).
Definition update_ranks (alpha d : double) : M graph unit :=
  n ← gets num_vertices;
  for_range 0 n (λ j,
    v ← aload vertices j;
    astore rank put_rank j (d_add alpha (d_mul d (incoming_rank v)))).
Definition pagerank (rounds : Z) (d : double) : M graph unit :=
  n ← gets num_vertices;
  let alpha := d_div (d_sub (d_of_int 1) d) (d_of_int n) in
  for_range 0 rounds (λ _, send_ranks;; update_ranks alpha d).

(** The ranks that [main] prints. *)
Definition main (lines : list (Z * Z)) (rounds : Z) (d : double) : res unit (list double) :=
  match parse_file lines with
  | Err e => Err e
  | Ok g _ =>
      match pagerank rounds d g with
      | Err e => Err e
      | Ok _ g => Ok (rank g) tt
      end
  end.
End PageRank.
