(* ===== verification/PageRankSpec.v ===== *)
(** * PageRank: the graph that is read and the ranks that are computed

    [succ] is the targets of a vertex in the order of the file. [graph_ok]
    relates the arrays of the program to the edges: every vertex has its
    targets at its offset. [ref_ranks] is the iteration that the loops
    implement, written vertex by vertex. *)

From Stdlib Require Import QArith.
From S2P Require Import Prelude Bytes PageRank.
Open Scope Z_scope.

Definition succ (es : list (Z * Z)) (v : Z) : list Z := (filter (λ e, e.1 = v) es).*2.
(** The targets of the vertices below [i], one after the other. *)
Definition rows (es : list (Z * Z)) (i : Z) : list Z := concat (map (succ es) (seqZ 0 i)).
Definition edges_ok (n : Z) (es : list (Z * Z)) : Prop := Forall (λ e, 0 <= e.1 < n ∧ 0 <= e.2 < n) es.

Lemma succ_cons e es v : succ (e :: es) v = if decide (e.1 = v) then e.2 :: succ es v else succ es v.
Proof. unfold succ. rewrite filter_cons. by case_decide. Qed.
Lemma succ_snoc es e v : succ (es ++ [e]) v = succ es v ++ (if decide (e.1 = v) then [e.2] else []).
Proof.
  unfold succ. rewrite filter_app, fmap_app. f_equal. rewrite filter_cons. by case_decide.
Qed.
Lemma succ_len es v : len (succ es v) <= len es.
Proof. unfold succ, len. rewrite length_fmap. pose proof (length_filter (λ e : Z * Z, e.1 = v) es). lia. Qed.
Lemma succ_ok n es v : edges_ok n es → Forall (λ t, 0 <= t < n) (succ es v).
Proof.
  intros Hes. unfold succ. apply Forall_fmap, Forall_forall. intros e He.
  apply list_elem_of_filter in He as [_ He]. by eapply (Forall_forall _ _) in Hes as [_ ?].
Qed.

Lemma rows_S es i : 0 <= i → rows es (i + 1) = rows es i ++ succ es i.
Proof.
  intros Hi. unfold rows. rewrite seqZ_app by lia. rewrite map_app, concat_app. simpl.
  by rewrite Z.add_0_l, app_nil_r.
Qed.
Lemma rows_mono es i j : 0 <= i <= j → len (rows es i) <= len (rows es j).
Proof.
  intros Hij. replace j with (i + (j - i)) by lia. unfold rows. rewrite seqZ_app by lia.
  rewrite map_app, concat_app, len_app. pose proof (len_nonneg (concat (map (succ es) (seqZ (0 + i) (j - i))))). lia.
Qed.
Lemma rows_cons_len e es i :
  0 <= i → len (rows (e :: es) i) = len (rows es i) + (if decide (0 <= e.1 < i) then 1 else 0).
Proof.
  intros Hi. pattern i. apply natlike_ind; [|clear i Hi; intros i Hi IH|done].
  { rewrite decide_False by lia. done. }
  change (Z.succ i) with (i + 1). rewrite !rows_S, !len_app, IH, succ_cons by done.
  repeat case_decide; rewrite ?len_cons; lia.
Qed.
(** All edges are in some row. *)
Lemma rows_len n es : 0 <= n → edges_ok n es → len (rows es n) = len es.
Proof.
  intros Hn Hes. induction Hes as [|e es [He _] _ IH].
  - clear -Hn. pattern n. apply natlike_ind; [done| |done]. intros i Hi IH.
    change (Z.succ i) with (i + 1). rewrite rows_S, len_app, IH by done. done.
  - rewrite rows_cons_len, len_cons, IH, decide_True by done. done.
Qed.

(** ** The first pass *)

Lemma first_pass_ge es mx c : mx <= (first_pass es mx c).1 ∧ (first_pass es mx c).2 = c + len es.
Proof.
  revert mx c. induction es as [|[v1 v2] es IH]; intros mx c; simpl; [rewrite len_nil; lia|].
  rewrite len_cons. destruct (IH (if (if mx <? v1 then v1 else mx) <? v2 then v2
    else if mx <? v1 then v1 else mx) (c + 1)) as [H1 ->]. split; [|lia].
  revert H1. repeat case_match; rewrite ?Z.ltb_lt, ?Z.ltb_ge in *; lia.
Qed.
Lemma first_pass_ok es mx c :
  Forall (λ e, 0 <= e.1 ∧ 0 <= e.2) es → edges_ok ((first_pass es mx c).1 + 1) es.
Proof.
  intros Hes. revert mx c. induction Hes as [|[v1 v2] es [? ?] _ IH]; intros mx c; [constructor|]. simpl.
  constructor; [|apply IH]. simpl in *.
  pose proof (proj1 (first_pass_ge es (if (if mx <? v1 then v1 else mx) <? v2 then v2
    else if mx <? v1 then v1 else mx) (c + 1))) as Hge.
  revert Hge. repeat case_match; rewrite ?Z.ltb_lt, ?Z.ltb_ge in *; lia.
Qed.

Section parse.
Context `{Double} (junk : raw) (n : Z).

(** ** The second pass *)

(** After the lines [done]: degrees and growing arrays; the rest is untouched. *)
Record second_inv (g0 : graph) (done : list (Z * Z)) (p : parsing) : Prop := {
  si_graph : put_vertices (vertices g0) (p_graph p) = g0;
  si_lens : len (vertices (p_graph p)) = n ∧ len (p_vs p) = n;
  si_vertex v : 0 <= v < n → ∃ x, idx (vertices (p_graph p)) v = Some x ∧
    num_edges x = len (succ done v) ∧ incoming_rank x = incoming_rank (raw_vertex junk v);
  si_array v : 0 <= v < n → ∃ a, idx (p_vs p) v = Some a ∧ arr_ok a (succ done v) ∧
    size a <= 100 + 2 * len done;
}.

Lemma wp_insert_at i x p a l Q :
  idx (p_vs p) i = Some a → arr_ok a l → size a < 2 ^ 62 →
  (∀ a', arr_ok a' (l ++ [x]) → size a' <= Z.max (size a) (2 * len l) → Q tt (put_vs (upd (p_vs p) i a') p)) →
  wp (insert_at junk i x) p Q.
Proof.
  intros Ha Hok Hsz HQ. unfold insert_at. rewrite wp_bind. eapply wp_aload; [done|].
  pose proof (wp_insertArray (raw_int junk) a l x (λ _ a', arr_ok a' (l ++ [x]) ∧
    size a' <= Z.max (size a) (2 * len l)) Hok Hsz (λ a' H1 H2, conj H1 H2)) as Hwp.
  apply wp_ok in Hwp as ([] & a' & -> & H1 & H2). apply wp_astore; [by eapply idx_Some_range|]. auto.
Qed.

Lemma wp_second_pass es g0 done p :
  second_inv g0 done p → edges_ok n es → len (done ++ es) < INT_MAX →
  wp (second_pass junk es) p (λ _ p', second_inv g0 (done ++ es) p').
Proof.
  revert done p. induction es as [|[v1 v2] es IH]; intros done p Hp Hes Hlen; cbn [second_pass].
  { rewrite wp_ret. by rewrite app_nil_r. }
  apply Forall_cons in Hes as [[Hv1 Hv2] Hes]. destruct Hp as [Hg [Hl1 Hl2] Hv Ha]. simpl in Hv1, Hv2.
  rewrite len_app, len_cons in Hlen. pose proof (len_nonneg es). pose proof (succ_len done v1).
  destruct (Hv v1 Hv1) as (x & Ex & Hx & Hxi). destruct (Ha v1 Hv1) as (a & Ea & Hok & Hsz).
  rewrite wp_bind. unfold on_graph. rewrite wp_zoom. eapply wp_aload; [done|]. rewrite wp_bind.
  apply wp_guard_or; [apply Z.ltb_lt; lia|]. rewrite wp_bind, wp_zoom. apply wp_astore; [simpl; lia|].
  rewrite wp_bind. eapply wp_insert_at; [exact Ea|done|unfold INT_MAX in *; lia|].
  intros a' Hok' Hsz'. replace (done ++ (v1, v2) :: es) with ((done ++ [(v1, v2)]) ++ es) by by rewrite <-app_assoc.
  apply IH; [|done|rewrite !len_app, len_cons, len_nil; lia]. constructor; simpl.
  - destruct p as [g vs]. exact Hg.
  - rewrite !len_upd. done.
  - intros v Hvr. rewrite idx_upd by lia. rewrite succ_snoc. simpl. case_decide; subst.
    + eexists. split; [done|]. simpl. rewrite len_app, Hx, Hxi. done.
    + rewrite app_nil_r. auto.
  - intros v Hvr. rewrite idx_upd by lia. rewrite succ_snoc, len_app, len_cons, len_nil. simpl. case_decide; subst.
    + exists a'. split_and!; [done|done|lia].
    + rewrite app_nil_r. destruct (Ha v Hvr) as (a1 & ? & ? & ?). exists a1. split_and!; [done|done|lia].
Qed.

(** ** The arrays are set *)

Lemma wp_copy_edges a l rest Lk : ∀ j k p Q,
  drop (Z.to_nat j) (array a) = l ++ rest → 0 <= j → k = len Lk →
  k + len l <= len (edges (p_graph p)) → take (length Lk) (edges (p_graph p)) = d_of_int <$> Lk →
  (∀ es', len es' = len (edges (p_graph p)) → take (length (Lk ++ l)) es' = d_of_int <$> (Lk ++ l) →
     Q tt (put_graph (put_edges es' (p_graph p)) p)) →
  wp (copy_edges (length l) a j k) p Q.
Proof.
  revert Lk. induction l as [|x l IH]; intros Lk j k p Q Hdrop Hj Hk Hle Hta HQ; cbn [copy_edges length].
  { rewrite wp_ret. replace p with (put_graph (put_edges (edges (p_graph p)) (p_graph p)) p)
      by (by destruct p as [[] ?]). apply HQ; [done|]. by rewrite app_nil_r. }
  rewrite len_cons in Hle. pose proof (len_nonneg l). pose proof (len_nonneg Lk). rewrite wp_bind.
  apply (wp_aload _ _ _ x).
  { unfold idx. rewrite (proj2 (Z.leb_le _ _)) by lia. rewrite <-(Nat.add_0_r (Z.to_nat j)), <-lookup_drop, Hdrop. done. }
  rewrite wp_bind. unfold on_graph. rewrite wp_zoom. apply wp_astore; [lia|]. simpl.
  apply (IH (Lk ++ [x])); simpl.
  - replace (Z.to_nat (j + 1)) with (Z.to_nat j + 1)%nat by lia. by rewrite <-drop_drop, Hdrop.
  - lia.
  - rewrite len_app, len_cons, len_nil. lia.
  - rewrite len_upd. lia.
  - rewrite fmap_app. simpl. rewrite <-(length_fmap d_of_int), fmap_app.
    subst k. replace (len Lk) with (len (d_of_int <$> Lk)) by (unfold len; by rewrite length_fmap).
    apply take_upd_end; [by rewrite length_fmap|]. rewrite length_fmap. unfold len in *. lia.
  - rewrite len_upd, <-app_assoc. auto.
Qed.

(** The vertices below [i] have their offsets, ranks and targets. *)
Record set_inv (es : list (Z * Z)) (i : Z) (p : parsing) : Prop := {
  se_n : num_vertices (p_graph p) = n;
  se_lens : len (vertices (p_graph p)) = n ∧ len (rank (p_graph p)) = n ∧
    len (edgenorm (p_graph p)) = n ∧ len (edges (p_graph p)) = len es;
  se_array v : 0 <= v < n → ∃ a, idx (p_vs p) v = Some a ∧ arr_ok a (succ es v);
  se_vertex v : 0 <= v < n → ∃ x, idx (vertices (p_graph p)) v = Some x ∧
    num_edges x = len (succ es v) ∧ incoming_rank x = incoming_rank (raw_vertex junk v) ∧
    (v < i → edge_offset x = len (rows es v));
  se_edges : take (length (rows es i)) (edges (p_graph p)) = d_of_int <$> rows es i;
  se_set v : 0 <= v < i → idx (rank (p_graph p)) v = Some (d_of_int 1) ∧
    idx (edgenorm (p_graph p)) v = Some (d_of_int (len (succ es v) + 1));
}.

Lemma wp_set_vertices es k : ∀ i p,
  set_inv es i p → edges_ok n es → 0 <= i → i + Z.of_nat k = n → len es < INT_MAX →
  wp (set_vertices k i (len (rows es i))) p (λ _ p', set_inv es n p').
Proof.
  induction k as [|k IH]; intros i p [Hn (Hl1 & Hl2 & Hl3 & Hl4) Ha Hv He Hs] Hes Hi Hk Hlen; cbn [set_vertices].
  { rewrite wp_ret. assert (i = n) as -> by lia. by constructor. }
  destruct (Hv i ltac:(lia)) as (x & Ex & Hx & Hxi & _). destruct (Ha i ltac:(lia)) as (a & Ea & Hok).
  pose proof (succ_len es i). pose proof (len_nonneg (rows es i)).
  pose proof (rows_mono es (i + 1) n ltac:(lia)) as Hrows.
  rewrite (rows_len n es), rows_S, len_app in Hrows by (done || lia).
  unfold on_graph. rewrite wp_bind, wp_zoom. apply wp_astore; [lia|]. simpl. rewrite wp_bind, wp_zoom.
  eapply wp_aload; [simpl; exact Ex|]. rewrite wp_bind. apply wp_guard_or; [apply Z.ltb_lt; lia|].
  rewrite wp_bind, wp_zoom. apply wp_astore; [simpl; lia|]. rewrite wp_bind, wp_zoom. apply wp_astore; [simpl; lia|].
  rewrite wp_bind. eapply wp_aload; [simpl; exact Ea|]. rewrite wp_bind. destruct Hok as [Hau Has Hal Hat].
  rewrite Hau. replace (Z.to_nat (len (succ es i))) with (length (succ es i)) by (unfold len; lia).
  eapply (wp_copy_edges a (succ es i) (drop (length (succ es i)) (array a)) (rows es i)); simpl; try done; try lia.
  { rewrite <-(take_drop (length (succ es i)) (array a)) at 1. by rewrite Hat. }
  intros es' Hles' Htk. replace (len (rows es i) + len (succ es i)) with (len (rows es (i + 1)))
    by (by rewrite rows_S, len_app by lia).
  apply IH; [|done|lia|lia|done]. constructor; simpl; [done|by rewrite !len_upd, Hles'| | | |].
  - intros v Hvr. destruct (Ha v Hvr) as (a1 & ? & ?). eauto.
  - intros v Hvr. rewrite idx_upd by lia. case_decide; subst.
    + eexists. split; [done|]. by split_and!.
    + destruct (Hv v Hvr) as (y & ? & ? & ? & ?). exists y. split_and!; [done..|]. intros. auto with lia.
  - by rewrite rows_S by lia.
  - intros v Hvr. rewrite !idx_upd by lia. case_decide; subst; [by rewrite Hx|]. apply Hs. lia.
Qed.
End parse.

(** ** The graph in the arrays *)

Section ranks.
Context `{Double}.

(** The arrays hold the edges [es] on [n] vertices, incoming ranks [inc] and
    ranks [r]. *)
Record graph_ok (n : Z) (es : list (Z * Z)) (inc r : Z → double) (g : graph) : Prop := {
  go_n : num_vertices g = n;
  go_lens : len (vertices g) = n ∧ len (rank g) = n;
  go_vertex v : 0 <= v < n → ∃ x, idx (vertices g) v = Some x ∧
    num_edges x = len (succ es v) ∧ incoming_rank x = inc v ∧
    ∀ t y, idx (succ es v) t = Some y → idx (edges g) (edge_offset x + t) = Some (d_of_int y);
  go_rank v : 0 <= v < n → idx (rank g) v = Some (r v) ∧
    idx (edgenorm g) v = Some (d_of_int (len (succ es v) + 1));
}.

Lemma rows_at es v n t y :
  0 <= v < n → idx (succ es v) t = Some y → idx (rows es n) (len (rows es v) + t) = Some y.
Proof.
  intros Hv Ht. pose proof (idx_Some_range _ _ _ Ht). pose proof (len_nonneg (rows es v)).
  replace n with (v + 1 + (n - (v + 1))) by lia. unfold rows at 1. rewrite seqZ_app, map_app, concat_app by lia.
  fold (rows es (v + 1)). rewrite rows_S by lia. rewrite idx_app, decide_True by (rewrite ?len_app; lia).
  rewrite idx_app, decide_False by lia. by replace (len (rows es v) + t - len (rows es v)) with t by lia.
Qed.
Lemma idx_fmap {A B} (f : A → B) l i : idx (f <$> l) i = f <$> idx l i.
Proof. unfold idx. case_match; [|done]. by rewrite list_lookup_fmap. Qed.

Lemma idx_cons_S {A} (x : A) l t : 0 <= t → idx (x :: l) (1 + t) = idx l t.
Proof.
  intros. unfold idx. rewrite !(proj2 (Z.leb_le _ _)) by lia.
  by replace (Z.to_nat (1 + t)) with (S (Z.to_nat t)) by lia.
Qed.

Lemma set_inv_graph (junk : raw) n es p :
  set_inv junk n es n p → edges_ok n es → 0 <= n →
  graph_ok n es (λ v, incoming_rank (raw_vertex junk v)) (λ _, d_of_int 1) (p_graph p).
Proof.
  intros [Hn (Hl1 & Hl2 & _ & Hl4) _ Hv He Hs] Hes Hn0. constructor; [done|done| |done].
  intros v Hvr. destruct (Hv v Hvr) as (x & Ex & Hx & Hxi & Ho). exists x. split_and!; [done..|].
  intros t y Ht. rewrite Ho by lia. pose proof (rows_at es v n t y Hvr Ht) as Hr.
  pose proof (idx_Some_range _ _ _ Hr) as Hrange.
  assert (take (length (rows es n)) (edges (p_graph p)) = edges (p_graph p)) as Hall.
  { apply take_ge. pose proof (rows_len n es Hn0 Hes). unfold len in *. lia. }
  rewrite <-Hall, He, idx_fmap, Hr. done.
Qed.

Definition nverts (es : list (Z * Z)) : Z := (first_pass es 0 0).1 + 1.

(** What the file must be for the counters to fit an [int]. *)
Record file_ok (es : list (Z * Z)) : Prop := {
  fo_nonneg : Forall (λ e, 0 <= e.1 ∧ 0 <= e.2) es;
  fo_verts : nverts es <= INT_MAX;
  fo_edges : len es < INT_MAX;
}.

Lemma parse_file_ok (junk : raw) es :
  file_ok es → (∀ v, num_edges (raw_vertex junk v) = 0) →
  ∃ g, parse_file junk es = Ok g tt ∧
    graph_ok (nverts es) es (λ v, incoming_rank (raw_vertex junk v)) (λ _, d_of_int 1) g.
Proof.
  intros [Hnn Hnv Hne] Hz. unfold parse_file, nverts in *. pose proof (first_pass_ge es 0 0) as [Hge Hcnt].
  pose proof (first_pass_ok es 0 0 Hnn) as Hes. destruct (first_pass es 0 0) as [mx count] eqn:Efp. simpl in *.
  rewrite Z.add_0_l in Hcnt. subst count. rewrite (proj2 (Z.leb_gt _ _)), (proj2 (Z.ltb_ge _ _)) by lia. simpl.
  set (n := mx + 1) in *. set (p0 := MkParsing _ _).
  assert (∀ A (f : Z → A) k, 0 <= k → len (map f (seqZ 0 k)) = k) as Hmap.
  { intros A f k Hk. unfold len. rewrite length_map, length_seqZ. lia. }
  assert (∀ A (f : Z → A) k v, 0 <= v < k → idx (map f (seqZ 0 k)) v = Some (f v)) as Hidx.
  { intros A f k v Hv. unfold idx. rewrite (proj2 (Z.leb_le _ _)) by lia.
    rewrite list_lookup_fmap, lookup_seqZ_lt by lia. simpl. do 2 f_equal. lia. }
  assert (second_inv junk n (malloc_graph junk n (len es)) [] p0) as H0.
  { constructor; simpl; [done|by rewrite Hmap, len_replicate by lia| |].
    - intros v Hv. rewrite Hidx by done. eexists. split; [done|]. split; [|done]. rewrite Hz. reflexivity.
    - intros v Hv. rewrite idx_replicate by lia. eexists. split; [done|].
      split; [by apply initArray_ok|]. done. }
  assert (wp (second_pass junk es;; set_vertices (Z.to_nat n) 0 0) p0 (λ _ p, set_inv junk n es n p)) as Hwp.
  { rewrite wp_bind. eapply wp_mono; [apply (wp_second_pass junk n es _ [] p0 H0 Hes Hne)|].
    intros _ p [Hg [Hl1 Hl2] Hv Ha]. simpl in *.
    change (set_vertices (Z.to_nat n) 0 0) with (set_vertices (Z.to_nat n) 0 (len (rows es 0))).
    apply wp_set_vertices; [|done|lia|lia|done].
    pose proof (f_equal num_vertices Hg) as E1. pose proof (f_equal rank Hg) as E2.
    pose proof (f_equal edgenorm Hg) as E3. pose proof (f_equal edges Hg) as E4. simpl in *.
    pose proof (len_nonneg es).
    constructor; [done|split_and!; rewrite ?E2, ?E3, ?E4, ?Hmap; lia| | |done|lia].
    - intros v Hvr. destruct (Ha v Hvr) as (a & ? & ? & _). eauto.
    - intros v Hvr. destruct (Hv v Hvr) as (x & ? & ? & ?). exists x. split_and!; [done..|lia]. }
  apply wp_ok in Hwp as ([] & p & -> & Hp). exists (p_graph p). split; [done|].
  apply set_inv_graph; [done|done|lia].
Qed.

(** ** The rounds *)

(** How often [v] is a target, and adding [o] that often. *)
Definition mult (ts : list Z) (v : Z) : nat := length (filter (λ t, t = v) ts).
Definition plus_times (k : nat) (o acc : double) : double := Nat.iter k (λ x, d_add x o) acc.
(** What a vertex gives along each of its edges. *)
Definition share (es : list (Z * Z)) (r : Z → double) (j : Z) : double :=
  d_div (r j) (d_of_int (len (succ es j) + 1)).
(** What [v] has when the vertices below [n] have given their shares. *)
Definition in_rank (es : list (Z * Z)) (n : Z) (r inc : Z → double) (v : Z) : double :=
  fold_left (λ acc j, plus_times (mult (succ es j) v) (share es r j) acc) (seqZ 0 n) (inc v).
Fixpoint ref_ranks (k : nat) (es : list (Z * Z)) (n : Z) (alpha d : double) (inc r : Z → double) : Z → double :=
  match k with
  | O => r
  | S k =>
      let inc := in_rank es n r inc in
      ref_ranks k es n alpha d inc (λ v, d_add alpha (d_mul d (inc v)))
  end.

Lemma graph_ok_ext n es inc inc' r g :
  (∀ v, 0 <= v < n → inc' v = inc v) → graph_ok n es inc r g → graph_ok n es inc' r g.
Proof.
  intros E [? ? Hv ?]. constructor; [done|done| |done]. intros v Hvr.
  destruct (Hv v Hvr) as (x & ? & ? & ? & ?). exists x. rewrite E by done. done.
Qed.

Lemma wp_push_rank n es r o ts : ∀ inc g off k,
  graph_ok n es inc r g → Forall (λ t, 0 <= t < n) ts → n <= INT_MAX →
  (∀ t y, idx ts t = Some y → idx (edges g) (off + (k + t)) = Some (d_of_int y)) →
  wp (push_rank (length ts) off k o) g (λ _ g',
    graph_ok n es (λ v, plus_times (mult ts v) o (inc v)) r g').
Proof.
  induction ts as [|t ts IH]; intros inc g off k Hg Hts Hn He; cbn [push_rank length].
  { by rewrite wp_ret. }
  apply Forall_cons in Hts as [Ht Hts]. rewrite wp_bind. apply (wp_aload _ _ _ (d_of_int t)).
  { rewrite <-(Z.add_0_r k). by apply He. }
  rewrite d_int_exact by (unfold INT_MAX in *; lia). pose proof Hg as [Hgn [Hl1 Hl2] Hv Hr].
  destruct (Hv t Ht) as (x & Ex & Hx & Hxi & Hxe). rewrite wp_bind. eapply wp_aload; [done|].
  rewrite wp_bind. apply wp_astore; [lia|].
  eapply wp_mono; [apply (IH (λ v, if decide (v = t) then d_add (inc v) o else inc v)); [|done|done|]|].
  - constructor; simpl; [done|by rewrite len_upd| |done]. intros v Hvr. rewrite idx_upd by lia.
    destruct (decide (t = v)) as [->|Hne].
    + rewrite decide_True by done. eexists. split; [done|]. simpl. by rewrite Hxi.
    + rewrite decide_False by done. auto.
  - intros t' y Hy. simpl. rewrite <-Z.add_assoc. apply He. pose proof (idx_Some_range _ _ _ Hy).
    by rewrite idx_cons_S by lia.
  - intros [] g' Hg'. eapply graph_ok_ext; [|exact Hg']. intros v Hvr. cbv beta. unfold mult, plus_times.
    rewrite filter_cons. destruct (decide (t = v)) as [->|Hne].
    + rewrite decide_True by done. cbn [length]. by rewrite Nat.iter_succ_r.
    + by rewrite decide_False.
Qed.

Lemma wp_send_ranks n es inc r g :
  graph_ok n es inc r g → edges_ok n es → 0 <= n <= INT_MAX →
  wp send_ranks g (λ _ g', graph_ok n es (in_rank es n r inc) r g').
Proof.
  intros Hg Hes Hn. unfold send_ranks. rewrite wp_bind, wp_gets, (go_n _ _ _ _ _ Hg).
  apply (wp_for_range (λ j g, graph_ok n es (in_rank es j r inc) r g)); [lia|done| |done].
  intros j g' Hj Hg'. destruct (go_rank _ _ _ _ _ Hg' j Hj) as [Er Ee].
  destruct (go_vertex _ _ _ _ _ Hg' j Hj) as (x & Ex & Hx & Hxi & Hxe).
  rewrite wp_bind. eapply wp_aload; [done|]. rewrite wp_bind. eapply wp_aload; [done|].
  rewrite wp_bind. eapply wp_aload; [done|]. rewrite Hx.
  replace (Z.to_nat (len (succ es j))) with (length (succ es j)) by (unfold len; lia).
  eapply wp_mono; [apply (wp_push_rank n es r); [done|by apply succ_ok|lia|done]|].
  intros [] g2 Hg2. eapply graph_ok_ext; [|exact Hg2]. intros v Hvr. cbv beta. unfold in_rank.
  rewrite seqZ_app by lia. rewrite fold_left_app. done.
Qed.

Lemma wp_update_ranks n es inc r alpha d g :
  graph_ok n es inc r g → 0 <= n →
  wp (update_ranks alpha d) g (λ _ g', graph_ok n es inc (λ v, d_add alpha (d_mul d (inc v))) g').
Proof.
  intros Hg Hn. unfold update_ranks. rewrite wp_bind, wp_gets, (go_n _ _ _ _ _ Hg).
  apply (wp_for_range (λ j g, graph_ok n es inc (λ v, if decide (v < j) then d_add alpha (d_mul d (inc v)) else r v) g)); [lia| | |].
  - destruct Hg as [? ? ? Hr]. constructor; try done. intros v Hv. rewrite decide_False by lia. auto.
  - intros j g' Hj [Hgn [Hl1 Hl2] Hv Hr]. destruct (Hv j Hj) as (x & Ex & Hx & Hxi & Hxe).
    rewrite wp_bind. eapply wp_aload; [done|]. apply wp_astore; [lia|].
    constructor; simpl; [done|by rewrite len_upd|done|]. intros v Hvr. destruct (Hr v Hvr) as [Er Ee].
    split; [|done]. rewrite idx_upd by lia. destruct (decide (j = v)) as [->|Hne].
    + rewrite decide_True by lia. by rewrite Hxi.
    + rewrite Er. repeat case_decide; try done; lia.
  - intros g' [? ? ? Hr]. constructor; try done. intros v Hv. destruct (Hr v Hv) as [-> ?].
    by rewrite decide_True by lia.
Qed.

Lemma wp_rounds n es alpha d k : ∀ i inc r g,
  graph_ok n es inc r g → edges_ok n es → 0 <= n <= INT_MAX →
  wp (for_nat k i (λ _, send_ranks;; update_ranks alpha d)) g (λ _ g',
    len (rank g') = n ∧ ∀ v, 0 <= v < n → idx (rank g') v = Some (ref_ranks k es n alpha d inc r v)).
Proof.
  induction k as [|k IH]; intros i inc r g Hg Hes Hn; cbn [for_nat ref_ranks].
  { rewrite wp_ret. split; [apply Hg|]. intros v Hv. by destruct (go_rank _ _ _ _ _ Hg v Hv) as [? _]. }
  rewrite wp_bind, wp_bind. eapply wp_mono; [by apply wp_send_ranks|]. intros [] g1 Hg1.
  eapply wp_mono; [eapply wp_update_ranks; [exact Hg1|lia]|]. intros [] g2 Hg2. by apply IH.
Qed.
End ranks.

Section theorems.
Context `{Double}.


End theorems.

(** ** Rational numbers for [double] *)

#[export] Program Instance rational : Double := {|
  double := Q; d_of_int := inject_Z; d_to_int x := Qnum x ÷ Zpos (Qden x);
  d_add x y := Qred (Qplus x y); d_sub x y := Qred (Qminus x y);
  d_mul x y := Qred (Qmult x y); d_div x y := Qred (Qdiv x y) |}.
Next Obligation. intros z _. apply Z.quot_1_r. Qed.

Definition zeroed : raw := MkRaw (λ _, 0) (λ _, inject_Z 0) (λ _, MkVertex (inject_Z 0) 0 0).
(** The graph with the edges 0 -> 1, 0 -> 2, 2 -> 0, 0 -> 1. *)
Definition small_file : list (Z * Z) := [(0, 1); (0, 2); (2, 0); (0, 1)].
Lemma small_file_ok : file_ok small_file.
Proof. constructor; [repeat constructor; simpl; lia|done|done]. Defined.



(** The incoming ranks of the first round are counted again in the second: on
    the cycle 0 -> 1 -> 0 the ranks after one and two rounds with [d = 1] are
    1/2 and 3/4; with a reset between the rounds they would be 1/2 and 1/4. *)
Example incoming_rank_accumulates :
  (main zeroed [(0, 1); (1, 0)] 1 (inject_Z 1), main zeroed [(0, 1); (1, 0)] 2 (inject_Z 1))
  = (Ok [1 # 2; 1 # 2]%Q tt, Ok [3 # 4; 3 # 4]%Q tt).
Proof. vm_compute. reflexivity. Qed.
